(** * Quiz engine and progress tracker of the e-learning platform

    A shallow embedding of the request handlers of [Backend/server.js]
    (content authoring, enrolment, content completion, quiz submission), of
    the progress computation of [src/App.js] and of the constraints of the
    SQL schema, followed by the properties of the quiz and progress core.

    Modelling conventions.
    - JSON values that reach the handlers are the type [json].  A number
      [JNumber q] is the Number that [JSON.parse] yields for a numeral of
      value [q], that is [q] rounded to binary64; [JNum z] is the numeral of
      an integer.  A string is given by the bytes of its UTF-8 encoding.
    - A JavaScript Number is [NaN], an infinity, or the exact rational value
      of a finite binary64 number; the two zeros are not distinguished.
      Division, multiplication and [parseInt] round to the nearest Number,
      ties to even, and [Number::toString] prints the shortest digits that
      denote the Number.
    - A thrown JavaScript exception is the [Throw] case of [result].
    - The store is a record of tables (lists of rows, in insertion order);
      the surrogate [id] of enrolments, progress rows and attempts is left
      out, and a [quiz_data] column is kept as the JSON value its text
      denotes.  A statement sent to the database may fail: the unique keys
      and the foreign keys of the schema are checked by the inserts, the
      conversion to [decimal(5,2)] follows the SQL mode of the server, and
      any other failure of the storage layer (lost connection, exhausted
      pool) is drawn from a fault schedule carried by the connection state.
      A rollback returns to the state at the beginning of the transaction.
    - Uploaded files on disk are not modelled. *)

From Stdlib Require Import List ZArith QArith Qround Qreduction Qabs Qpower.
From Stdlib Require Import Bool Arith Lia Lqa.
From Stdlib Require Import Permutation Sorted.
From Stdlib Require Import Ascii String.
From Stdlib Require Import Decimal Hexadecimal DecimalString DecimalN HexadecimalN.
Import ListNotations.

Local Close Scope Q_scope.
Local Open Scope list_scope.
Local Open Scope string_scope.

(** ** JavaScript values *)

#[warnings="-register-all"]
Inductive json : Type :=
| JNull
| JBool (b : bool)
| JNumber (q : Q)
| JStr (s : string)
| JArr (items : list json)
| JObj (fields : list (string * json)).

(** The numeral of an integer. *)
Definition JNum (z : Z) : json := JNumber (inject_Z z).

(** A JavaScript value is a JSON value or [undefined] ([None]). *)
Definition value : Type := option json.
Definition undefined : value := None.

Inductive number : Type :=
| NaN
| Infinity
| NegInfinity
| Num (q : Q).

Inductive exn : Type :=
| TypeError
| SyntaxError
| Error (msg : string)
| SqlError (msg : string).

Inductive result (A : Type) : Type :=
| Ok (a : A)
| Throw (e : exn).

Arguments Ok {A} a.
Arguments Throw {A} e.

Definition rbind {A B : Type} (r : result A) (k : A -> result B) : result B :=
  match r with
  | Ok a => k a
  | Throw e => Throw e
  end.

(** ** Numbers: binary64 with rounding to nearest *)

(** [2^k] and [10^k] for an integer [k] of any sign. *)
Definition pow2 (k : Z) : Q := Qpower (2 # 1) k.
Definition pow10Q (k : Z) : Q := Qpower (10 # 1) k.

(** [floor (log2 a)] for a positive rational. *)
Definition floor_log2 (a : Q) : Z :=
  let e0 := (Z.log2 (Qnum a) - Z.log2 (Zpos (Qden a)))%Z in
  if Qle_bool (pow2 e0) a then e0 else (e0 - 1)%Z.

(** Rounding to the nearest integer, a tie going to the even one. *)
Definition rne (x : Q) : Z :=
  let f := Qfloor x in
  match Qcompare (x - inject_Z f) (1 # 2) with
  | Lt => f
  | Gt => (f + 1)%Z
  | Eq => if Z.even f then f else (f + 1)%Z
  end.

(** The exponent of the unit in the last place of the binary64 numbers
    around a positive [a]: 53 significant bits, least exponent -1074. *)
Definition ulp_exp (a : Q) : Z := Z.max (floor_log2 a - 52) (-1074).

(** A positive rational rounded to 53 significant bits (the exponent is
    not yet bounded above). *)
Definition round_pos (a : Q) : Q :=
  (inject_Z (rne (a / pow2 (ulp_exp a))) * pow2 (ulp_exp a))%Q.

(** The Number nearest to a rational: IEEE 754 binary64, round to nearest,
    ties to even, overflow to an infinity. *)
Definition fl (q : Q) : number :=
  match Qcompare q 0 with
  | Eq => Num 0
  | Gt => let r := round_pos q in
          if Qle_bool (pow2 1024) r then Infinity else Num (Qred r)
  | Lt => let r := round_pos (- q) in
          if Qle_bool (pow2 1024) r then NegInfinity else Num (Qred (- r))
  end.

(** [x === y] on Numbers. *)
Definition number_eq (x y : number) : bool :=
  match x, y with
  | Num a, Num b => Qeq_bool a b
  | Infinity, Infinity => true
  | NegInfinity, NegInfinity => true
  | _, _ => false
  end.

(** Own-property lookup in an object parsed from JSON. *)
Fixpoint lookup (name : string) (fields : list (string * json)) : value :=
  match fields with
  | [] => undefined
  | (k, v) :: rest => if String.eqb k name then Some v else lookup name rest
  end.

(** [v.name] for a property name that no built-in prototype defines:
    reading it from [undefined] or [null] throws, from an object it is its
    own property, from any other value it is [undefined]. *)
Definition get_prop (v : value) (name : string) : result value :=
  match v with
  | None => Throw TypeError
  | Some JNull => Throw TypeError
  | Some (JObj fields) => Ok (lookup name fields)
  | Some _ => Ok undefined
  end.

(** ToBoolean. *)
Definition truthy (v : value) : bool :=
  match v with
  | None => false
  | Some JNull => false
  | Some (JBool b) => b
  | Some (JNumber q) => negb (number_eq (fl q) (Num 0))
  | Some (JStr s) => negb (String.eqb s "")
  | Some (JArr _) => true
  | Some (JObj _) => true
  end.


(** ** Number::toString *)

(** The decimal exponent [n] of a positive rational:
    [10^(n-1) <= a < 10^n]. *)
Fixpoint dec_exp_up (fuel : nat) (a : Q) (n : Z) : Z :=
  match fuel with
  | O => n
  | S fuel' => if Qle_bool (pow10Q n) a then dec_exp_up fuel' a (n + 1)%Z else n
  end.

Fixpoint dec_exp_down (fuel : nat) (a : Q) (n : Z) : Z :=
  match fuel with
  | O => n
  | S fuel' =>
      if Qle_bool (pow10Q (n - 1)) a then n else dec_exp_down fuel' a (n - 1)%Z
  end.

Definition dec_exp (a : Q) : Z :=
  if Qle_bool 1 a then dec_exp_up 400 a 1 else dec_exp_down 400 a 0.

(** [s * 10^(n-k)]: the value of the [k] digits [s] with the decimal point
    after the [n]-th digit. *)
Definition digits_value (k s n : Z) : Q := (inject_Z s * pow10Q (n - k))%Q.

(** The digits denote the Number [a]: their value rounds to it. *)
Definition denotes (a : Q) (k s n : Z) : bool :=
  Qeq_bool (round_pos (digits_value k s n)) a.

(** The [k]-digit numerals next to [a], below and above it, and among
    those that denote [a] the nearest one (the even one at equal distance).
    No other [k]-digit numeral can denote [a] when these two do not. *)
Definition try_digits (a : Q) (n0 k : Z) : option (Z * Z) :=
  let scale := pow10Q (n0 - k) in
  let lo := Qfloor (a / scale) in
  let hi := (lo + 1)%Z in
  let carry := (hi =? 10 ^ k)%Z in
  let hi_s := if carry then (10 ^ (k - 1))%Z else hi in
  let hi_n := if carry then (n0 + 1)%Z else n0 in
  match denotes a k lo n0, denotes a k hi_s hi_n with
  | true, false => Some (lo, n0)
  | false, true => Some (hi_s, hi_n)
  | false, false => None
  | true, true =>
      match Qcompare (a - inject_Z lo * scale) (inject_Z hi * scale - a) with
      | Lt => Some (lo, n0)
      | Gt => Some (hi_s, hi_n)
      | Eq => if Z.even lo then Some (lo, n0) else Some (hi_s, hi_n)
      end
  end.

(** The least number [k] of digits that denote [a], with the digits [s]
    and the position [n] of the point.  Seventeen digits denote any
    Number; the search goes a little further. *)
Fixpoint shortest_digits (fuel : nat) (a : Q) (n0 k : Z) : Z * Z * Z :=
  match fuel with
  | O => (k, Qfloor (a / pow10Q (n0 - k)), n0)
  | S fuel' =>
      match try_digits a n0 k with
      | Some (s, n) => (k, s, n)
      | None => shortest_digits fuel' a n0 (k + 1)%Z
      end
  end.

Definition digits_string (s : Z) : string :=
  NilZero.string_of_uint (N.to_uint (Z.to_N s)).

Fixpoint zeros (n : nat) : string :=
  match n with
  | O => ""
  | S n' => "0" ++ zeros n'
  end.

(** The text of a positive Number from its shortest digits.  In the first
    case the [k] digits followed by [n - k] zeros are written as the
    numeral of [s * 10^(n-k)], which is the same text. *)
Definition format_digits (k s n : Z) : string :=
  let d := digits_string s in
  if ((k <=? n) && (n <=? 21))%Z then
    digits_string (s * 10 ^ (n - k))
  else if ((0 <? n) && (n <=? 21))%Z then
    substring 0 (Z.to_nat n) d ++ "."
      ++ substring (Z.to_nat n) (Z.to_nat (k - n)) d
  else if ((-6 <? n) && (n <=? 0))%Z then
    "0." ++ zeros (Z.to_nat (- n)) ++ d
  else
    let e := (n - 1)%Z in
    let exponent := (if (e <? 0)%Z then "-" else "+") ++ digits_string (Z.abs e) in
    if (k =? 1)%Z then d ++ "e" ++ exponent
    else substring 0 1 d ++ "." ++ substring 1 (Z.to_nat (k - 1)) d
           ++ "e" ++ exponent.

Definition positive_toString (a : Q) : string :=
  let '(k, s, n) := shortest_digits 21 a (dec_exp a) 1 in
  format_digits k s n.

Definition Number_toString (x : number) : string :=
  match x with
  | NaN => "NaN"
  | Infinity => "Infinity"
  | NegInfinity => "-Infinity"
  | Num q =>
      match Qcompare q 0 with
      | Eq => "0"
      | Gt => positive_toString q
      | Lt => "-" ++ positive_toString (- q)
      end
  end.

(** ToString of a JSON value.  An array joins its elements with commas,
    [null] elements printing as the empty string; an object prints as
    [[object Object]] unless an own [toString] property (never callable in
    parsed JSON) hides the inherited method, in which case the conversion
    throws. *)
Fixpoint ToString (v : json) : result string :=
  match v with
  | JNull => Ok "null"
  | JBool true => Ok "true"
  | JBool false => Ok "false"
  | JNumber q => Ok (Number_toString (fl q))
  | JStr s => Ok s
  | JArr items =>
      (fix join (l : list json) : result string :=
         match l with
         | [] => Ok ""
         | x :: rest =>
             rbind (match x with JNull => Ok "" | _ => ToString x end)
               (fun sx =>
                  match rest with
                  | [] => Ok sx
                  | _ :: _ => rbind (join rest) (fun sr => Ok (sx ++ "," ++ sr))
                  end)
         end) items
  | JObj fields =>
      match lookup "toString" fields with
      | Some _ => Throw TypeError
      | None => Ok "[object Object]"
      end
  end.

(** *** parseInt *)

(** A string is given by the bytes of its UTF-8 encoding.  The white
    space and line terminator code points that [parseInt] skips are TAB,
    LF, VT, FF, CR and SP, of one byte; U+00A0, of two; and U+1680, U+2000
    to U+200A, U+2028, U+2029, U+202F, U+205F, U+3000 and U+FEFF, of
    three. *)
Definition is_white_space (c : ascii) : bool :=
  let n := nat_of_ascii c in
  ((9 <=? n)%nat && (n <=? 13)%nat) || (n =? 32)%nat.

Definition is_white_space2 (a b : ascii) : bool :=
  (nat_of_ascii a =? 194)%nat && (nat_of_ascii b =? 160)%nat.

Definition is_white_space3 (a b c : ascii) : bool :=
  let x := nat_of_ascii a in
  let y := nat_of_ascii b in
  let z := nat_of_ascii c in
  ((x =? 225) && (y =? 154) && (z =? 128))%nat
  || ((x =? 226) && (y =? 128)
      && (((128 <=? z) && (z <=? 138)) || (z =? 168) || (z =? 169) || (z =? 175)))%nat
  || ((x =? 226) && (y =? 129) && (z =? 159))%nat
  || ((x =? 227) && (y =? 128) && (z =? 128))%nat
  || ((x =? 239) && (y =? 187) && (z =? 191))%nat.

Fixpoint trim_start (s : string) : string :=
  match s with
  | String a rest =>
      if is_white_space a then trim_start rest
      else
        match rest with
        | String b rest2 =>
            if is_white_space2 a b then trim_start rest2
            else
              match rest2 with
              | String c rest3 =>
                  if is_white_space3 a b c then trim_start rest3 else s
              | EmptyString => s
              end
        | EmptyString => s
        end
  | EmptyString => s
  end.

Definition dec_digit (c : ascii) : option (Decimal.uint -> Decimal.uint) :=
  match c with
  | "0"%char => Some Decimal.D0
  | "1"%char => Some Decimal.D1
  | "2"%char => Some Decimal.D2
  | "3"%char => Some Decimal.D3
  | "4"%char => Some Decimal.D4
  | "5"%char => Some Decimal.D5
  | "6"%char => Some Decimal.D6
  | "7"%char => Some Decimal.D7
  | "8"%char => Some Decimal.D8
  | "9"%char => Some Decimal.D9
  | _ => None
  end.

Definition hex_digit (c : ascii) : option (Hexadecimal.uint -> Hexadecimal.uint) :=
  match c with
  | "0"%char => Some Hexadecimal.D0
  | "1"%char => Some Hexadecimal.D1
  | "2"%char => Some Hexadecimal.D2
  | "3"%char => Some Hexadecimal.D3
  | "4"%char => Some Hexadecimal.D4
  | "5"%char => Some Hexadecimal.D5
  | "6"%char => Some Hexadecimal.D6
  | "7"%char => Some Hexadecimal.D7
  | "8"%char => Some Hexadecimal.D8
  | "9"%char => Some Hexadecimal.D9
  | "a"%char | "A"%char => Some Hexadecimal.Da
  | "b"%char | "B"%char => Some Hexadecimal.Db
  | "c"%char | "C"%char => Some Hexadecimal.Dc
  | "d"%char | "D"%char => Some Hexadecimal.Dd
  | "e"%char | "E"%char => Some Hexadecimal.De
  | "f"%char | "F"%char => Some Hexadecimal.Df
  | _ => None
  end.

(** The longest prefix of digits of the radix, as a numeral. *)
Fixpoint scan_dec (s : string) : Decimal.uint :=
  match s with
  | EmptyString => Decimal.Nil
  | String c rest =>
      match dec_digit c with
      | Some d => d (scan_dec rest)
      | None => Decimal.Nil
      end
  end.

Fixpoint scan_hex (s : string) : Hexadecimal.uint :=
  match s with
  | EmptyString => Hexadecimal.Nil
  | String c rest =>
      match hex_digit c with
      | Some d => d (scan_hex rest)
      | None => Hexadecimal.Nil
      end
  end.

(** The Number of an integer. *)
Definition int_number (z : Z) : number := fl (inject_Z z).

(** parseInt of a string, no radix argument: leading white space is
    skipped, a sign is read, a [0x] prefix selects radix 16, and the longest
    prefix of digits is the result, rounded to a Number; [NaN] when there
    is no digit. *)
Definition split_sign (s : string) : bool * string :=
  match s with
  | String "-"%char rest => (true, rest)
  | String "+"%char rest => (false, rest)
  | _ => (false, s)
  end.

Definition magnitude (s : string) : option N :=
  match s with
  | String "0"%char (String ("x"%char | "X"%char) rest) =>
      match scan_hex rest with
      | Hexadecimal.Nil => None
      | d => Some (N.of_hex_uint d)
      end
  | _ =>
      match scan_dec s with
      | Decimal.Nil => None
      | d => Some (N.of_uint d)
      end
  end.

Definition parseInt_string (s : string) : number :=
  let '(negative, digits) := split_sign (trim_start s) in
  match magnitude digits with
  | None => NaN
  | Some n => int_number (if negative then (- Z.of_N n)%Z else Z.of_N n)
  end.

(** [parseInt(v)]: the argument is first converted to a string;
    [undefined] prints as ["undefined"]. *)
Definition parseInt (v : value) : result number :=
  match v with
  | None => Ok NaN
  | Some j => rbind (ToString j) (fun s => Ok (parseInt_string s))
  end.

(** [x === v] for a number [x] and a JSON value or [undefined]. *)
Definition number_strict_eq (x : number) (v : value) : bool :=
  match v with
  | Some (JNumber k) => number_eq x (fl k)
  | _ => false
  end.

(** ** Score arithmetic *)

(** [a / b] for two counters.  The counters are lengths of arrays and
    counts of their elements, so they are Numbers. *)
Definition number_div (a b : nat) : number :=
  match b with
  | O => match a with O => NaN | S _ => Infinity end
  | S _ => fl (Z.of_nat a # Pos.of_nat b)
  end.

(** [x * k] for a positive integer constant [k]. *)
Definition number_mul (x : number) (k : positive) : number :=
  match x with
  | NaN => NaN
  | Infinity => Infinity
  | NegInfinity => NegInfinity
  | Num q => fl (q * (Zpos k # 1))
  end.

(** The text produced by [toFixed(f)], for [f] up to 100: a decimal numeral
    with exactly [f] fraction digits, given by its value scaled by [10^f]
    ([-0.00] when a negative Number rounds to zero); the text of
    [Number::toString] for a Number that is not finite or of magnitude
    [10^21] or more.  The Number is rounded at its exact value, a tie
    going to the larger magnitude. *)
Inductive fixed_text : Type :=
| TextNaN
| TextInfinity
| TextNegInfinity
| TextLarge (q : Q)
| TextNegZero (fraction_digits : nat)
| TextDec (fraction_digits : nat) (scaled : Z).

Definition round_half_away (q : Q) : Z :=
  if Qle_bool 0%Q q
  then Qfloor (q + (1 # 2))%Q
  else (- Qfloor (- q + (1 # 2))%Q)%Z.

Fixpoint pow10 (f : nat) : positive :=
  match f with
  | O => 1%positive
  | S f' => (10 * pow10 f')%positive
  end.

Definition scale10 (f : nat) (q : Q) : Q := (q * (Zpos (pow10 f) # 1))%Q.

Definition toFixed (x : number) (f : nat) : fixed_text :=
  match x with
  | NaN => TextNaN
  | Infinity => TextInfinity
  | NegInfinity => TextNegInfinity
  | Num q =>
      if Qle_bool (pow10Q 21) (Qabs q) then TextLarge q
      else
        let n := round_half_away (scale10 f q) in
        if (n =? 0)%Z && negb (Qle_bool 0%Q q) then TextNegZero f
        else TextDec f n
  end.

Definition digits_of (n : N) : string :=
  NilZero.string_of_uint (N.to_uint n).

Fixpoint pad_zeros (width : nat) (s : string) : string :=
  match width with
  | O => s
  | S w => if (String.length s <? width)%nat then pad_zeros w ("0" ++ s) else s
  end.

Definition decimal_string (negative : bool) (f : nat) (m : N) : string :=
  let sign := if negative then "-" else "" in
  match f with
  | O => sign ++ digits_of m
  | S _ =>
      sign ++ digits_of (N.div m (Npos (pow10 f)))
        ++ "." ++ pad_zeros f (digits_of (N.modulo m (Npos (pow10 f))))
  end.

Definition fixed_text_string (t : fixed_text) : string :=
  match t with
  | TextNaN => "NaN"
  | TextInfinity => "Infinity"
  | TextNegInfinity => "-Infinity"
  | TextLarge q => Number_toString (Num q)
  | TextNegZero f => decimal_string true f 0
  | TextDec f n => decimal_string (Z.ltb n 0%Z) f (Z.to_N (Z.abs n))
  end.

(** ** Grading (the loop of the submit handler) *)

(** One iteration of the loop: [true] when [correctAnswers] is
    incremented.  [q] is [quiz_data[i]], [a] is [answers[i]]. *)
Definition grade_question (q a : value) : result bool :=
  if truthy q then
    rbind (get_prop q "correct_answer_index") (fun c =>
      match c, a with
      | Some _, Some _ =>
          rbind (parseInt a) (fun p => Ok (number_strict_eq p c))
      | _, _ => Ok false
      end)
  else Ok false.

(** [grade_loop n i ...] runs the iterations [i], [i+1], ..., [i+n-1]. *)
Fixpoint grade_loop (n i : nat) (quiz_data answers : list json)
    (correctAnswers : nat) : result nat :=
  match n with
  | O => Ok correctAnswers
  | S n' =>
      rbind (grade_question (nth_error quiz_data i) (nth_error answers i))
        (fun hit =>
           grade_loop n' (S i) quiz_data answers
             (if hit then S correctAnswers else correctAnswers))
  end.

Record graded : Type := mkGraded {
  g_score : number;
  g_correctAnswers : nat;
  g_totalQuestions : nat
}.

(** [stored] is the [quiz_data] column of the row: [None] is SQL NULL, for
    which [JSON.parse] returns [null] and reading [length] throws. *)
Definition grade (stored : option (list json)) (answers : list json)
    : result graded :=
  match stored with
  | None => Throw TypeError
  | Some quiz_data =>
      let totalQuestions := List.length quiz_data in
      rbind (grade_loop totalQuestions 0 quiz_data answers 0)
        (fun correctAnswers =>
           let score := number_mul (number_div correctAnswers totalQuestions) 100 in
           Ok (mkGraded score correctAnswers totalQuestions))
  end.

Definition question (text : string) (options : list string) (correct : Z) : json :=
  JObj [("question_text", JStr text);
        ("options", JArr (map JStr options));
        ("correct_answer_index", JNum correct)].

(** ** The record store (the tables of the SQL schema) *)

Inductive role : Type := Learner | Lecturer | Admin.

Definition role_eqb (a b : role) : bool :=
  match a, b with
  | Learner, Learner | Lecturer, Lecturer | Admin, Admin => true
  | _, _ => false
  end.

Record user_row : Type := mkUserRow {
  us_id : nat;
  us_role : role
}.

Record module_row : Type := mkModule {
  m_id : nat;
  m_instructor_id : nat;
  m_is_published : bool;
  m_price : Z                     (* decimal(10,2), in hundredths *)
}.

Record content_row : Type := mkContent {
  c_id : nat;
  c_module_id : nat;
  c_title : string;
  c_content_type : string;        (* one of the four names of the enum *)
  c_content_text : option string;
  c_file_path : option string;
  c_quiz_data : option (list json) (* NULL, or the array the text denotes:
                                      the one statement that writes the
                                      column binds NULL or a value that
                                      passed Array.isArray *)
}.

Record enrollment_row : Type := mkEnrollment {
  e_user_id : nat;
  e_module_id : nat;
  e_enrollment_date : nat;
  e_is_completed : bool
}.

Record progress_row : Type := mkProgress {
  p_user_id : nat;
  p_content_id : nat;
  p_is_completed : bool;
  p_completed_at : nat
}.

Record attempt_row : Type := mkAttempt {
  a_user_id : nat;
  a_quiz_content_id : nat;
  a_score : Z;                    (* decimal(5,2), in hundredths *)
  a_attempt_date : nat;
  a_submitted_answers : list json
}.

Record store : Type := mkStore {
  sql_strict : bool;              (* strict SQL mode of the server *)
  users : list user_row;
  modules : list module_row;
  content : list content_row;
  next_content_id : nat;
  enrollments : list enrollment_row;
  user_content_progress : list progress_row;
  user_quiz_attempts : list attempt_row
}.

Definition set_content (s : store) (rows : list content_row) (next : nat) : store :=
  mkStore (sql_strict s) (users s) (modules s) rows next (enrollments s)
          (user_content_progress s) (user_quiz_attempts s).

Definition set_enrollments (s : store) (rows : list enrollment_row) : store :=
  mkStore (sql_strict s) (users s) (modules s) (content s) (next_content_id s) rows
          (user_content_progress s) (user_quiz_attempts s).

Definition set_progress (s : store) (rows : list progress_row) : store :=
  mkStore (sql_strict s) (users s) (modules s) (content s) (next_content_id s)
          (enrollments s) rows (user_quiz_attempts s).

Definition set_attempts (s : store) (rows : list attempt_row) : store :=
  mkStore (sql_strict s) (users s) (modules s) (content s) (next_content_id s)
          (enrollments s) (user_content_progress s) rows.

(** *** Queries *)

Definition select_user (s : store) (id : nat) : list user_row :=
  filter (fun u => Nat.eqb (us_id u) id) (users s).

Definition select_module (s : store) (id : nat) : list module_row :=
  filter (fun m => Nat.eqb (m_id m) id) (modules s).

Definition select_content (s : store) (id : nat) : list content_row :=
  filter (fun c => Nat.eqb (c_id c) id) (content s).

(** [SELECT module_id, quiz_data FROM content WHERE id = ? AND
    content_type = "Quizzes"] *)
Definition select_quiz (s : store) (id : nat) : list content_row :=
  filter (fun c => Nat.eqb (c_id c) id && String.eqb (c_content_type c) "Quizzes")
         (content s).

Definition select_enrollment (s : store) (user_id module_id : nat)
    : list enrollment_row :=
  filter (fun e => Nat.eqb (e_user_id e) user_id && Nat.eqb (e_module_id e) module_id)
         (enrollments s).

Definition progress_matches (user_id content_id : nat) (p : progress_row) : bool :=
  Nat.eqb (p_user_id p) user_id && Nat.eqb (p_content_id p) content_id.

Definition select_progress (s : store) (user_id content_id : nat)
    : list progress_row :=
  filter (progress_matches user_id content_id) (user_content_progress s).

(** A row of the content listing: the content item and the completion
    flag computed for the requesting user. *)
Record content_view : Type := mkView {
  v_item : content_row;
  user_completed_content : bool
}.

(** [SELECT c.*, (CASE WHEN ucp.is_completed IS TRUE THEN TRUE ELSE FALSE
    END) AS user_completed_content FROM content c LEFT JOIN
    user_content_progress ucp ON c.id = ucp.content_id AND ucp.user_id = ?
    WHERE c.module_id = ? ORDER BY c.created_at ASC]: one row per matching
    progress row, or one row with a false flag when there is none. *)
Definition select_content_with_progress (s : store) (user_id module_id : nat)
    : list content_view :=
  flat_map
    (fun c =>
       match select_progress s user_id (c_id c) with
       | [] => [mkView c false]
       | matches => map (fun p => mkView c (p_is_completed p)) matches
       end)
    (filter (fun c => Nat.eqb (c_module_id c) module_id) (content s)).

(** *** Constraints checked by the inserts *)

Definition content_types : list string :=
  ["Notes"; "Videos"; "Quizzes"; "Assignments"].

Definition valid_content_type (t : string) : bool :=
  existsb (String.eqb t) content_types.

(** Conversion of the text bound to a [decimal(5,2)] column.  A text that
    is not a number, or a value out of range, is an error in strict mode;
    otherwise it is stored as zero, or clipped. *)
Definition decimal_5_2 (strict : bool) (t : fixed_text) : result Z :=
  let out_of_range (negative : bool) :=
    if strict then Throw (SqlError "Out of range value for column 'score'")
    else Ok (if negative then (-99999)%Z else 99999%Z) in
  match t with
  | TextDec f n =>
      let h := round_half_away (scale10 2 (n # pow10 f)%Q) in
      if (Z.abs h <=? 99999)%Z then Ok h else out_of_range (h <? 0)%Z
  | TextNegZero _ => Ok 0%Z
  | TextLarge q => out_of_range (negb (Qle_bool 0%Q q))
  | TextNaN | TextInfinity | TextNegInfinity =>
      if strict then Throw (SqlError "Incorrect decimal value for column 'score'")
      else Ok 0%Z
  end.

(** A foreign key of an inserted row: the referenced row must exist. *)
Definition foreign_key {A : Type} (name : string) (referenced : list A)
    : result unit :=
  match referenced with
  | [] => Throw (SqlError ("Cannot add or update a child row: a foreign key constraint fails ("
                             ++ name ++ ")"))
  | _ :: _ => Ok tt
  end.

(** [INSERT INTO enrollments (user_id, module_id)]: rejected by the foreign
    keys when the user or the module is not stored, and by the unique key
    [unique_enrollment] when the pair is present. *)
Definition insert_enrollment (user_id module_id now : nat) (s : store)
    : result store :=
  rbind (foreign_key "fk_enrollment_user" (select_user s user_id)) (fun _ =>
  rbind (foreign_key "fk_enrollment_module" (select_module s module_id)) (fun _ =>
    match select_enrollment s user_id module_id with
    | [] => Ok (set_enrollments s
                  (enrollments s ++ [mkEnrollment user_id module_id now false])%list)
    | _ :: _ => Throw (SqlError "Duplicate entry for key 'unique_enrollment'")
    end)).

(** [INSERT INTO user_content_progress (user_id, content_id, is_completed)
    VALUES (?, ?, TRUE)]: rejected by the foreign keys when the user or
    the content item is not stored, and by [unique_content_progress] when
    the pair is present. *)
Definition insert_progress (user_id content_id now : nat) (s : store)
    : result store :=
  rbind (foreign_key "fk_progress_user" (select_user s user_id)) (fun _ =>
  rbind (foreign_key "fk_progress_content" (select_content s content_id)) (fun _ =>
    match select_progress s user_id content_id with
    | [] => Ok (set_progress s
                  (user_content_progress s ++ [mkProgress user_id content_id true now])%list)
    | _ :: _ => Throw (SqlError "Duplicate entry for key 'unique_content_progress'")
    end)).

(** [UPDATE user_content_progress SET completed_at = CURRENT_TIMESTAMP
    WHERE user_id = ? AND content_id = ?] *)
Definition touch_progress (user_id content_id now : nat) (s : store)
    : result store :=
  Ok (set_progress s
        (map (fun p =>
                if progress_matches user_id content_id p
                then mkProgress (p_user_id p) (p_content_id p) (p_is_completed p) now
                else p)
             (user_content_progress s))).

(** [INSERT INTO user_quiz_attempts (user_id, quiz_content_id, score,
    submitted_answers)]: rejected when the score text does not convert, and
    by the foreign keys when the user or the content item is not stored. *)
Definition insert_attempt (user_id quiz_content_id : nat) (score : fixed_text)
    (answers : list json) (now : nat) (s : store) : result store :=
  rbind (decimal_5_2 (sql_strict s) score) (fun h =>
  rbind (foreign_key "fk_attempt_user" (select_user s user_id)) (fun _ =>
  rbind (foreign_key "fk_attempt_quiz_content" (select_content s quiz_content_id)) (fun _ =>
    Ok (set_attempts s
          (user_quiz_attempts s ++ [mkAttempt user_id quiz_content_id h now answers])%list)))).

(** [INSERT INTO content (...)]: a type that is not a value of the enum is
    an error in strict mode and is stored as the empty string otherwise;
    the module must be stored ([fk_content_module]). *)
Definition insert_content (module_id : nat) (title content_type : string)
    (content_text file_path : option string) (quiz_data : option (list json))
    (s : store) : result store :=
  let stored_type := if valid_content_type content_type then content_type else "" in
  if valid_content_type content_type || negb (sql_strict s) then
    rbind (foreign_key "fk_content_module" (select_module s module_id)) (fun _ =>
      Ok (set_content s
            (content s ++ [mkContent (next_content_id s) module_id title stored_type
                                     content_text file_path quiz_data])%list
            (S (next_content_id s))))
  else Throw (SqlError "Data truncated for column 'content_type'").

(** ** Handlers: connection state, statements, responses *)

(** The connection state threaded through a handler: the store and the
    schedule of storage faults (one entry per round trip to the database,
    [true] for a failure; an exhausted schedule means no further fault). *)
Record conn : Type := mkConn {
  db : store;
  faults : list bool
}.

Definition M (A : Type) : Type := conn -> result A * conn.

Definition ret {A : Type} (a : A) : M A := fun c => (Ok a, c).

Definition bind {A B : Type} (m : M A) (k : A -> M B) : M B :=
  fun c =>
    match m c with
    | (Ok a, c') => k a c'
    | (Throw e, c') => (Throw e, c')
    end.

Definition throw {A : Type} (e : exn) : M A := fun c => (Throw e, c).

Definition lift {A : Type} (r : result A) : M A := fun c => (r, c).

Declare Scope handler_scope.
Delimit Scope handler_scope with handler.
Notation "x <- m ;; k" := (bind m (fun x => k))
  (at level 61, m at next level, right associativity) : handler_scope.
Notation "m ;;; k" := (bind m (fun _ => k))
  (at level 61, right associativity) : handler_scope.
Local Open Scope handler_scope.

(** One round trip to the database. *)
Definition round_trip : M unit :=
  fun c =>
    match faults c with
    | [] => (Ok tt, c)
    | false :: rest => (Ok tt, mkConn (db c) rest)
    | true :: rest => (Throw (SqlError "storage failure"), mkConn (db c) rest)
    end.

(** A [SELECT]. *)
Definition query {A : Type} (q : store -> A) : M A :=
  round_trip ;;; (fun c => (Ok (q (db c)), c)).

(** An [INSERT] or [UPDATE]. *)
Definition execute (stmt : store -> result store) : M unit :=
  round_trip ;;;
  (fun c =>
     match stmt (db c) with
     | Ok s' => (Ok tt, mkConn s' (faults c))
     | Throw e => (Throw e, c)
     end).

(** [beginTransaction] yields the state to which [rollback] returns. *)
Definition beginTransaction : M store :=
  round_trip ;;; (fun c => (Ok (db c), c)).

Definition commit : M unit := round_trip.

Definition rollback (snapshot : store) : M unit :=
  fun c => (Ok tt, mkConn snapshot (faults c)).

Inductive body : Type :=
| Message (message : string)
| QuizResult (score : number) (correctAnswers totalQuestions : nat)
             (message : string)
| ContentRows (rows : list content_view).

Record response : Type := mkResponse {
  status : nat;
  payload : body
}.

Definition reply (code : nat) (message : string) : response :=
  mkResponse code (Message message).

(** [try { body } catch (err) { recover }] around a handler body. *)
Definition try_catch (m : M response) (recover : M response) : M response :=
  fun c =>
    match m c with
    | (Ok r, c') => (Ok r, c')
    | (Throw _, c') => recover c'
    end.

(** *** Authentication and role middleware *)

Record user : Type := mkUser {
  u_id : nat;
  u_role : role
}.

(** The cookie of the request, after verification of its signature. *)
Inductive credential : Type :=
| NoToken
| InvalidToken
| Token (u : user).

Definition authenticateToken (cred : credential) (next : user -> M response)
    : M response :=
  match cred with
  | NoToken => ret (reply 401 "Authentication failed: No token provided")
  | InvalidToken => ret (reply 403 "Authentication failed: Invalid token")
  | Token u => next u
  end.

Definition role_name (r : role) : string :=
  match r with
  | Learner => "learner"
  | Lecturer => "lecturer"
  | Admin => "admin"
  end.

Definition authorizeRole (allowedRoles : list role) (u : user)
    (next : M response) : M response :=
  if existsb (role_eqb (u_role u)) allowedRoles then next
  else ret (reply 403
              ("Access denied: You do not have the required role ("
                 ++ String.concat ", " (map role_name allowedRoles) ++ ")")).

(** ** POST /api/quizzes/:contentId/submit *)

Definition submit_error : response := reply 500 "Server error submitting quiz.".

(** The body of the [try] block, run on an acquired connection.
    [snapshot] is the state at [beginTransaction]. *)
Definition submit_transaction (user_id quizContentId : nat) (answers : list json)
    (now : nat) (snapshot : store) : M response :=
  beginTransaction ;;;
  quizRows <- query (fun s => select_quiz s quizContentId) ;;
  match quizRows with
  | [] =>
      rollback snapshot ;;;
      ret (reply 404 "Quiz content not found or is not a quiz.")
  | quizContent :: _ =>
      g <- lift (grade (c_quiz_data quizContent) answers) ;;
      execute (insert_attempt user_id quizContentId (toFixed (g_score g) 2)
                              answers now) ;;;
      existingProgress <- query (fun s => select_progress s user_id quizContentId) ;;
      match existingProgress with
      | [] => execute (insert_progress user_id quizContentId now)
      | _ :: _ => execute (touch_progress user_id quizContentId now)
      end ;;;
      commit ;;;
      ret (mkResponse 200
             (QuizResult (g_score g) (g_correctAnswers g) (g_totalQuestions g)
                         "Quiz submitted successfully"))
  end.

Definition submit_quiz (cred : credential) (quizContentId : nat)
    (answers : value) (now : nat) : M response :=
  authenticateToken cred (fun u =>
  authorizeRole [Learner] u
    match answers with
    | Some (JArr answers) =>
        fun c =>
          match round_trip c with                       (* pool.getConnection() *)
          | (Throw _, c1) => (Ok submit_error, c1)      (* no connection: nothing to roll back *)
          | (Ok _, c1) =>
              try_catch
                (submit_transaction (u_id u) quizContentId answers now (db c1))
                (rollback (db c1) ;;; ret submit_error)
                c1
          end
    | _ => ret (reply 400 "Answers must be an array.")
    end).

(** ** POST /api/content/:contentId/complete *)

Definition mark_content_complete (cred : credential) (contentId now : nat)
    : M response :=
  authenticateToken cred (fun u =>
  authorizeRole [Learner] u
    (try_catch
       (rows <- query (fun s => select_content s contentId) ;;
        match rows with
        | [] => ret (reply 404 "Content item not found.")
        | item :: _ =>
            enrollment <- query (fun s => select_enrollment s (u_id u) (c_module_id item)) ;;
            match enrollment with
            | [] => ret (reply 403 "You are not enrolled in the module this content belongs to.")
            | _ :: _ =>
                existingProgress <- query (fun s => select_progress s (u_id u) contentId) ;;
                match existingProgress with
                | [] => execute (insert_progress (u_id u) contentId now)
                | _ :: _ => execute (touch_progress (u_id u) contentId now)
                end ;;;
                ret (reply 200 "Content marked as complete successfully.")
            end
        end)
       (ret (reply 500 "Server error marking content complete.")))).

(** ** POST /api/enroll *)

Definition enroll_body (user_id module_id now : nat) : M response :=
  module <- query (fun s => select_module s module_id) ;;
  match module with
  | [] => ret (reply 404 "Module not found")
  | m :: _ =>
      if negb (m_is_published m) then
        ret (reply 400 "Cannot enroll in an unpublished module.")
      else if (0 <? m_price m)%Z then
        ret (reply 400 "This is a paid module. Payment integration is not yet implemented.")
      else
        existingEnrollment <- query (fun s => select_enrollment s user_id module_id) ;;
        match existingEnrollment with
        | _ :: _ => ret (reply 400 "Already enrolled in this module")
        | [] =>
            execute (insert_enrollment user_id module_id now) ;;;
            ret (reply 201 "Enrollment successful")
        end
  end.

Definition enroll_error : response := reply 500 "Server error during enrollment".

(** [module_id] is the identifier of the request body; [0] stands for a
    missing (falsy) one. *)
Definition enroll (cred : credential) (module_id now : nat) : M response :=
  authenticateToken cred (fun u =>
  authorizeRole [Learner] u
    (if Nat.eqb module_id 0 then ret (reply 400 "Module ID is required")
     else try_catch (enroll_body (u_id u) module_id now) (ret enroll_error))).

(** *** The enrol handler, statement by statement

    Between two awaited statements another request may run.  The handler
    body is therefore also given as a machine that performs one round trip
    per step; [EnrollDone] carries the response. *)

Inductive enroll_pc : Type :=
| EnrollStart                (* before the module query *)
| EnrollChecked              (* module found, published, not paid *)
| EnrollAbsent               (* no enrolment was found for the pair *)
| EnrollDone (r : response).

Definition enroll_step (user_id module_id now : nat) (pc : enroll_pc)
    : M enroll_pc :=
  match pc with
  | EnrollStart =>
      module <- query (fun s => select_module s module_id) ;;
      match module with
      | [] => ret (EnrollDone (reply 404 "Module not found"))
      | m :: _ =>
          if negb (m_is_published m) then
            ret (EnrollDone (reply 400 "Cannot enroll in an unpublished module."))
          else if (0 <? m_price m)%Z then
            ret (EnrollDone (reply 400 "This is a paid module. Payment integration is not yet implemented."))
          else ret EnrollChecked
      end
  | EnrollChecked =>
      existingEnrollment <- query (fun s => select_enrollment s user_id module_id) ;;
      match existingEnrollment with
      | _ :: _ => ret (EnrollDone (reply 400 "Already enrolled in this module"))
      | [] => ret EnrollAbsent
      end
  | EnrollAbsent =>
      execute (insert_enrollment user_id module_id now) ;;;
      ret (EnrollDone (reply 201 "Enrollment successful"))
  | EnrollDone r => ret (EnrollDone r)
  end.

(** One step of a request, the [catch] clause included. *)
Definition enroll_advance (user_id module_id now : nat) (pc : enroll_pc)
    (c : conn) : enroll_pc * conn :=
  match enroll_step user_id module_id now pc c with
  | (Ok pc', c') => (pc', c')
  | (Throw _, c') => (EnrollDone enroll_error, c')
  end.

(** A request in flight: who asks, for which module, when, and where the
    handler stands. *)
Record enroll_task : Type := mkTask {
  t_user_id : nat;
  t_module_id : nat;
  t_now : nat;
  t_pc : enroll_pc
}.

Fixpoint advance_nth (k : nat) (tasks : list enroll_task) (c : conn)
    {struct tasks} : list enroll_task * conn :=
  match tasks, k with
  | [], _ => ([], c)
  | t :: rest, O =>
      let '(pc', c') := enroll_advance (t_user_id t) (t_module_id t) (t_now t) (t_pc t) c in
      (mkTask (t_user_id t) (t_module_id t) (t_now t) pc' :: rest, c')
  | t :: rest, S k' =>
      let '(rest', c') := advance_nth k' rest c in
      (t :: rest', c')
  end.

(** An interleaving is the list of the indices of the requests that move,
    in order. *)
Fixpoint interleave (schedule : list nat) (tasks : list enroll_task) (c : conn)
    : list enroll_task * conn :=
  match schedule with
  | [] => (tasks, c)
  | k :: later =>
      let '(tasks', c') := advance_nth k tasks c in
      interleave later tasks' c'
  end.

(** ** POST /api/modules/:moduleId/content *)

(** The [quiz_data] field of the body, a string: either it is not JSON
    text, or it denotes a JSON value. *)
Inductive json_text : Type :=
| Malformed
| Denotes (v : json).

Definition JSON_parse (t : json_text) : result json :=
  match t with
  | Malformed => Throw SyntaxError
  | Denotes v => Ok v
  end.

(** The fields of the body; the empty string stands for a missing or empty
    (falsy) [title] or [content_type], [None] for a missing or empty
    [quiz_data] or [content_text], or for a request without a file. *)
Record content_request : Type := mkContentRequest {
  title : string;
  content_type : string;
  quiz_data : option json_text;
  content_text : option string;
  file : option string
}.

(** The predicate given to [some]: [!q.question_text ||
    !Array.isArray(q.options) || q.options.length === 0]. *)
Definition bad_question (q : json) : result bool :=
  rbind (get_prop (Some q) "question_text") (fun text =>
    if negb (truthy text) then Ok true
    else
      rbind (get_prop (Some q) "options") (fun options =>
        match options with
        | Some (JArr opts) => Ok (Nat.eqb (List.length opts) 0)
        | _ => Ok true
        end)).

Fixpoint some_bad_question (questions : list json) : result bool :=
  match questions with
  | [] => Ok false
  | q :: rest =>
      rbind (bad_question q) (fun bad =>
        if bad then Ok true else some_bad_question rest)
  end.

(** The inner [try] block: the parsed array, or a throw. *)
Definition parse_quiz_data (t : json_text) : result (list json) :=
  rbind (JSON_parse t) (fun parsedQuizData =>
    match parsedQuizData with
    | JArr questions =>
        rbind (some_bad_question questions) (fun bad =>
          if bad then Throw (Error "Invalid quiz data format.")
          else Ok questions)
    | _ => Throw (Error "Invalid quiz data format.")
    end).

Definition create_content (cred : credential) (moduleId : nat)
    (req : content_request) : M response :=
  authenticateToken cred (fun u =>
  authorizeRole [Lecturer; Admin] u
    (let file_path := option_map (String.append "/uploads/") (file req) in
     if String.eqb (title req) "" || String.eqb (content_type req) "" then
       if String.eqb (content_type req) "Quizzes"
          && match quiz_data req with None => true | Some _ => false end
       then ret (reply 400 "Quiz title and quiz data are required.")
       else if negb (String.eqb (content_type req) "Quizzes")
               && match content_text req with None => true | Some _ => false end
               && match file_path with None => true | Some _ => false end
       then ret (reply 400 "Content title and either text or a file are required.")
       else ret (reply 400 "Title and content type are required.")
     else
       try_catch
         (module <- query (fun s => select_module s moduleId) ;;
          match module with
          | [] => ret (reply 404 "Module not found")
          | m :: _ =>
              if role_eqb (u_role u) Lecturer
                 && negb (Nat.eqb (m_instructor_id m) (u_id u))
              then ret (reply 403 "Access denied: Not authorized to add content to this module.")
              else
                let insert parsedQuizData :=
                  execute (insert_content moduleId (title req) (content_type req)
                             (content_text req) file_path parsedQuizData) ;;;
                  ret (reply 201 "Content added successfully") in
                match String.eqb (content_type req) "Quizzes", quiz_data req with
                | true, Some text =>
                    match parse_quiz_data text with
                    | Ok questions => insert (Some questions)
                    | Throw _ =>
                        ret (reply 400 "Invalid quiz data format. Must be a valid JSON array of questions.")
                    end
                | _, _ => insert None
                end
          end)
         (ret (reply 500 "Server error adding content")))).

(** ** GET /api/modules/:moduleId/content *)

Definition get_module_content (cred : credential) (moduleId : nat) : M response :=
  authenticateToken cred (fun u =>
    try_catch
      (module <- query (fun s => select_module s moduleId) ;;
       match module with
       | [] => ret (reply 404 "Module not found")
       | m :: _ =>
           if role_eqb (u_role u) Lecturer
              && negb (Nat.eqb (m_instructor_id m) (u_id u))
           then ret (reply 403 "Access denied: Not your module.")
           else
             let listing :=
               rows <- query (fun s => select_content_with_progress s (u_id u) moduleId) ;;
               ret (mkResponse 200 (ContentRows rows)) in
             if role_eqb (u_role u) Learner then
               enrollment <- query (fun s => select_enrollment s (u_id u) moduleId) ;;
               match m_is_published m, enrollment with
               | false, [] =>
                   ret (reply 403 "Access denied: Module not published and you are not enrolled.")
               | _, _ => listing
               end
             else listing
       end)
      (ret (reply 500 "Server error fetching module content"))).

(** ** Module progress ([fetchEnrolledModules] of the learner dashboard) *)

Definition progressPercentage (content : list content_view) : number :=
  let totalContentItems := List.length content in
  let completedContentItems := List.length (filter user_completed_content content) in
  if (0 <? totalContentItems)%nat
  then number_mul (number_div completedContentItems totalContentItems) 100
  else int_number 0.

Record module_details : Type := mkDetails {
  progress_percentage : fixed_text;       (* rounded for display *)
  total_content_items : nat;
  completed_content_items : nat
}.

Definition module_progress (content : list content_view) : module_details :=
  mkDetails (toFixed (progressPercentage content) 0)
            (List.length content)
            (List.length (filter user_completed_content content)).

(** ** The lecturer's list of enrolled learners ([fetchEnrolledLearners]) *)

Record learner_row : Type := mkLearnerRow {
  l_id : nat;
  l_enrollment_date : nat
}.

Fixpoint insert_by_date (r : learner_row) (sorted : list learner_row)
    : list learner_row :=
  match sorted with
  | [] => [r]
  | x :: rest =>
      if (l_enrollment_date r <? l_enrollment_date x)%nat then r :: sorted
      else x :: insert_by_date r rest
  end.

(** [SELECT u.id, ..., e.enrollment_date FROM users u JOIN enrollments e
    ON u.id = e.user_id WHERE e.module_id = ? AND u.role = 'learner'
    ORDER BY e.enrollment_date ASC], the rows that
    [GET /api/modules/:moduleId/learners] answers. *)
Definition select_learners (s : store) (module_id : nat) : list learner_row :=
  fold_left (fun sorted r => insert_by_date r sorted)
    (flat_map
       (fun u =>
          if role_eqb (us_role u) Learner
          then map (fun e => mkLearnerRow (us_id u) (e_enrollment_date e))
                   (select_enrollment s (us_id u) module_id)
          else [])
       (users s))
    [].

(** [Math.floor]. *)
Definition Math_floor (x : number) : number :=
  match x with
  | Num q => Num (inject_Z (Qfloor q))
  | _ => x
  end.

(** A result of [Math.random()]: a Number that is at least 0 and less
    than 1. *)
Definition random_draw (x : Q) : Prop :=
  fl x = Num x /\ (0 <= x)%Q /\ (x < 1)%Q.

Record learner_details : Type := mkLearnerDetails {
  ld_learner : learner_row;
  ld_progress : number
}.

(** The object built for the learner at position [i] of the listing.
    [draws] are the successive results of [Math.random()]; each learner
    takes four of them, the first one for [progress] (the mock fields
    [last_activity] and [quiz_scores], which take the other three, are left
    out). *)
Definition learnerWithDetails (draws : nat -> Q) (i : nat) (learner : learner_row)
    : learner_details :=
  mkLearnerDetails learner (Math_floor (number_mul (Num (draws (4 * i)%nat)) 101)).

Definition fetchEnrolledLearners (learners : list learner_row) (draws : nat -> Q)
    : list learner_details :=
  map (fun il => learnerWithDetails draws (fst il) (snd il))
      (combine (seq 0 (List.length learners)) learners).

(** ** The data of the SQL dump *)

Definition big_data_quiz : list json :=
  [question "1. What are the key characteristics of Big Data, often referred to as the 3 Vs?"
            ["a) Volume, Value, Variety"; "b) Volume, Variety, Velocity";
             "c) Volume, Validity, Verification"; "d) Value, Velocity, Vision"]
            1%Z].

Definition dump : store :=
  mkStore true
    [mkUserRow 1 Lecturer; mkUserRow 2 Admin; mkUserRow 3 Learner; mkUserRow 4 Lecturer]
    [mkModule 1 1 true 0%Z; mkModule 2 4 true 0%Z]
    [mkContent 1 2 "BIG DATA" "Videos" None
               (Some "/uploads/1749514917708-VID-20241006-WA0004.mp4") None;
     mkContent 2 2 "QUIZ OF BIG DATA" "Quizzes" None None (Some big_data_quiz)]
    3
    [mkEnrollment 3 2 1 false; mkEnrollment 3 1 2 false]
    []
    [].

Definition learner3 : credential := Token (mkUser 3 Learner).

(** [INSERT INTO users] of [POST /api/auth/register]: the new account
    receives the next id of the table. *)
Definition register_user (id : nat) (r : role) (s : store) : store :=
  mkStore (sql_strict s) (users s ++ [mkUserRow id r])%list (modules s) (content s)
          (next_content_id s) (enrollments s) (user_content_progress s)
          (user_quiz_attempts s).

(** The dump after a learner registered (the table's AUTO_INCREMENT gives
    the account the id 5); the learner has not enrolled in any module. *)
Definition dump_with_learner5 : store := register_user 5 Learner dump.

Definition learner5 : credential := Token (mkUser 5 Learner).

(** The dump after learner 3 completed the video and the quiz. *)
Definition dump_with_progress : store :=
  set_progress dump [mkProgress 3 1 true 5; mkProgress 3 2 true 6].

(** The same server when it does not run in strict SQL mode. *)
Definition lenient (s : store) : store :=
  mkStore false (users s) (modules s) (content s) (next_content_id s) (enrollments s)
          (user_content_progress s) (user_quiz_attempts s).

Definition lecturer4 : credential := Token (mkUser 4 Lecturer).

(** The store after the lecturer of module 2 posted a quiz with the given
    question array (it receives the content id 3). *)
Definition post_quiz (questions : list json) (s : store) : store :=
  db (snd (create_content lecturer4 2
             (mkContentRequest "Posted quiz" "Quizzes"
                               (Some (Denotes (JArr questions))) None None)
             (mkConn s []))).

Definition with_empty_quiz (s : store) : store := post_quiz [] s.

Definition three_questions : list json :=
  [question "q1" ["a"; "b"] 0%Z; question "q2" ["a"; "b"] 1%Z;
   question "q3" ["a"; "b"] 1%Z].

(** The store after the lecturer posted a Quizzes item without any
    [quiz_data] field (content id 3). *)
Definition with_quiz_without_data (s : store) : store :=
  db (snd (create_content lecturer4 2
             (mkContentRequest "No questions yet" "Quizzes" None None None)
             (mkConn s []))).


(** ** Notions used by the statements *)

(** A quiz definition as the authoring form builds it. *)
Record question_def : Type := mkQuestionDef {
  q_text : string;
  q_options : list string;
  q_correct : Z
}.

Definition stored_question (d : question_def) : json :=
  question (q_text d) (q_options d) (q_correct d).

(** The submitted answer at position [i] equals the correct index of
    question [i]. *)
Definition correctly_answered (quiz : list question_def) (answers : list Z)
    (i : nat) : bool :=
  match nth_error quiz i, nth_error answers i with
  | Some d, Some a => Z.eqb a (q_correct d)
  | _, _ => false
  end.

Definition expected_correct (quiz : list question_def) (answers : list Z) : nat :=
  List.length (filter (correctly_answered quiz answers) (seq 0 (List.length quiz))).

(** [(correct / total) * 100] as a rational number. *)
Definition percentage (correct total : nat) : Q :=
  ((inject_Z (Z.of_nat correct) / inject_Z (Z.of_nat total)) * (100 # 1))%Q.

(** The Number that [parseInt] reads from a submitted answer, when the
    answer converts to a string. *)
Definition reading (a : json) : option number :=
  match parseInt (Some a) with
  | Ok x => Some x
  | Throw _ => None
  end.

(** The answer converts to a string. *)
Definition printable (a : json) : bool :=
  match ToString a with
  | Ok _ => true
  | Throw _ => false
  end.

(** The Number stored as [correct_answer_index] with a question, when the
    item is an object that has one. *)
Definition stored_index (q : value) : option number :=
  match q with
  | Some (JObj fields) =>
      match lookup "correct_answer_index" fields with
      | Some (JNumber k) => Some (fl k)
      | _ => None
      end
  | _ => None
  end.

(** On stored JSON of any shape: the item has a stored index and the
    answer at its position reads as that Number. *)
Definition is_match (q : value) (a : option json) : bool :=
  match stored_index q, a with
  | Some k, Some a =>
      match reading a with
      | Some x => number_eq x k
      | None => false
      end
  | _, _ => false
  end.

Definition matched (quiz_data answers : list json) (i : nat) : bool :=
  is_match (nth_error quiz_data i) (nth_error answers i).

Definition count_matched (quiz_data answers : list json) : nat :=
  List.length (filter (matched quiz_data answers) (seq 0 (List.length quiz_data))).

(** An integer that every Number arithmetic keeps exact
    ([Number.isSafeInteger]). *)
Definition safe_integer (z : Z) : Prop := (Z.abs z < 2 ^ 53)%Z.

(** The account of the requester is stored. *)
Definition has_user (s : store) (id : nat) : Prop := select_user s id <> [].

(** The two writes of a submission. *)
Definition record_attempt (user_id quizContentId : nat) (h : Z)
    (answers : list json) (now : nat) (s : store) : store :=
  set_attempts s
    (user_quiz_attempts s ++ [mkAttempt user_id quizContentId h now answers])%list.

Definition refresh (now : nat) (p : progress_row) : progress_row :=
  mkProgress (p_user_id p) (p_content_id p) (p_is_completed p) now.

Definition upsert_progress (user_id content_id now : nat) (s : store) : store :=
  match select_progress s user_id content_id with
  | [] =>
      set_progress s
        (user_content_progress s ++ [mkProgress user_id content_id true now])%list
  | _ :: _ =>
      set_progress s
        (map (fun p => if progress_matches user_id content_id p
                       then refresh now p else p)
             (user_content_progress s))
  end.

(** The fault schedule of the connection announces a storage failure. *)
Definition faulty (c : conn) : Prop := In true (faults c).

(** *** Invariants of the store *)

Definition progress_key (p : progress_row) : nat * nat :=
  (p_user_id p, p_content_id p).

(** The unique key [unique_content_progress]. *)
Definition progress_unique (s : store) : Prop :=
  NoDup (map progress_key (user_content_progress s)).

(** Every progress row carries [is_completed = TRUE]. *)
Definition all_completed (s : store) : Prop :=
  Forall (fun p => p_is_completed p = true) (user_content_progress s).

Definition enrollment_key (e : enrollment_row) : nat * nat :=
  (e_user_id e, e_module_id e).

(** The unique key [unique_enrollment]. *)
Definition enrollments_unique (s : store) : Prop :=
  NoDup (map enrollment_key (enrollments s)).

(** *** Effect of a submission on the store *)

(** Both writes are in [s']: one attempt row was appended, carrying the
    stored score and the submitted answers, and the pair (learner, quiz)
    has exactly one progress row, completed and stamped [now]; nothing else
    differs from [s]. *)
Definition submission_committed (u : user) (cid : nat) (answers : list json)
    (now : nat) (s s' : store) (r : response) : Prop :=
  exists row rest g h,
    select_quiz s cid = row :: rest /\
    grade (c_quiz_data row) answers = Ok g /\
    payload r = QuizResult (g_score g) (g_correctAnswers g) (g_totalQuestions g)
                           "Quiz submitted successfully" /\
    decimal_5_2 (sql_strict s) (toFixed (g_score g) 2) = Ok h /\
    user_quiz_attempts s'
    = (user_quiz_attempts s ++ [mkAttempt (u_id u) cid h now answers])%list /\
    select_progress s' (u_id u) cid = [mkProgress (u_id u) cid true now] /\
    (forall u' cid', (u', cid') <> (u_id u, cid) ->
       select_progress s' u' cid' = select_progress s u' cid') /\
    List.length (user_content_progress s')
    = match select_progress s (u_id u) cid with
      | [] => S (List.length (user_content_progress s))
      | _ :: _ => List.length (user_content_progress s)
      end /\
    modules s' = modules s /\ content s' = content s /\
    enrollments s' = enrollments s.

(** A submission either commits both writes and answers 200, or answers
    an error and leaves the store as it was. *)
Definition submission_atomic (u : user) (cid : nat) (answers : list json)
    (now : nat) (c : conn) : Prop :=
  let out := submit_quiz (Token u) cid (Some (JArr answers)) now c in
  exists r,
    fst out = Ok r /\
    ((status r = 200 /\ submission_committed u cid answers now (db c) (db (snd out)) r)
     \/ (status r <> 200 /\ db (snd out) = db c)).

(** The item stores the integer [k] as its correct index. *)
Definition stored_key (q : value) (k : Z) : Prop :=
  stored_index q = Some (Num (inject_Z k)).

(** The number of options stored with a question. *)
Definition option_count (q : value) : option nat :=
  match q with
  | Some (JObj fields) =>
      match lookup "options" fields with
      | Some (JArr opts) => Some (List.length opts)
      | _ => None
      end
  | _ => None
  end.

Definition in_range (k : Z) (n : nat) : Prop := (0 <= k < Z.of_nat n)%Z.

(** *** Effect of an enrolment on the store *)

Definition add_enrollment (user_id module_id now : nat) (s : store) : store :=
  set_enrollments s
    (enrollments s ++ [mkEnrollment user_id module_id now false])%list.

(** The module exists, is published and its price is not positive. *)
Definition open_for_enrolment (s : store) (module_id : nat) : Prop :=
  exists m rest,
    select_module s module_id = m :: rest /\
    m_is_published m = true /\ (m_price m <= 0)%Z.

Definition enrolled (s : store) (user_id module_id : nat) : Prop :=
  select_enrollment s user_id module_id <> [].

(** *** Quiz definitions accepted by the authoring handler *)

(** The item is an object with a non-empty (truthy) [question_text] and a
    non-empty array of [options]. *)
Definition well_formed_question (q : json) : bool :=
  match q with
  | JObj fields =>
      truthy (lookup "question_text" fields)
      && match lookup "options" fields with
         | Some (JArr (_ :: _)) => true
         | _ => false
         end
  | _ => false
  end.

Definition invalid_quiz_data : response :=
  reply 400 "Invalid quiz data format. Must be a valid JSON array of questions.".

(** The content item created for a quiz definition. *)
Definition quiz_item (s : store) (moduleId : nat) (req : content_request)
    (questions : list json) : content_row :=
  mkContent (next_content_id s) moduleId (title req) "Quizzes" (content_text req)
            (option_map (String.append "/uploads/") (file req)) (Some questions).

(** The requester may add content to module [m]. *)
Definition may_author (u : user) (m : module_row) : Prop :=
  (u_role u = Lecturer /\ m_instructor_id m = u_id u) \/ u_role u = Admin.

(** *** Module progress, from the tables *)

Definition module_items (s : store) (module_id : nat) : list content_row :=
  filter (fun c => Nat.eqb (c_module_id c) module_id) (content s).

(** The learner has a completion record, marked completed, for the item. *)
Definition completed_by (s : store) (user_id : nat) (c : content_row) : bool :=
  existsb (fun p => progress_matches user_id (c_id c) p && p_is_completed p)
          (user_content_progress s).

Definition totalCount (s : store) (module_id : nat) : nat :=
  List.length (module_items s module_id).

Definition completedCount (s : store) (user_id module_id : nat) : nat :=
  List.length (filter (completed_by s user_id) (module_items s module_id)).

(** What the dashboard computes for a learner and a module from the
    content listing the server returns. *)
Definition learner_module_progress (s : store) (user_id module_id : nat)
    : module_details :=
  module_progress (select_content_with_progress s user_id module_id).

(** *** The requests of the core, served in sequence *)

Inductive request : Type :=
| SubmitQuiz (cred : credential) (contentId : nat) (answers : value)
| MarkContentComplete (cred : credential) (contentId : nat)
| Enroll (cred : credential) (module_id : nat)
| CreateContent (cred : credential) (moduleId : nat) (req : content_request)
| GetModuleContent (cred : credential) (moduleId : nat).

Definition serve (r : request) (now : nat) : M response :=
  match r with
  | SubmitQuiz cred contentId answers => submit_quiz cred contentId answers now
  | MarkContentComplete cred contentId => mark_content_complete cred contentId now
  | Enroll cred module_id => enroll cred module_id now
  | CreateContent cred moduleId req => create_content cred moduleId req
  | GetModuleContent cred moduleId => get_module_content cred moduleId
  end.

(** Requests served one after the other, each at its own time. *)
Fixpoint serve_all (requests : list (request * nat)) (c : conn) : conn :=
  match requests with
  | [] => c
  | (r, now) :: later => serve_all later (snd (serve r now c))
  end.

(** What a progress row says apart from its timestamp. *)
Definition flag_view (p : progress_row) : nat * nat * bool :=
  (p_user_id p, p_content_id p, p_is_completed p).

(** From [s] to [s'] every progress row kept its pair and its flag, and
    the rows added are completed. *)
Definition progress_extends (s s' : store) : Prop :=
  exists added,
    map flag_view (user_content_progress s')
    = (map flag_view (user_content_progress s) ++ map flag_view added)%list /\
    Forall (fun p => p_is_completed p = true) added.

(** * Further handlers of the server *)

(** ** Replies that carry data *)

Inductive answer (A : Type) : Type :=
| Sent (code : nat) (data : A)
| Failed (code : nat) (message : string).

Arguments Sent {A} code data.
Arguments Failed {A} code message.

Definition answer_code {A : Type} (r : answer A) : nat :=
  match r with
  | Sent code _ => code
  | Failed code _ => code
  end.

(** The two middlewares in front of a handler that sends data. *)
Definition authenticated {A : Type} (cred : credential)
    (next : user -> M (answer A)) : M (answer A) :=
  match cred with
  | NoToken => ret (Failed 401 "Authentication failed: No token provided")
  | InvalidToken => ret (Failed 403 "Authentication failed: Invalid token")
  | Token u => next u
  end.

Definition authorized {A : Type} (allowedRoles : list role) (u : user)
    (next : M (answer A)) : M (answer A) :=
  if existsb (role_eqb (u_role u)) allowedRoles then next
  else ret (Failed 403
              ("Access denied: You do not have the required role ("
                 ++ String.concat ", " (map role_name allowedRoles) ++ ")")).

Definition catching {A : Type} (m : M A) (recover : M A) : M A :=
  fun c =>
    match m c with
    | (Ok a, c') => (Ok a, c')
    | (Throw _, c') => recover c'
    end.

(** ** GET /api/quizzes/:contentId/attempts *)

(** The columns of the listing, apart from the surrogate [id] of the row,
    which the store does not keep. *)
Record attempt_view : Type := mkAttemptView {
  av_score : Z;
  av_attempt_date : nat;
  av_submitted_answers : list json
}.

Definition view_attempt (a : attempt_row) : attempt_view :=
  mkAttemptView (a_score a) (a_attempt_date a) (a_submitted_answers a).

(** [ORDER BY attempt_date DESC]; rows of equal date stay in stored
    order. *)
Fixpoint insert_newest_first (a : attempt_row) (sorted : list attempt_row)
    : list attempt_row :=
  match sorted with
  | [] => [a]
  | b :: rest =>
      if (a_attempt_date b <=? a_attempt_date a)%nat then a :: sorted
      else b :: insert_newest_first a rest
  end.

Fixpoint newest_first (rows : list attempt_row) : list attempt_row :=
  match rows with
  | [] => []
  | a :: rest => insert_newest_first a (newest_first rest)
  end.

Definition attempt_matches (user_id quiz_content_id : nat) (a : attempt_row) : bool :=
  Nat.eqb (a_user_id a) user_id && Nat.eqb (a_quiz_content_id a) quiz_content_id.

(** [SELECT id, score, attempt_date, submitted_answers FROM
    user_quiz_attempts WHERE user_id = ? AND quiz_content_id = ? ORDER BY
    attempt_date DESC] *)
Definition select_attempts (s : store) (user_id quiz_content_id : nat)
    : list attempt_row :=
  newest_first (filter (attempt_matches user_id quiz_content_id)
                       (user_quiz_attempts s)).

Definition get_quiz_attempts (cred : credential) (quizContentId : nat)
    : M (answer (list attempt_view)) :=
  authenticated cred (fun u =>
  authorized [Learner] u
    (catching
       (attempts <- query (fun s => select_attempts s (u_id u) quizContentId) ;;
        ret (Sent 200 (map view_attempt attempts)))
       (ret (Failed 500 "Server error fetching quiz attempts")))).

(** ** Deletions and their cascades *)

(** [DELETE FROM content WHERE id = ?]: the foreign keys
    [fk_progress_content] and [fk_attempt_quiz_content] delete the progress
    rows and the attempts of the item with it.  The result is the number of
    content rows deleted and the new store. *)
Definition delete_content_rows (id : nat) (s : store) : nat * store :=
  let gone := fun c => Nat.eqb (c_id c) id in
  (List.length (filter gone (content s)),
   mkStore (sql_strict s) (users s) (modules s)
     (filter (fun c => negb (gone c)) (content s))
     (next_content_id s)
     (enrollments s)
     (filter (fun p => negb (Nat.eqb (p_content_id p) id)) (user_content_progress s))
     (filter (fun a => negb (Nat.eqb (a_quiz_content_id a) id)) (user_quiz_attempts s))).

(** The content items of a module. *)
Definition content_of_module (s : store) (module_id : nat) : list nat :=
  map c_id (filter (fun c => Nat.eqb (c_module_id c) module_id) (content s)).

Definition mem (id : nat) (ids : list nat) : bool := existsb (Nat.eqb id) ids.

(** [DELETE FROM modules WHERE id = ?]: [fk_content_module] and
    [fk_enrollment_module] delete the content and the enrolments of the
    module, and the content takes its progress rows and attempts along. *)
Definition delete_module_rows (id : nat) (s : store) : nat * store :=
  let gone := fun m => Nat.eqb (m_id m) id in
  let items := content_of_module s id in
  (List.length (filter gone (modules s)),
   mkStore (sql_strict s) (users s)
     (filter (fun m => negb (gone m)) (modules s))
     (filter (fun c => negb (Nat.eqb (c_module_id c) id)) (content s))
     (next_content_id s)
     (filter (fun e => negb (Nat.eqb (e_module_id e) id)) (enrollments s))
     (filter (fun p => negb (mem (p_content_id p) items)) (user_content_progress s))
     (filter (fun a => negb (mem (a_quiz_content_id a) items)) (user_quiz_attempts s))).

(** A [DELETE]: the statement and its [affectedRows]. *)
Definition execute_delete (stmt : store -> nat * store) : M nat :=
  round_trip ;;;
  (fun c => let '(affected, s') := stmt (db c) in
            (Ok affected, mkConn s' (faults c))).

(** DELETE /api/content/:id.  The owning module is read as [module[0]]
    only when the requester is a lecturer. *)
Definition delete_content (cred : credential) (contentId : nat) : M response :=
  authenticateToken cred (fun u =>
  authorizeRole [Lecturer; Admin] u
    (try_catch
       (rows <- query (fun s => select_content s contentId) ;;
        match rows with
        | [] => ret (reply 404 "Content not found")
        | item :: _ =>
            module <- query (fun s => select_module s (c_module_id item)) ;;
            denied <-
              (if role_eqb (u_role u) Lecturer then
                 match module with
                 | [] => throw TypeError
                 | m :: _ => ret (negb (Nat.eqb (m_instructor_id m) (u_id u)))
                 end
               else ret false) ;;
            if denied then
              ret (reply 403 "Access denied: Not authorized to delete content from this module.")
            else
              affectedRows <- execute_delete (delete_content_rows contentId) ;;
              if Nat.eqb affectedRows 0 then ret (reply 404 "Content not found")
              else ret (reply 200 "Content deleted successfully")
        end)
       (ret (reply 500 "Server error deleting content")))).

(** DELETE /api/modules/:id *)
Definition delete_module (cred : credential) (moduleId : nat) : M response :=
  authenticateToken cred (fun u =>
  authorizeRole [Lecturer; Admin] u
    (try_catch
       (existingModule <- query (fun s => select_module s moduleId) ;;
        match existingModule with
        | [] => ret (reply 404 "Module not found")
        | m :: _ =>
            if role_eqb (u_role u) Lecturer
               && negb (Nat.eqb (m_instructor_id m) (u_id u))
            then ret (reply 403 "Access denied: You are not authorized to delete this module.")
            else
              affectedRows <- execute_delete (delete_module_rows moduleId) ;;
              if Nat.eqb affectedRows 0 then ret (reply 404 "Module not found")
              else ret (reply 200 "Module deleted successfully")
        end)
       (ret (reply 500 "Server error deleting module")))).

(** ** One request, seen from the store *)

(** The content row that [insert_content] appends. *)
Definition inserted_content (s : store) (module_id : nat) (title content_type : string)
    (content_text file_path : option string) (quiz_data : option (list json))
    : content_row :=
  mkContent (next_content_id s) module_id title
            (if valid_content_type content_type then content_type else "")
            content_text file_path quiz_data.

(** The changes a request can make to the store. *)
Inductive store_step (s : store) : store -> Prop :=
| step_none : store_step s s
| step_submit (user_id cid : nat) (h : Z) (answers : list json) (now : nat)
    (row : content_row) (rest : list content_row) :
    has_user s user_id ->
    select_quiz s cid = row :: rest ->
    store_step s (upsert_progress user_id cid now
                    (record_attempt user_id cid h answers now s))
| step_mark (user_id cid now : nat) (item : content_row) (items : list content_row) :
    (select_progress s user_id cid = [] -> has_user s user_id) ->
    select_content s cid = item :: items ->
    store_step s (upsert_progress user_id cid now s)
| step_enroll (user_id module_id now : nat) :
    has_user s user_id ->
    select_module s module_id <> [] ->
    select_enrollment s user_id module_id = [] ->
    store_step s (add_enrollment user_id module_id now s)
| step_create (module_id : nat) (title content_type : string)
    (content_text file_path : option string) (quiz_data : option (list json)) :
    select_module s module_id <> [] ->
    store_step s
      (set_content s
         (content s ++ [inserted_content s module_id title content_type
                          content_text file_path quiz_data])%list
         (S (next_content_id s)))
| step_delete_content (id : nat) :
    store_step s (snd (delete_content_rows id s))
| step_delete_module (id : nat) :
    store_step s (snd (delete_module_rows id s)).

(** The requester may change module [m]: an administrator, or the
    lecturer who owns it. *)
Definition may_manage (u : user) (m : module_row) : Prop :=
  u_role u = Admin \/ (u_role u = Lecturer /\ m_instructor_id m = u_id u).

(** ** Sequences of operations, deletions included *)

Inductive operation : Type :=
| Core (r : request)
| ListAttempts (cred : credential) (quizContentId : nat)
| DeleteContent (cred : credential) (contentId : nat)
| DeleteModule (cred : credential) (moduleId : nat).

(** The connection after an operation. *)
Definition perform (o : operation) (now : nat) (c : conn) : conn :=
  match o with
  | Core r => snd (serve r now c)
  | ListAttempts cred quizContentId => snd (get_quiz_attempts cred quizContentId c)
  | DeleteContent cred contentId => snd (delete_content cred contentId c)
  | DeleteModule cred moduleId => snd (delete_module cred moduleId c)
  end.

Fixpoint perform_all (operations : list (operation * nat)) (c : conn) : conn :=
  match operations with
  | [] => c
  | (o, now) :: later => perform_all later (perform o now c)
  end.

(** *** What the foreign keys and the primary key of [content] demand *)

Definition has_module (s : store) (id : nat) : Prop := select_module s id <> [].
Definition has_content (s : store) (id : nat) : Prop := select_content s id <> [].
Definition has_quiz (s : store) (id : nat) : Prop := select_quiz s id <> [].

(** Every content item and enrolment belongs to a stored module, every
    progress row to a stored content item, every attempt to a stored item
    of type Quizzes. *)
Definition references_hold (s : store) : Prop :=
  Forall (fun c => has_module s (c_module_id c)) (content s) /\
  Forall (fun e => has_module s (e_module_id e)) (enrollments s) /\
  Forall (fun p => has_content s (p_content_id p)) (user_content_progress s) /\
  Forall (fun a => has_quiz s (a_quiz_content_id a)) (user_quiz_attempts s).

(** Every module belongs to a stored instructor, every enrolment,
    progress row and attempt to a stored user. *)
Definition user_references_hold (s : store) : Prop :=
  Forall (fun m => has_user s (m_instructor_id m)) (modules s) /\
  Forall (fun e => has_user s (e_user_id e)) (enrollments s) /\
  Forall (fun p => has_user s (p_user_id p)) (user_content_progress s) /\
  Forall (fun a => has_user s (a_user_id a)) (user_quiz_attempts s).

(** Content ids are pairwise distinct and below the auto-increment
    counter. *)
Definition content_ids_fresh (s : store) : Prop :=
  NoDup (map c_id (content s)) /\
  Forall (fun c => (c_id c < next_content_id s)%nat) (content s).

Definition consistent (s : store) : Prop :=
  references_hold s /\ content_ids_fresh s /\
  progress_unique s /\ enrollments_unique s /\ all_completed s.

(** The order of the attempts listing: [a] may stand before [b]. *)
Definition not_older (a b : attempt_row) : Prop :=
  (a_attempt_date b <= a_attempt_date a)%nat.

(** The attempts of a learner on a quiz, in stored order. *)
Definition own_attempts (s : store) (user_id quiz_content_id : nat)
    : list attempt_row :=
  filter (attempt_matches user_id quiz_content_id) (user_quiz_attempts s).

(** ** What survives a sequence of operations *)

(** From [s] to [s'], for every content item stored in [s'] that [s]
    could already hold (its id is below the counter of [s]): the item was
    stored in [s], whoever had completed it has still completed it, and the
    attempts of every learner on it are those of [s], in the same order,
    followed by the later ones. *)
Definition history_kept (s s' : store) : Prop :=
  (next_content_id s <= next_content_id s')%nat /\
  forall item,
    In item (content s') -> (c_id item < next_content_id s)%nat ->
    In item (content s) /\
    (forall u, completed_by s u item = true -> completed_by s' u item = true) /\
    (forall u, exists later,
        own_attempts s' u (c_id item) = (own_attempts s u (c_id item) ++ later)%list).

(** ** Who may ask for what *)

(** The credential of an operation. *)
Definition requester (o : operation) : credential :=
  match o with
  | Core (SubmitQuiz cred _ _) => cred
  | Core (MarkContentComplete cred _) => cred
  | Core (Enroll cred _) => cred
  | Core (CreateContent cred _ _) => cred
  | Core (GetModuleContent cred _) => cred
  | ListAttempts cred _ => cred
  | DeleteContent cred _ => cred
  | DeleteModule cred _ => cred
  end.

(** The roles named by the [authorizeRole] of the route; the content
    listing has none and is open to every authenticated user. *)
Definition route_roles (o : operation) : list role :=
  match o with
  | Core (SubmitQuiz _ _ _) => [Learner]
  | Core (MarkContentComplete _ _) => [Learner]
  | Core (Enroll _ _) => [Learner]
  | Core (CreateContent _ _ _) => [Lecturer; Admin]
  | Core (GetModuleContent _ _) => [Learner; Lecturer; Admin]
  | ListAttempts _ _ => [Learner]
  | DeleteContent _ _ => [Lecturer; Admin]
  | DeleteModule _ _ => [Lecturer; Admin]
  end.

(** The HTTP status an operation is answered with ([Throw] when the handler
    lets an exception escape). *)
Definition answered (o : operation) (now : nat) (c : conn) : result nat :=
  match o with
  | Core r => rbind (fst (serve r now c)) (fun r => Ok (status r))
  | ListAttempts cred quizContentId =>
      rbind (fst (get_quiz_attempts cred quizContentId c)) (fun a => Ok (answer_code a))
  | DeleteContent cred contentId =>
      rbind (fst (delete_content cred contentId c)) (fun r => Ok (status r))
  | DeleteModule cred moduleId =>
      rbind (fst (delete_module cred moduleId c)) (fun r => Ok (status r))
  end.

(** The statuses the modelled routes answer with. *)
Definition statuses : list nat := [200; 201; 400; 401; 403; 404; 500].

(** A handler run from [c] that answers, with one of the statuses, and
    that changed the store only if it answered 200 or 201. *)
Definition tidy (out : result response * conn) (c : conn) : Prop :=
  exists r,
    fst out = Ok r /\ In (status r) statuses /\
    (status r <> 200 -> status r <> 201 -> db (snd out) = db c).

(** ** Completion rates of the administrator's report *)

(** A row of [enrollmentStats], apart from [module_name], which the store
    does not keep.  The counts arrive as the integers the aggregates
    denote; the [SUM] of a module without enrolments is NULL, read here as
    0 (the rate is not computed from it then). *)
Record stats_row : Type := mkStats {
  st_module_id : nat;
  st_total_enrollments : nat;
  st_completed_enrollments : nat;
  st_total_learners : nat
}.

(** The group of module [m] in [SELECT m.id, COUNT(e.id), SUM(CASE WHEN
    e.is_completed = TRUE THEN 1 ELSE 0 END), COUNT(DISTINCT e.user_id) FROM
    modules m LEFT JOIN enrollments e ON m.id = e.module_id GROUP BY
    m.id]. *)
Definition enrollment_stats (s : store) (m : module_row) : stats_row :=
  let group := filter (fun e => Nat.eqb (e_module_id e) (m_id m)) (enrollments s) in
  mkStats (m_id m)
          (List.length group)
          (List.length (filter e_is_completed group))
          (List.length (nodup Nat.eq_dec (map e_user_id group))).

Record completion_row : Type := mkCompletion {
  cr_module_id : nat;
  cr_total_enrollments : nat;
  cr_completed_enrollments : nat;
  completion_rate_percentage : fixed_text
}.

(** The callback of [enrollmentStats.map]. *)
Definition completion_of (module : stats_row) : completion_row :=
  mkCompletion (st_module_id module)
               (st_total_enrollments module)
               (st_completed_enrollments module)
               (if (0 <? st_total_enrollments module)%nat
                then toFixed (number_mul
                                (number_div (st_completed_enrollments module)
                                            (st_total_enrollments module)) 100) 2
                else TextDec 2 0).

Definition moduleCompletionRates (enrollmentStats : list stats_row)
    : list completion_row :=
  map completion_of enrollmentStats.

(** No enrolment is marked completed. *)
Definition no_enrollment_completed (s : store) : Prop :=
  Forall (fun e => e_is_completed e = false) (enrollments s).

(** ** The quiz form of the client ([src/App.js]) *)

(** The state [quizAnswers]: an object from question index to the index of
    the selected option, one entry per key. *)
Definition quiz_answers : Type := list (nat * Z).

Definition selected (quizAnswers : quiz_answers) (qIndex : nat) : option Z :=
  match filter (fun kv => Nat.eqb (fst kv) qIndex) quizAnswers with
  | [] => None
  | kv :: _ => Some (snd kv)
  end.

(** [{...prev, [questionIndex]: optionIndex}] *)
Definition handleQuizAnswerChange (questionIndex : nat) (optionIndex : Z)
    (prev : quiz_answers) : quiz_answers :=
  (filter (fun kv => negb (Nat.eqb (fst kv) questionIndex)) prev
     ++ [(questionIndex, optionIndex)])%list.

(** [Object.keys(currentQuiz.quiz_data).map(qIndex => quizAnswers[qIndex])] *)
Definition submittedAnswersArray (quiz_data : list json) (quizAnswers : quiz_answers)
    : list (option Z) :=
  map (selected quizAnswers) (seq 0 (List.length quiz_data)).

Definition is_undefined (a : option Z) : bool :=
  match a with
  | None => true
  | Some _ => false
  end.

(** [handleSubmitQuiz]: the [answers] of the request body, or [None] when
    no request is made (no current quiz, or the alert that asks to answer
    all questions).  [JSON.stringify] prints an undefined entry as
    [null]. *)
Definition handleSubmitQuiz (currentQuiz : option (list json))
    (quizAnswers : quiz_answers) : option (list json) :=
  match currentQuiz with
  | None => None
  | Some quiz_data =>
      let submitted := submittedAnswersArray quiz_data quizAnswers in
      if negb (Nat.eqb (List.length submitted) (List.length quiz_data))
         || existsb is_undefined submitted
      then None
      else Some (map (fun a => match a with
                               | Some z => JNum z
                               | None => JNull
                               end) submitted)
  end.

(** ** The completion handler, statement by statement

    As for the enrol handler: one round trip per step, so that requests
    can be interleaved between two awaited statements. *)

Inductive mark_pc : Type :=
| MarkStart                       (* before the content query *)
| MarkFound (module_id : nat)     (* the item exists, in this module *)
| MarkEnrolled                    (* the learner is enrolled in it *)
| MarkAbsent                      (* no progress row was found for the pair *)
| MarkPresent                     (* a progress row was found *)
| MarkDone (r : response).

Definition mark_error : response := reply 500 "Server error marking content complete.".

Definition mark_step (user_id contentId now : nat) (pc : mark_pc) : M mark_pc :=
  match pc with
  | MarkStart =>
      rows <- query (fun s => select_content s contentId) ;;
      match rows with
      | [] => ret (MarkDone (reply 404 "Content item not found."))
      | item :: _ => ret (MarkFound (c_module_id item))
      end
  | MarkFound module_id =>
      enrollment <- query (fun s => select_enrollment s user_id module_id) ;;
      match enrollment with
      | [] => ret (MarkDone
                     (reply 403 "You are not enrolled in the module this content belongs to."))
      | _ :: _ => ret MarkEnrolled
      end
  | MarkEnrolled =>
      existingProgress <- query (fun s => select_progress s user_id contentId) ;;
      match existingProgress with
      | [] => ret MarkAbsent
      | _ :: _ => ret MarkPresent
      end
  | MarkAbsent =>
      execute (insert_progress user_id contentId now) ;;;
      ret (MarkDone (reply 200 "Content marked as complete successfully."))
  | MarkPresent =>
      execute (touch_progress user_id contentId now) ;;;
      ret (MarkDone (reply 200 "Content marked as complete successfully."))
  | MarkDone r => ret (MarkDone r)
  end.

(** One step of a request, the [catch] clause included. *)
Definition mark_advance (user_id contentId now : nat) (pc : mark_pc) (c : conn)
    : mark_pc * conn :=
  match mark_step user_id contentId now pc c with
  | (Ok pc', c') => (pc', c')
  | (Throw _, c') => (MarkDone mark_error, c')
  end.

Record mark_task : Type := mkMarkTask {
  k_user_id : nat;
  k_content_id : nat;
  k_now : nat;
  k_pc : mark_pc
}.

Fixpoint mark_advance_nth (k : nat) (tasks : list mark_task) (c : conn)
    {struct tasks} : list mark_task * conn :=
  match tasks, k with
  | [], _ => ([], c)
  | t :: rest, O =>
      let '(pc', c') := mark_advance (k_user_id t) (k_content_id t) (k_now t) (k_pc t) c in
      (mkMarkTask (k_user_id t) (k_content_id t) (k_now t) pc' :: rest, c')
  | t :: rest, S k' =>
      let '(rest', c') := mark_advance_nth k' rest c in
      (t :: rest', c')
  end.

Fixpoint mark_interleave (schedule : list nat) (tasks : list mark_task) (c : conn)
    : list mark_task * conn :=
  match schedule with
  | [] => (tasks, c)
  | k :: later =>
      let '(tasks', c') := mark_advance_nth k tasks c in
      mark_interleave later tasks' c'
  end.

(** * Properties *)

(** ** Binary64 rounding *)

Section Binary64.
Local Open Scope Q_scope.

Lemma pow2_pos (k : Z) : 0 < pow2 k.
Proof. unfold pow2. apply Qpower_0_lt. reflexivity. Qed.

Lemma pow2_plus (a b : Z) : pow2 (a + b) == pow2 a * pow2 b.
Proof. unfold pow2. apply Qpower_plus. discriminate. Qed.

Lemma pow2_succ (a : Z) : pow2 (a + 1) == 2 * pow2 a.
Proof. rewrite pow2_plus. unfold pow2 at 2. rewrite Qpower_1_r. ring. Qed.

Lemma pow2_le (a b : Z) : (a <= b)%Z -> pow2 a <= pow2 b.
Proof. intros H. unfold pow2. apply Qpower_le_compat_l; [exact H|]. discriminate. Qed.

Lemma pow2_lt (a b : Z) : (a < b)%Z -> pow2 a < pow2 b.
Proof. intros H. unfold pow2. apply Qpower_lt_compat_l; [exact H|]. reflexivity. Qed.

Lemma pow2_lt_inv (a b : Z) : pow2 a < pow2 b -> (a < b)%Z.
Proof. intros H. unfold pow2 in H. apply Qpower_lt_compat_l_inv in H; [exact H|reflexivity]. Qed.

Lemma pow2_nonneg_Z (k : Z) : (0 <= k)%Z -> pow2 k == inject_Z (2 ^ k).
Proof. intros H. unfold pow2. now rewrite Zpower_Qpower. Qed.

Lemma pow2_minus (a b : Z) : pow2 (a - b) == pow2 a / pow2 b.
Proof. unfold pow2. apply Qpower_minus. discriminate. Qed.

(** *** The binary exponent *)

Lemma Zlog2_bounds (n : Z) : (0 < n)%Z ->
  inject_Z (2 ^ Z.log2 n) <= inject_Z n < inject_Z (2 ^ (Z.log2 n + 1)).
Proof.
  intros H. destruct (Z.log2_spec n H) as [H1 H2].
  replace (Z.succ (Z.log2 n)) with (Z.log2 n + 1)%Z in H2 by lia.
  split; [rewrite <- Zle_Qle | rewrite <- Zlt_Qlt]; assumption.
Qed.

Lemma floor_log2_spec (a : Q) :
  0 < a -> pow2 (floor_log2 a) <= a < pow2 (floor_log2 a + 1).
Proof.
  intros Ha. destruct a as [n d]. unfold floor_log2. cbn [Qnum Qden].
  assert (Hn : (0 < n)%Z).
  { unfold Qlt in Ha. cbn in Ha. lia. }
  set (ln := Z.log2 n). set (ld := Z.log2 (Z.pos d)).
  assert (Hln : (0 <= ln)%Z) by apply Z.log2_nonneg.
  assert (Hld : (0 <= ld)%Z) by apply Z.log2_nonneg.
  destruct (Zlog2_bounds n Hn) as [N1 N2]. fold ln in N1, N2.
  destruct (Zlog2_bounds (Z.pos d) ltac:(lia)) as [D1 D2]. fold ld in D1, D2.
  rewrite <- pow2_nonneg_Z in N1, N2, D1, D2 by lia.
  assert (Hq : n # d == inject_Z n / inject_Z (Z.pos d)) by apply Qmake_Qdiv.
  assert (Hdpos : 0 < inject_Z (Z.pos d)).
  { change 0 with (inject_Z 0). rewrite <- Zlt_Qlt. lia. }
  assert (Hmul : n # d == (n # d)) by reflexivity.
  assert (Hprod : (n # d) * inject_Z (Z.pos d) == inject_Z n).
  { rewrite Hq. field. intros E. rewrite E in Hdpos. apply (Qlt_irrefl 0 Hdpos). }
  pose proof (pow2_pos ld) as Pld. pose proof (pow2_pos (ln - ld)) as Pe.
  pose proof (pow2_pos (ln - ld - 1)) as Pe1.
  assert (Hlow : pow2 (ln - ld - 1) < (n # d)).
  { (* 2^(ln-ld-1) * d < 2^(ln-ld-1) * 2^(ld+1) = 2^ln <= n *)
    apply (Qmult_lt_r _ _ (inject_Z (Z.pos d)) Hdpos). rewrite Hprod.
    apply Qlt_le_trans with (pow2 (ln - ld - 1) * pow2 (ld + 1)).
    - apply Qmult_lt_l; assumption.
    - rewrite <- pow2_plus. replace (ln - ld - 1 + (ld + 1))%Z with ln by lia.
      exact N1. }
  assert (Hhigh : (n # d) < pow2 (ln - ld + 1)).
  { apply (Qmult_lt_r _ _ (inject_Z (Z.pos d)) Hdpos). rewrite Hprod.
    apply Qlt_le_trans with (pow2 (ln + 1)); [exact N2|].
    replace (ln + 1)%Z with (ln - ld + 1 + ld)%Z by lia.
    rewrite pow2_plus. apply Qmult_le_l; [apply pow2_pos|exact D1]. }
  destruct (Qle_bool (pow2 (ln - ld)) (n # d)) eqn:E.
  - apply Qle_bool_iff in E. split; assumption.
  - assert (Hlt : (n # d) < pow2 (ln - ld)).
    { apply Qnot_le_lt. intros H. apply Qle_bool_iff in H. congruence. }
    split; [now apply Qlt_le_weak|].
    replace (ln - ld - 1 + 1)%Z with (ln - ld)%Z by lia. exact Hlt.
Qed.

Lemma floor_log2_unique (a : Q) (e : Z) :
  pow2 e <= a < pow2 (e + 1) -> floor_log2 a = e.
Proof.
  intros [H1 H2].
  assert (Ha : 0 < a) by (eapply Qlt_le_trans; [apply pow2_pos|exact H1]).
  destruct (floor_log2_spec a Ha) as [F1 F2].
  assert (A : (floor_log2 a < e + 1)%Z).
  { apply pow2_lt_inv. eapply Qle_lt_trans; eassumption. }
  assert (B : (e < floor_log2 a + 1)%Z).
  { apply pow2_lt_inv. eapply Qle_lt_trans; eassumption. }
  lia.
Qed.

Lemma floor_log2_comp (a b : Q) : 0 < a -> a == b -> floor_log2 a = floor_log2 b.
Proof.
  intros Ha E. symmetry. apply floor_log2_unique. rewrite <- E.
  now apply floor_log2_spec.
Qed.

Lemma floor_log2_le (a b : Q) : 0 < a -> a <= b -> (floor_log2 a <= floor_log2 b)%Z.
Proof.
  intros Ha Hab.
  assert (Hb : 0 < b) by (eapply Qlt_le_trans; eassumption).
  destruct (floor_log2_spec a Ha) as [A1 _].
  destruct (floor_log2_spec b Hb) as [_ B2].
  assert (floor_log2 a < floor_log2 b + 1)%Z; [|lia].
  apply pow2_lt_inv. eapply Qle_lt_trans; [exact A1|].
  eapply Qle_lt_trans; eassumption.
Qed.

Lemma rne_cases (x : Q) :
  (rne x = Qfloor x /\ x - inject_Z (Qfloor x) <= 1 # 2) \/
  (rne x = (Qfloor x + 1)%Z /\ 1 # 2 <= x - inject_Z (Qfloor x)).
Proof.
  unfold rne.
  destruct (Qcompare (x - inject_Z (Qfloor x)) (1 # 2)) eqn:E.
  - apply Qeq_alt in E.
    destruct (Z.even (Qfloor x)); [left|right]; (split; [reflexivity|]);
      rewrite E; apply Qle_refl.
  - apply Qlt_alt in E. left. split; [reflexivity|now apply Qlt_le_weak].
  - apply Qgt_alt in E. right. split; [reflexivity|now apply Qlt_le_weak].
Qed.

Lemma Qfloor_bounds (x : Q) :
  inject_Z (Qfloor x) <= x < inject_Z (Qfloor x) + 1.
Proof.
  split; [apply Qfloor_le|].
  pose proof (Qlt_floor x) as H.
  rewrite inject_Z_plus in H. exact H.
Qed.

Lemma rne_spec (x : Q) :
  x - (1 # 2) <= inject_Z (rne x) <= x + (1 # 2).
Proof.
  destruct (Qfloor_bounds x) as [F1 F2].
  destruct (rne_cases x) as [[-> H] | [-> H]].
  - split; lra.
  - rewrite inject_Z_plus. change (inject_Z 1) with 1. split; lra.
Qed.

Lemma rne_comp (x y : Q) : x == y -> rne x = rne y.
Proof.
  intros E. unfold rne. rewrite (Qfloor_comp _ _ E).
  assert (Hc : Qcompare (x - inject_Z (Qfloor y)) (1 # 2)
               = Qcompare (y - inject_Z (Qfloor y)) (1 # 2)).
  { now rewrite E. }
  now rewrite Hc.
Qed.

Lemma rne_Z (z : Z) : rne (inject_Z z) = z.
Proof.
  unfold rne. rewrite Qfloor_Z.
  assert (E : Qcompare (inject_Z z - inject_Z z) (1 # 2) = Lt).
  { apply Qlt_alt. setoid_replace (inject_Z z - inject_Z z) with 0 by ring.
    reflexivity. }
  now rewrite E.
Qed.

Lemma rne_mono (x y : Q) : x <= y -> (rne x <= rne y)%Z.
Proof.
  intros Hxy.
  pose proof (Qfloor_resp_le _ _ Hxy) as Hf.
  destruct (Z.eq_dec (Qfloor x) (Qfloor y)) as [Heq | Hne].
  - unfold rne. rewrite Heq.
    destruct (Qcompare (x - inject_Z (Qfloor y)) (1 # 2)) eqn:Ex;
      destruct (Qcompare (y - inject_Z (Qfloor y)) (1 # 2)) eqn:Ey;
      try (destruct (Z.even (Qfloor y))); try lia; exfalso;
      rewrite <- ?Qeq_alt, <- ?Qlt_alt, <- ?Qgt_alt in Ex;
      rewrite <- ?Qeq_alt, <- ?Qlt_alt, <- ?Qgt_alt in Ey;
      lra.
  - assert (Hlt : (Qfloor x + 1 <= Qfloor y)%Z) by lia.
    destruct (rne_cases x) as [[-> _] | [-> _]];
      destruct (rne_cases y) as [[-> _] | [-> _]]; lia.
Qed.

Lemma rne_ge (k : Z) (x : Q) : inject_Z k <= x -> (k <= rne x)%Z.
Proof. intros H. rewrite <- (rne_Z k). now apply rne_mono. Qed.

Lemma rne_le (k : Z) (x : Q) : x <= inject_Z k -> (rne x <= k)%Z.
Proof. intros H. rewrite <- (rne_Z k). now apply rne_mono. Qed.

(** *** Rounding of a positive rational *)

Lemma ulp_exp_comp (a b : Q) : 0 < a -> a == b -> ulp_exp a = ulp_exp b.
Proof. intros Ha E. unfold ulp_exp. now rewrite (floor_log2_comp a b Ha E). Qed.

Lemma ulp_exp_le (a b : Q) : 0 < a -> a <= b -> (ulp_exp a <= ulp_exp b)%Z.
Proof.
  intros Ha Hab. unfold ulp_exp.
  pose proof (floor_log2_le a b Ha Hab). lia.
Qed.

Lemma round_pos_comp (a b : Q) : 0 < a -> a == b -> round_pos a == round_pos b.
Proof.
  intros Ha E. unfold round_pos. rewrite (ulp_exp_comp a b Ha E).
  assert (R : rne (a / pow2 (ulp_exp b)) = rne (b / pow2 (ulp_exp b))).
  { apply rne_comp. now rewrite E. }
  now rewrite R.
Qed.

Lemma div_pow2_le (x y : Q) (E : Z) : x <= y -> x / pow2 E <= y / pow2 E.
Proof.
  intros H. unfold Qdiv. apply Qmult_le_compat_r; [exact H|].
  apply Qlt_le_weak, Qinv_lt_0_compat, pow2_pos.
Qed.

Lemma pow2_div (a b : Z) : pow2 a / pow2 b == pow2 (a - b).
Proof. symmetry. apply pow2_minus. Qed.

(** The error of the rounding is at most half a unit in the last place. *)
Lemma round_pos_error (a : Q) :
  Qabs (round_pos a - a) <= pow2 (ulp_exp a - 1).
Proof.
  unfold round_pos. set (E := ulp_exp a).
  pose proof (pow2_pos E) as PE.
  destruct (rne_spec (a / pow2 E)) as [R1 R2].
  assert (Ha : a == (a / pow2 E) * pow2 E).
  { field. intros H. rewrite H in PE. now apply (Qlt_irrefl 0). }
  assert (Hhalf : pow2 (E - 1) == (1 # 2) * pow2 E).
  { rewrite pow2_minus. unfold pow2 at 2. rewrite Qpower_1_r. field. }
  rewrite Hhalf. apply Qabs_Qle_condition. split.
  - assert (H : (a / pow2 E - (1 # 2)) * pow2 E
                <= inject_Z (rne (a / pow2 E)) * pow2 E).
    { apply Qmult_le_compat_r; [exact R1|now apply Qlt_le_weak]. }
    rewrite Ha at 2. lra.
  - assert (H : inject_Z (rne (a / pow2 E)) * pow2 E
                <= (a / pow2 E + (1 # 2)) * pow2 E).
    { apply Qmult_le_compat_r; [exact R2|now apply Qlt_le_weak]. }
    rewrite Ha at 2. lra.
Qed.

(** A multiple of the unit in the last place below (above) [a] is below
    (above) the rounded value. *)
Lemma round_pos_ge (a : Q) (k : Z) :
  inject_Z k * pow2 (ulp_exp a) <= a -> inject_Z k * pow2 (ulp_exp a) <= round_pos a.
Proof.
  intros H. unfold round_pos.
  pose proof (pow2_pos (ulp_exp a)) as PE.
  apply Qmult_le_compat_r; [|now apply Qlt_le_weak].
  rewrite <- Zle_Qle. apply rne_ge.
  apply Qle_shift_div_l; assumption.
Qed.

Lemma round_pos_le (a : Q) (k : Z) :
  a <= inject_Z k * pow2 (ulp_exp a) -> round_pos a <= inject_Z k * pow2 (ulp_exp a).
Proof.
  intros H. unfold round_pos.
  pose proof (pow2_pos (ulp_exp a)) as PE.
  apply Qmult_le_compat_r; [|now apply Qlt_le_weak].
  rewrite <- Zle_Qle. apply rne_le.
  apply Qle_shift_div_r; assumption.
Qed.

Lemma ulp_exp_cases (a : Q) :
  (ulp_exp a = (floor_log2 a - 52)%Z /\ (-1074 <= floor_log2 a - 52)%Z) \/
  (ulp_exp a = (-1074)%Z /\ (floor_log2 a - 52 < -1074)%Z).
Proof. unfold ulp_exp. lia. Qed.

Lemma round_pos_nonneg (a : Q) : 0 <= a -> 0 <= round_pos a.
Proof.
  intros Ha.
  setoid_replace 0 with (inject_Z 0 * pow2 (ulp_exp a)) by ring.
  apply round_pos_ge. ring_simplify. exact Ha.
Qed.

Lemma round_pos_mono (x y : Q) : 0 < x -> x <= y -> round_pos x <= round_pos y.
Proof.
  intros Hx Hxy.
  assert (Hy : 0 < y) by (eapply Qlt_le_trans; eassumption).
  pose proof (ulp_exp_le x y Hx Hxy) as HE.
  destruct (Z.eq_dec (ulp_exp x) (ulp_exp y)) as [Heq | Hne].
  - unfold round_pos. rewrite Heq.
    apply Qmult_le_compat_r; [|apply Qlt_le_weak, pow2_pos].
    rewrite <- Zle_Qle. apply rne_mono. now apply div_pow2_le.
  - assert (Hlt : (ulp_exp x < ulp_exp y)%Z) by lia.
    destruct (floor_log2_spec x Hx) as [_ X2].
    destruct (floor_log2_spec y Hy) as [Y1 _].
    set (ex := floor_log2 x) in *. set (ey := floor_log2 y) in *.
    assert (HEy : ulp_exp y = (ey - 52)%Z).
    { unfold ulp_exp in *. fold ey. fold ex in Hlt. lia. }
    assert (Hex : (ex + 1 <= ey)%Z).
    { unfold ulp_exp in *. fold ex ey in Hlt. lia. }
    assert (HEx : (ulp_exp x <= ey)%Z) by lia.
    apply Qle_trans with (pow2 ey).
    + (* round_pos x <= 2^ey *)
      assert (P : pow2 ey == inject_Z (2 ^ (ey - ulp_exp x)) * pow2 (ulp_exp x)).
      { rewrite <- pow2_nonneg_Z by lia. rewrite <- pow2_plus.
        now replace (ey - ulp_exp x + ulp_exp x)%Z with ey by lia. }
      rewrite P. apply round_pos_le. rewrite <- P.
      apply Qlt_le_weak. eapply Qlt_le_trans; [exact X2|]. now apply pow2_le.
    + (* 2^ey <= round_pos y *)
      assert (P : pow2 ey == inject_Z (2 ^ 52) * pow2 (ulp_exp y)).
      { rewrite <- pow2_nonneg_Z by lia. rewrite <- pow2_plus. rewrite HEy.
        now replace (52 + (ey - 52))%Z with ey by lia. }
      rewrite P. apply round_pos_ge. rewrite <- P. exact Y1.
Qed.

(** A multiple of its own unit in the last place is not changed. *)
Lemma round_pos_fixed (a : Q) (k : Z) :
  a == inject_Z k * pow2 (ulp_exp a) -> round_pos a == a.
Proof.
  intros H. unfold round_pos.
  pose proof (pow2_pos (ulp_exp a)) as PE.
  assert (D : a / pow2 (ulp_exp a) == inject_Z k).
  { rewrite H at 1. field. intros E. rewrite E in PE. now apply (Qlt_irrefl 0). }
  rewrite (rne_comp _ _ D), rne_Z. now symmetry.
Qed.

(** Integers up to [2^53] are Numbers. *)
Lemma round_pos_integer (z : Z) :
  (0 < z <= 2 ^ 53)%Z -> round_pos (inject_Z z) == inject_Z z.
Proof.
  intros [Hz Hle].
  assert (Hpos : 0 < inject_Z z).
  { change 0 with (inject_Z 0). now rewrite <- Zlt_Qlt. }
  destruct (floor_log2_spec _ Hpos) as [F1 F2].
  set (e := floor_log2 (inject_Z z)) in *.
  assert (He : (0 <= e <= 53)%Z).
  { split.
    - assert (0 < e + 1)%Z; [|lia].
      apply pow2_lt_inv. eapply Qle_lt_trans; [|exact F2].
      change (pow2 0) with (inject_Z 1). rewrite <- Zle_Qle. lia.
    - assert (e < 54)%Z; [|lia].
      apply pow2_lt_inv. eapply Qle_lt_trans; [exact F1|].
      rewrite (pow2_nonneg_Z 54) by lia. rewrite <- Zlt_Qlt.
      assert (2 ^ 53 < 2 ^ 54)%Z by (apply Z.pow_lt_mono_r; lia). lia. }
  assert (HE : ulp_exp (inject_Z z) = (e - 52)%Z).
  { unfold ulp_exp. fold e. lia. }
  destruct (Z.eq_dec e 53) as [E53 | Hne].
  - (* z = 2^53 *)
    assert (Hz53 : z = (2 ^ 53)%Z).
    { rewrite E53 in F1. rewrite (pow2_nonneg_Z 53) in F1 by lia.
      rewrite <- Zle_Qle in F1. lia. }
    apply (round_pos_fixed _ (2 ^ 52)). rewrite HE, E53, Hz53.
    rewrite (pow2_nonneg_Z (53 - 52)) by lia. rewrite <- inject_Z_mult.
    reflexivity.
  - apply (round_pos_fixed _ (z * 2 ^ (52 - e))). rewrite HE.
    rewrite inject_Z_mult, <- pow2_nonneg_Z by lia.
    rewrite <- Qmult_assoc, <- pow2_plus.
    replace (52 - e + (e - 52))%Z with 0%Z by lia.
    change (pow2 0) with 1. ring.
Qed.

Lemma fl_pos (a : Q) :
  0 < a -> round_pos a < pow2 1024 -> fl a = Num (Qred (round_pos a)).
Proof.
  intros Ha Hr. unfold fl.
  assert (E : Qcompare a 0 = Gt) by (now apply Qgt_alt).
  rewrite E.
  destruct (Qle_bool (pow2 1024) (round_pos a)) eqn:B; [|reflexivity].
  apply Qle_bool_iff in B. exfalso. apply (Qlt_irrefl (pow2 1024)).
  eapply Qle_lt_trans; eassumption.
Qed.

Lemma fl_zero (a : Q) : a == 0 -> fl a = Num 0.
Proof. intros E. unfold fl. apply Qeq_alt in E. now rewrite E. Qed.

(** Rounding keeps a non-negative rational below a Number [b] that bounds
    it, and moves it by at most half a unit in the last place of [b]. *)
Lemma fl_below (x b : Q) :
  0 <= x -> x <= b -> 0 < b -> round_pos b == b -> b < pow2 1024 ->
  exists y, fl x = Num y /\ 0 <= y /\ y <= b /\
            Qabs (y - x) <= pow2 (ulp_exp b - 1).
Proof.
  intros H0 Hxb Hb Hfix Hmax.
  destruct (Qeq_dec x 0) as [Ez | Hnz].
  - exists 0. rewrite (fl_zero x Ez). split; [reflexivity|].
    split; [apply Qle_refl|]. split; [now apply Qlt_le_weak|].
    rewrite Ez. setoid_replace (0 - 0) with 0 by ring.
    apply Qlt_le_weak, pow2_pos.
  - assert (Hx : 0 < x).
    { apply Qle_lteq in H0 as [H|H]; [exact H|]. exfalso. apply Hnz. now symmetry. }
    pose proof (round_pos_mono x b Hx Hxb) as Hm. rewrite Hfix in Hm.
    exists (Qred (round_pos x)). split.
    + apply fl_pos; [exact Hx|]. eapply Qle_lt_trans; eassumption.
    + rewrite Qred_correct. split; [apply round_pos_nonneg, H0|].
      split; [exact Hm|].
      eapply Qle_trans; [apply round_pos_error|].
      apply pow2_le. pose proof (ulp_exp_le x b Hx Hxb). lia.
Qed.

Lemma Qred_inject_Z (z : Z) : Qred (inject_Z z) = inject_Z z.
Proof.
  unfold Qred, inject_Z.
  pose proof (Z.ggcd_gcd z 1) as Hg.
  pose proof (Z.ggcd_correct_divisors z 1) as Hd.
  destruct (Z.ggcd z 1) as [g [aa bb]]. cbn [fst snd] in *.
  rewrite Z.gcd_1_r in Hg. subst g. destruct Hd as [Ha Hb].
  rewrite Z.mul_1_l in Ha, Hb. now subst aa bb.
Qed.

Lemma Qred_of_integer (q : Q) (z : Z) : q == inject_Z z -> Qred q = inject_Z z.
Proof. intros E. rewrite (Qred_complete _ _ E). apply Qred_inject_Z. Qed.

Lemma inject_Z_pos (z : Z) : (0 < z)%Z -> 0 < inject_Z z.
Proof. intros H. unfold Qlt. cbn. lia. Qed.

Lemma inject_Z_neg (z : Z) : (z < 0)%Z -> inject_Z z < 0.
Proof. intros H. unfold Qlt. cbn. lia. Qed.

Lemma pow2_53_lt_1024 : inject_Z (2 ^ 53) < pow2 1024.
Proof.
  rewrite <- (pow2_nonneg_Z 53) by lia. apply pow2_lt. lia.
Qed.

(** Integers of magnitude up to [2^53] are Numbers. *)
Lemma fl_integer (z : Z) :
  (Z.abs z <= 2 ^ 53)%Z -> fl (inject_Z z) = Num (inject_Z z).
Proof.
  intros Hz. destruct (Z.lt_trichotomy z 0) as [Hneg | [-> | Hpos]].
  - unfold fl.
    assert (E : Qcompare (inject_Z z) 0 = Lt).
    { apply Qlt_alt. now apply inject_Z_neg. }
    rewrite E.
    assert (Hopp : - inject_Z z == inject_Z (- z)) by (rewrite inject_Z_opp; reflexivity).
    assert (Hp : 0 < - inject_Z z).
    { rewrite Hopp. apply inject_Z_pos. lia. }
    assert (R : round_pos (- inject_Z z) == inject_Z (- z)).
    { rewrite (round_pos_comp _ _ Hp Hopp). apply round_pos_integer. lia. }
    destruct (Qle_bool (pow2 1024) (round_pos (- inject_Z z))) eqn:B.
    + exfalso. apply Qle_bool_iff in B. rewrite R in B.
      apply (Qlt_irrefl (pow2 1024)). eapply Qle_lt_trans; [exact B|].
      eapply Qle_lt_trans; [|apply pow2_53_lt_1024].
      rewrite <- Zle_Qle. lia.
    + f_equal. apply Qred_of_integer. rewrite R, inject_Z_opp. ring.
  - reflexivity.
  - rewrite fl_pos.
    + f_equal. apply Qred_of_integer. apply round_pos_integer. lia.
    + now apply inject_Z_pos.
    + rewrite round_pos_integer by lia.
      eapply Qle_lt_trans; [|apply pow2_53_lt_1024]. rewrite <- Zle_Qle. lia.
Qed.

(** The Number nearest to a rational of magnitude [2^53] or more has
    magnitude [2^53] or more. *)
Lemma round_pos_large (a : Q) :
  inject_Z (2 ^ 53) <= a -> inject_Z (2 ^ 53) <= round_pos a.
Proof.
  intros H.
  assert (H0 : 0 < inject_Z (2 ^ 53)) by (apply inject_Z_pos; lia).
  rewrite <- (round_pos_integer (2 ^ 53)) by lia.
  now apply round_pos_mono.
Qed.

Lemma Qred_le_iff (a b : Q) : a <= Qred b <-> a <= b.
Proof. now rewrite Qred_correct. Qed.

(** The value of the Number nearest to [a], when it is finite. *)
Lemma fl_finite_pos (a y : Q) :
  0 < a -> fl a = Num y -> y == round_pos a.
Proof.
  intros Ha. unfold fl.
  assert (E : Qcompare a 0 = Gt) by (now apply Qgt_alt).
  rewrite E. destruct (Qle_bool _ _); [discriminate|].
  intros H. assert (Hy : y = Qred (round_pos a)) by congruence.
  rewrite Hy. apply Qred_correct.
Qed.

Lemma fl_finite_neg (a y : Q) :
  a < 0 -> fl a = Num y -> y == - round_pos (- a).
Proof.
  intros Ha. unfold fl.
  assert (E : Qcompare a 0 = Lt) by (now apply Qlt_alt).
  rewrite E. destruct (Qle_bool _ _); [discriminate|].
  intros H. assert (Hy : y = Qred (- round_pos (- a))) by congruence.
  rewrite Hy. apply Qred_correct.
Qed.

(** A safe integer is the Number of no other integer. *)
Lemma fl_integer_eq (k a : Z) (y : Q) :
  (Z.abs a < 2 ^ 53)%Z ->
  fl (inject_Z k) = Num y -> y == inject_Z a -> k = a.
Proof.
  intros Ha Hfl Hy.
  destruct (Z_le_gt_dec (Z.abs k) (2 ^ 53)) as [Hk | Hk].
  - rewrite (fl_integer k Hk) in Hfl.
    assert (E : y = inject_Z k) by congruence. rewrite E in Hy.
    unfold Qeq in Hy. cbn in Hy. lia.
  - exfalso. destruct (Z.lt_trichotomy k 0) as [Hneg | [-> | Hpos]].
    + assert (Hlt : inject_Z k < 0) by (now apply inject_Z_neg).
      pose proof (fl_finite_neg _ _ Hlt Hfl) as E.
      assert (L : inject_Z (2 ^ 53) <= round_pos (- inject_Z k)).
      { apply round_pos_large. rewrite <- inject_Z_opp, <- Zle_Qle. lia. }
      rewrite Hy in E.
      assert (inject_Z a <= - inject_Z (2 ^ 53)) by (rewrite E; lra).
      rewrite <- inject_Z_opp, <- Zle_Qle in H. lia.
    + cbn in Hk. lia.
    + pose proof (fl_finite_pos _ _ (inject_Z_pos k Hpos) Hfl) as E.
      assert (L : inject_Z (2 ^ 53) <= round_pos (inject_Z k)).
      { apply round_pos_large. rewrite <- Zle_Qle. lia. }
      rewrite <- E, Hy in L. rewrite <- Zle_Qle in L. lia.
Qed.

End Binary64.

(** ** parseInt reads back the numeral of an integer *)

Lemma scan_dec_string_of_uint (d : Decimal.uint) :
  scan_dec (NilEmpty.string_of_uint d) = d.
Proof.
  induction d; simpl; try rewrite IHd; reflexivity.
Qed.

Lemma magnitude_string_of_uint (d : Decimal.uint) :
  d <> Decimal.Nil ->
  magnitude (NilEmpty.string_of_uint d) = Some (N.of_uint d).
Proof.
  intros Hd.
  assert (Hscan := scan_dec_string_of_uint d).
  assert (Hdec : match scan_dec (NilEmpty.string_of_uint d) with
                 | Decimal.Nil => None
                 | u => Some (N.of_uint u)
                 end = Some (N.of_uint d)).
  { rewrite Hscan. destruct d; try reflexivity. contradiction. }
  destruct d as [|d|d|d|d|d|d|d|d|d|d]; try contradiction; try exact Hdec.
  destruct d as [|d|d|d|d|d|d|d|d|d|d]; exact Hdec.
Qed.

(** A text that starts with a byte below 128 other than the six white
    space bytes has no leading white space. *)
Lemma trim_start_plain (a : ascii) (rest : string) :
  is_white_space a = false -> (nat_of_ascii a < 128)%nat ->
  trim_start (String a rest) = String a rest.
Proof.
  intros Hw Ha. cbn [trim_start]. rewrite Hw.
  assert (H2 : forall b, is_white_space2 a b = false).
  { intros b. unfold is_white_space2.
    destruct (Nat.eqb_spec (nat_of_ascii a) 194); [lia|reflexivity]. }
  assert (H3 : forall b c, is_white_space3 a b c = false).
  { intros b c. unfold is_white_space3. cbv zeta.
    destruct (Nat.eqb_spec (nat_of_ascii a) 225); [lia|].
    destruct (Nat.eqb_spec (nat_of_ascii a) 226); [lia|].
    destruct (Nat.eqb_spec (nat_of_ascii a) 227); [lia|].
    destruct (Nat.eqb_spec (nat_of_ascii a) 239); [lia|].
    reflexivity. }
  destruct rest as [|b [|c rest]]; try reflexivity.
  - now rewrite H2.
  - now rewrite H2, H3.
Qed.

Lemma string_of_uint_shape (d : Decimal.uint) :
  d <> Decimal.Nil ->
  trim_start (NilEmpty.string_of_uint d) = NilEmpty.string_of_uint d /\
  split_sign (NilEmpty.string_of_uint d) = (false, NilEmpty.string_of_uint d).
Proof.
  intros Hd.
  destruct d as [|d|d|d|d|d|d|d|d|d|d]; try contradiction;
    (split; [apply trim_start_plain; [reflexivity|cbn; lia]|reflexivity]).
Qed.

Lemma parseInt_string_digits (negative : bool) (d : Decimal.uint) :
  d <> Decimal.Nil ->
  parseInt_string ((if negative then "-" else "") ++ NilEmpty.string_of_uint d)
  = int_number (if negative then (- Z.of_N (N.of_uint d))%Z else Z.of_N (N.of_uint d)).
Proof.
  intros Hd. unfold parseInt_string.
  destruct (string_of_uint_shape d Hd) as [Htrim Hsign].
  destruct negative.
  - change ("-" ++ NilEmpty.string_of_uint d)
      with (String "-"%char (NilEmpty.string_of_uint d)).
    rewrite trim_start_plain by (first [reflexivity | cbn; lia]).
    cbn [split_sign]. now rewrite magnitude_string_of_uint.
  - change ("" ++ NilEmpty.string_of_uint d) with (NilEmpty.string_of_uint d).
    rewrite Htrim, Hsign. cbv beta iota. now rewrite magnitude_string_of_uint.
Qed.

Lemma NilZero_nonnil (d : Decimal.uint) :
  d <> Decimal.Nil -> NilZero.string_of_uint d = NilEmpty.string_of_uint d.
Proof. destruct d; intros H; try reflexivity. contradiction. Qed.

(** The numeral of a positive integer, with or without a sign, reads back
    as the Number of that integer. *)
Lemma parseInt_digits_string (negative : bool) (m : Z) :
  (0 < m)%Z ->
  parseInt_string ((if negative then "-" else "") ++ digits_string m)
  = int_number (if negative then (- m)%Z else m).
Proof.
  intros Hm. destruct m as [|p|p]; try lia.
  unfold digits_string.
  change (N.to_uint (Z.to_N (Z.pos p))) with (Pos.to_uint p).
  pose proof (DecimalPos.Unsigned.to_uint_nonnil p) as Hnn.
  rewrite (NilZero_nonnil _ Hnn).
  rewrite (parseInt_string_digits negative _ Hnn).
  change (N.of_uint (Pos.to_uint p)) with (Pos.of_uint (Pos.to_uint p)).
  now rewrite DecimalPos.Unsigned.of_to.
Qed.

(** ** Number::toString on integers *)

Section NumberToString.
Local Open Scope Q_scope.

Lemma pow10Q_pos (k : Z) : 0 < pow10Q k.
Proof. unfold pow10Q. apply Qpower_0_lt. reflexivity. Qed.

Lemma pow10Q_nonneg_Z (k : Z) : (0 <= k)%Z -> pow10Q k == inject_Z (10 ^ k).
Proof. intros H. unfold pow10Q. now rewrite Zpower_Qpower. Qed.

Lemma dec_exp_up_bounds (fuel : nat) (a : Q) (n N : Z) :
  (n <= N)%Z -> a < pow10Q N -> (n <= dec_exp_up fuel a n <= N)%Z.
Proof.
  revert n. induction fuel as [|fuel IH]; intros n Hn Ha; cbn [dec_exp_up].
  - lia.
  - destruct (Qle_bool (pow10Q n) a) eqn:E; [|lia].
    apply Qle_bool_iff in E.
    assert (n <> N).
    { intros ->. apply (Qlt_irrefl a). eapply Qlt_le_trans; eassumption. }
    specialize (IH (n + 1)%Z ltac:(lia) Ha). lia.
Qed.

Lemma dec_exp_integer (z : Z) :
  (1 <= z < 10 ^ 16)%Z -> (1 <= dec_exp (inject_Z z) <= 16)%Z.
Proof.
  intros Hz. unfold dec_exp.
  assert (E : Qle_bool 1 (inject_Z z) = true).
  { apply Qle_bool_iff. change 1 with (inject_Z 1). rewrite <- Zle_Qle. lia. }
  rewrite E. apply dec_exp_up_bounds; [lia|].
  rewrite pow10Q_nonneg_Z by lia. rewrite <- Zlt_Qlt. lia.
Qed.

Lemma round_pos_zero (a : Q) : a == 0 -> round_pos a == 0.
Proof.
  intros E. unfold round_pos.
  assert (D : a / pow2 (ulp_exp a) == inject_Z 0).
  { unfold Qdiv. change (inject_Z 0) with 0.
    transitivity (0 * / pow2 (ulp_exp a)); [|ring].
    apply Qmult_comp; [exact E | reflexivity]. }
  rewrite (rne_comp _ _ D), rne_Z. change (inject_Z 0) with 0. ring.
Qed.

Lemma try_digits_sound (a : Q) (n0 k s n : Z) :
  0 < a -> (1 <= k)%Z ->
  try_digits a n0 k = Some (s, n) ->
  denotes a k s n = true /\ (n0 <= n <= n0 + 1)%Z /\ (0 <= s)%Z.
Proof.
  intros Ha Hk. unfold try_digits.
  set (scale := pow10Q (n0 - k)).
  set (lo := Qfloor (a / scale)).
  assert (Hlo : (0 <= lo)%Z).
  { unfold lo. change 0%Z with (Qfloor 0). apply Qfloor_resp_le.
    apply Qlt_le_weak, Qlt_shift_div_l; [apply pow10Q_pos|].
    now rewrite Qmult_0_l. }
  assert (Hpow : (0 < 10 ^ (k - 1))%Z) by (apply Z.pow_pos_nonneg; lia).
  destruct ((lo + 1 =? 10 ^ k)%Z);
    destruct (denotes a k lo n0) eqn:D1;
    match goal with
    | |- match denotes ?x ?y ?u ?v with _ => _ end = _ -> _ =>
        destruct (denotes x y u v) eqn:D2
    end;
    try discriminate;
    try (intros [= <- <-]; repeat split; first [assumption | lia]);
    destruct (Qcompare _ _); try destruct (Z.even lo);
    intros [= <- <-]; repeat split; first [assumption | lia].
Qed.

Lemma try_digits_complete (a : Q) (n0 k : Z) :
  denotes a k (Qfloor (a / pow10Q (n0 - k))) n0 = true ->
  try_digits a n0 k <> None.
Proof.
  intros D. unfold try_digits. rewrite D.
  repeat match goal with
         | |- context [match ?x with _ => _ end] =>
             lazymatch x with
             | denotes _ _ _ _ => destruct x
             | Qcompare _ _ => destruct x
             | Z.even _ => destruct x
             end
         end; discriminate.
Qed.

Lemma shortest_digits_sound (fuel : nat) (a : Q) (n0 k k0 : Z) :
  (k <= k0)%Z -> (k0 < k + Z.of_nat fuel)%Z ->
  try_digits a n0 k0 <> None ->
  exists k' s n,
    shortest_digits fuel a n0 k = (k', s, n) /\ (k <= k' <= k0)%Z /\
    try_digits a n0 k' = Some (s, n).
Proof.
  revert k. induction fuel as [|fuel IH]; intros k Hk Hfuel Hsome.
  - lia.
  - cbn [shortest_digits].
    destruct (try_digits a n0 k) as [[s n]|] eqn:E.
    + exists k, s, n. repeat split; [lia | lia | exact E].
    + assert (k <> k0) by (intros ->; contradiction).
      destruct (IH (k + 1)%Z ltac:(lia) ltac:(lia) Hsome) as (k' & s & n & H1 & H2 & H3).
      exists k', s, n. repeat split; [exact H1 | lia | lia | exact H3].
Qed.

(** The text of a positive safe integer is a plain numeral, of an integer
    that rounds to it. *)
Lemma positive_toString_integer (z : Z) :
  (0 < z <= 2 ^ 53)%Z ->
  exists m, positive_toString (inject_Z z) = digits_string m /\ (0 < m)%Z /\
            round_pos (inject_Z m) == inject_Z z.
Proof.
  intros Hz. set (a := inject_Z z).
  assert (Ha : 0 < a) by (apply inject_Z_pos; lia).
  assert (Hfix : round_pos a == a) by (apply round_pos_integer; lia).
  pose proof (dec_exp_integer z ltac:(lia)) as Hn0. fold a in Hn0.
  set (n0 := dec_exp a) in *.
  assert (Hat : try_digits a n0 n0 <> None).
  { apply try_digits_complete. rewrite Z.sub_diag.
    assert (Ediv : a / pow10Q 0 == inject_Z z).
    { unfold pow10Q. cbn [Qpower]. unfold a. field. }
    rewrite (Qfloor_comp _ _ Ediv), Qfloor_Z.
    unfold denotes, digits_value. rewrite Z.sub_diag. apply Qeq_bool_iff.
    transitivity (round_pos a); [|exact Hfix]. apply round_pos_comp.
    - unfold pow10Q. cbn [Qpower]. rewrite Qmult_1_r. exact Ha.
    - unfold pow10Q. cbn [Qpower]. unfold a. ring. }
  destruct (shortest_digits_sound 21 a n0 1 n0 ltac:(lia) ltac:(lia) Hat)
    as (k & s & n & Hs & Hk & Ht).
  destruct (try_digits_sound a n0 k s n Ha ltac:(lia) Ht) as (Hd & Hn & Hs0).
  unfold positive_toString. fold a. fold n0. rewrite Hs.
  unfold format_digits.
  assert (B : ((k <=? n) && (n <=? 21))%Z = true).
  { apply andb_true_iff. split; apply Z.leb_le; lia. }
  rewrite B.
  assert (Ev : digits_value k s n == inject_Z (s * 10 ^ (n - k))).
  { unfold digits_value. rewrite pow10Q_nonneg_Z by lia.
    now rewrite inject_Z_mult. }
  unfold denotes in Hd. apply Qeq_bool_iff in Hd.
  assert (Hspos : (0 < s)%Z).
  { destruct (Z.eq_dec s 0) as [-> | Hne]; [|lia]. exfalso.
    assert (Z0 : digits_value k 0 n == 0) by (unfold digits_value; ring).
    rewrite (round_pos_zero _ Z0) in Hd. rewrite <- Hd in Ha.
    now apply (Qlt_irrefl 0). }
  assert (Hm : (0 < s * 10 ^ (n - k))%Z).
  { apply Z.mul_pos_pos; [exact Hspos|]. apply Z.pow_pos_nonneg; lia. }
  exists (s * 10 ^ (n - k))%Z. split; [reflexivity|]. split; [exact Hm|].
  rewrite <- Hd. symmetry. apply round_pos_comp; [|exact Ev].
  rewrite Ev. now apply inject_Z_pos.
Qed.

Lemma fl_opp (a : Q) :
  0 < a -> round_pos a < pow2 1024 -> fl (- a) = Num (Qred (- round_pos a)).
Proof.
  intros Ha Hr. unfold fl.
  assert (Hn : - a < 0) by (apply (Qopp_lt_compat 0 a Ha)).
  assert (E : Qcompare (- a) 0 = Lt) by (now apply Qlt_alt).
  rewrite E.
  assert (R : round_pos (- - a) == round_pos a).
  { apply round_pos_comp; [lra | ring]. }
  destruct (Qle_bool (pow2 1024) (round_pos (- - a))) eqn:B.
  - apply Qle_bool_iff in B. rewrite R in B. exfalso.
    apply (Qlt_irrefl (pow2 1024)). eapply Qle_lt_trans; eassumption.
  - f_equal. apply Qred_complete. now rewrite R.
Qed.

(** The Number of an integer that rounds to a safe integer. *)
Lemma int_number_rounds (negative : bool) (m z : Z) :
  (0 < m)%Z -> (0 < z <= 2 ^ 53)%Z ->
  round_pos (inject_Z m) == inject_Z z ->
  int_number (if negative then (- m)%Z else m)
  = Num (inject_Z (if negative then (- z)%Z else z)).
Proof.
  intros Hm Hz R. unfold int_number.
  assert (Hp : 0 < inject_Z m) by now apply inject_Z_pos.
  assert (Hmax : round_pos (inject_Z m) < pow2 1024).
  { rewrite R. eapply Qle_lt_trans; [|apply pow2_53_lt_1024].
    rewrite <- Zle_Qle. lia. }
  destruct negative.
  - change (inject_Z (- m)) with (- inject_Z m).
    rewrite (fl_opp _ Hp Hmax). f_equal. apply Qred_of_integer.
    rewrite R. now rewrite inject_Z_opp.
  - rewrite (fl_pos _ Hp Hmax). f_equal. now apply Qred_of_integer.
Qed.

End NumberToString.

(** [parseInt] of a safe integer is that integer. *)
Lemma parseInt_int (z : Z) :
  safe_integer z -> parseInt (Some (JNum z)) = Ok (Num (inject_Z z)).
Proof.
  unfold safe_integer. intros Hz.
  unfold parseInt, JNum. cbn [ToString rbind].
  rewrite fl_integer by lia. f_equal.
  unfold Number_toString.
  destruct z as [|p|p].
  - reflexivity.
  - assert (E : Qcompare (inject_Z (Z.pos p)) 0 = Gt) by reflexivity.
    rewrite E.
    destruct (positive_toString_integer (Z.pos p) ltac:(lia)) as (m & -> & Hm & R).
    pose proof (parseInt_digits_string false m Hm) as P.
    change (parseInt_string (digits_string m) = int_number m) in P. rewrite P.
    apply (int_number_rounds false m (Z.pos p) Hm ltac:(lia) R).
  - assert (E : Qcompare (inject_Z (Z.neg p)) 0 = Lt) by reflexivity.
    rewrite E.
    change (Qopp (inject_Z (Z.neg p))) with (inject_Z (Z.pos p)).
    destruct (positive_toString_integer (Z.pos p) ltac:(lia)) as (m & -> & Hm & R).
    rewrite (parseInt_digits_string true m Hm).
    apply (int_number_rounds true m (Z.pos p) Hm ltac:(lia) R).
Qed.

(** ** Sample evaluations *)

(** The strings of the fourth line on start with U+00A0, with U+3000 and
    with U+200B, which is not white space. *)
Example parseInt_examples :
  parseInt (Some (JNum 7%Z)) = Ok (Num 7) /\
  parseInt (Some (JNum (-12)%Z)) = Ok (Num (-12)) /\
  parseInt (Some (JNumber (3 # 2))) = Ok (Num 1) /\
  parseInt (Some (JNum (10 ^ 21)%Z)) = Ok (Num 1) /\
  parseInt (Some (JStr "  42px")) = Ok (Num 42) /\
  parseInt (Some (JStr "0x1f")) = Ok (Num 31) /\
  parseInt (Some (JStr (String (ascii_of_nat 194) (String (ascii_of_nat 160) "42"))))
  = Ok (Num 42) /\
  parseInt (Some (JStr (String (ascii_of_nat 227) (String (ascii_of_nat 128)
                          (String (ascii_of_nat 128) "-42")))))
  = Ok (Num (-42)) /\
  parseInt (Some (JStr (String (ascii_of_nat 226) (String (ascii_of_nat 128)
                          (String (ascii_of_nat 139) "42")))))
  = Ok NaN /\
  parseInt (Some (JStr "abc")) = Ok NaN /\
  parseInt (Some JNull) = Ok NaN /\
  parseInt (Some (JArr [JNum 3%Z; JNum 4%Z])) = Ok (Num 3) /\
  parseInt (Some (JObj [("a", JNum 1%Z)])) = Ok NaN /\
  parseInt (Some (JObj [("toString", JNum 1%Z)])) = Throw TypeError.
Proof. repeat split; vm_compute; reflexivity. Qed.

Example Number_toString_examples :
  Number_toString (fl (3 # 2)) = "1.5" /\
  Number_toString (fl (1 # 10)) = "0.1" /\
  Number_toString (fl (inject_Z (10 ^ 21))) = "1e+21" /\
  Number_toString (fl (inject_Z (2 ^ 60))) = "1152921504606847000" /\
  Number_toString (fl (-1 # 8000000)) = "-1.25e-7" /\
  Number_toString (number_mul (number_div 11 20) 100) = "55.00000000000001" /\
  Number_toString (number_mul (number_div 1 3) 100) = "33.33333333333333".
Proof. repeat split; vm_compute; reflexivity. Qed.

Example grade_example :
  grade (Some [question "q1" ["a"; "b"; "c"] 1%Z; question "q2" ["a"; "b"; "c"] 2%Z])
        [JNum 1%Z; JNum 0%Z]
  = Ok (mkGraded (Num 50) 1 2).
Proof. vm_compute. reflexivity. Qed.

Example toFixed_examples :
  fixed_text_string (toFixed (number_mul (number_div 1 2) 100) 2) = "50.00" /\
  fixed_text_string (toFixed (number_mul (number_div 1 3) 100) 2) = "33.33" /\
  fixed_text_string (toFixed (number_mul (number_div 2 3) 100) 2) = "66.67" /\
  fixed_text_string (toFixed (number_mul (number_div 23 160) 100) 2) = "14.37" /\
  fixed_text_string (toFixed (number_mul (number_div 1 4000) 100) 2) = "0.03" /\
  fixed_text_string (toFixed (number_mul (number_div 23 40) 100) 0) = "57" /\
  fixed_text_string (toFixed (number_div 0 0) 2) = "NaN".
Proof. repeat split; vm_compute; reflexivity. Qed.

(** A learner passes the quiz of the dump and then submits again with a
    wrong answer: both attempts are kept, the progress row is the same one
    with a later timestamp. *)
Example resubmission_keeps_one_progress_row :
  let c := serve_all [(SubmitQuiz learner3 2 (Some (JArr [JNum 1%Z])), 10);
                      (SubmitQuiz learner3 2 (Some (JArr [JNum 0%Z])), 20)]
                     (mkConn dump []) in
  user_quiz_attempts (db c)
  = [mkAttempt 3 2 10000%Z 10 [JNum 1%Z]; mkAttempt 3 2 0%Z 20 [JNum 0%Z]] /\
  user_content_progress (db c) = [mkProgress 3 2 true 20].
Proof. split; vm_compute; reflexivity. Qed.

(** ** The grading loop *)

(** An integer answer that arithmetic keeps exact equals the stored
    Number of an integer exactly when the integers are equal. *)
Lemma number_eq_int (z k : Z) :
  safe_integer z -> number_eq (Num (inject_Z z)) (fl (inject_Z k)) = Z.eqb z k.
Proof.
  intros Hz. destruct (Z.eqb_spec z k) as [<- | Hne].
  - unfold safe_integer in Hz. rewrite fl_integer by lia.
    cbn [number_eq]. apply Qeq_bool_iff. reflexivity.
  - destruct (fl (inject_Z k)) as [| | |y] eqn:E; try reflexivity.
    cbn [number_eq]. destruct (Qeq_bool (inject_Z z) y) eqn:B; [|reflexivity].
    exfalso. apply Hne. symmetry.
    apply Qeq_bool_iff in B. eapply fl_integer_eq; [exact Hz | exact E |].
    now symmetry.
Qed.

Lemma reading_int (z : Z) :
  safe_integer z -> reading (JNum z) = Some (Num (inject_Z z)).
Proof. intros Hz. unfold reading. now rewrite parseInt_int. Qed.

Lemma printable_int (z : Z) : printable (JNum z) = true.
Proof. reflexivity. Qed.

(** One iteration on an answer that converts to a string. *)
Lemma grade_question_match (q : value) (a : option json) :
  (forall j, a = Some j -> printable j = true) ->
  grade_question q a = Ok (is_match q a).
Proof.
  intros Hp. unfold grade_question, is_match, stored_index.
  destruct q as [[| [|] | z | s | items | fields]|]; cbn [truthy get_prop rbind];
    try reflexivity.
  - destruct (negb _); reflexivity.
  - destruct (negb _); reflexivity.
  - destruct (lookup "correct_answer_index" fields) as [c|];
      [|destruct a; reflexivity].
    destruct a as [a|]; [|destruct c; reflexivity].
    specialize (Hp a eq_refl). unfold printable in Hp.
    unfold reading, parseInt.
    destruct (ToString a) as [s|e]; [|discriminate]. cbn [rbind].
    unfold number_strict_eq. destruct c; reflexivity.
Qed.

(** One iteration on an answer that does not convert: it throws when the
    item has a [correct_answer_index], whatever its value. *)
Lemma grade_question_throws (fields : list (string * json)) (c a : json) :
  lookup "correct_answer_index" fields = Some c ->
  printable a = false ->
  exists e, grade_question (Some (JObj fields)) (Some a) = Throw e.
Proof.
  intros Hc Hp. unfold grade_question. cbn [truthy get_prop rbind].
  rewrite Hc. unfold parseInt, printable in *.
  destruct (ToString a) as [s|e]; [discriminate|]. now exists e.
Qed.

Lemma grade_loop_match (n i : nat) (quiz_data answers : list json)
    (correctAnswers : nat) :
  Forall (fun a => printable a = true) answers ->
  grade_loop n i quiz_data answers correctAnswers
  = Ok (correctAnswers
        + List.length (filter (matched quiz_data answers) (seq i n)))%nat.
Proof.
  intros Hp. revert i correctAnswers.
  induction n as [|n IH]; intros i acc; cbn [grade_loop seq filter].
  - now rewrite Nat.add_0_r.
  - rewrite grade_question_match.
    2:{ intros j Hj. rewrite Forall_forall in Hp. apply Hp.
        eapply nth_error_In. exact Hj. }
    cbn [rbind]. rewrite IH. unfold matched at 2.
    destruct (is_match (nth_error quiz_data i) (nth_error answers i));
      cbn [List.length]; f_equal; lia.
Qed.

Lemma grade_match (quiz_data answers : list json) :
  Forall (fun a => printable a = true) answers ->
  grade (Some quiz_data) answers
  = Ok (mkGraded
          (number_mul (number_div (count_matched quiz_data answers)
                                  (List.length quiz_data)) 100)
          (count_matched quiz_data answers)
          (List.length quiz_data)).
Proof.
  intros Hp. unfold grade. rewrite grade_loop_match by exact Hp. reflexivity.
Qed.

Lemma printable_ints (answers : list Z) :
  Forall (fun a => printable a = true) (map JNum answers).
Proof. apply Forall_forall. intros a Ha. apply in_map_iff in Ha as (z & <- & _). reflexivity. Qed.

Lemma filter_seq_le {f : nat -> bool} (i n : nat) :
  (List.length (filter f (seq i n)) <= n)%nat.
Proof.
  rewrite <- (length_seq n i) at 2. apply filter_length_le.
Qed.

Lemma count_matched_le (quiz_data answers : list json) :
  (count_matched quiz_data answers <= List.length quiz_data)%nat.
Proof. apply filter_seq_le. Qed.

(** ** The score *)

Section Score.
Local Open Scope Q_scope.

Lemma ratio_bounds (c n : nat) :
  (0 < n)%nat -> (c <= n)%nat ->
  0 <= inject_Z (Z.of_nat c) / inject_Z (Z.of_nat n) <= 1.
Proof.
  intros Hn Hc.
  assert (Hpos : 0 < inject_Z (Z.of_nat n)) by (apply inject_Z_pos; lia).
  split.
  - apply Qle_shift_div_l; [exact Hpos|].
    rewrite Qmult_0_l. change 0 with (inject_Z 0). rewrite <- Zle_Qle. lia.
  - apply Qle_shift_div_r; [exact Hpos|].
    rewrite Qmult_1_l. rewrite <- Zle_Qle. lia.
Qed.

Lemma percentage_bounds (c n : nat) :
  (0 < n)%nat -> (c <= n)%nat -> 0 <= percentage c n <= 100.
Proof.
  intros Hn Hc. unfold percentage.
  destruct (ratio_bounds c n Hn Hc) as [H0 H1].
  set (x := inject_Z (Z.of_nat c) / inject_Z (Z.of_nat n)) in *.
  split; lra.
Qed.

Lemma percentage_full (n : nat) : (0 < n)%nat -> percentage n n == 100.
Proof.
  intros Hn. unfold percentage.
  assert (Hne : ~ inject_Z (Z.of_nat n) == 0).
  { change 0 with (inject_Z 0). rewrite inject_Z_injective. lia. }
  field. exact Hne.
Qed.

Lemma ulp_exp_1 : ulp_exp 1 = (-52)%Z.
Proof. reflexivity. Qed.

Lemma ulp_exp_100 : ulp_exp 100 = (-46)%Z.
Proof. reflexivity. Qed.

Lemma pow2_1024_large (z : Z) : (z <= 2 ^ 53)%Z -> inject_Z z < pow2 1024.
Proof.
  intros H. eapply Qle_lt_trans; [|apply pow2_53_lt_1024].
  now rewrite <- Zle_Qle.
Qed.

(** The quotient of the two counters: the Number nearest to [c / n], which
    lies in [[0, 1]] within [2^-53] of it. *)
Lemma number_div_close (c n : nat) :
  (0 < n)%nat -> (c <= n)%nat ->
  exists y, number_div c n = Num y /\ 0 <= y <= 1 /\
            Qabs (y - inject_Z (Z.of_nat c) / inject_Z (Z.of_nat n)) <= pow2 (-53).
Proof.
  intros Hn Hc. destruct n as [|n]; [lia|]. cbn [number_div].
  assert (Ex : Z.of_nat c # Pos.of_nat (S n)
               == inject_Z (Z.of_nat c) / inject_Z (Z.of_nat (S n))).
  { rewrite Qmake_Qdiv.
    replace (Zpos (Pos.of_nat (S n))) with (Z.of_nat (S n)) by lia. reflexivity. }
  destruct (ratio_bounds c (S n) ltac:(lia) Hc) as [H0 H1].
  rewrite <- Ex in H0, H1.
  destruct (fl_below (Z.of_nat c # Pos.of_nat (S n)) 1 H0 H1) as (y & Hy & Y0 & Y1 & Herr).
  - reflexivity.
  - apply (round_pos_integer 1). lia.
  - apply (pow2_1024_large 1). lia.
  - exists y. split; [exact Hy|]. split; [split; assumption|].
    rewrite <- Ex. exact Herr.
Qed.

(** The score: the Number [(c / n) * 100] lies in [[0, 100]] within [2^-45]
    of the percentage. *)
Lemma score_close (c n : nat) :
  (0 < n)%nat -> (c <= n)%nat ->
  exists q, number_mul (number_div c n) 100 = Num q /\ 0 <= q <= 100 /\
            Qabs (q - percentage c n) <= pow2 (-45).
Proof.
  intros Hn Hc.
  destruct (number_div_close c n Hn Hc) as (y & -> & [Y0 Y1] & Herr).
  cbn [number_mul].
  assert (M0 : 0 <= y * (100 # 1)) by lra.
  assert (M1 : y * (100 # 1) <= 100) by lra.
  destruct (fl_below (y * (100 # 1)) 100 M0 M1) as (q & Hq & Q0 & Q1 & Herr2).
  - reflexivity.
  - apply (round_pos_integer 100). lia.
  - apply (pow2_1024_large 100). lia.
  - exists q. split; [exact Hq|]. split; [split; assumption|].
    rewrite ulp_exp_100 in Herr2. unfold percentage.
    set (x := inject_Z (Z.of_nat c) / inject_Z (Z.of_nat n)) in *.
    change (pow2 (-53)) with (1 # 9007199254740992) in Herr.
    change (pow2 (-46 - 1)) with (1 # 140737488355328) in Herr2.
    change (pow2 (-45)) with (1 # 35184372088832).
    apply Qabs_Qle_condition in Herr as [E1 E2].
    apply Qabs_Qle_condition in Herr2 as [E3 E4].
    apply Qabs_Qle_condition. split; lra.
Qed.

(** All answers right: the score is exactly 100. *)
Lemma score_full (n : nat) :
  (0 < n)%nat -> number_mul (number_div n n) 100 = Num 100.
Proof.
  intros Hn. destruct n as [|n]; [lia|]. cbn [number_div].
  assert (E1 : Z.of_nat (S n) # Pos.of_nat (S n) == inject_Z 1).
  { unfold Qeq. cbn [Qnum Qden inject_Z]. lia. }
  assert (P1 : 0 < Z.of_nat (S n) # Pos.of_nat (S n)) by (rewrite E1; reflexivity).
  assert (R1 : round_pos (Z.of_nat (S n) # Pos.of_nat (S n)) == inject_Z 1).
  { rewrite (round_pos_comp _ _ P1 E1). apply round_pos_integer. lia. }
  rewrite fl_pos; [|exact P1|rewrite R1; apply (pow2_1024_large 1); lia].
  rewrite (Qred_of_integer _ 1 R1). reflexivity.
Qed.

(** No answer right: the score is exactly 0. *)
Lemma score_none (n : nat) :
  (0 < n)%nat -> number_mul (number_div 0 n) 100 = Num 0.
Proof. intros Hn. destruct n as [|n]; [lia|]. reflexivity. Qed.

End Score.

(** ** Rounding to two decimals *)

Lemma round_half_away_spec (q : Q) :
  (0 <= q)%Q ->
  (0 <= round_half_away q)%Z /\
  (inject_Z (round_half_away q) - (1 # 2) <= q)%Q /\
  (q < inject_Z (round_half_away q) + (1 # 2))%Q.
Proof.
  intros Hq. unfold round_half_away.
  destruct (Qle_bool 0 q) eqn:E.
  2:{ apply Qle_bool_iff in Hq. congruence. }
  pose proof (Qfloor_le (q + (1 # 2))) as Hle.
  pose proof (Qlt_floor (q + (1 # 2))) as Hlt.
  rewrite inject_Z_plus in Hlt. change (inject_Z 1) with 1%Q in Hlt.
  split; [|split; lra].
  change 0%Z with (Qfloor 0). apply Qfloor_resp_le. lra.
Qed.

Lemma round_half_away_le (q : Q) (k : Z) :
  (0 <= q)%Q -> (q <= inject_Z k)%Q -> (round_half_away q <= k)%Z.
Proof.
  intros H0 Hk.
  destruct (round_half_away_spec q H0) as (_ & Hlo & _).
  assert (H : (inject_Z (round_half_away q) < inject_Z (k + 1))%Q).
  { rewrite inject_Z_plus. change (inject_Z 1) with 1%Q. lra. }
  rewrite <- Zlt_Qlt in H. lia.
Qed.

Lemma round_half_away_Z (h : Z) (q : Q) :
  (q == inject_Z h)%Q -> round_half_away q = h.
Proof.
  intros Hq. unfold round_half_away.
  destruct (Qle_bool 0 q) eqn:E.
  - apply Z.le_antisymm.
    + assert (H : (inject_Z (Qfloor (q + (1 # 2))) < inject_Z (h + 1))%Q).
      { pose proof (Qfloor_le (q + (1 # 2))).
        rewrite inject_Z_plus. change (inject_Z 1) with 1%Q. lra. }
      rewrite <- Zlt_Qlt in H. lia.
    + rewrite <- (Qfloor_Z h). apply Qfloor_resp_le. lra.
  - assert (Hneg : (q < 0)%Q).
    { apply Qnot_le_lt. intros H. apply Qle_bool_iff in H. congruence. }
    apply Z.le_antisymm.
    + assert (H : (inject_Z (- h) < inject_Z (Qfloor (- q + (1 # 2)) + 1))%Q).
      { pose proof (Qlt_floor (- q + (1 # 2))) as Hlt.
        rewrite inject_Z_opp. lra. }
      rewrite <- Zlt_Qlt in H. lia.
    + assert (H : (inject_Z (Qfloor (- q + (1 # 2))) < inject_Z (- h + 1))%Q).
      { pose proof (Qfloor_le (- q + (1 # 2))).
        rewrite inject_Z_plus, inject_Z_opp. change (inject_Z 1) with 1%Q. lra. }
      rewrite <- Zlt_Qlt in H. lia.
Qed.

Lemma decimal_5_2_two_digits (strict : bool) (h : Z) :
  (Z.abs h <= 99999)%Z -> decimal_5_2 strict (TextDec 2 h) = Ok h.
Proof.
  intros Hh. unfold decimal_5_2.
  rewrite (round_half_away_Z h).
  - destruct (Z.leb_spec (Z.abs h) 99999); [reflexivity|lia].
  - unfold scale10. cbn [pow10]. rewrite Qmake_Qdiv.
    change (Z.pos (10 * (10 * 1))) with 100%Z.
    change (100 # 1)%Q with (inject_Z 100). field.
Qed.

(** [toFixed] of a Number between 0 and 100. *)
Lemma toFixed_percent (q : Q) (f : nat) :
  (0 <= q <= 100)%Q ->
  toFixed (Num q) f = TextDec f (round_half_away (scale10 f q)).
Proof.
  intros [H0 H1]. unfold toFixed.
  assert (A : Qle_bool (pow10Q 21) (Qabs q) = false).
  { apply not_true_is_false. intros B. apply Qle_bool_iff in B.
    rewrite Qabs_pos in B by exact H0.
    change (pow10Q 21) with (1000000000000000000000 # 1)%Q in B. lra. }
  rewrite A.
  assert (B : Qle_bool 0 q = true) by (now apply Qle_bool_iff).
  rewrite B. cbn [negb]. now rewrite andb_false_r.
Qed.

(** ** What the store keeps of a score *)

Lemma score_storable (strict : bool) (c n : nat) :
  (0 < n)%nat -> (c <= n)%nat ->
  exists q h,
    number_mul (number_div c n) 100 = Num q /\
    (Qabs (q - percentage c n) <= pow2 (-45))%Q /\
    (0 <= q <= 100)%Q /\
    toFixed (Num q) 2 = TextDec 2 h /\
    decimal_5_2 strict (TextDec 2 h) = Ok h /\
    (0 <= h <= 10000)%Z /\
    (inject_Z h - (1 # 2) <= q * 100 < inject_Z h + (1 # 2))%Q.
Proof.
  intros Hn Hc.
  destruct (score_close c n Hn Hc) as (q & Hq & Hb & Hval).
  assert (Hs : (0 <= q * 100)%Q) by lra.
  destruct (round_half_away_spec _ Hs) as (H0 & Hlo & Hhi).
  assert (Hle : (round_half_away (q * 100) <= 10000)%Z).
  { apply round_half_away_le; [exact Hs|].
    change (inject_Z 10000) with (10000 # 1)%Q. lra. }
  exists q, (round_half_away (q * 100)).
  split; [exact Hq|]. split; [exact Hval|]. split; [exact Hb|].
  split; [apply (toFixed_percent q 2 Hb)|].
  split; [apply decimal_5_2_two_digits; lia|].
  split; [lia|]. split; assumption.
Qed.

(** ** Running a handler statement by statement *)

Lemma round_trip_cases (c : conn) :
  (exists c1, round_trip c = (Ok tt, c1) /\ db c1 = db c /\ (faulty c1 -> faulty c)) \/
  (exists e c1, round_trip c = (Throw e, c1) /\ db c1 = db c /\ faulty c).
Proof.
  unfold round_trip, faulty. destruct c as [s [|[|] fl]]; cbn [faults db].
  - left. eauto.
  - right. do 2 eexists. split; [reflexivity|]. split; [reflexivity|]. now left.
  - left. eexists. split; [reflexivity|]. split; [reflexivity|]. intros H. now right.
Qed.

Lemma round_trip_no_fault (c : conn) :
  faults c = [] -> round_trip c = (Ok tt, c).
Proof. unfold round_trip. now intros ->. Qed.

Ltac run_round_trip :=
  match goal with
  | |- context [round_trip ?c] =>
      let c1 := fresh "c" in
      let E := fresh "E" in
      let D := fresh "D" in
      let F := fresh "F" in
      let e := fresh "e" in
      destruct (round_trip_cases c) as [(c1 & E & D & F) | (e & c1 & E & D & F)];
      rewrite E; cbv beta iota; cbn [db] in D
  end.

Ltac unfold_handler :=
  unfold try_catch, beginTransaction, query, execute, commit, rollback,
    bind, ret, lift, throw.

(** ** Foreign keys *)

Lemma foreign_key_holds {A : Type} (name : string) (rows : list A) :
  rows <> [] -> foreign_key name rows = Ok tt.
Proof. destruct rows; [contradiction|reflexivity]. Qed.

Lemma quiz_is_content (s : store) (id : nat) : has_quiz s id -> has_content s id.
Proof.
  unfold has_quiz, has_content, select_quiz, select_content. intros H Hnil.
  apply H. clear H.
  induction (content s) as [|c l IH]; [reflexivity|].
  cbn [filter] in *. destruct (Nat.eqb (c_id c) id); [discriminate|].
  cbn [andb]. now apply IH.
Qed.

Lemma insert_attempt_stored (u cid now : nat) (t : fixed_text) (h : Z)
    (answers : list json) (s : store) :
  decimal_5_2 (sql_strict s) t = Ok h ->
  has_user s u -> has_quiz s cid ->
  insert_attempt u cid t answers now s = Ok (record_attempt u cid h answers now s).
Proof.
  intros Hh Hu Hq. unfold insert_attempt. rewrite Hh. cbn [rbind].
  rewrite (foreign_key_holds _ _ Hu). cbn [rbind].
  rewrite (foreign_key_holds _ _ (quiz_is_content s cid Hq)). reflexivity.
Qed.

Lemma insert_attempt_no_user (u cid now : nat) (t : fixed_text)
    (answers : list json) (s : store) :
  select_user s u = [] ->
  exists e, insert_attempt u cid t answers now s = Throw e.
Proof.
  intros Hu. unfold insert_attempt.
  destruct (decimal_5_2 (sql_strict s) t) as [h|e]; cbn [rbind]; [|now exists e].
  rewrite Hu. cbn [foreign_key rbind]. eauto.
Qed.

(** ** Outcome of a quiz submission *)

Ltac hyp := first [reflexivity | eassumption].

Ltac submit_fails :=
  cbv beta iota; right; eexists; split; [reflexivity|];
  split; [cbn [db]; congruence|];
  first [ left; split; hyp
        | right; split; [reflexivity|];
          first [ left; unfold faulty in *; cbn [faults] in *; tauto
                | right; left; hyp
                | right; right; do 2 eexists; split; [hyp|];
                  first [ left; eexists; hyp
                        | right; do 2 eexists; split; hyp ] ] ].

Lemma submit_quiz_outcome (u : user) (cid : nat) (answers : list json)
    (now : nat) (c : conn) :
  u_role u = Learner ->
  let '(res, c') := submit_quiz (Token u) cid (Some (JArr answers)) now c in
  (exists row rest g h,
      select_quiz (db c) cid = row :: rest /\
      grade (c_quiz_data row) answers = Ok g /\
      decimal_5_2 (sql_strict (db c)) (toFixed (g_score g) 2) = Ok h /\
      has_user (db c) (u_id u) /\
      res = Ok (mkResponse 200
                  (QuizResult (g_score g) (g_correctAnswers g) (g_totalQuestions g)
                              "Quiz submitted successfully")) /\
      db c' = upsert_progress (u_id u) cid now
                (record_attempt (u_id u) cid h answers now (db c)))
  \/ (exists r,
        res = Ok r /\ db c' = db c /\
        ((status r = 404 /\ select_quiz (db c) cid = [])
         \/ (status r = 500 /\
             (faulty c
              \/ select_user (db c) (u_id u) = []
              \/ exists row rest,
                   select_quiz (db c) cid = row :: rest /\
                   ((exists e, grade (c_quiz_data row) answers = Throw e)
                    \/ exists g e,
                         grade (c_quiz_data row) answers = Ok g /\
                         decimal_5_2 (sql_strict (db c)) (toFixed (g_score g) 2)
                         = Throw e))))).
Proof.
  intros Hrole.
  unfold submit_quiz, authenticateToken, authorizeRole.
  rewrite Hrole. cbn [existsb role_eqb orb].
  run_round_trip; [|submit_fails].
  unfold submit_transaction. unfold_handler.
  run_round_trip; [|submit_fails].
  run_round_trip; [|submit_fails].
  replace (db c2) with (db c) by congruence.
  destruct (select_quiz (db c) cid) as [|row rest] eqn:Hsel; [submit_fails|].
  destruct (grade (c_quiz_data row) answers) as [g|] eqn:Hg; [|submit_fails].
  run_round_trip; [|submit_fails].
  replace (db c3) with (db c) by congruence.
  destruct (decimal_5_2 (sql_strict (db c)) (toFixed (g_score g) 2)) as [h|] eqn:Hh.
  2:{ unfold insert_attempt. rewrite Hh. cbn [rbind]. submit_fails. }
  destruct (select_user (db c) (u_id u)) as [|urow urest] eqn:Hu.
  { destruct (insert_attempt_no_user (u_id u) cid now (toFixed (g_score g) 2)
                answers (db c) Hu) as (e & ->).
    submit_fails. }
  assert (Huser : has_user (db c) (u_id u)) by (unfold has_user; congruence).
  assert (Hquiz : has_quiz (db c) cid) by (unfold has_quiz; congruence).
  rewrite (insert_attempt_stored _ _ _ _ h _ _ Hh Huser Hquiz).
  run_round_trip; [|submit_fails].
  rewrite D3.
  set (s1 := record_attempt (u_id u) cid h answers now (db c)) in *.
  assert (Hup : forall c5 : conn, db c5 = s1 ->
            (match select_progress s1 (u_id u) cid with
             | [] => insert_progress (u_id u) cid now (db c5)
             | _ :: _ => touch_progress (u_id u) cid now (db c5)
             end) = Ok (upsert_progress (u_id u) cid now s1)).
  { intros c5 ->. unfold upsert_progress, insert_progress, touch_progress, refresh.
    destruct (select_progress s1 (u_id u) cid) eqn:Hp; [|reflexivity].
    change (select_user s1 (u_id u)) with (select_user (db c) (u_id u)).
    change (select_content s1 cid) with (select_content (db c) cid).
    rewrite (foreign_key_holds _ _ Huser). cbn [rbind].
    rewrite (foreign_key_holds _ _ (quiz_is_content _ _ Hquiz)). reflexivity. }
  destruct (select_progress s1 (u_id u) cid) eqn:Hp.
  - run_round_trip; [|submit_fails].
    rewrite (Hup c5) by congruence.
    run_round_trip; [|submit_fails].
    left. exists row, rest, g, h. cbn [db] in *. subst s1.
    repeat split; congruence.
  - run_round_trip; [|submit_fails].
    rewrite (Hup c5) by congruence.
    run_round_trip; [|submit_fails].
    left. exists row, rest, g, h. cbn [db] in *. subst s1.
    repeat split; congruence.
Qed.

(** ** The progress table under the two writes *)

Lemma progress_matches_key (u cid : nat) (p : progress_row) :
  progress_matches u cid p = true <-> progress_key p = (u, cid).
Proof.
  unfold progress_matches, progress_key.
  rewrite andb_true_iff, !Nat.eqb_eq. split.
  - intros [-> ->]. reflexivity.
  - intros H. injection H as -> ->. auto.
Qed.

Lemma progress_matches_refresh (u cid u' cid' now : nat) (p : progress_row) :
  progress_matches u' cid'
    (if progress_matches u cid p then refresh now p else p)
  = progress_matches u' cid' p.
Proof. destruct (progress_matches u cid p); reflexivity. Qed.

Lemma progress_key_refresh (u cid now : nat) (p : progress_row) :
  progress_key (if progress_matches u cid p then refresh now p else p)
  = progress_key p.
Proof. destruct (progress_matches u cid p); reflexivity. Qed.

Lemma filter_nil_not_in (u cid : nat) (rows : list progress_row) :
  filter (progress_matches u cid) rows = [] ->
  ~ In (u, cid) (map progress_key rows).
Proof.
  induction rows as [|p rows IH]; cbn [filter map]; [tauto|].
  destruct (progress_matches u cid p) eqn:E; [discriminate|].
  intros Hnil [Hk | Hin]; [|now apply IH].
  apply progress_matches_key in Hk. congruence.
Qed.

Lemma filter_in_key (u cid : nat) (p : progress_row) (rows : list progress_row) :
  In p (filter (progress_matches u cid) rows) ->
  In (u, cid) (map progress_key rows).
Proof.
  intros Hin. apply filter_In in Hin as [Hin Hm].
  apply progress_matches_key in Hm. rewrite <- Hm. now apply in_map.
Qed.

Lemma unique_filter_single (u cid : nat) (rows : list progress_row) :
  NoDup (map progress_key rows) ->
  forall p rest, filter (progress_matches u cid) rows = p :: rest -> rest = [].
Proof.
  induction rows as [|r rows IH]; cbn [filter map]; intros Hnd p rest Hf;
    [discriminate|].
  apply NoDup_cons_iff in Hnd as [Hnotin Hnd].
  destruct (progress_matches u cid r) eqn:E.
  - injection Hf as <- <-.
    destruct (filter (progress_matches u cid) rows) as [|q qs] eqn:Hq;
      [reflexivity|].
    exfalso. apply Hnotin.
    apply progress_matches_key in E. rewrite E.
    apply (filter_in_key u cid q). rewrite Hq. now left.
  - now apply (IH Hnd p).
Qed.

Lemma upsert_progress_unique (u cid now : nat) (s : store) :
  progress_unique s -> progress_unique (upsert_progress u cid now s).
Proof.
  unfold progress_unique, upsert_progress, select_progress.
  intros Hnd.
  destruct (filter (progress_matches u cid) (user_content_progress s)) eqn:Hf;
    cbn [user_content_progress set_progress].
  - rewrite map_app. apply NoDup_app; [exact Hnd| |].
    + cbn. constructor; [tauto|constructor].
    + intros k Hk [<-|[]]. revert Hk. now apply filter_nil_not_in.
  - rewrite map_map.
    erewrite map_ext; [exact Hnd|].
    intros q. apply progress_key_refresh.
Qed.

Lemma upsert_progress_completed (u cid now : nat) (s : store) :
  all_completed s -> all_completed (upsert_progress u cid now s).
Proof.
  unfold all_completed, upsert_progress.
  intros Hall.
  destruct (select_progress s u cid); cbn [user_content_progress set_progress].
  - apply Forall_app. split; [exact Hall|]. now constructor.
  - apply Forall_map. eapply Forall_impl; [|exact Hall].
    intros q Hq. now destruct (progress_matches u cid q).
Qed.

Lemma filter_map_refresh (u cid u' cid' now : nat) (rows : list progress_row) :
  filter (progress_matches u' cid')
    (map (fun p => if progress_matches u cid p then refresh now p else p) rows)
  = map (fun p => if progress_matches u cid p then refresh now p else p)
      (filter (progress_matches u' cid') rows).
Proof.
  induction rows as [|p rows IH]; [reflexivity|].
  cbn [map filter]. rewrite progress_matches_refresh.
  destruct (progress_matches u' cid' p); cbn [map]; now rewrite IH.
Qed.

(** After the upsert the pair has exactly one row, completed, stamped with
    the time of the request. *)
Lemma upsert_progress_select (u cid now : nat) (s : store) :
  progress_unique s -> all_completed s ->
  select_progress (upsert_progress u cid now s) u cid
  = [mkProgress u cid true now].
Proof.
  unfold progress_unique, all_completed, upsert_progress, select_progress.
  intros Hnd Hall.
  destruct (filter (progress_matches u cid) (user_content_progress s))
    as [|p rest] eqn:Hf; cbn [user_content_progress set_progress].
  - rewrite filter_app, Hf. cbn [filter app].
    unfold progress_matches. cbn. now rewrite !Nat.eqb_refl.
  - rewrite filter_map_refresh, Hf.
    rewrite (unique_filter_single u cid _ Hnd p rest Hf). cbn [map].
    assert (Hin : In p (filter (progress_matches u cid) (user_content_progress s))).
    { rewrite Hf. now left. }
    apply filter_In in Hin as [Hin Hm]. rewrite Hm.
    rewrite Forall_forall in Hall. specialize (Hall p Hin).
    apply progress_matches_key in Hm. injection Hm as Hu Hc.
    unfold refresh. now rewrite Hall, Hu, Hc.
Qed.

(** The rows of every other pair are left as they were. *)
Lemma upsert_progress_other (u cid now u' cid' : nat) (s : store) :
  (u', cid') <> (u, cid) ->
  select_progress (upsert_progress u cid now s) u' cid'
  = select_progress s u' cid'.
Proof.
  unfold upsert_progress, select_progress. intros Hne.
  destruct (filter (progress_matches u cid) (user_content_progress s)) eqn:Hf;
    cbn [user_content_progress set_progress].
  - rewrite filter_app. cbn [filter].
    destruct (progress_matches u' cid' (mkProgress u cid true now)) eqn:E.
    + apply progress_matches_key in E. unfold progress_key in E. cbn in E.
      symmetry in E. contradiction.
    + apply app_nil_r.
  - rewrite filter_map_refresh.
    erewrite map_ext_in; [apply map_id|].
    intros q Hin. apply filter_In in Hin as [_ Hm].
    destruct (progress_matches u cid q) eqn:E; [|reflexivity].
    apply progress_matches_key in Hm, E. congruence.
Qed.

Lemma upsert_progress_length (u cid now : nat) (s : store) :
  List.length (user_content_progress (upsert_progress u cid now s))
  = match select_progress s u cid with
    | [] => S (List.length (user_content_progress s))
    | _ :: _ => List.length (user_content_progress s)
    end.
Proof.
  unfold upsert_progress.
  destruct (select_progress s u cid); cbn [user_content_progress set_progress].
  - rewrite length_app. cbn. lia.
  - apply length_map.
Qed.

(** ** Typed quiz definitions *)

Lemma is_match_stored (d : question_def) (z : Z) :
  safe_integer z ->
  is_match (Some (stored_question d)) (Some (JNum z)) = Z.eqb z (q_correct d).
Proof.
  intros Hz. unfold is_match, stored_question, question, stored_index.
  cbn [lookup String.eqb Ascii.eqb Bool.eqb]. unfold JNum at 1.
  rewrite (reading_int z Hz). now apply number_eq_int.
Qed.

Lemma matched_stored (quiz : list question_def) (answers : list Z) (i : nat) :
  Forall safe_integer answers ->
  matched (map stored_question quiz) (map JNum answers) i
  = correctly_answered quiz answers i.
Proof.
  intros Hs. unfold matched, correctly_answered. rewrite !nth_error_map.
  destruct (nth_error quiz i) as [d|]; [|reflexivity].
  destruct (nth_error answers i) as [a|] eqn:Ha; [|reflexivity].
  cbn [option_map]. apply is_match_stored.
  rewrite Forall_forall in Hs. apply Hs. eapply nth_error_In. exact Ha.
Qed.

Lemma count_matched_stored (quiz : list question_def) (answers : list Z) :
  Forall safe_integer answers ->
  count_matched (map stored_question quiz) (map JNum answers)
  = expected_correct quiz answers.
Proof.
  intros Hs. unfold count_matched, expected_correct. rewrite length_map.
  f_equal. apply filter_ext. intros i. now apply matched_stored.
Qed.

Lemma filter_all {A : Type} (f : A -> bool) (l : list A) :
  (forall x, In x l -> f x = true) -> filter f l = l.
Proof.
  induction l as [|x l IH]; intros H; [reflexivity|].
  cbn [filter]. rewrite (H x (or_introl eq_refl)).
  f_equal. apply IH. intros y Hy. apply H. now right.
Qed.

Lemma expected_correct_key (quiz : list question_def) :
  expected_correct quiz (map q_correct quiz) = List.length quiz.
Proof.
  unfold expected_correct. rewrite filter_all; [apply length_seq|].
  intros i Hi. apply in_seq in Hi. unfold correctly_answered.
  rewrite nth_error_map.
  destruct (nth_error quiz i) as [d|] eqn:E.
  - cbn. apply Z.eqb_refl.
  - apply nth_error_None in E. lia.
Qed.

Lemma expected_correct_le (quiz : list question_def) (answers : list Z) :
  (expected_correct quiz answers <= List.length quiz)%nat.
Proof. apply filter_seq_le. Qed.

(** ** A submission on a sound connection succeeds *)

Lemma submit_quiz_succeeds (u : user) (cid : nat) (answers : list json)
    (now : nat) (c : conn) (row : content_row) (rest : list content_row)
    (g : graded) (h : Z) :
  u_role u = Learner ->
  faults c = [] ->
  has_user (db c) (u_id u) ->
  select_quiz (db c) cid = row :: rest ->
  grade (c_quiz_data row) answers = Ok g ->
  decimal_5_2 (sql_strict (db c)) (toFixed (g_score g) 2) = Ok h ->
  let out := submit_quiz (Token u) cid (Some (JArr answers)) now c in
  fst out = Ok (mkResponse 200
                  (QuizResult (g_score g) (g_correctAnswers g) (g_totalQuestions g)
                              "Quiz submitted successfully")) /\
  db (snd out) = upsert_progress (u_id u) cid now
                   (record_attempt (u_id u) cid h answers now (db c)).
Proof.
  intros Hrole Hf Hu Hsel Hg Hh out. subst out.
  pose proof (submit_quiz_outcome u cid answers now c Hrole) as H.
  destruct (submit_quiz (Token u) cid (Some (JArr answers)) now c) as [res c'].
  cbn [fst snd].
  destruct H as [(row' & rest' & g' & h' & Hsel' & Hg' & Hh' & _ & Hres & Hdb)
                | (r & Hres & Hdb & Hwhy)].
  - rewrite Hsel in Hsel'. injection Hsel' as <- <-.
    rewrite Hg in Hg'. injection Hg' as <-.
    rewrite Hh in Hh'. injection Hh' as <-. auto.
  - exfalso.
    destruct Hwhy as [[_ Hnil] | [_ [Hfault | [Hnouser | (row' & rest' & Hsel' & Hbad)]]]].
    + congruence.
    + unfold faulty in Hfault. rewrite Hf in Hfault. contradiction.
    + contradiction.
    + rewrite Hsel in Hsel'. injection Hsel' as <- <-.
      destruct Hbad as [(e & He) | (g' & e & Hg' & He)]; [congruence|].
      rewrite Hg in Hg'. injection Hg' as <-. congruence.
Qed.

(** * The claims *)

(** ** Which questions count *)

Lemma is_match_iff (q : value) (a : option json) :
  is_match q a = true <->
  exists j x k, a = Some j /\ reading j = Some x /\
                stored_index q = Some k /\ number_eq x k = true.
Proof.
  unfold is_match. split.
  - destruct (stored_index q) as [k|]; [|discriminate].
    destruct a as [j|]; [|discriminate].
    destruct (reading j) as [x|] eqn:Hx; [|discriminate].
    intros H. exists j, x, k. repeat split; assumption.
  - intros (j & x & k & -> & Hx & -> & H). now rewrite Hx.
Qed.

Lemma matched_iff (quiz_data answers : list json) (i : nat) :
  matched quiz_data answers i = true <->
  exists j x k, nth_error answers i = Some j /\ reading j = Some x /\
                stored_index (nth_error quiz_data i) = Some k /\
                number_eq x k = true.
Proof. apply is_match_iff. Qed.

Lemma matched_false (quiz_data answers : list json) (i : nat) :
  (forall j x k,
      nth_error answers i = Some j -> reading j = Some x ->
      stored_index (nth_error quiz_data i) = Some k -> number_eq x k = false) ->
  matched quiz_data answers i = false.
Proof.
  intros H. apply not_true_is_false. intros Hm.
  apply matched_iff in Hm as (j & x & k & Hj & Hx & Hk & E).
  rewrite (H j x k Hj Hx Hk) in E. discriminate.
Qed.

(** An integer answer that arithmetic keeps exact matches a stored integer
    index exactly when the two are equal. *)
Lemma matched_int (quiz_data answers : list json) (i : nat) (z k : Z) :
  nth_error answers i = Some (JNum z) -> safe_integer z ->
  stored_key (nth_error quiz_data i) k ->
  matched quiz_data answers i = Z.eqb z k.
Proof.
  intros Ha Hz Hk. unfold matched, is_match. unfold stored_key in Hk.
  rewrite Hk, Ha, (reading_int z Hz). cbn [number_eq].
  destruct (Z.eqb_spec z k) as [-> | Hne].
  - apply Qeq_bool_iff. reflexivity.
  - apply not_true_is_false. intros E. apply Qeq_bool_iff in E.
    apply Hne. unfold Qeq in E. cbn in E. lia.
Qed.

Lemma stored_index_question (d : question_def) :
  stored_index (Some (stored_question d)) = Some (int_number (q_correct d)).
Proof. reflexivity. Qed.

Lemma nonempty_length {A : Type} (l : list A) : l <> [] -> (0 < List.length l)%nat.
Proof. destruct l; [contradiction|cbn; lia]. Qed.

(** C1 (as the code has it).  For a quiz definition with at least one
    question and any array of submitted answers that convert to strings, the
    submit handler answers 200 with [totalQuestions] the number of
    questions and [correctAnswers] the number of positions [i] at which
    [parseInt] of the submitted answer is the Number stored as the correct
    index of question [i]; for answers that are integers of magnitude below
    [2^53] these are the positions where the answer equals the correct
    index.  The score is the Number [(correctAnswers / totalQuestions) *
    100] of binary64 arithmetic: it lies between 0 and 100 within [2^-45]
    of the percentage, and is exactly 100 when every question counts.  A
    fully correct array of such integers gives score 100 and
    [correctAnswers = N]; with correct indices [1, 2] the submission [1, 0]
    gives score 50, [correctAnswers = 1], [totalQuestions = 2]. *)
Theorem submit_scores_by_position
    (quiz : list question_def) (answers : list json)
    (u : user) (cid now : nat) (c : conn)
    (row : content_row) (rest : list content_row) :
  quiz <> [] ->
  Forall (fun a => printable a = true) answers ->
  u_role u = Learner ->
  faults c = [] ->
  has_user (db c) (u_id u) ->
  select_quiz (db c) cid = row :: rest ->
  c_quiz_data row = Some (map stored_question quiz) ->
  let correct := count_matched (map stored_question quiz) answers in
  exists q,
    grade (Some (map stored_question quiz)) answers
    = Ok (mkGraded (Num q) correct (List.length quiz)) /\
    fst (submit_quiz (Token u) cid (Some (JArr answers)) now c)
    = Ok (mkResponse 200
            (QuizResult (Num q) correct (List.length quiz)
                        "Quiz submitted successfully")) /\
    (forall i,
        matched (map stored_question quiz) answers i = true <->
        exists d j x,
          nth_error quiz i = Some d /\ nth_error answers i = Some j /\
          reading j = Some x /\ number_eq x (int_number (q_correct d)) = true) /\
    (forall zs, answers = map JNum zs -> Forall safe_integer zs ->
                correct = expected_correct quiz zs) /\
    (0 <= q <= 100)%Q /\
    (Qabs (q - percentage correct (List.length quiz)) <= pow2 (-45))%Q /\
    (correct = List.length quiz -> q = 100%Q) /\
    (forall zs, answers = map JNum zs -> zs = map q_correct quiz ->
                Forall safe_integer zs ->
                q = 100%Q /\ correct = List.length quiz) /\
    (map q_correct quiz = [1%Z; 2%Z] -> answers = [JNum 1%Z; JNum 0%Z] ->
     q = 50%Q /\ correct = 1 /\ List.length quiz = 2).
Proof.
  intros Hne Hp Hrole Hf Hu Hsel Hdata correct.
  pose proof (nonempty_length quiz Hne) as Hn.
  assert (Hle : (correct <= List.length quiz)%nat).
  { unfold correct. rewrite <- (length_map stored_question quiz).
    apply count_matched_le. }
  destruct (score_storable (sql_strict (db c)) _ _ Hn Hle)
    as (q & h & Hq & Hval & Hb & Hfix & Hdec & _).
  assert (Hg : grade (Some (map stored_question quiz)) answers
               = Ok (mkGraded (Num q) correct (List.length quiz))).
  { rewrite (grade_match _ _ Hp), length_map. fold correct. rewrite Hq. reflexivity. }
  assert (Hfull : correct = List.length quiz -> q = 100%Q).
  { intros E. rewrite E, (score_full _ Hn) in Hq. now injection Hq. }
  exists q. split; [exact Hg|]. split; [|split; [|split; [|split; [exact Hb|
    split; [exact Hval|split; [exact Hfull|split]]]]]].
  - rewrite <- Hdata in Hg.
    refine (proj1 (submit_quiz_succeeds u cid _ now c row rest _ h
                     Hrole Hf Hu Hsel Hg _)).
    cbn [g_score]. rewrite Hfix. exact Hdec.
  - intros i. rewrite matched_iff, nth_error_map. split.
    + intros (j & x & k & Hj & Hx & Hk & E).
      destruct (nth_error quiz i) as [d|]; [|discriminate].
      cbn [option_map] in Hk. rewrite stored_index_question in Hk.
      injection Hk as <-. exists d, j, x. auto.
    + intros (d & j & x & -> & Hj & Hx & E).
      exists j, x, (int_number (q_correct d)). auto.
  - intros zs -> Hs. unfold correct. now apply count_matched_stored.
  - intros zs -> -> Hs.
    assert (E : correct = List.length quiz).
    { unfold correct. rewrite (count_matched_stored _ _ Hs).
      apply expected_correct_key. }
    split; [exact (Hfull E)|exact E].
  - intros Hkeys Ha.
    destruct quiz as [|d1 [|d2 [|d3 quiz]]]; try discriminate.
    injection Hkeys as H1 H2.
    assert (E : correct = 1).
    { unfold correct. rewrite Ha.
      change [JNum 1%Z; JNum 0%Z] with (map JNum [1%Z; 0%Z]).
      rewrite count_matched_stored.
      - unfold expected_correct, correctly_answered. cbn. now rewrite H1, H2.
      - repeat constructor; unfold safe_integer; cbn; lia. }
    rewrite E in Hq. cbn [List.length] in Hq.
    assert (Half : number_mul (number_div 1 2) 100 = Num 50) by (vm_compute; reflexivity).
    rewrite Half in Hq. injection Hq as <-. auto.
Qed.

Lemma submit_scores_by_position_witness :
  exists q,
    fst (submit_quiz learner3 2 (Some (JArr [JNum 1%Z])) 10 (mkConn dump []))
    = Ok (mkResponse 200
            (QuizResult (Num q) (count_matched big_data_quiz [JNum 1%Z]) 1
                        "Quiz submitted successfully")).
Proof.
  destruct (submit_scores_by_position
              [mkQuestionDef
                 "1. What are the key characteristics of Big Data, often referred to as the 3 Vs?"
                 ["a) Volume, Value, Variety"; "b) Volume, Variety, Velocity";
                  "c) Volume, Validity, Verification"; "d) Value, Velocity, Vision"]
                 1%Z]
              [JNum 1%Z] (mkUser 3 Learner) 2 10 (mkConn dump [])
              (mkContent 2 2 "QUIZ OF BIG DATA" "Quizzes" None None (Some big_data_quiz))
              [])
    as (q & _ & H & _).
  - discriminate.
  - repeat constructor.
  - reflexivity.
  - reflexivity.
  - discriminate.
  - reflexivity.
  - reflexivity.
  - exists q. exact H.
Defined.

(** C1, as stated, fails.  An answer is counted when [parseInt] reads the
    correct index from its text, whether or not it equals the index: the
    answers 1.5, ["1abc"] and [10^21] (printed as [1e+21]) are counted for
    the index 1.  A quiz whose correct index is [10^21] counts no answer at
    all, the index itself included.  And the score is a binary64 Number:
    with 11 answers right out of 20 it is 55.00000000000001, not 55. *)
Lemma answers_counted_by_their_text :
  let one := [question "q" ["a"; "b"] 1%Z] in
  grade (Some one) [JNumber (3 # 2)] = Ok (mkGraded (Num 100) 1 1) /\
  grade (Some one) [JStr "1abc"] = Ok (mkGraded (Num 100) 1 1) /\
  grade (Some one) [JNum (10 ^ 21)%Z] = Ok (mkGraded (Num 100) 1 1) /\
  grade (Some [question "q" ["a"; "b"] (10 ^ 21)%Z]) [JNum (10 ^ 21)%Z]
  = Ok (mkGraded (Num 0) 0 1) /\
  (let quiz := repeat (question "q" ["a"; "b"] 1%Z) 20 in
   let answers := (repeat (JNum 1%Z) 11 ++ repeat (JNum 0%Z) 9)%list in
   fst (submit_quiz learner3 3 (Some (JArr answers)) 10
          (mkConn (post_quiz quiz dump) []))
   = Ok (mkResponse 200
           (QuizResult (Num (7740561859543041 # 140737488355328)) 11 20
                       "Quiz submitted successfully")) /\
   ~ (7740561859543041 # 140737488355328 == percentage 11 20)%Q /\
   Number_toString (Num (7740561859543041 # 140737488355328))
   = "55.00000000000001").
Proof.
  cbv zeta. repeat split; try (vm_compute; reflexivity).
  intros H. vm_compute in H. discriminate.
Qed.

(** ** The two writes of a submission *)

Lemma upsert_progress_frame (u cid now : nat) (s : store) :
  user_quiz_attempts (upsert_progress u cid now s) = user_quiz_attempts s /\
  modules (upsert_progress u cid now s) = modules s /\
  content (upsert_progress u cid now s) = content s /\
  enrollments (upsert_progress u cid now s) = enrollments s /\
  sql_strict (upsert_progress u cid now s) = sql_strict s /\
  users (upsert_progress u cid now s) = users s.
Proof.
  unfold upsert_progress. destruct (select_progress s u cid); repeat split.
Qed.

Lemma submit_quiz_atomic (u : user) (cid : nat) (answers : list json)
    (now : nat) (c : conn) :
  u_role u = Learner ->
  progress_unique (db c) -> all_completed (db c) ->
  submission_atomic u cid answers now c /\
  progress_unique (db (snd (submit_quiz (Token u) cid (Some (JArr answers)) now c))) /\
  all_completed (db (snd (submit_quiz (Token u) cid (Some (JArr answers)) now c))).
Proof.
  intros Hrole Huniq Hall. unfold submission_atomic.
  pose proof (submit_quiz_outcome u cid answers now c Hrole) as H.
  destruct (submit_quiz (Token u) cid (Some (JArr answers)) now c) as [res c'].
  cbn [fst snd].
  destruct H as [(row & rest & g & h & Hsel & Hg & Hh & _ & Hres & Hdb)
                | (r & Hres & Hdb & Hwhy)].
  - set (s1 := record_attempt (u_id u) cid h answers now (db c)) in *.
    assert (Huniq1 : progress_unique s1) by exact Huniq.
    assert (Hall1 : all_completed s1) by exact Hall.
    rewrite Hdb. split; [|split].
    + eexists. split; [exact Hres|]. left. split; [reflexivity|].
      destruct (upsert_progress_frame (u_id u) cid now s1)
        as (Ha & Hm & Hc & He & _).
      exists row, rest, g, h.
      split; [exact Hsel|]. split; [exact Hg|]. split; [reflexivity|].
      split; [exact Hh|]. split; [exact Ha|].
      split; [now apply upsert_progress_select|].
      split; [intros u' cid' Hne; now rewrite upsert_progress_other|].
      split; [exact (upsert_progress_length (u_id u) cid now s1)|].
      split; [exact Hm|]. split; [exact Hc|exact He].
    + now apply upsert_progress_unique.
    + now apply upsert_progress_completed.
  - rewrite Hdb. split; [|split; assumption].
    exists r. split; [exact Hres|]. right. split; [|reflexivity].
    destruct Hwhy as [[-> _] | [-> _]]; discriminate.
Qed.





(** C3 (as the code has it).  A quiz whose stored definition has no
    question is not refused by a check of its own: grading divides 0 by 0
    and, without raising, yields the score NaN with [correctAnswers = 0]
    and [totalQuestions = 0].  The insert of the attempt is then given the
    text [NaN]: a store in strict mode rejects it, the request answers the
    generic 500 and nothing is written; a store that is not in strict mode
    keeps 0.00 and the request of a stored account answers 200 with the
    NaN score. *)
Theorem zero_question_quiz_divides (answers : list json)
    (u : user) (cid now : nat) (c : conn)
    (row : content_row) (rest : list content_row) :
  u_role u = Learner ->
  faults c = [] ->
  select_quiz (db c) cid = row :: rest ->
  c_quiz_data row = Some [] ->
  let out := submit_quiz (Token u) cid (Some (JArr answers)) now c in
  grade (c_quiz_data row) answers = Ok (mkGraded NaN 0 0) /\
  toFixed NaN 2 = TextNaN /\
  (sql_strict (db c) = true ->
   exists r, fst out = Ok r /\ status r = 500 /\ db (snd out) = db c) /\
  (sql_strict (db c) = false -> has_user (db c) (u_id u) ->
   fst out = Ok (mkResponse 200 (QuizResult NaN 0 0 "Quiz submitted successfully")) /\
   user_quiz_attempts (db (snd out))
   = (user_quiz_attempts (db c) ++ [mkAttempt (u_id u) cid 0%Z now answers])%list) /\
  (sql_strict (db c) = false -> select_user (db c) (u_id u) = [] ->
   exists r, fst out = Ok r /\ status r = 500 /\ db (snd out) = db c).
Proof.
  intros Hrole Hf Hsel Hdata out.
  assert (Hg : grade (c_quiz_data row) answers = Ok (mkGraded NaN 0 0)).
  { rewrite Hdata. reflexivity. }
  assert (Hfail : (forall row' rest' g' h',
                      select_quiz (db c) cid = row' :: rest' ->
                      grade (c_quiz_data row') answers = Ok g' ->
                      decimal_5_2 (sql_strict (db c)) (toFixed (g_score g') 2) = Ok h' ->
                      has_user (db c) (u_id u) -> False) ->
                  exists r, fst out = Ok r /\ status r = 500 /\ db (snd out) = db c).
  { intros Hno.
    pose proof (submit_quiz_outcome u cid answers now c Hrole) as H.
    subst out.
    destruct (submit_quiz (Token u) cid (Some (JArr answers)) now c) as [res c'].
    cbn [fst snd].
    destruct H as [(row' & rest' & g' & h' & Hsel' & Hg' & Hh' & Hu' & _)
                  | (r & Hres & Hdb & Hwhy)].
    + exfalso. exact (Hno row' rest' g' h' Hsel' Hg' Hh' Hu').
    + exists r. split; [exact Hres|]. split; [|exact Hdb].
      destruct Hwhy as [[_ Hnil] | [H500 _]]; [congruence|exact H500]. }
  split; [exact Hg|]. split; [reflexivity|]. split; [|split].
  - intros Hstrict. apply Hfail. intros row' rest' g' h' Hsel' Hg' Hh' _.
    rewrite Hsel in Hsel'. injection Hsel' as <- <-.
    rewrite Hg in Hg'. injection Hg' as <-.
    rewrite Hstrict in Hh'. discriminate.
  - intros Hlenient Hu.
    assert (Hh : decimal_5_2 (sql_strict (db c)) (toFixed (g_score (mkGraded NaN 0 0)) 2)
                 = Ok 0%Z).
    { rewrite Hlenient. reflexivity. }
    destruct (submit_quiz_succeeds u cid answers now c row rest _ _
                Hrole Hf Hu Hsel Hg Hh) as [Hres Hdb].
    split; [exact Hres|].
    fold out in Hdb. rewrite Hdb.
    now destruct (upsert_progress_frame (u_id u) cid now
                    (record_attempt (u_id u) cid 0 answers now (db c))) as [-> _].
  - intros _ Hnone. apply Hfail. intros row' rest' g' h' _ _ _ Hu'.
    exact (Hu' Hnone).
Qed.

Lemma zero_question_quiz_divides_witness :
  grade (Some []) [JNum 0%Z] = Ok (mkGraded NaN 0 0).
Proof.
  refine (proj1 (zero_question_quiz_divides [JNum 0%Z] (mkUser 3 Learner) 3 10
                   (mkConn (with_empty_quiz dump) [])
                   (mkContent 3 2 "Posted quiz" "Quizzes" None None (Some []))
                   [] _ _ _ _)); reflexivity.
Defined.

(** C3, as stated, fails: the authoring handler stores a quiz with an empty
    question list, and on a store that is not in strict mode the submission
    to it answers 200 with a NaN score instead of failing. *)
Lemma zero_question_quiz_not_refused :
  select_quiz (with_empty_quiz (lenient dump)) 3
  = [mkContent 3 2 "Posted quiz" "Quizzes" None None (Some [])] /\
  grade (Some []) [] = Ok (mkGraded NaN 0 0) /\
  fst (submit_quiz learner3 3 (Some (JArr [])) 10
         (mkConn (with_empty_quiz (lenient dump)) []))
  = Ok (mkResponse 200 (QuizResult NaN 0 0 "Quiz submitted successfully")).
Proof. repeat split; reflexivity. Qed.

(** C4 (as the code has it).  For every stored quiz with at least one
    item, of whatever shape, and every array of submitted answers that
    convert to strings, grading does not raise, counts exactly the
    questions that store a Number as [correct_answer_index] which [parseInt]
    reads from the answer submitted at their position, and yields a score
    between 0 and 100 (so neither NaN nor negative).  In particular a
    question is not counted when the answers array is too short to reach
    it, when the stored item has no Number as [correct_answer_index], and,
    for an answer that is an integer of magnitude below [2^53], when the
    answer differs from the stored integer index - so when it lies outside
    the range of the options while the stored index lies inside. *)
Theorem grading_degrades_gracefully (quiz_data answers : list json) :
  quiz_data <> [] ->
  Forall (fun a => printable a = true) answers ->
  exists q,
    grade (Some quiz_data) answers
    = Ok (mkGraded (Num q) (count_matched quiz_data answers) (List.length quiz_data)) /\
    (0 <= q <= 100)%Q /\
    (Qabs (q - percentage (count_matched quiz_data answers) (List.length quiz_data))
     <= pow2 (-45))%Q /\
    forall i,
      (matched quiz_data answers i = true <->
       exists j x k,
         nth_error answers i = Some j /\ reading j = Some x /\
         stored_index (nth_error quiz_data i) = Some k /\ number_eq x k = true) /\
      ((List.length answers <= i)%nat -> matched quiz_data answers i = false) /\
      (stored_index (nth_error quiz_data i) = None ->
       matched quiz_data answers i = false) /\
      (forall z k,
          nth_error answers i = Some (JNum z) -> safe_integer z ->
          stored_key (nth_error quiz_data i) k ->
          matched quiz_data answers i = Z.eqb z k) /\
      (forall z k n,
          nth_error answers i = Some (JNum z) -> safe_integer z ->
          stored_key (nth_error quiz_data i) k ->
          option_count (nth_error quiz_data i) = Some n ->
          in_range k n -> ~ in_range z n ->
          matched quiz_data answers i = false).
Proof.
  intros Hne Hp.
  destruct (score_storable true _ _ (nonempty_length _ Hne)
              (count_matched_le quiz_data answers))
    as (q & h & Hq & Hval & Hb & _).
  exists q. split; [|split; [exact Hb|split; [exact Hval|]]].
  - rewrite (grade_match _ _ Hp), Hq. reflexivity.
  - intros i. split; [apply matched_iff|]. split; [|split; [|split]].
    + intros Hlen. apply matched_false. intros j x k Hj.
      apply nth_error_None in Hlen. congruence.
    + intros Hnone. apply matched_false. intros j x k _ _. congruence.
    + intros z k. apply matched_int.
    + intros z k n Ha Hz Hk _ Hin Hout.
      rewrite (matched_int _ _ _ _ _ Ha Hz Hk).
      apply Z.eqb_neq. intros ->. contradiction.
Qed.

Lemma grading_degrades_gracefully_witness :
  exists q,
    grade (Some three_questions) [JNum 7%Z; JStr "x"; JNull]
    = Ok (mkGraded (Num q)
            (count_matched three_questions [JNum 7%Z; JStr "x"; JNull]) 3).
Proof.
  destruct (grading_degrades_gracefully three_questions [JNum 7%Z; JStr "x"; JNull])
    as (q & H & _).
  - discriminate.
  - repeat constructor.
  - exists q. exact H.
Defined.

(** C4, as stated, fails in several ways.  A quiz with no question gives
    the score NaN; a Quizzes item stored without [quiz_data] makes grading
    throw; an answer outside the range of the options is counted as correct
    when the stored index is that same out-of-range value.  An answer that
    does not convert to a string (an object with a [toString] entry) makes
    grading throw, and the submission is answered 500.  And an answer that
    is not the stored index is counted as correct when [parseInt] reads the
    index from its text: 1.9, ["1"], ["1st"], [[1]] and [10^21] for the
    index 1.  The stored items are accepted by the authoring handler. *)
Lemma grading_not_always_graceful :
  (select_quiz (with_empty_quiz dump) 3
   = [mkContent 3 2 "Posted quiz" "Quizzes" None None (Some [])] /\
   grade (Some []) [JNum 0%Z] = Ok (mkGraded NaN 0 0)) /\
  (select_quiz (with_quiz_without_data dump) 3
   = [mkContent 3 2 "No questions yet" "Quizzes" None None None] /\
   grade None [JNum 0%Z] = Throw TypeError /\
   fst (submit_quiz learner3 3 (Some (JArr [JNum 0%Z])) 10
          (mkConn (with_quiz_without_data dump) []))
   = Ok submit_error) /\
  (select_quiz (post_quiz [question "q" ["a"; "b"] 9%Z] dump) 3
   = [mkContent 3 2 "Posted quiz" "Quizzes" None None
                (Some [question "q" ["a"; "b"] 9%Z])] /\
   grade (Some [question "q" ["a"; "b"] 9%Z]) [JNum 9%Z]
   = Ok (mkGraded (Num 100) 1 1)) /\
  (grade (Some big_data_quiz) [JObj [("toString", JNum 1%Z)]] = Throw TypeError /\
   fst (submit_quiz learner3 2 (Some (JArr [JObj [("toString", JNum 1%Z)]])) 10
          (mkConn dump []))
   = Ok submit_error) /\
  (grade (Some big_data_quiz) [JNumber (19 # 10)] = Ok (mkGraded (Num 100) 1 1) /\
   grade (Some big_data_quiz) [JStr "1"] = Ok (mkGraded (Num 100) 1 1) /\
   grade (Some big_data_quiz) [JStr "1st"] = Ok (mkGraded (Num 100) 1 1) /\
   grade (Some big_data_quiz) [JArr [JNum 1%Z]] = Ok (mkGraded (Num 100) 1 1) /\
   grade (Some big_data_quiz) [JNum (10 ^ 21)%Z] = Ok (mkGraded (Num 100) 1 1)).
Proof. repeat split; vm_compute; reflexivity. Qed.

(** C5 (as the code has it).  For a quiz with at least one question and
    answers that convert to strings, the score is a binary64 Number in
    [[0, 100]], within [2^-45] of the percentage.  The attempt row stores
    that Number rounded to two decimals (the nearest hundredth of its exact
    value, between 0.00 and 100.00); the value returned to the caller is
    the Number itself, not rounded. *)
Theorem score_bounded_and_stored_rounded
    (quiz_data answers : list json)
    (u : user) (cid now : nat) (c : conn)
    (row : content_row) (rest : list content_row) :
  quiz_data <> [] ->
  Forall (fun a => printable a = true) answers ->
  u_role u = Learner ->
  faults c = [] ->
  has_user (db c) (u_id u) ->
  select_quiz (db c) cid = row :: rest ->
  c_quiz_data row = Some quiz_data ->
  let out := submit_quiz (Token u) cid (Some (JArr answers)) now c in
  let correct := count_matched quiz_data answers in
  exists (q : Q) (h : Z),
    number_mul (number_div correct (List.length quiz_data)) 100 = Num q /\
    fst out
    = Ok (mkResponse 200
            (QuizResult (Num q) correct (List.length quiz_data)
                        "Quiz submitted successfully")) /\
    (0 <= q <= 100)%Q /\
    (Qabs (q - percentage correct (List.length quiz_data)) <= pow2 (-45))%Q /\
    user_quiz_attempts (db (snd out))
    = (user_quiz_attempts (db c) ++ [mkAttempt (u_id u) cid h now answers])%list /\
    toFixed (Num q) 2 = TextDec 2 h /\
    (0 <= h <= 10000)%Z /\
    (inject_Z h - (1 # 2) <= q * 100 < inject_Z h + (1 # 2))%Q.
Proof.
  intros Hne Hp Hrole Hf Hu Hsel Hdata out correct.
  destruct (score_storable (sql_strict (db c)) _ _ (nonempty_length _ Hne)
              (count_matched_le quiz_data answers))
    as (q & h & Hq & Hval & Hb & Hfix & Hdec & Hh & Hround).
  fold correct in Hq, Hval.
  assert (Hg : grade (c_quiz_data row) answers
               = Ok (mkGraded (Num q) correct (List.length quiz_data))).
  { rewrite Hdata, (grade_match _ _ Hp). fold correct. rewrite Hq. reflexivity. }
  assert (Hstore : decimal_5_2 (sql_strict (db c))
                     (toFixed (g_score (mkGraded (Num q) correct
                                          (List.length quiz_data))) 2) = Ok h).
  { cbn [g_score]. rewrite Hfix. exact Hdec. }
  destruct (submit_quiz_succeeds u cid _ now c row rest _ h
              Hrole Hf Hu Hsel Hg Hstore) as [Hres Hdb].
  fold out in Hres, Hdb.
  exists q, h. split; [exact Hq|]. split; [exact Hres|]. split; [exact Hb|].
  split; [exact Hval|]. split; [|split; [exact Hfix|split; [exact Hh|exact Hround]]].
  rewrite Hdb.
  now destruct (upsert_progress_frame (u_id u) cid now
                  (record_attempt (u_id u) cid h answers now (db c)))
    as [-> _].
Qed.

Lemma score_bounded_and_stored_rounded_witness :
  exists (q : Q) (h : Z),
    fst (submit_quiz learner3 3 (Some (JArr [JNum 0%Z; JNum 0%Z; JNum 0%Z])) 10
           (mkConn (post_quiz three_questions dump) []))
    = Ok (mkResponse 200
            (QuizResult (Num q)
               (count_matched three_questions [JNum 0%Z; JNum 0%Z; JNum 0%Z]) 3
               "Quiz submitted successfully")) /\
    (0 <= h <= 10000)%Z.
Proof.
  destruct (score_bounded_and_stored_rounded three_questions
              [JNum 0%Z; JNum 0%Z; JNum 0%Z]
              (mkUser 3 Learner) 3 10 (mkConn (post_quiz three_questions dump) [])
              (mkContent 3 2 "Posted quiz" "Quizzes" None None (Some three_questions))
              [])
    as (q & h & _ & H & _ & _ & _ & _ & Hh & _).
  - discriminate.
  - repeat constructor.
  - reflexivity.
  - reflexivity.
  - discriminate.
  - reflexivity.
  - reflexivity.
  - exists q, h. split; [exact H|exact Hh].
Defined.

(** C5, as stated, fails.  With one answer right out of three the value
    returned to the caller is the Number 33.33333333333333, which no number
    with two decimals equals, while the row stores 33.33.  The stored value
    is the rounding of the Number, not of the percentage: with 23 right out
    of 160 the percentage is 14.375, the score is 14.374999999999998 and
    the row stores 14.37.  And a quiz without questions has the score NaN,
    which is in no interval. *)
Lemma returned_score_not_rounded :
  let out := submit_quiz learner3 3 (Some (JArr [JNum 0%Z; JNum 0%Z; JNum 0%Z])) 10
               (mkConn (post_quiz three_questions dump) []) in
  let third := (2345624805922133 # 70368744177664)%Q in
  fst out
  = Ok (mkResponse 200 (QuizResult (Num third) 1 3 "Quiz submitted successfully")) /\
  Number_toString (Num third) = "33.33333333333333" /\
  (forall h : Z, ~ (third == h # 100)%Q) /\
  user_quiz_attempts (db (snd out))
  = [mkAttempt 3 3 3333%Z 10 [JNum 0%Z; JNum 0%Z; JNum 0%Z]] /\
  (percentage 23 160 == 14375 # 1000)%Q /\
  Number_toString (number_mul (number_div 23 160) 100) = "14.374999999999998" /\
  toFixed (number_mul (number_div 23 160) 100) 2 = TextDec 2 1437 /\
  grade (Some []) [JNum 0%Z] = Ok (mkGraded NaN 0 0).
Proof.
  cbv zeta. repeat split; try (vm_compute; reflexivity).
  intros h H. unfold Qeq in H. cbn in H. lia.
Qed.

(** C6, the enrolment half.  Learner 5 has an account and no enrolment in
    module 2, the owner of quiz 2, yet the submission is graded and both
    rows are written: the handler reads [module_id] of the quiz and never
    looks the enrolment up, which [mark_content_complete] does. *)
Theorem submit_without_enrolment_is_accepted :
  let out := submit_quiz learner5 2 (Some (JArr [JNum 1%Z])) 10
               (mkConn dump_with_learner5 []) in
  select_user dump_with_learner5 5 = [mkUserRow 5 Learner] /\
  map c_module_id (select_quiz dump_with_learner5 2) = [2] /\
  select_enrollment dump_with_learner5 5 2 = [] /\
  fst out
  = Ok (mkResponse 200 (QuizResult (Num 100) 1 1 "Quiz submitted successfully")) /\
  user_quiz_attempts (db (snd out)) = [mkAttempt 5 2 10000%Z 10 [JNum 1%Z]] /\
  user_content_progress (db (snd out)) = [mkProgress 5 2 true 10] /\
  fst (mark_content_complete learner5 2 10 (mkConn dump_with_learner5 []))
  = Ok (reply 403 "You are not enrolled in the module this content belongs to.").
Proof. cbv zeta. repeat split; vm_compute; reflexivity. Qed.

(** The other half of C6 holds: a content item that is not of type Quizzes
    is answered 404 and nothing is written. *)
Lemma submit_to_non_quiz_rejected (u : user) (cid : nat) (answers : list json)
    (now : nat) (c : conn) :
  u_role u = Learner ->
  faults c = [] ->
  select_quiz (db c) cid = [] ->
  let out := submit_quiz (Token u) cid (Some (JArr answers)) now c in
  fst out = Ok (reply 404 "Quiz content not found or is not a quiz.") /\
  db (snd out) = db c.
Proof.
  intros Hrole Hf Hsel.
  unfold submit_quiz, authenticateToken, authorizeRole.
  rewrite Hrole. cbn [existsb role_eqb orb].
  unfold submit_transaction. unfold_handler.
  rewrite (round_trip_no_fault c Hf). cbv beta iota.
  rewrite (round_trip_no_fault c Hf). cbv beta iota.
  rewrite (round_trip_no_fault c Hf). cbv beta iota.
  rewrite Hsel. cbn. split; [reflexivity|]. reflexivity.
Qed.

(** Without an account the submission cannot be stored: the foreign key of
    the attempt row fails, the request is answered 500 and nothing is
    written. *)
Example submit_without_account :
  let out := submit_quiz (Token (mkUser 9 Learner)) 2 (Some (JArr [JNum 1%Z])) 10
               (mkConn dump []) in
  fst out = Ok submit_error /\ db (snd out) = dump.
Proof. split; vm_compute; reflexivity. Qed.

(** ** Outcome of an enrolment *)

Lemma insert_enrollment_absent (u mid now : nat) (s : store) :
  has_user s u -> has_module s mid ->
  select_enrollment s u mid = [] ->
  insert_enrollment u mid now s = Ok (add_enrollment u mid now s).
Proof.
  intros Hu Hm Hsel. unfold insert_enrollment.
  rewrite (foreign_key_holds _ _ Hu), (foreign_key_holds _ _ Hm). cbn [rbind].
  now rewrite Hsel.
Qed.

Lemma insert_enrollment_no_user (u mid now : nat) (s : store) :
  select_user s u = [] ->
  exists e, insert_enrollment u mid now s = Throw e.
Proof. intros Hu. unfold insert_enrollment. rewrite Hu. cbn. eauto. Qed.

Lemma insert_enrollment_inv (u mid now : nat) (s s' : store) :
  insert_enrollment u mid now s = Ok s' ->
  select_enrollment s u mid = [] /\ s' = add_enrollment u mid now s.
Proof.
  unfold insert_enrollment.
  destruct (foreign_key _ (select_user s u)); cbn [rbind]; [|discriminate].
  destruct (foreign_key _ (select_module s mid)); cbn [rbind]; [|discriminate].
  destruct (select_enrollment s u mid); [|discriminate].
  intros H. injection H as <-. auto.
Qed.

Ltac close_case :=
  repeat first [ hyp | split | eexists ];
  try (unfold faulty in *; cbn [faults] in *; tauto).

Ltac pick_case :=
  first [ solve [close_case] | left; solve [close_case] | right; pick_case ].

Ltac enroll_fails :=
  cbv beta iota; eexists; split; [reflexivity|]; right;
  split; [cbn; discriminate|]; split; [cbn [db]; congruence|];
  pick_case.

Lemma enroll_outcome (u : user) (mid now : nat) (c : conn) :
  u_role u = Learner ->
  let '(res, c') := enroll (Token u) mid now c in
  exists r,
    res = Ok r /\
    ((r = reply 201 "Enrollment successful" /\
      mid <> 0 /\ open_for_enrolment (db c) mid /\
      select_enrollment (db c) (u_id u) mid = [] /\
      has_user (db c) (u_id u) /\
      db c' = add_enrollment (u_id u) mid now (db c))
     \/ (status r <> 201 /\ db c' = db c /\
         ((r = reply 400 "Module ID is required" /\ mid = 0)
          \/ (r = reply 404 "Module not found" /\ select_module (db c) mid = [])
          \/ (r = reply 400 "Cannot enroll in an unpublished module." /\
              exists m rest, select_module (db c) mid = m :: rest /\
                             m_is_published m = false)
          \/ (r = reply 400 "This is a paid module. Payment integration is not yet implemented." /\
              exists m rest, select_module (db c) mid = m :: rest /\
                             m_is_published m = true /\ (0 < m_price m)%Z)
          \/ (r = reply 400 "Already enrolled in this module" /\
              open_for_enrolment (db c) mid /\ enrolled (db c) (u_id u) mid)
          \/ (r = enroll_error /\
              (faulty c \/ select_user (db c) (u_id u) = []))))).
Proof.
  intros Hrole.
  unfold enroll, authenticateToken, authorizeRole.
  rewrite Hrole. cbn [existsb role_eqb orb].
  destruct (Nat.eqb_spec mid 0) as [Hz|Hnz].
  { unfold ret. enroll_fails. }
  unfold enroll_body. unfold_handler.
  run_round_trip; [|enroll_fails].
  replace (db c0) with (db c) by congruence.
  destruct (select_module (db c) mid) as [|m rest] eqn:Hmod; [enroll_fails|].
  destruct (m_is_published m) eqn:Hpub; cbn [negb]; [|enroll_fails].
  destruct (Z.ltb_spec 0 (m_price m)) as [Hpaid|Hfree]; [enroll_fails|].
  assert (Hopen : open_for_enrolment (db c) mid).
  { exists m, rest. rewrite Hmod. auto. }
  run_round_trip; [|enroll_fails].
  replace (db c1) with (db c) by congruence.
  destruct (select_enrollment (db c) (u_id u) mid) as [|e es] eqn:Hsel.
  2:{ cbv beta iota. eexists. split; [reflexivity|]. right.
      split; [cbn; discriminate|]. split; [cbn [db]; congruence|].
      do 4 right. left. split; [reflexivity|]. split; [exact Hopen|].
      unfold enrolled. rewrite Hsel. discriminate. }
  run_round_trip; [|enroll_fails].
  replace (db c2) with (db c) by congruence.
  destruct (select_user (db c) (u_id u)) as [|urow urest] eqn:Hu.
  { destruct (insert_enrollment_no_user (u_id u) mid now (db c) Hu) as (e & ->).
    enroll_fails. }
  rewrite insert_enrollment_absent;
    [|unfold has_user; congruence|unfold has_module; congruence|exact Hsel].
  cbv beta iota. eexists. split; [reflexivity|]. left.
  split; [reflexivity|]. split; [exact Hnz|]. split; [exact Hopen|].
  split; [reflexivity|]. split; [unfold has_user; congruence|]. cbn [db]. congruence.
Qed.

Lemma enroll_on_sound_connection (u : user) (mid now : nat) (c : conn)
    (m : module_row) (rest : list module_row) :
  u_role u = Learner ->
  faults c = [] ->
  mid <> 0 ->
  select_module (db c) mid = m :: rest ->
  fst (enroll (Token u) mid now c)
  = Ok (if negb (m_is_published m) then
          reply 400 "Cannot enroll in an unpublished module."
        else if (0 <? m_price m)%Z then
          reply 400 "This is a paid module. Payment integration is not yet implemented."
        else match select_enrollment (db c) (u_id u) mid with
             | [] => match select_user (db c) (u_id u) with
                     | [] => enroll_error
                     | _ :: _ => reply 201 "Enrollment successful"
                     end
             | _ :: _ => reply 400 "Already enrolled in this module"
             end).
Proof.
  intros Hrole Hf Hnz Hmod.
  unfold enroll, authenticateToken, authorizeRole.
  rewrite Hrole. cbn [existsb role_eqb orb].
  destruct (Nat.eqb_spec mid 0) as [Hz|_]; [contradiction|].
  unfold enroll_body. unfold_handler.
  rewrite (round_trip_no_fault c Hf). cbv beta iota. rewrite Hmod.
  destruct (negb (m_is_published m)); [reflexivity|].
  destruct (0 <? m_price m)%Z; [reflexivity|]. cbv beta iota.
  rewrite (round_trip_no_fault c Hf). cbv beta iota.
  destruct (select_enrollment (db c) (u_id u) mid) eqn:Hsel; [|reflexivity].
  cbv beta iota.
  rewrite (round_trip_no_fault c Hf). cbv beta iota.
  destruct (select_user (db c) (u_id u)) as [|urow urest] eqn:Hu.
  - now destruct (insert_enrollment_no_user (u_id u) mid now (db c) Hu) as (e & ->).
  - rewrite insert_enrollment_absent;
      [reflexivity|unfold has_user; congruence|unfold has_module; congruence|exact Hsel].
Qed.

(** ** The unique key of the enrolments under interleaved requests *)

Lemma enrollment_filter_nil_not_in (u mid : nat) (rows : list enrollment_row) :
  filter (fun e => Nat.eqb (e_user_id e) u && Nat.eqb (e_module_id e) mid) rows = [] ->
  ~ In (u, mid) (map enrollment_key rows).
Proof.
  induction rows as [|e rows IH]; cbn [filter map]; [tauto|].
  destruct (Nat.eqb (e_user_id e) u && Nat.eqb (e_module_id e) mid) eqn:E;
    [discriminate|].
  intros Hnil [Hk | Hin]; [|now apply IH].
  unfold enrollment_key in Hk. injection Hk as Hu Hm.
  rewrite Hu, Hm, !Nat.eqb_refl in E. discriminate.
Qed.

Lemma add_enrollment_unique (u mid now : nat) (s : store) :
  select_enrollment s u mid = [] ->
  enrollments_unique s -> enrollments_unique (add_enrollment u mid now s).
Proof.
  unfold enrollments_unique, add_enrollment, select_enrollment.
  intros Hsel Hnd. cbn [enrollments set_enrollments].
  rewrite map_app. apply NoDup_app; [exact Hnd| |].
  - cbn. constructor; [tauto|constructor].
  - intros k Hk [<-|[]]. revert Hk. now apply enrollment_filter_nil_not_in.
Qed.

Lemma insert_enrollment_unique (u mid now : nat) (s s' : store) :
  insert_enrollment u mid now s = Ok s' ->
  enrollments_unique s -> enrollments_unique s'.
Proof.
  intros H. apply insert_enrollment_inv in H as [Hsel ->].
  now apply add_enrollment_unique.
Qed.

Lemma enroll_advance_unique (u mid now : nat) (pc : enroll_pc) (c : conn) :
  enrollments_unique (db c) ->
  enrollments_unique (db (snd (enroll_advance u mid now pc c))).
Proof.
  intros Huniq. unfold enroll_advance, enroll_step.
  destruct pc; unfold_handler.
  - run_round_trip; cbn [snd]; [|congruence].
    destruct (select_module (db c0) mid) as [|m ?]; cbv beta iota;
      [cbn [snd]; congruence|].
    destruct (negb (m_is_published m)); [cbn [snd]; congruence|].
    destruct (0 <? m_price m)%Z; cbn [snd]; congruence.
  - run_round_trip; cbn [snd]; [|congruence].
    destruct (select_enrollment (db c0) u mid); cbn [snd]; congruence.
  - run_round_trip; cbn [snd]; [|congruence].
    destruct (insert_enrollment u mid now (db c0)) as [s'|] eqn:Hins;
      cbn [snd db]; [|congruence].
    apply (insert_enrollment_unique _ _ _ _ _ Hins). congruence.
  - exact Huniq.
Qed.

Lemma advance_nth_unique (k : nat) (tasks : list enroll_task) (c : conn) :
  enrollments_unique (db c) ->
  enrollments_unique (db (snd (advance_nth k tasks c))).
Proof.
  revert k. induction tasks as [|t tasks IH]; intros k Huniq; [exact Huniq|].
  destruct k as [|k]; cbn [advance_nth].
  - pose proof (enroll_advance_unique (t_user_id t) (t_module_id t) (t_now t)
                  (t_pc t) c Huniq) as H.
    destruct (enroll_advance (t_user_id t) (t_module_id t) (t_now t) (t_pc t) c).
    exact H.
  - specialize (IH k Huniq).
    destruct (advance_nth k tasks c). exact IH.
Qed.

Lemma interleave_unique (schedule : list nat) (tasks : list enroll_task) (c : conn) :
  enrollments_unique (db c) ->
  enrollments_unique (db (snd (interleave schedule tasks c))).
Proof.
  revert tasks c.
  induction schedule as [|k later IH]; intros tasks c Huniq; [exact Huniq|].
  cbn [interleave].
  pose proof (advance_nth_unique k tasks c Huniq) as H.
  destruct (advance_nth k tasks c) as [tasks' c']. now apply IH.
Qed.

Lemma enrollments_unique_at_most_one (s : store) (u mid : nat) :
  enrollments_unique s -> (List.length (select_enrollment s u mid) <= 1)%nat.
Proof.
  unfold enrollments_unique, select_enrollment.
  induction (enrollments s) as [|e rows IH]; cbn [map filter]; intros Hnd;
    [cbn; lia|].
  apply NoDup_cons_iff in Hnd as [Hnotin Hnd].
  destruct (Nat.eqb (e_user_id e) u && Nat.eqb (e_module_id e) mid) eqn:E;
    [|now apply IH].
  destruct (filter (fun e0 => Nat.eqb (e_user_id e0) u && Nat.eqb (e_module_id e0) mid) rows)
    as [|e' es] eqn:Hf; [cbn; lia|].
  exfalso. apply Hnotin.
  apply andb_true_iff in E as [Hu Hm].
  apply Nat.eqb_eq in Hu, Hm. unfold enrollment_key. rewrite Hu, Hm.
  assert (Hin : In e' (filter (fun e0 => Nat.eqb (e_user_id e0) u && Nat.eqb (e_module_id e0) mid) rows)).
  { rewrite Hf. now left. }
  apply filter_In in Hin as [Hin He'].
  apply andb_true_iff in He' as [Hu' Hm'].
  apply Nat.eqb_eq in Hu', Hm'.
  apply in_map_iff. exists e'. unfold enrollment_key. now rewrite Hu', Hm'.
Qed.

(** The handler is the machine run for three steps. *)
Lemma enroll_is_three_steps (u mid now : nat) (c : conn) :
  let '(pc1, c1) := enroll_advance u mid now EnrollStart c in
  let '(pc2, c2) := enroll_advance u mid now pc1 c1 in
  let '(pc3, c3) := enroll_advance u mid now pc2 c2 in
  exists r,
    pc3 = EnrollDone r /\
    try_catch (enroll_body u mid now) (ret enroll_error) c = (Ok r, c3).
Proof.
  unfold enroll_advance, enroll_step, enroll_body. unfold_handler.
  destruct (round_trip c) as [[[]|e] c1]; cbv beta iota; [|eauto].
  destruct (select_module (db c1) mid) as [|m ?]; cbv beta iota; [eauto|].
  destruct (negb (m_is_published m)); [eauto|].
  destruct (0 <? m_price m)%Z; [eauto|]. cbv beta iota.
  destruct (round_trip c1) as [[[]|e] c2]; cbv beta iota; [|eauto].
  destruct (select_enrollment (db c2) u mid); cbv beta iota; [|eauto].
  destruct (round_trip c2) as [[[]|e] c3]; cbv beta iota; [|eauto].
  destruct (insert_enrollment u mid now (db c3)); eauto.
Qed.

Lemma select_enrollment_added (u mid now : nat) (s : store) :
  select_enrollment (add_enrollment u mid now s) u mid
  = (select_enrollment s u mid ++ [mkEnrollment u mid now false])%list.
Proof.
  unfold select_enrollment, add_enrollment. cbn [enrollments set_enrollments].
  rewrite filter_app. cbn [filter e_user_id e_module_id].
  now rewrite !Nat.eqb_refl.
Qed.

(** C9 (as the code has it).  An enrolment answers 201 and creates exactly
    one row only when the module exists, is published, has a price that is
    not positive, and the pair (learner, module) has no row yet; otherwise
    the store is unchanged.  On a sound connection these conditions are
    also sufficient for a stored account (the foreign key of the row
    refuses any other: 500), a positive price is answered with the payment
    message and an existing enrolment, in particular a second request after
    a successful one, with the already-enrolled message.  However enrolment
    requests are interleaved statement by statement, the table never holds
    two rows for one pair. *)
Theorem enroll_once_per_pair (u : user) (mid now : nat) (c : conn) :
  u_role u = Learner ->
  enrollments_unique (db c) ->
  let out := enroll (Token u) mid now c in
  (exists r,
      fst out = Ok r /\
      (status r = 201 ->
       mid <> 0 /\ open_for_enrolment (db c) mid /\
       ~ enrolled (db c) (u_id u) mid /\
       db (snd out) = add_enrollment (u_id u) mid now (db c)) /\
      (status r <> 201 -> db (snd out) = db c)) /\
  (faults c = [] -> mid <> 0 ->
   (open_for_enrolment (db c) mid -> ~ enrolled (db c) (u_id u) mid ->
    has_user (db c) (u_id u) ->
    fst out = Ok (reply 201 "Enrollment successful")) /\
   (open_for_enrolment (db c) mid -> ~ enrolled (db c) (u_id u) mid ->
    select_user (db c) (u_id u) = [] ->
    fst out = Ok enroll_error) /\
   (forall m rest,
       select_module (db c) mid = m :: rest ->
       m_is_published m = true -> (0 < m_price m)%Z ->
       fst out = Ok (reply 400 "This is a paid module. Payment integration is not yet implemented.")) /\
   (open_for_enrolment (db c) mid -> enrolled (db c) (u_id u) mid ->
    fst out = Ok (reply 400 "Already enrolled in this module")) /\
   (fst out = Ok (reply 201 "Enrollment successful") ->
    forall now2,
      fst (enroll (Token u) mid now2 (mkConn (db (snd out)) []))
      = Ok (reply 400 "Already enrolled in this module"))) /\
  (forall (schedule : list nat) (tasks : list enroll_task),
      let final := db (snd (interleave schedule tasks c)) in
      enrollments_unique final /\
      forall u' mid', (List.length (select_enrollment final u' mid') <= 1)%nat).
Proof.
  intros Hrole Huniq out.
  pose proof (enroll_outcome u mid now c Hrole) as Hout.
  assert (Hsound : faults c = [] -> mid <> 0 ->
            forall m rest, select_module (db c) mid = m :: rest ->
            fst out = Ok (if negb (m_is_published m) then
                            reply 400 "Cannot enroll in an unpublished module."
                          else if (0 <? m_price m)%Z then
                            reply 400 "This is a paid module. Payment integration is not yet implemented."
                          else match select_enrollment (db c) (u_id u) mid with
                               | [] => match select_user (db c) (u_id u) with
                                       | [] => enroll_error
                                       | _ :: _ => reply 201 "Enrollment successful"
                                       end
                               | _ :: _ => reply 400 "Already enrolled in this module"
                               end)).
  { intros Hf Hnz m rest Hmod.
    exact (enroll_on_sound_connection u mid now c m rest Hrole Hf Hnz Hmod). }
  subst out.
  destruct (enroll (Token u) mid now c) as [res c'] eqn:Hrun. cbn [fst snd] in *.
  destruct Hout as (r & Hres & Hcases).
  assert (Hfirst :
            (status r = 201 ->
             mid <> 0 /\ open_for_enrolment (db c) mid /\
             ~ enrolled (db c) (u_id u) mid /\
             db c' = add_enrollment (u_id u) mid now (db c)) /\
            (status r <> 201 -> db c' = db c)).
  { destruct Hcases as [(-> & Hnz & Hopen & Hsel & _ & Hdb) | (Hst & Hdb & _)].
    - split; [|cbn; congruence].
      intros _. repeat split; try assumption.
      unfold enrolled. rewrite Hsel. tauto.
    - split; [contradiction|auto]. }
  split; [|split].
  - exists r. split; [exact Hres|exact Hfirst].
  - intros Hf Hnz. split; [|split; [|split; [|split]]].
    + intros (m & rest & Hmod & Hpub & Hprice) Hnot Huser.
      rewrite (Hsound Hf Hnz m rest Hmod), Hpub. cbn [negb].
      destruct (Z.ltb_spec 0 (m_price m)); [lia|].
      unfold enrolled in Hnot. unfold has_user in Huser.
      destruct (select_enrollment (db c) (u_id u) mid).
      * destruct (select_user (db c) (u_id u)); [contradiction|reflexivity].
      * exfalso. apply Hnot. discriminate.
    + intros (m & rest & Hmod & Hpub & Hprice) Hnot Hnone.
      rewrite (Hsound Hf Hnz m rest Hmod), Hpub. cbn [negb].
      destruct (Z.ltb_spec 0 (m_price m)); [lia|].
      unfold enrolled in Hnot. rewrite Hnone.
      destruct (select_enrollment (db c) (u_id u) mid); [reflexivity|].
      exfalso. apply Hnot. discriminate.
    + intros m rest Hmod Hpub Hprice.
      rewrite (Hsound Hf Hnz m rest Hmod), Hpub. cbn [negb].
      destruct (Z.ltb_spec 0 (m_price m)); [reflexivity|lia].
    + intros (m & rest & Hmod & Hpub & Hprice) Hen.
      rewrite (Hsound Hf Hnz m rest Hmod), Hpub. cbn [negb].
      destruct (Z.ltb_spec 0 (m_price m)); [lia|].
      unfold enrolled in Hen.
      destruct (select_enrollment (db c) (u_id u) mid); [contradiction|reflexivity].
    + intros H201 now2. rewrite Hres in H201. injection H201 as ->.
      destruct Hfirst as [Hcommit _].
      destruct (Hcommit eq_refl) as (_ & (m & rest & Hmod & Hpub & Hprice) & _ & Hdb).
      rewrite (enroll_on_sound_connection u mid now2 (mkConn c'.(db) []) m rest
                 Hrole eq_refl Hnz).
      2:{ cbn [db]. rewrite Hdb. exact Hmod. }
      rewrite Hpub. cbn [negb db].
      destruct (Z.ltb_spec 0 (m_price m)); [lia|].
      rewrite Hdb, select_enrollment_added.
      now destruct (select_enrollment (db c) (u_id u) mid).
  - intros schedule tasks.
    assert (Hfinal : enrollments_unique (db (snd (interleave schedule tasks c))))
      by now apply interleave_unique.
    split; [exact Hfinal|].
    intros u' mid'. now apply enrollments_unique_at_most_one.
Qed.

Lemma enroll_once_per_pair_witness :
  fst (enroll learner5 2 10 (mkConn dump_with_learner5 []))
  = Ok (reply 201 "Enrollment successful").
Proof.
  refine (proj1 (proj1 (proj2 (enroll_once_per_pair (mkUser 5 Learner) 2 10
                                 (mkConn dump_with_learner5 []) _ _)) eq_refl _) _ _ _).
  - reflexivity.
  - unfold enrollments_unique. cbn. repeat constructor; cbn; intuition discriminate.
  - discriminate.
  - exists (mkModule 2 4 true 0%Z), []. repeat split. cbn. lia.
  - unfold enrolled. cbn. tauto.
  - discriminate.
Defined.

(** C9, as stated, fails: a module stored with a negative price (the module
    handlers store the price they are given) is not free, and the
    enrolment succeeds. *)
Lemma enroll_negative_price_accepted :
  let s := mkStore true [mkUserRow 1 Lecturer; mkUserRow 5 Learner]
                   [mkModule 7 1 true (-500)%Z] [] 1 [] [] [] in
  select_module s 7 = [mkModule 7 1 true (-500)%Z] /\
  fst (enroll learner5 7 10 (mkConn s []))
  = Ok (reply 201 "Enrollment successful") /\
  enrollments (db (snd (enroll learner5 7 10 (mkConn s []))))
  = [mkEnrollment 5 7 10 false].
Proof. repeat split; reflexivity. Qed.

(** Two requests of learner 5 for module 2, interleaved statement by
    statement: both pass the existence check, the first insert succeeds,
    the second is refused by the unique key. *)
Example concurrent_enrolments_collapse :
  let '(tasks, c) :=
    interleave [0; 1; 0; 1; 0; 1]
      [mkTask 5 2 7 EnrollStart; mkTask 5 2 8 EnrollStart]
      (mkConn dump_with_learner5 []) in
  map t_pc tasks = [EnrollDone (reply 201 "Enrollment successful");
                    EnrollDone enroll_error] /\
  select_enrollment (db c) 5 2 = [mkEnrollment 5 2 7 false].
Proof. split; reflexivity. Qed.

(** ** Validation of a quiz definition *)

Lemma bad_question_spec (q : json) :
  bad_question q = Ok (negb (well_formed_question q)) \/
  (q = JNull /\ bad_question q = Throw TypeError).
Proof.
  destruct q as [| b | z | s | items | fields]; try (left; reflexivity).
  - right. split; reflexivity.
  - left. unfold bad_question, well_formed_question. cbn [get_prop rbind].
    destruct (truthy (lookup "question_text" fields)); [|reflexivity].
    cbn [negb andb].
    destruct (lookup "options" fields) as [[| | | | [|o opts] |]|]; reflexivity.
Qed.

Lemma some_bad_question_spec (questions : list json) :
  some_bad_question questions = Ok false <->
  forallb well_formed_question questions = true.
Proof.
  induction questions as [|q qs IH]; cbn [some_bad_question forallb].
  - tauto.
  - destruct (bad_question_spec q) as [-> | [-> ->]]; cbn [rbind].
    + destruct (well_formed_question q); cbn [negb andb]; [exact IH|].
      split; discriminate.
    + cbn. split; discriminate.
Qed.

Lemma parse_quiz_data_ok (text : json_text) (questions : list json) :
  parse_quiz_data text = Ok questions <->
  text = Denotes (JArr questions) /\
  forallb well_formed_question questions = true.
Proof.
  unfold parse_quiz_data.
  destruct text as [|[| | | | items |]]; cbn [JSON_parse rbind];
    try (split; [discriminate|intros [H _]; discriminate]).
  destruct (some_bad_question items) as [[|]|e] eqn:E; cbn [rbind].
  - split; [discriminate|]. intros [H Hall]. injection H as ->.
    apply some_bad_question_spec in Hall. congruence.
  - apply some_bad_question_spec in E. split.
    + intros H. injection H as ->. auto.
    + intros [H _]. now injection H as ->.
  - split; [discriminate|]. intros [H Hall]. injection H as ->.
    apply some_bad_question_spec in Hall. congruence.
Qed.

Lemma forallb_false_exists {A : Type} (f : A -> bool) (l : list A) :
  forallb f l = false <-> exists x, In x l /\ f x = false.
Proof.
  induction l as [|a l IH]; cbn [forallb].
  - split; [discriminate|intros (x & [] & _)].
  - destruct (f a) eqn:E; cbn [andb].
    + rewrite IH. split.
      * intros (x & Hin & Hx). exists x. split; [now right|exact Hx].
      * intros (x & [<-|Hin] & Hx); [congruence|]. now exists x.
    + split; [|reflexivity]. intros _. exists a. split; [now left|exact E].
Qed.

Lemma create_quiz_on_sound_connection (u : user) (moduleId : nat)
    (req : content_request) (c : conn) (text : json_text)
    (m : module_row) (rest : list module_row) :
  may_author u m ->
  faults c = [] ->
  title req <> "" ->
  content_type req = "Quizzes" ->
  quiz_data req = Some text ->
  select_module (db c) moduleId = m :: rest ->
  create_content (Token u) moduleId req c
  = match parse_quiz_data text with
    | Ok questions =>
        (Ok (reply 201 "Content added successfully"),
         mkConn (set_content (db c)
                   (content (db c) ++ [quiz_item (db c) moduleId req questions])%list
                   (S (next_content_id (db c))))
                (faults c))
    | Throw _ => (Ok invalid_quiz_data, c)
    end.
Proof.
  intros Hmay Hf Htitle Htype Hdata Hmod.
  unfold create_content, authenticateToken, authorizeRole.
  assert (Hrole : existsb (role_eqb (u_role u)) [Lecturer; Admin] = true).
  { destruct Hmay as [[-> _] | ->]; reflexivity. }
  rewrite Hrole.
  apply String.eqb_neq in Htitle. rewrite Htitle, Htype, Hdata.
  cbn [String.eqb Ascii.eqb Bool.eqb orb].
  unfold_handler.
  rewrite (round_trip_no_fault c Hf). cbv beta iota. rewrite Hmod.
  assert (Hown : role_eqb (u_role u) Lecturer
                 && negb (Nat.eqb (m_instructor_id m) (u_id u)) = false).
  { destruct Hmay as [[-> ->] | ->]; [|reflexivity].
    cbn. now rewrite Nat.eqb_refl. }
  rewrite Hown.
  destruct (parse_quiz_data text) as [questions|e]; [|reflexivity].
  rewrite (round_trip_no_fault c Hf). cbv beta iota.
  unfold insert_content. cbn [valid_content_type content_types existsb
    String.eqb Ascii.eqb Bool.eqb orb andb].
  rewrite Hmod. cbn [foreign_key rbind].
  destruct c as [s fs]. reflexivity.
Qed.




(** ** The content listing and the progress derived from it *)

Lemma existsb_filter {A : Type} (f g : A -> bool) (l : list A) :
  existsb (fun x => f x && g x) l = existsb g (filter f l).
Proof.
  induction l as [|a l IH]; [reflexivity|].
  cbn [existsb filter]. destruct (f a); cbn [andb existsb orb]; now rewrite IH.
Qed.

Lemma listing_row (s : store) (u : nat) (c : content_row) :
  progress_unique s ->
  match select_progress s u (c_id c) with
  | [] => [mkView c false]
  | matches => map (fun p => mkView c (p_is_completed p)) matches
  end = [mkView c (completed_by s u c)].
Proof.
  intros Huniq. unfold completed_by.
  rewrite (existsb_filter (progress_matches u (c_id c)) p_is_completed).
  fold (select_progress s u (c_id c)).
  destruct (select_progress s u (c_id c)) as [|p rest] eqn:Hsel; [reflexivity|].
  rewrite (unique_filter_single u (c_id c) _ Huniq p rest Hsel).
  cbn [map existsb]. now rewrite orb_false_r.
Qed.

Lemma listing_one_row_per_item (s : store) (u mid : nat) :
  progress_unique s ->
  select_content_with_progress s u mid
  = map (fun c => mkView c (completed_by s u c)) (module_items s mid).
Proof.
  intros Huniq. unfold select_content_with_progress, module_items.
  induction (filter (fun c => Nat.eqb (c_module_id c) mid) (content s))
    as [|c items IH]; [reflexivity|].
  cbn [flat_map]. rewrite IH, (listing_row s u c Huniq). reflexivity.
Qed.

Lemma filter_views (f : content_row -> bool) (items : list content_row) :
  List.length (filter user_completed_content (map (fun c => mkView c (f c)) items))
  = List.length (filter f items).
Proof.
  induction items as [|c items IH]; [reflexivity|].
  cbn [map filter user_completed_content].
  destruct (f c); cbn [List.length]; now rewrite IH.
Qed.

Lemma get_module_content_learner (u : user) (mid : nat) (c : conn)
    (m : module_row) (rest : list module_row) :
  u_role u = Learner ->
  faults c = [] ->
  select_module (db c) mid = m :: rest ->
  m_is_published m = true \/ enrolled (db c) (u_id u) mid ->
  get_module_content (Token u) mid c
  = (Ok (mkResponse 200
           (ContentRows (select_content_with_progress (db c) (u_id u) mid))), c).
Proof.
  intros Hrole Hf Hmod Hsee.
  unfold get_module_content, authenticateToken. unfold_handler.
  rewrite (round_trip_no_fault c Hf). cbv beta iota. rewrite Hmod, Hrole.
  cbn [role_eqb andb].
  rewrite (round_trip_no_fault c Hf). cbv beta iota.
  assert (Hlist :
            (let (r, c') := round_trip c in
             match r with
             | Ok _ => (Ok (select_content_with_progress (db c') (u_id u) mid), c')
             | Throw e => (Throw e, c')
             end)
            = (Ok (select_content_with_progress (db c) (u_id u) mid), c)).
  { now rewrite (round_trip_no_fault c Hf). }
  unfold enrolled in Hsee.
  destruct (m_is_published m);
    destruct (select_enrollment (db c) (u_id u) mid);
    try (now rewrite Hlist).
  destruct Hsee as [H|H]; [discriminate|contradiction].
Qed.

(** ** The mock progress of the lecturer's list *)

Section RandomDraws.
Local Open Scope Q_scope.

(** A Number below 1 is at most [1 - 2^-53]. *)
Lemma Number_below_one (x : Q) :
  fl x = Num x -> 0 <= x -> x < 1 -> x <= 1 - pow2 (-53).
Proof.
  intros Hfl H0 H1.
  change (pow2 (-53)) with (1 # 9007199254740992).
  destruct (Qeq_dec x 0) as [Ez | Hnz]; [rewrite Ez; discriminate|].
  assert (Hx : 0 < x).
  { apply Qle_lteq in H0 as [H|H]; [exact H|]. exfalso. apply Hnz. now symmetry. }
  pose proof (fl_finite_pos x x Hx Hfl) as Hr.
  destruct (floor_log2_spec x Hx) as [Hlo Hhi].
  assert (He : (floor_log2 x < 0)%Z).
  { apply pow2_lt_inv. eapply Qle_lt_trans; [exact Hlo|]. exact H1. }
  destruct (Z_le_gt_dec (floor_log2 x) (-2)) as [Hsmall | Hone].
  - assert (Hhalf : pow2 (floor_log2 x + 1) <= pow2 (-1)) by (apply pow2_le; lia).
    change (pow2 (-1)) with (1 # 2) in Hhalf. lra.
  - assert (Ee : ulp_exp x = (-53)%Z) by (unfold ulp_exp; lia).
    unfold round_pos in Hr. rewrite Ee in Hr.
    set (K := rne (x / pow2 (-53))) in *.
    change (pow2 (-53)) with (1 # 9007199254740992) in Hr.
    assert (HK : (K < 2 ^ 53)%Z).
    { rewrite Zlt_Qlt. change (inject_Z (2 ^ 53)) with (9007199254740992 # 1). lra. }
    assert (HK' : inject_Z K <= inject_Z (2 ^ 53 - 1)) by (rewrite <- Zle_Qle; lia).
    change (inject_Z (2 ^ 53 - 1)) with (9007199254740991 # 1) in HK'. lra.
Qed.

(** [Math.floor(Math.random() * 101)] is an integer from 0 to 100. *)
Lemma mock_progress_range (x : Q) :
  random_draw x ->
  exists p, Math_floor (number_mul (Num x) 101) = Num (inject_Z p) /\
            (0 <= p <= 100)%Z.
Proof.
  intros (Hfl & H0 & H1).
  pose proof (Number_below_one x Hfl H0 H1) as Hmax.
  change (pow2 (-53)) with (1 # 9007199254740992) in Hmax.
  cbn [number_mul].
  assert (A0 : 0 <= x * (101 # 1)) by lra.
  assert (A1 : x * (101 # 1) <= 101) by lra.
  destruct (fl_below (x * (101 # 1)) 101 A0 A1) as (y & Hy & Y0 & Y1 & Herr).
  - reflexivity.
  - apply (round_pos_integer 101). lia.
  - apply (pow2_1024_large 101). lia.
  - rewrite Hy. cbn [Math_floor]. exists (Qfloor y). split; [reflexivity|].
    change (pow2 (ulp_exp 101 - 1)) with (1 # 140737488355328) in Herr.
    apply Qabs_Qle_condition in Herr as [E1 E2].
    split.
    + change 0%Z with (Qfloor 0). now apply Qfloor_resp_le.
    + assert (Hlt : inject_Z (Qfloor y) < inject_Z 101).
      { eapply Qle_lt_trans; [apply Qfloor_le|].
        change (inject_Z 101) with (101 # 1). lra. }
      rewrite <- Zlt_Qlt in Hlt. lia.
Qed.

End RandomDraws.

Lemma nth_error_combine_seq {A : Type} (l : list A) (start i : nat) (a : A) :
  nth_error l i = Some a ->
  nth_error (combine (seq start (List.length l)) l) i = Some ((start + i)%nat, a).
Proof.
  revert start i. induction l as [|x l IH]; intros start i H.
  - destruct i; discriminate.
  - destruct i as [|i]; cbn [List.length seq combine nth_error] in *.
    + injection H as ->. now rewrite Nat.add_0_r.
    + rewrite (IH (S start) i H). f_equal. f_equal. lia.
Qed.

Lemma fetchEnrolledLearners_nth (learners : list learner_row) (draws : nat -> Q)
    (i : nat) (l : learner_row) :
  nth_error learners i = Some l ->
  nth_error (fetchEnrolledLearners learners draws) i
  = Some (mkLearnerDetails l (Math_floor (number_mul (Num (draws (4 * i)%nat)) 101))).
Proof.
  intros H. unfold fetchEnrolledLearners.
  rewrite nth_error_map, (nth_error_combine_seq learners 0 i l H). reflexivity.
Qed.

(** C8 (as the code has it).  The learner dashboard computes the progress
    of a module from the content listing of the current store: the total
    is the number of content items of the module, the completed count the
    number of those with a completion record of the learner, and the
    percentage is the binary64 Number [(completed / total) * 100], between
    0 and 100 within [2^-45] of the exact percentage, exactly 100 when all
    items are completed, and 0 - not NaN - when the module has no item; it
    is displayed rounded to an integer from 0 to 100.  The listing is what
    the content endpoint answers on each request.  The lecturer's list of
    enrolled learners computes nothing: the progress it shows for the
    learner at position [i] is [Math.floor] of a random draw times 101, an
    integer from 0 to 100 whatever the store holds. *)
Theorem module_progress_from_store (s : store) (user_id module_id : nat) :
  progress_unique s ->
  let rows := select_content_with_progress s user_id module_id in
  let d := learner_module_progress s user_id module_id in
  total_content_items d = totalCount s module_id /\
  completed_content_items d = completedCount s user_id module_id /\
  (totalCount s module_id = 0 ->
   progressPercentage rows = Num 0 /\
   progress_percentage d = TextDec 0 0%Z) /\
  ((0 < totalCount s module_id)%nat ->
   exists q,
     progressPercentage rows = Num q /\
     number_mul (number_div (completedCount s user_id module_id)
                            (totalCount s module_id)) 100 = Num q /\
     (Qabs (q - percentage (completedCount s user_id module_id)
                           (totalCount s module_id)) <= pow2 (-45))%Q /\
     (0 <= q <= 100)%Q /\
     (completedCount s user_id module_id = totalCount s module_id -> q = 100%Q) /\
     exists p, progress_percentage d = TextDec 0 p /\ (0 <= p <= 100)%Z /\
               (inject_Z p - (1 # 2) <= q < inject_Z p + (1 # 2))%Q) /\
  progress_percentage d = toFixed (progressPercentage rows) 0 /\
  (forall (u : user) (c : conn) (m : module_row) (rest : list module_row),
      u_role u = Learner -> u_id u = user_id -> db c = s -> faults c = [] ->
      select_module s module_id = m :: rest ->
      m_is_published m = true \/ enrolled s user_id module_id ->
      get_module_content (Token u) module_id c
      = (Ok (mkResponse 200 (ContentRows rows)), c)) /\
  (forall (draws : nat -> Q) (i : nat) (l : learner_row),
      nth_error (select_learners s module_id) i = Some l ->
      exists shown,
        nth_error (fetchEnrolledLearners (select_learners s module_id) draws) i
        = Some (mkLearnerDetails l shown) /\
        shown = Math_floor (number_mul (Num (draws (4 * i)%nat)) 101) /\
        (random_draw (draws (4 * i)%nat) ->
         exists p, shown = Num (inject_Z p) /\ (0 <= p <= 100)%Z)).
Proof.
  intros Huniq rows d. subst rows d.
  unfold learner_module_progress, module_progress, progressPercentage,
    totalCount, completedCount.
  cbn [total_content_items completed_content_items progress_percentage].
  rewrite (listing_one_row_per_item s user_id module_id Huniq).
  rewrite length_map, filter_views.
  set (total := List.length (module_items s module_id)).
  set (done := List.length (filter (completed_by s user_id) (module_items s module_id))).
  assert (Hle : (done <= total)%nat) by apply filter_length_le.
  split; [reflexivity|]. split; [reflexivity|].
  split; [|split; [|split; [|split]]].
  - intros ->. split; reflexivity.
  - intros Hpos.
    destruct (Nat.ltb_spec 0 total) as [_|]; [|lia].
    destruct (score_close done total Hpos Hle) as (q & Hq & Hb & Hval).
    exists q. split; [exact Hq|]. split; [exact Hq|]. split; [exact Hval|].
    split; [exact Hb|]. split.
    + intros E. rewrite E, (score_full _ Hpos) in Hq. now injection Hq.
    + rewrite Hq, (toFixed_percent q 0 Hb).
      assert (Es : (scale10 0 q == q)%Q) by (unfold scale10; cbn [pow10]; ring).
      assert (Hs : (0 <= scale10 0 q)%Q) by (rewrite Es; tauto).
      destruct (round_half_away_spec _ Hs) as (P0 & Plo & Phi).
      assert (P100 : (round_half_away (scale10 0 q) <= 100)%Z).
      { apply round_half_away_le; [exact Hs|].
        change (inject_Z 100) with 100%Q. lra. }
      exists (round_half_away (scale10 0 q)). split; [reflexivity|].
      split; [split; assumption|].
      set (shown := round_half_away (scale10 0 q)) in *.
      set (t := scale10 0 q) in *. split; lra.
  - reflexivity.
  - intros u c m rest Hrole <- <- Hf Hmod Hsee.
    rewrite (get_module_content_learner u module_id c m rest Hrole Hf Hmod Hsee).
    now rewrite (listing_one_row_per_item (db c) (u_id u) module_id Huniq).
  - intros draws i l Hl. eexists. split; [|split; [reflexivity|]].
    + now apply fetchEnrolledLearners_nth.
    + apply mock_progress_range.
Qed.

Lemma module_progress_from_store_witness :
  total_content_items (learner_module_progress dump_with_progress 3 2) = 2 /\
  completed_content_items (learner_module_progress dump_with_progress 3 2) = 2.
Proof.
  destruct (module_progress_from_store dump_with_progress 3 2) as (Ht & Hc & _).
  - unfold progress_unique. cbn. repeat constructor; cbn; intuition discriminate.
  - split; [exact Ht|exact Hc].
Defined.

(** C8, as stated, fails.  The lecturer's list does not compute a progress:
    learner 3 has completed both items of module 2, and the list shows 37
    for one draw and 0 for another, with no counts.  On the learner
    dashboard the percentage is a binary64 Number: with 23 items completed
    out of 40 it is 57.49999999999999, not 57.5, and is displayed as 57. *)
Lemma mock_progress_ignores_the_store :
  let item := mkContent 1 2 "BIG DATA" "Videos" None None None in
  let listing := (repeat (mkView item true) 23 ++ repeat (mkView item false) 17)%list in
  completed_content_items (learner_module_progress dump_with_progress 3 2) = 2 /\
  total_content_items (learner_module_progress dump_with_progress 3 2) = 2 /\
  select_learners dump_with_progress 2 = [mkLearnerRow 3 1] /\
  map ld_progress
    (fetchEnrolledLearners (select_learners dump_with_progress 2) (fun _ => (3 # 8)%Q))
  = [Num 37] /\
  map ld_progress
    (fetchEnrolledLearners (select_learners dump_with_progress 2) (fun _ => 0%Q))
  = [Num 0] /\
  random_draw (3 # 8) /\ random_draw 0 /\
  module_progress listing
  = mkDetails (TextDec 0 57) 40 23 /\
  (percentage 23 40 == 575 # 10)%Q /\
  Number_toString (progressPercentage listing) = "57.49999999999999".
Proof.
  cbv zeta. unfold random_draw.
  repeat split; try (vm_compute; reflexivity); try discriminate.
Qed.

(** ** The completion flag over the life of the store *)

Lemma progress_extends_same (s s' : store) :
  user_content_progress s' = user_content_progress s -> progress_extends s s'.
Proof.
  intros H. exists []. split; [|constructor].
  change (map flag_view []) with (@nil (nat * nat * bool)).
  now rewrite H, app_nil_r.
Qed.

Lemma progress_extends_trans (s1 s2 s3 : store) :
  progress_extends s1 s2 -> progress_extends s2 s3 -> progress_extends s1 s3.
Proof.
  intros (a1 & H1 & F1) (a2 & H2 & F2).
  exists (a1 ++ a2)%list. split.
  - now rewrite H2, H1, map_app, app_assoc.
  - apply Forall_app. now split.
Qed.

Lemma flag_view_refresh (u cid now : nat) (p : progress_row) :
  flag_view (if progress_matches u cid p then refresh now p else p) = flag_view p.
Proof. destruct (progress_matches u cid p); reflexivity. Qed.

Lemma upsert_progress_extends (u cid now : nat) (s : store) :
  progress_extends s (upsert_progress u cid now s).
Proof.
  unfold progress_extends, upsert_progress.
  destruct (select_progress s u cid); cbn [user_content_progress set_progress].
  - exists [mkProgress u cid true now].
    split; [apply map_app|]. now constructor.
  - exists []. split; [|constructor].
    change (map flag_view []) with (@nil (nat * nat * bool)).
    rewrite app_nil_r, map_map.
    apply map_ext. intros q. apply flag_view_refresh.
Qed.

Lemma progress_extends_completed (s s' : store) :
  progress_extends s s' -> all_completed s -> all_completed s'.
Proof.
  unfold all_completed. intros (added & Hmap & Hadded) Hall.
  assert (Hview : forall rows,
            Forall (fun p => p_is_completed p = true) rows <->
            Forall (fun v => snd v = true) (map flag_view rows)).
  { intros rows. rewrite Forall_map. reflexivity. }
  apply Hview. rewrite Hmap. apply Forall_app. split; now apply Hview.
Qed.

Lemma submit_quiz_extends (cred : credential) (cid : nat) (answers : value)
    (now : nat) (c : conn) :
  progress_extends (db c) (db (snd (submit_quiz cred cid answers now c))).
Proof.
  destruct cred as [| |u]; try (now apply progress_extends_same).
  destruct (u_role u) eqn:Hrole.
  2,3: unfold submit_quiz, authenticateToken, authorizeRole; rewrite Hrole;
       now apply progress_extends_same.
  destruct answers as [[| | | | answers |]|];
    try (unfold submit_quiz, authenticateToken, authorizeRole; rewrite Hrole;
         now apply progress_extends_same).
  pose proof (submit_quiz_outcome u cid answers now c Hrole) as H.
  destruct (submit_quiz (Token u) cid (Some (JArr answers)) now c) as [res c'].
  cbn [snd].
  destruct H as [(row & rest & g & h & _ & _ & _ & _ & _ & ->) | (r & _ & -> & _)].
  - apply (upsert_progress_extends (u_id u) cid now
             (record_attempt (u_id u) cid h answers now (db c))).
  - now apply progress_extends_same.
Qed.

Lemma mark_content_complete_store (cred : credential) (cid now : nat) (c : conn) :
  let '(res, c') := mark_content_complete cred cid now c in
  exists r,
    res = Ok r /\
    (db c' = db c
     \/ exists u, cred = Token u /\ status r = 200 /\
                  enrolled (db c) (u_id u) (match select_content (db c) cid with
                                            | item :: _ => c_module_id item
                                            | [] => 0
                                            end) /\
                  db c' = upsert_progress (u_id u) cid now (db c)).
Proof.
  unfold mark_content_complete, authenticateToken, authorizeRole.
  destruct cred as [| |u]; try solve [cbn; eauto].
  destruct (existsb (role_eqb (u_role u)) [Learner]); [|solve [cbn; eauto]].
  unfold_handler.
  run_round_trip; [|solve [cbn [db]; eauto]].
  destruct (select_content (db c0) cid) as [|item items] eqn:Hitem;
    cbv beta iota; [solve [cbn [db]; eauto]|].
  run_round_trip; [|solve [cbn [db]; eauto 6 using eq_trans]].
  destruct (select_enrollment (db c1) (u_id u) (c_module_id item))
    as [|e es] eqn:Hen; cbv beta iota; [solve [cbn [db]; eauto 6 using eq_trans]|].
  run_round_trip; [|solve [cbn [db]; eauto 6 using eq_trans]].
  assert (Hdb : db c2 = db c) by congruence.
  assert (Hcontent : has_content (db c) cid).
  { unfold has_content. replace (db c) with (db c0) by congruence.
    rewrite Hitem. discriminate. }
  assert (Hup : forall c3 : conn, db c3 = db c ->
            (select_progress (db c) (u_id u) cid = [] -> has_user (db c) (u_id u)) ->
            (match select_progress (db c2) (u_id u) cid with
             | [] => insert_progress (u_id u) cid now (db c3)
             | _ :: _ => touch_progress (u_id u) cid now (db c3)
             end) = Ok (upsert_progress (u_id u) cid now (db c))).
  { intros c3 -> Huser. rewrite Hdb.
    unfold upsert_progress, insert_progress, touch_progress, refresh.
    destruct (select_progress (db c) (u_id u) cid); [|reflexivity].
    rewrite (foreign_key_holds _ _ (Huser eq_refl)),
            (foreign_key_holds _ _ Hcontent). reflexivity. }
  assert (Henrolled : enrolled (db c) (u_id u)
                        (match select_content (db c) cid with
                         | item :: _ => c_module_id item
                         | [] => 0
                         end)).
  { replace (db c) with (db c0) by congruence. rewrite Hitem.
    unfold enrolled. replace (db c0) with (db c1) by congruence.
    rewrite Hen. discriminate. }
  destruct (select_progress (db c2) (u_id u) cid) eqn:Hp.
  - run_round_trip; [|cbn [db]; eexists; split; [reflexivity|left; congruence]].
    destruct (select_user (db c) (u_id u)) as [|urow urest] eqn:Hu.
    + unfold insert_progress. replace (db c3) with (db c) by congruence.
      rewrite Hu. cbn [foreign_key rbind].
      eexists. split; [reflexivity|]. left. cbn [db]. congruence.
    + rewrite (Hup c3); [|congruence|intros _; unfold has_user; congruence].
      cbv beta iota.
      eexists. split; [reflexivity|]. right. exists u. cbn [db]. auto.
  - run_round_trip; [|cbn [db]; eexists; split; [reflexivity|left; congruence]].
    rewrite (Hup c3); [|congruence|rewrite <- Hdb, Hp; discriminate].
    cbv beta iota.
    eexists. split; [reflexivity|]. right. exists u. cbn [db]. auto.
Qed.

Lemma mark_content_complete_extends (cred : credential) (cid now : nat) (c : conn) :
  progress_extends (db c) (db (snd (mark_content_complete cred cid now c))).
Proof.
  pose proof (mark_content_complete_store cred cid now c) as H.
  destruct (mark_content_complete cred cid now c) as [res c']. cbn [snd].
  destruct H as (r & _ & [-> | (u & _ & _ & _ & ->)]).
  - now apply progress_extends_same.
  - apply upsert_progress_extends.
Qed.

Lemma enroll_keeps_progress (cred : credential) (mid now : nat) (c : conn) :
  user_content_progress (db (snd (enroll cred mid now c)))
  = user_content_progress (db c).
Proof.
  destruct cred as [| |u]; try reflexivity.
  destruct (u_role u) eqn:Hrole.
  2,3: unfold enroll, authenticateToken, authorizeRole; now rewrite Hrole.
  pose proof (enroll_outcome u mid now c Hrole) as H.
  destruct (enroll (Token u) mid now c) as [res c']. cbn [snd].
  destruct H as (r & _ & [(_ & _ & _ & _ & _ & ->) | (_ & -> & _)]); reflexivity.
Qed.

Lemma create_content_keeps_progress (cred : credential) (moduleId : nat)
    (req : content_request) (c : conn) :
  user_content_progress (db (snd (create_content cred moduleId req c)))
  = user_content_progress (db c).
Proof.
  unfold create_content, authenticateToken, authorizeRole.
  destruct cred as [| |u]; try reflexivity.
  destruct (existsb (role_eqb (u_role u)) [Lecturer; Admin]); [|reflexivity].
  destruct (String.eqb (title req) "" || String.eqb (content_type req) "").
  { destruct (String.eqb (content_type req) "Quizzes"
              && match quiz_data req with None => true | Some _ => false end);
      [reflexivity|].
    destruct (negb (String.eqb (content_type req) "Quizzes")
              && match content_text req with None => true | Some _ => false end
              && match option_map (String.append "/uploads/") (file req) with
                 | None => true | Some _ => false end); reflexivity. }
  unfold_handler.
  run_round_trip; cbn [snd]; [|now rewrite D].
  destruct (select_module (db c0) moduleId) as [|m ?]; cbv beta iota;
    [cbn [snd]; now rewrite D|].
  destruct (role_eqb (u_role u) Lecturer
            && negb (Nat.eqb (m_instructor_id m) (u_id u)));
    [cbn [snd]; now rewrite D|].
  assert (Hins : forall parsed,
            user_content_progress
              (db (snd (let (r0, c') :=
                          let (r, c') :=
                            let (r, c') := round_trip c0 in
                            match r with
                            | Ok _ =>
                                match insert_content moduleId (title req)
                                        (content_type req) (content_text req)
                                        (option_map (String.append "/uploads/") (file req))
                                        parsed (db c') with
                                | Ok s' => (Ok tt, mkConn s' (faults c'))
                                | Throw e => (Throw e, c')
                                end
                            | Throw e => (Throw e, c')
                            end in
                          match r with
                          | Ok _ => (Ok (reply 201 "Content added successfully"), c')
                          | Throw e => (Throw e, c')
                          end in
                        match r0 with
                        | Ok r => (Ok r, c')
                        | Throw _ => (Ok (reply 500 "Server error adding content"), c')
                        end)))
            = user_content_progress (db c)).
  { intros parsed. run_round_trip; cbn [snd]; [|congruence].
    unfold insert_content.
    destruct (valid_content_type (content_type req) || negb (sql_strict (db c1)));
      [|cbn [snd db]; congruence].
    destruct (foreign_key "fk_content_module" (select_module (db c1) moduleId));
      cbn [rbind snd db user_content_progress set_content]; congruence. }
  destruct (String.eqb (content_type req) "Quizzes"); [|apply Hins].
  destruct (quiz_data req) as [text|]; [|apply Hins].
  destruct (parse_quiz_data text); [apply Hins|].
  cbn [snd]. now rewrite D.
Qed.

Lemma get_module_content_keeps_store (cred : credential) (mid : nat) (c : conn) :
  db (snd (get_module_content cred mid c)) = db c.
Proof.
  unfold get_module_content, authenticateToken.
  destruct cred as [| |u]; try reflexivity.
  unfold_handler.
  run_round_trip; cbn [snd]; [|exact D].
  destruct (select_module (db c0) mid) as [|m ?]; cbv beta iota;
    [cbn [snd]; exact D|].
  destruct (role_eqb (u_role u) Lecturer
            && negb (Nat.eqb (m_instructor_id m) (u_id u)));
    [cbn [snd]; exact D|].
  assert (Hlist : forall c1 : conn, db c1 = db c ->
            db (snd (let (r0, c') :=
                       let (r, c') :=
                         let (r, c') := round_trip c1 in
                         match r with
                         | Ok _ => (Ok (select_content_with_progress (db c') (u_id u) mid), c')
                         | Throw e => (Throw e, c')
                         end in
                       match r with
                       | Ok rows => (Ok (mkResponse 200 (ContentRows rows)), c')
                       | Throw e => (Throw e, c')
                       end in
                     match r0 with
                     | Ok r => (Ok r, c')
                     | Throw _ => (Ok (reply 500 "Server error fetching module content"), c')
                     end)) = db c).
  { intros c1 H1. run_round_trip; cbn [snd]; congruence. }
  destruct (role_eqb (u_role u) Learner); [|now apply Hlist].
  run_round_trip; cbn [snd]; [|congruence].
  destruct (m_is_published m);
    destruct (select_enrollment (db c1) (u_id u) mid);
    try (apply Hlist; congruence).
  cbn [snd]. congruence.
Qed.

Lemma serve_extends (r : request) (now : nat) (c : conn) :
  progress_extends (db c) (db (snd (serve r now c))).
Proof.
  destruct r; cbn [serve].
  - apply submit_quiz_extends.
  - apply mark_content_complete_extends.
  - apply progress_extends_same, enroll_keeps_progress.
  - apply progress_extends_same, create_content_keeps_progress.
  - apply progress_extends_same. now rewrite get_module_content_keeps_store.
Qed.

Lemma serve_all_extends (requests : list (request * nat)) (c : conn) :
  progress_extends (db c) (db (serve_all requests c)).
Proof.
  revert c. induction requests as [|[r now] later IH]; intros c; cbn [serve_all].
  - now apply progress_extends_same.
  - eapply progress_extends_trans; [apply serve_extends|apply IH].
Qed.

(** C10.  Whatever requests are served, every progress row keeps its pair
    and its completion flag (only its timestamp may change) and every row
    added since is completed; so a table whose rows are all completed, the
    empty one to begin with, stays so.  A submission that is accepted
    leaves the progress row of the pair completed whatever the score is: a
    0% attempt on the quiz of the dump is answered 200 with score 0 and the
    row is completed. *)
Theorem completion_flag_never_reset (requests : list (request * nat)) (c : conn) :
  progress_extends (db c) (db (serve_all requests c)) /\
  (all_completed (db c) -> all_completed (db (serve_all requests c))) /\
  (user_content_progress (db c) = [] -> all_completed (db (serve_all requests c))) /\
  (forall (u : user) (cid : nat) (answers : list json) (now : nat) (r : response),
      u_role u = Learner ->
      progress_unique (db c) -> all_completed (db c) ->
      fst (submit_quiz (Token u) cid (Some (JArr answers)) now c) = Ok r ->
      status r = 200 ->
      select_progress (db (snd (submit_quiz (Token u) cid (Some (JArr answers)) now c)))
                      (u_id u) cid
      = [mkProgress (u_id u) cid true now]) /\
  (let zero := submit_quiz learner3 2 (Some (JArr [JNum 0%Z])) 10 (mkConn dump []) in
   fst zero = Ok (mkResponse 200 (QuizResult (Num (0 # 1)%Q) 0 1
                                             "Quiz submitted successfully")) /\
   user_content_progress (db (snd zero)) = [mkProgress 3 2 true 10]).
Proof.
  pose proof (serve_all_extends requests c) as Hext.
  split; [exact Hext|]. split; [|split; [|split]].
  - now apply progress_extends_completed.
  - intros Hempty. apply (progress_extends_completed _ _ Hext).
    unfold all_completed. rewrite Hempty. constructor.
  - intros u cid answers now r Hrole Huniq Hall Hres H200.
    destruct (submit_quiz_atomic u cid answers now c Hrole Huniq Hall)
      as ((r' & Hres' & [[_ Hcommit] | [Hno _]]) & _).
    + destruct Hcommit as (_ & _ & _ & _ & _ & _ & _ & _ & _ & Hsel & _).
      exact Hsel.
    + rewrite Hres in Hres'. injection Hres' as <-. contradiction.
  - split; reflexivity.
Qed.

Lemma completion_flag_never_reset_witness :
  all_completed
    (db (serve_all [(SubmitQuiz learner3 2 (Some (JArr [JNum 0%Z])), 11);
                    (MarkContentComplete learner3 1, 12);
                    (SubmitQuiz learner3 2 (Some (JArr [JNum 1%Z])), 13)]
                   (mkConn dump_with_progress [false; true]))).
Proof.
  refine (proj1 (proj2 (completion_flag_never_reset _ _)) _).
  unfold all_completed. cbn. repeat constructor.
Defined.

(** * Further properties of the handlers *)

(** ** Marking content complete *)

Ltac mark_fails :=
  cbv beta iota; eexists; split; [reflexivity|]; right;
  split; [cbn [db]; congruence|]; pick_case.

Lemma mark_content_complete_outcome (u : user) (cid now : nat) (c : conn) :
  u_role u = Learner ->
  let '(res, c') := mark_content_complete (Token u) cid now c in
  exists r,
    res = Ok r /\
    ((r = reply 200 "Content marked as complete successfully." /\
      (exists item items,
          select_content (db c) cid = item :: items /\
          enrolled (db c) (u_id u) (c_module_id item)) /\
      (select_progress (db c) (u_id u) cid = [] -> has_user (db c) (u_id u)) /\
      db c' = upsert_progress (u_id u) cid now (db c))
     \/ (db c' = db c /\
         ((r = reply 404 "Content item not found." /\ select_content (db c) cid = [])
          \/ (r = reply 403 "You are not enrolled in the module this content belongs to." /\
              exists item items,
                select_content (db c) cid = item :: items /\
                select_enrollment (db c) (u_id u) (c_module_id item) = [])
          \/ (r = reply 500 "Server error marking content complete." /\
              (faulty c
               \/ (select_user (db c) (u_id u) = [] /\
                   exists item items,
                     select_content (db c) cid = item :: items /\
                     enrolled (db c) (u_id u) (c_module_id item))))))).
Proof.
  intros Hrole.
  unfold mark_content_complete, authenticateToken, authorizeRole.
  rewrite Hrole. cbn [existsb role_eqb orb].
  unfold_handler.
  run_round_trip; [|mark_fails].
  replace (db c0) with (db c) by congruence.
  destruct (select_content (db c) cid) as [|item items] eqn:Hitem; [mark_fails|].
  cbv beta iota.
  run_round_trip; [|mark_fails].
  replace (db c1) with (db c) by congruence.
  destruct (select_enrollment (db c) (u_id u) (c_module_id item)) as [|e es] eqn:Hen;
    [mark_fails|].
  cbv beta iota.
  assert (Henrolled : enrolled (db c) (u_id u) (c_module_id item)).
  { unfold enrolled. rewrite Hen. discriminate. }
  run_round_trip; [|mark_fails].
  replace (db c2) with (db c) by congruence.
  assert (Hcontent : has_content (db c) cid).
  { unfold has_content. rewrite Hitem. discriminate. }
  assert (Hup : forall c3 : conn, db c3 = db c ->
            (select_progress (db c) (u_id u) cid = [] -> has_user (db c) (u_id u)) ->
            (match select_progress (db c) (u_id u) cid with
             | [] => insert_progress (u_id u) cid now (db c3)
             | _ :: _ => touch_progress (u_id u) cid now (db c3)
             end) = Ok (upsert_progress (u_id u) cid now (db c))).
  { intros c3 -> Huser.
    unfold upsert_progress, insert_progress, touch_progress, refresh.
    destruct (select_progress (db c) (u_id u) cid); [|reflexivity].
    rewrite (foreign_key_holds _ _ (Huser eq_refl)),
            (foreign_key_holds _ _ Hcontent). reflexivity. }
  destruct (select_progress (db c) (u_id u) cid) eqn:Hsel.
  - run_round_trip; [|mark_fails].
    destruct (select_user (db c) (u_id u)) as [|urow urest] eqn:Hu.
    + unfold insert_progress. replace (db c3) with (db c) by congruence.
      rewrite Hu. cbn [foreign_key rbind].
      eexists. split; [reflexivity|]. right.
      split; [cbn [db]; congruence|]. right. right.
      split; [reflexivity|]. right. split; [reflexivity|]. eauto.
    + rewrite (Hup c3); [|congruence|intros _; unfold has_user; congruence].
      cbv beta iota.
      eexists. split; [reflexivity|]. left.
      split; [reflexivity|]. split; [eauto|].
      split; [intros _; unfold has_user; congruence|reflexivity].
  - run_round_trip; [|mark_fails].
    rewrite (Hup c3); [|congruence|discriminate]. cbv beta iota.
    eexists. split; [reflexivity|]. left.
    split; [reflexivity|]. split; [eauto|].
    split; [discriminate|reflexivity].
Qed.

(** ** What a request can change *)

Lemma create_content_step (cred : credential) (moduleId : nat)
    (req : content_request) (c : conn) :
  store_step (db c) (db (snd (create_content cred moduleId req c))).
Proof.
  unfold create_content, authenticateToken, authorizeRole.
  destruct cred as [| |u]; try apply step_none.
  destruct (existsb (role_eqb (u_role u)) [Lecturer; Admin]); [|apply step_none].
  destruct (String.eqb (title req) "" || String.eqb (content_type req) "").
  { destruct (String.eqb (content_type req) "Quizzes"
              && match quiz_data req with None => true | Some _ => false end);
      [apply step_none|].
    destruct (negb (String.eqb (content_type req) "Quizzes")
              && match content_text req with None => true | Some _ => false end
              && match option_map (String.append "/uploads/") (file req) with
                 | None => true | Some _ => false end); apply step_none. }
  unfold_handler.
  run_round_trip; cbn [snd]; [|rewrite D; apply step_none].
  destruct (select_module (db c0) moduleId) as [|m ms] eqn:Hmod; cbv beta iota;
    [cbn [snd]; rewrite D; apply step_none|].
  destruct (role_eqb (u_role u) Lecturer
            && negb (Nat.eqb (m_instructor_id m) (u_id u)));
    [cbn [snd]; rewrite D; apply step_none|].
  assert (Hins : forall parsed,
            store_step (db c)
              (db (snd (let (r0, c') :=
                          let (r, c') :=
                            let (r, c') := round_trip c0 in
                            match r with
                            | Ok _ =>
                                match insert_content moduleId (title req)
                                        (content_type req) (content_text req)
                                        (option_map (String.append "/uploads/") (file req))
                                        parsed (db c') with
                                | Ok s' => (Ok tt, mkConn s' (faults c'))
                                | Throw e => (Throw e, c')
                                end
                            | Throw e => (Throw e, c')
                            end in
                          match r with
                          | Ok _ => (Ok (reply 201 "Content added successfully"), c')
                          | Throw e => (Throw e, c')
                          end in
                        match r0 with
                        | Ok r => (Ok r, c')
                        | Throw _ => (Ok (reply 500 "Server error adding content"), c')
                        end)))).
  { intros parsed. run_round_trip; cbn [snd].
    2:{ replace (db c1) with (db c) by congruence. apply step_none. }
    replace (db c1) with (db c) by congruence.
    unfold insert_content.
    destruct (valid_content_type (content_type req) || negb (sql_strict (db c)));
      cbn [snd db]; [|replace (db c1) with (db c) by congruence; apply step_none].
    assert (Hmod' : select_module (db c) moduleId = m :: ms)
      by (rewrite <- D; exact Hmod).
    rewrite Hmod'. cbn [foreign_key rbind snd db].
    apply (step_create (db c) moduleId (title req) (content_type req)).
    rewrite <- D, Hmod. discriminate. }
  destruct (String.eqb (content_type req) "Quizzes"); [|apply Hins].
  destruct (quiz_data req) as [text|]; [|apply Hins].
  destruct (parse_quiz_data text); [apply Hins|].
  cbn [snd]. rewrite D. apply step_none.
Qed.

Lemma submit_quiz_step (cred : credential) (cid : nat) (answers : value)
    (now : nat) (c : conn) :
  store_step (db c) (db (snd (submit_quiz cred cid answers now c))).
Proof.
  destruct cred as [| |u]; try apply step_none.
  destruct (u_role u) eqn:Hrole.
  2,3: unfold submit_quiz, authenticateToken, authorizeRole; rewrite Hrole;
       apply step_none.
  destruct answers as [[| | | | answers |]|];
    try (unfold submit_quiz, authenticateToken, authorizeRole; rewrite Hrole;
         apply step_none).
  pose proof (submit_quiz_outcome u cid answers now c Hrole) as H.
  destruct (submit_quiz (Token u) cid (Some (JArr answers)) now c) as [res c'].
  cbn [snd].
  destruct H as [(row & rest & g & h & Hsel & _ & _ & Huser & _ & ->) | (r & _ & -> & _)].
  - now apply (step_submit (db c) (u_id u) cid h answers now row rest).
  - apply step_none.
Qed.

Lemma mark_content_complete_step (cred : credential) (cid now : nat) (c : conn) :
  store_step (db c) (db (snd (mark_content_complete cred cid now c))).
Proof.
  destruct cred as [| |u]; try apply step_none.
  destruct (u_role u) eqn:Hrole.
  2,3: unfold mark_content_complete, authenticateToken, authorizeRole;
       rewrite Hrole; apply step_none.
  pose proof (mark_content_complete_outcome u cid now c Hrole) as H.
  destruct (mark_content_complete (Token u) cid now c) as [res c']. cbn [snd].
  destruct H as (r & _ & [(_ & (item & items & Hsel & _) & Huser & ->) | (-> & _)]).
  - now apply (step_mark (db c) (u_id u) cid now item items).
  - apply step_none.
Qed.

Lemma enroll_step_store (cred : credential) (mid now : nat) (c : conn) :
  store_step (db c) (db (snd (enroll cred mid now c))).
Proof.
  destruct cred as [| |u]; try apply step_none.
  destruct (u_role u) eqn:Hrole.
  2,3: unfold enroll, authenticateToken, authorizeRole; rewrite Hrole;
       apply step_none.
  pose proof (enroll_outcome u mid now c Hrole) as H.
  destruct (enroll (Token u) mid now c) as [res c']. cbn [snd].
  destruct H as (r & _ & [(_ & _ & (m & rest & Hmod & _) & Hsel & Huser & ->) | (_ & -> & _)]).
  - apply step_enroll; [exact Huser|rewrite Hmod; discriminate|exact Hsel].
  - apply step_none.
Qed.

Lemma serve_step (r : request) (now : nat) (c : conn) :
  store_step (db c) (db (snd (serve r now c))).
Proof.
  destruct r; cbn [serve].
  - apply submit_quiz_step.
  - apply mark_content_complete_step.
  - apply enroll_step_store.
  - apply create_content_step.
  - rewrite get_module_content_keeps_store. apply step_none.
Qed.

(** ** Deleting content and modules *)

Ltac delete_fails :=
  cbv beta iota; eexists; split; [reflexivity|]; right;
  split; [cbn [db]; congruence|]; pick_case.

Lemma delete_content_outcome (u : user) (id : nat) (c : conn) :
  u_role u = Lecturer \/ u_role u = Admin ->
  let '(res, c') := delete_content (Token u) id c in
  exists r,
    res = Ok r /\
    ((r = reply 200 "Content deleted successfully" /\
      (exists item items,
          select_content (db c) id = item :: items /\
          (u_role u = Admin
           \/ exists m ms, select_module (db c) (c_module_id item) = m :: ms /\
                           m_instructor_id m = u_id u)) /\
      db c' = snd (delete_content_rows id (db c)))
     \/ (db c' = db c /\
         ((r = reply 404 "Content not found" /\ select_content (db c) id = [])
          \/ (r = reply 403 "Access denied: Not authorized to delete content from this module." /\
              u_role u = Lecturer /\
              exists item items m ms,
                select_content (db c) id = item :: items /\
                select_module (db c) (c_module_id item) = m :: ms /\
                m_instructor_id m <> u_id u)
          \/ (r = reply 500 "Server error deleting content" /\
              (faulty c
               \/ (u_role u = Lecturer /\
                   exists item items,
                     select_content (db c) id = item :: items /\
                     select_module (db c) (c_module_id item) = [])))))).
Proof.
  intros Hrole.
  unfold delete_content, authenticateToken, authorizeRole.
  assert (Hallowed : existsb (role_eqb (u_role u)) [Lecturer; Admin] = true).
  { destruct Hrole as [-> | ->]; reflexivity. }
  rewrite Hallowed.
  unfold execute_delete. unfold_handler.
  run_round_trip; [|delete_fails].
  replace (db c0) with (db c) by congruence.
  destruct (select_content (db c) id) as [|item items] eqn:Hitem; [delete_fails|].
  cbv beta iota.
  run_round_trip; [|delete_fails].
  replace (db c1) with (db c) by congruence.
  assert (Hcount : Nat.eqb (fst (delete_content_rows id (db c))) 0 = false).
  { unfold delete_content_rows. cbn [fst].
    fold (select_content (db c) id). now rewrite Hitem. }
  assert (Hdelete : forall c2 : conn, db c2 = db c ->
            (let '(affected, s') := delete_content_rows id (db c2) in
             (Ok affected, mkConn s' (faults c2)))
            = (Ok (fst (delete_content_rows id (db c))),
               mkConn (snd (delete_content_rows id (db c))) (faults c2))).
  { intros c2 ->. now destruct (delete_content_rows id (db c)). }
  destruct Hrole as [Hlect | Hadmin].
  - rewrite Hlect. cbn [role_eqb].
    destruct (select_module (db c) (c_module_id item)) as [|m ms] eqn:Hmod.
    { cbv beta iota. eexists. split; [reflexivity|]. right.
      split; [cbn [db]; congruence|]. right. right.
      split; [reflexivity|]. right. split; [reflexivity|]. eauto. }
    cbv beta iota.
    destruct (Nat.eqb_spec (m_instructor_id m) (u_id u)) as [Hown|Hother];
      cbn [negb].
    + run_round_trip; [|delete_fails].
      rewrite (Hdelete c2) by congruence. cbv beta iota. rewrite Hcount.
      eexists. split; [reflexivity|]. left.
      split; [reflexivity|]. split; [|reflexivity].
      exists item, items. split; [reflexivity|]. right. eauto.
    + eexists. split; [reflexivity|]. right.
      split; [cbn [db]; congruence|]. right. left.
      split; [reflexivity|]. split; [reflexivity|].
      exists item, items, m, ms. auto.
  - rewrite Hadmin. cbn [role_eqb]. cbv beta iota.
    run_round_trip; [|delete_fails].
    rewrite (Hdelete c2) by congruence. cbv beta iota. rewrite Hcount.
    eexists. split; [reflexivity|]. left.
    split; [reflexivity|]. split; [|reflexivity].
    exists item, items. split; [reflexivity|]. now left.
Qed.

Lemma delete_module_outcome (u : user) (id : nat) (c : conn) :
  u_role u = Lecturer \/ u_role u = Admin ->
  let '(res, c') := delete_module (Token u) id c in
  exists r,
    res = Ok r /\
    ((r = reply 200 "Module deleted successfully" /\
      (exists m ms, select_module (db c) id = m :: ms /\ may_manage u m) /\
      db c' = snd (delete_module_rows id (db c)))
     \/ (db c' = db c /\
         ((r = reply 404 "Module not found" /\ select_module (db c) id = [])
          \/ (r = reply 403 "Access denied: You are not authorized to delete this module." /\
              u_role u = Lecturer /\
              exists m ms, select_module (db c) id = m :: ms /\
                           m_instructor_id m <> u_id u)
          \/ (r = reply 500 "Server error deleting module" /\ faulty c)))).
Proof.
  intros Hrole.
  unfold delete_module, authenticateToken, authorizeRole.
  assert (Hallowed : existsb (role_eqb (u_role u)) [Lecturer; Admin] = true).
  { destruct Hrole as [-> | ->]; reflexivity. }
  rewrite Hallowed.
  unfold execute_delete. unfold_handler.
  run_round_trip; [|delete_fails].
  replace (db c0) with (db c) by congruence.
  destruct (select_module (db c) id) as [|m ms] eqn:Hmod; [delete_fails|].
  cbv beta iota.
  assert (Hcount : Nat.eqb (fst (delete_module_rows id (db c))) 0 = false).
  { unfold delete_module_rows. cbn [fst].
    fold (select_module (db c) id). now rewrite Hmod. }
  assert (Hdelete : forall c2 : conn, db c2 = db c ->
            (let '(affected, s') := delete_module_rows id (db c2) in
             (Ok affected, mkConn s' (faults c2)))
            = (Ok (fst (delete_module_rows id (db c))),
               mkConn (snd (delete_module_rows id (db c))) (faults c2))).
  { intros c2 ->. now destruct (delete_module_rows id (db c)). }
  destruct (role_eqb (u_role u) Lecturer
            && negb (Nat.eqb (m_instructor_id m) (u_id u))) eqn:Hdenied.
  - apply andb_true_iff in Hdenied as [Hl Hne].
    eexists. split; [reflexivity|]. right.
    split; [cbn [db]; congruence|]. right. left.
    split; [reflexivity|].
    split; [destruct (u_role u); try discriminate; reflexivity|].
    exists m, ms. split; [reflexivity|].
    apply negb_true_iff in Hne. now apply Nat.eqb_neq in Hne.
  - assert (Hmay : may_manage u m).
    { unfold may_manage. destruct Hrole as [Hl | Ha]; [right|now left].
      split; [exact Hl|]. rewrite Hl in Hdenied. cbn in Hdenied.
      apply negb_false_iff in Hdenied. now apply Nat.eqb_eq in Hdenied. }
    run_round_trip; [|delete_fails].
    rewrite (Hdelete c1) by congruence. cbv beta iota. rewrite Hcount.
    eexists. split; [reflexivity|]. left.
    split; [reflexivity|]. split; [|reflexivity].
    exists m, ms. auto.
Qed.

(** ** Consistency of the store under every operation *)

Lemma filter_filter_implied {A : Type} (f g : A -> bool) (l : list A) :
  (forall a, f a = true -> g a = true) ->
  filter f (filter g l) = filter f l.
Proof.
  intros H. induction l as [|a l IH]; [reflexivity|].
  cbn [filter]. destruct (g a) eqn:Eg; cbn [filter].
  - now rewrite IH.
  - destruct (f a) eqn:Ef; [|exact IH].
    rewrite (H a Ef) in Eg. discriminate.
Qed.

Lemma filter_filter_implied_in {A : Type} (f g : A -> bool) (l : list A) :
  (forall a, In a l -> f a = true -> g a = true) ->
  filter f (filter g l) = filter f l.
Proof.
  induction l as [|a l IH]; intros H; [reflexivity|].
  assert (IH' : filter f (filter g l) = filter f l).
  { apply IH. intros b Hb. apply H. now right. }
  cbn [filter]. destruct (g a) eqn:Eg; cbn [filter].
  - now rewrite IH'.
  - destruct (f a) eqn:Ef; [|exact IH'].
    rewrite (H a (or_introl eq_refl) Ef) in Eg. discriminate.
Qed.

Lemma mem_content_of_module (s : store) (id : nat) (c : content_row) :
  In c (content s) -> Nat.eqb (c_module_id c) id = true ->
  mem (c_id c) (content_of_module s id) = true.
Proof.
  intros Hin Hmid. unfold mem, content_of_module.
  apply existsb_exists. exists (c_id c). split; [|apply Nat.eqb_refl].
  apply in_map. apply filter_In. now split.
Qed.

Lemma NoDup_map_filter {A B : Type} (f : A -> B) (g : A -> bool) (l : list A) :
  NoDup (map f l) -> NoDup (map f (filter g l)).
Proof.
  induction l as [|a l IH]; cbn [map filter]; intros Hnd; [constructor|].
  apply NoDup_cons_iff in Hnd as [Hnotin Hnd].
  destruct (g a); [|now apply IH].
  cbn [map]. constructor; [|now apply IH].
  intros Hin. apply Hnotin.
  apply in_map_iff in Hin as (x & Hx & Hin).
  apply filter_In in Hin as [Hin _].
  apply in_map_iff. now exists x.
Qed.

Lemma Forall_filter {A : Type} (P : A -> Prop) (g : A -> bool) (l : list A) :
  Forall P l -> Forall P (filter g l).
Proof.
  intros H. apply Forall_forall. intros x Hx.
  apply filter_In in Hx as [Hx _]. rewrite Forall_forall in H. now apply H.
Qed.

Lemma filter_nonempty_app {A : Type} (f : A -> bool) (l extra : list A) :
  filter f l <> [] -> filter f (l ++ extra) <> [].
Proof.
  intros H. rewrite filter_app.
  destruct (filter f l); [contradiction|discriminate].
Qed.

Lemma upsert_progress_contents (P : nat -> Prop) (u cid now : nat) (s : store) :
  P cid ->
  Forall (fun p => P (p_content_id p)) (user_content_progress s) ->
  Forall (fun p => P (p_content_id p))
         (user_content_progress (upsert_progress u cid now s)).
Proof.
  intros Hcid Hall. unfold upsert_progress.
  destruct (select_progress s u cid); cbn [user_content_progress set_progress].
  - apply Forall_app. split; [exact Hall|]. now constructor.
  - apply Forall_map. eapply Forall_impl; [|exact Hall].
    intros q Hq. now destruct (progress_matches u cid q).
Qed.

Lemma select_after_delete_content
    (f : content_row -> bool) (id x : nat) (rows : list content_row) :
  (forall c, f c = true -> c_id c = x) ->
  x <> id ->
  filter f (filter (fun c => negb (Nat.eqb (c_id c) id)) rows) = filter f rows.
Proof.
  intros Hf Hne. apply filter_filter_implied.
  intros c Hc. apply negb_true_iff, Nat.eqb_neq. rewrite (Hf c Hc). exact Hne.
Qed.

Lemma step_keeps_references (s s' : store) :
  store_step s s' -> references_hold s -> references_hold s'.
Proof.
  intros Hstep (Hc & He & Hp & Ha).
  destruct Hstep as
    [ | u cid h answers now row rest Huser Hquiz
      | u cid now item items Huser Hitem
      | u mid now Huser Hmod Hsel
      | mid title ctype text path qd Hmod
      | id | id ].
  - repeat split; assumption.
  - (* submission *)
    set (s1 := record_attempt u cid h answers now s).
    destruct (upsert_progress_frame u cid now s1) as (Hfa & Hfm & Hfc & Hfe & _).
    assert (Hq : has_quiz s cid) by (unfold has_quiz; rewrite Hquiz; discriminate).
    unfold references_hold, has_module, has_content, has_quiz,
      select_module, select_content, select_quiz.
    rewrite Hfa, Hfm, Hfc, Hfe.
    split; [exact Hc|]. split; [exact He|]. split.
    + apply (upsert_progress_contents
               (fun x => filter (fun c => Nat.eqb (c_id c) x) (content s) <> [])
               u cid now s1); [now apply quiz_is_content|exact Hp].
    + cbn [user_quiz_attempts s1 record_attempt set_attempts].
      apply Forall_app. split; [exact Ha|]. constructor; [exact Hq|constructor].
  - (* completion *)
    destruct (upsert_progress_frame u cid now s) as (Hfa & Hfm & Hfc & Hfe & _).
    unfold references_hold, has_module, has_content, has_quiz,
      select_module, select_content, select_quiz.
    rewrite Hfa, Hfm, Hfc, Hfe.
    split; [exact Hc|]. split; [exact He|]. split; [|exact Ha].
    apply (upsert_progress_contents
             (fun x => filter (fun c => Nat.eqb (c_id c) x) (content s) <> [])
             u cid now s); [|exact Hp].
    fold (select_content s cid). rewrite Hitem. discriminate.
  - (* enrolment *)
    split; [exact Hc|]. split; [|split; assumption].
    unfold add_enrollment. cbn [enrollments set_enrollments].
    apply Forall_app. split; [exact He|]. constructor; [exact Hmod|constructor].
  - (* new content *)
    unfold references_hold, has_module, has_content, has_quiz,
      select_module, select_content, select_quiz.
    cbn [content modules enrollments user_content_progress user_quiz_attempts
         set_content].
    split; [|split; [exact He|split]].
    + apply Forall_app. split; [exact Hc|]. constructor; [exact Hmod|constructor].
    + eapply Forall_impl; [|exact Hp]. intros p Hx. now apply filter_nonempty_app.
    + eapply Forall_impl; [|exact Ha]. intros a Hx. now apply filter_nonempty_app.
  - (* content deleted *)
    unfold references_hold, has_module, has_content, has_quiz,
      select_module, select_content, select_quiz, delete_content_rows.
    cbn [snd content modules enrollments user_content_progress
         user_quiz_attempts].
    split; [now apply Forall_filter|]. split; [exact He|]. split.
    + apply Forall_forall. intros p Hin.
      apply filter_In in Hin as [Hin Hne].
      apply negb_true_iff, Nat.eqb_neq in Hne.
      rewrite (select_after_delete_content _ id (p_content_id p)).
      * rewrite Forall_forall in Hp. now apply Hp.
      * intros c Hx. now apply Nat.eqb_eq in Hx.
      * exact Hne.
    + apply Forall_forall. intros a Hin.
      apply filter_In in Hin as [Hin Hne].
      apply negb_true_iff, Nat.eqb_neq in Hne.
      rewrite (select_after_delete_content _ id (a_quiz_content_id a)).
      * rewrite Forall_forall in Ha. now apply Ha.
      * intros c Hx. apply andb_true_iff in Hx as [Hx _]. now apply Nat.eqb_eq in Hx.
      * exact Hne.
  - (* module deleted *)
    assert (Hmodules : forall x, x <> id ->
              filter (fun m => Nat.eqb (m_id m) x)
                     (filter (fun m => negb (Nat.eqb (m_id m) id)) (modules s))
              = filter (fun m => Nat.eqb (m_id m) x) (modules s)).
    { intros x Hx. apply filter_filter_implied. intros m Hm.
      apply Nat.eqb_eq in Hm. apply negb_true_iff, Nat.eqb_neq. congruence. }
    assert (Hitems : forall (f : content_row -> bool) x,
              (forall c, f c = true -> c_id c = x) ->
              mem x (content_of_module s id) = false ->
              filter f (filter (fun c => negb (Nat.eqb (c_module_id c) id)) (content s))
              = filter f (content s)).
    { intros f x Hf Hmem. apply filter_filter_implied_in. intros c Hin Hfc.
      apply negb_true_iff. apply not_true_is_false. intros Hmid.
      rewrite <- (Hf c Hfc) in Hmem.
      apply (mem_content_of_module s id c Hin) in Hmid. congruence. }
    unfold references_hold, has_module, has_content, has_quiz,
      select_module, select_content, select_quiz, delete_module_rows.
    cbn [snd content modules enrollments user_content_progress
         user_quiz_attempts].
    split; [|split; [|split]].
    + apply Forall_forall. intros c Hin.
      apply filter_In in Hin as [Hin Hne].
      apply negb_true_iff, Nat.eqb_neq in Hne.
      rewrite (Hmodules _ Hne).
      rewrite Forall_forall in Hc. now apply Hc.
    + apply Forall_forall. intros e Hin.
      apply filter_In in Hin as [Hin Hne].
      apply negb_true_iff, Nat.eqb_neq in Hne.
      rewrite (Hmodules _ Hne).
      rewrite Forall_forall in He. now apply He.
    + apply Forall_forall. intros p Hin.
      apply filter_In in Hin as [Hin Hne].
      apply negb_true_iff in Hne.
      rewrite (Hitems _ (p_content_id p)).
      * rewrite Forall_forall in Hp. now apply Hp.
      * intros c Hx. now apply Nat.eqb_eq in Hx.
      * exact Hne.
    + apply Forall_forall. intros a Hin.
      apply filter_In in Hin as [Hin Hne].
      apply negb_true_iff in Hne.
      rewrite (Hitems _ (a_quiz_content_id a)).
      * rewrite Forall_forall in Ha. now apply Ha.
      * intros c Hx. apply andb_true_iff in Hx as [Hx _]. now apply Nat.eqb_eq in Hx.
      * exact Hne.
Qed.

Lemma step_keeps_content_ids (s s' : store) :
  store_step s s' -> content_ids_fresh s -> content_ids_fresh s'.
Proof.
  intros Hstep [Hnd Hlt].
  destruct Hstep as
    [ | u cid h answers now row rest Huser Hquiz
      | u cid now item items Huser Hitem
      | u mid now Huser Hmod Hsel
      | mid title ctype text path qd Hmod
      | id | id ].
  - split; assumption.
  - destruct (upsert_progress_frame u cid now (record_attempt u cid h answers now s))
      as (_ & _ & Hfc & _).
    unfold content_ids_fresh. rewrite Hfc.
    unfold upsert_progress.
    destruct (select_progress (record_attempt u cid h answers now s) u cid);
      split; assumption.
  - destruct (upsert_progress_frame u cid now s) as (_ & _ & Hfc & _).
    unfold content_ids_fresh. rewrite Hfc.
    unfold upsert_progress. destruct (select_progress s u cid); split; assumption.
  - split; assumption.
  - unfold content_ids_fresh. cbn [content next_content_id set_content]. split.
    + rewrite map_app. apply NoDup_app; [exact Hnd| |].
      * cbn. constructor; [tauto|constructor].
      * intros x Hx [<-|[]]. cbn [inserted_content c_id] in Hx.
        apply in_map_iff in Hx as (c & Hid & Hin).
        rewrite Forall_forall in Hlt. specialize (Hlt c Hin). lia.
    + apply Forall_app. split.
      * eapply Forall_impl; [|exact Hlt]. intros c Hc. cbn beta in Hc. lia.
      * constructor; [cbn; lia|constructor].
  - unfold content_ids_fresh, delete_content_rows. cbn [snd content next_content_id].
    split; [now apply NoDup_map_filter|now apply Forall_filter].
  - unfold content_ids_fresh, delete_module_rows. cbn [snd content next_content_id].
    split; [now apply NoDup_map_filter|now apply Forall_filter].
Qed.

Lemma step_keeps_keys (s s' : store) :
  store_step s s' ->
  progress_unique s /\ enrollments_unique s /\ all_completed s ->
  progress_unique s' /\ enrollments_unique s' /\ all_completed s'.
Proof.
  intros Hstep (Hpu & Heu & Hall).
  destruct Hstep as
    [ | u cid h answers now row rest Huser Hquiz
      | u cid now item items Huser Hitem
      | u mid now Huser Hmod Hsel
      | mid title ctype text path qd Hmod
      | id | id ].
  - auto.
  - set (s1 := record_attempt u cid h answers now s).
    destruct (upsert_progress_frame u cid now s1) as (_ & _ & _ & Hfe & _).
    split; [now apply upsert_progress_unique|].
    split; [|now apply upsert_progress_completed].
    unfold enrollments_unique. now rewrite Hfe.
  - destruct (upsert_progress_frame u cid now s) as (_ & _ & _ & Hfe & _).
    split; [now apply upsert_progress_unique|].
    split; [|now apply upsert_progress_completed].
    unfold enrollments_unique. now rewrite Hfe.
  - split; [exact Hpu|]. split; [|exact Hall]. now apply add_enrollment_unique.
  - auto.
  - unfold progress_unique, enrollments_unique, all_completed, delete_content_rows.
    cbn [snd enrollments user_content_progress].
    split; [now apply NoDup_map_filter|]. split; [exact Heu|now apply Forall_filter].
  - unfold progress_unique, enrollments_unique, all_completed, delete_module_rows.
    cbn [snd enrollments user_content_progress].
    split; [now apply NoDup_map_filter|].
    split; [now apply NoDup_map_filter|now apply Forall_filter].
Qed.

Lemma step_keeps_consistent (s s' : store) :
  store_step s s' -> consistent s -> consistent s'.
Proof.
  intros Hstep (Hr & Hi & Hk).
  split; [now apply (step_keeps_references s)|].
  split; [now apply (step_keeps_content_ids s)|].
  now apply (step_keeps_keys s).
Qed.

Lemma get_quiz_attempts_keeps_store (cred : credential) (cid : nat) (c : conn) :
  db (snd (get_quiz_attempts cred cid c)) = db c.
Proof.
  unfold get_quiz_attempts, authenticated, authorized.
  destruct cred as [| |u]; try reflexivity.
  destruct (existsb (role_eqb (u_role u)) [Learner]); [|reflexivity].
  unfold catching. unfold_handler.
  run_round_trip; cbn [snd]; exact D.
Qed.

Lemma delete_content_step (cred : credential) (id : nat) (c : conn) :
  store_step (db c) (db (snd (delete_content cred id c))).
Proof.
  destruct cred as [| |u]; try apply step_none.
  destruct (u_role u) eqn:Hrole.
  1: unfold delete_content, authenticateToken, authorizeRole; rewrite Hrole;
     apply step_none.
  all: assert (Hr : u_role u = Lecturer \/ u_role u = Admin) by (rewrite Hrole; auto);
    pose proof (delete_content_outcome u id c Hr) as H;
    destruct (delete_content (Token u) id c) as [res c']; cbn [snd];
    destruct H as (r & _ & [(_ & _ & ->) | (-> & _)]);
    [apply step_delete_content|apply step_none].
Qed.

Lemma delete_module_step (cred : credential) (id : nat) (c : conn) :
  store_step (db c) (db (snd (delete_module cred id c))).
Proof.
  destruct cred as [| |u]; try apply step_none.
  destruct (u_role u) eqn:Hrole.
  1: unfold delete_module, authenticateToken, authorizeRole; rewrite Hrole;
     apply step_none.
  all: assert (Hr : u_role u = Lecturer \/ u_role u = Admin) by (rewrite Hrole; auto);
    pose proof (delete_module_outcome u id c Hr) as H;
    destruct (delete_module (Token u) id c) as [res c']; cbn [snd];
    destruct H as (r & _ & [(_ & _ & ->) | (-> & _)]);
    [apply step_delete_module|apply step_none].
Qed.

Lemma perform_step (o : operation) (now : nat) (c : conn) :
  store_step (db c) (db (perform o now c)).
Proof.
  destruct o; cbn [perform].
  - apply serve_step.
  - rewrite get_quiz_attempts_keeps_store. apply step_none.
  - apply delete_content_step.
  - apply delete_module_step.
Qed.

Lemma perform_all_steps (P : store -> Prop) (operations : list (operation * nat))
    (c : conn) :
  (forall s s', store_step s s' -> P s -> P s') ->
  P (db c) -> P (db (perform_all operations c)).
Proof.
  intros Hkeep. revert c.
  induction operations as [|[o now] later IH]; intros c Hc; cbn [perform_all];
    [exact Hc|].
  apply IH. exact (Hkeep _ _ (perform_step o now c) Hc).
Qed.

Lemma step_keeps_users (s s' : store) : store_step s s' -> users s' = users s.
Proof.
  intros Hstep.
  destruct Hstep as
    [ | u cid h answers now row rest Huser Hquiz
      | u cid now item items Huser Hitem
      | u mid now Huser Hmod Hsel
      | mid title ctype text path qd Hmod
      | id | id ]; try reflexivity.
  - now rewrite (proj2 (proj2 (proj2 (proj2 (proj2 (upsert_progress_frame _ _ _ _)))))).
  - now rewrite (proj2 (proj2 (proj2 (proj2 (proj2 (upsert_progress_frame _ _ _ _)))))).
Qed.

Lemma upsert_progress_users (P : nat -> Prop) (u cid now : nat) (s : store) :
  (select_progress s u cid = [] -> P u) ->
  Forall (fun p => P (p_user_id p)) (user_content_progress s) ->
  Forall (fun p => P (p_user_id p))
         (user_content_progress (upsert_progress u cid now s)).
Proof.
  intros Hu Hall. unfold upsert_progress.
  destruct (select_progress s u cid); cbn [user_content_progress set_progress].
  - apply Forall_app. split; [exact Hall|]. constructor; [now apply Hu|constructor].
  - apply Forall_map. eapply Forall_impl; [|exact Hall].
    intros q Hq. now destruct (progress_matches u cid q).
Qed.

Lemma step_keeps_user_references (s s' : store) :
  store_step s s' -> user_references_hold s -> user_references_hold s'.
Proof.
  intros Hstep (Hm & He & Hp & Ha).
  pose proof (step_keeps_users s s' Hstep) as Husers.
  unfold user_references_hold, has_user, select_user in *. rewrite Husers.
  destruct Hstep as
    [ | u cid h answers now row rest Huser Hquiz
      | u cid now item items Huser Hitem
      | u mid now Huser Hmod Hsel
      | mid title ctype text path qd Hmod
      | id | id ].
  - repeat split; assumption.
  - set (s1 := record_attempt u cid h answers now s).
    destruct (upsert_progress_frame u cid now s1) as (Hfa & Hfm & _ & Hfe & _).
    rewrite Hfa, Hfm, Hfe.
    split; [exact Hm|]. split; [exact He|]. split.
    + apply (upsert_progress_users
               (fun x => filter (fun w => Nat.eqb (us_id w) x) (users s) <> [])
               u cid now s1); [intros _; exact Huser|exact Hp].
    + cbn [user_quiz_attempts s1 record_attempt set_attempts].
      apply Forall_app. split; [exact Ha|]. constructor; [exact Huser|constructor].
  - destruct (upsert_progress_frame u cid now s) as (Hfa & Hfm & _ & Hfe & _).
    rewrite Hfa, Hfm, Hfe.
    split; [exact Hm|]. split; [exact He|]. split; [|exact Ha].
    apply (upsert_progress_users
             (fun x => filter (fun w => Nat.eqb (us_id w) x) (users s) <> [])
             u cid now s); [exact Huser|exact Hp].
  - split; [exact Hm|]. split; [|split; assumption].
    unfold add_enrollment. cbn [enrollments set_enrollments].
    apply Forall_app. split; [exact He|]. constructor; [exact Huser|constructor].
  - repeat split; assumption.
  - unfold delete_content_rows.
    cbn [snd modules enrollments user_content_progress user_quiz_attempts].
    split; [exact Hm|]. split; [exact He|]. split; now apply Forall_filter.
  - unfold delete_module_rows.
    cbn [snd modules enrollments user_content_progress user_quiz_attempts].
    repeat split; now apply Forall_filter.
Qed.

(** X1.  Whatever operations are performed, deletions and failures
    included, every content item and enrolment still belongs to a stored
    module, every progress row to a stored content item and every attempt
    to a stored quiz, and every module, enrolment, progress row and attempt
    to a stored user: the handlers never leave a dangling reference. *)
Theorem operations_keep_references (operations : list (operation * nat)) (c : conn) :
  references_hold (db c) -> user_references_hold (db c) ->
  references_hold (db (perform_all operations c)) /\
  user_references_hold (db (perform_all operations c)).
Proof.
  intros Hr Hu.
  apply (perform_all_steps (fun s => references_hold s /\ user_references_hold s));
    [|now split].
  intros s s' Hstep [H1 H2].
  split; [now apply (step_keeps_references s s')
         |now apply (step_keeps_user_references s s')].
Qed.

Lemma operations_keep_references_witness :
  let s := db (perform_all [(Core (SubmitQuiz learner3 2 (Some (JArr [JNum 1%Z]))), 11);
                            (DeleteContent lecturer4 2, 12);
                            (DeleteModule lecturer4 2, 13)]
                           (mkConn dump_with_progress [])) in
  references_hold s /\ user_references_hold s.
Proof.
  apply operations_keep_references.
  - unfold references_hold, has_module, has_content, has_quiz.
    cbn. repeat split; repeat constructor; discriminate.
  - unfold user_references_hold, has_user.
    cbn. repeat split; repeat constructor; discriminate.
Defined.

(** X2.  Content ids stay pairwise distinct and below the auto-increment
    counter under every sequence of operations, so a new content item never
    takes the id of a stored one. *)
Theorem operations_keep_content_ids (operations : list (operation * nat)) (c : conn) :
  content_ids_fresh (db c) ->
  content_ids_fresh (db (perform_all operations c)).
Proof. apply perform_all_steps. exact step_keeps_content_ids. Qed.

Lemma operations_keep_content_ids_witness :
  content_ids_fresh
    (db (perform_all [(Core (CreateContent lecturer4 2
                               (mkContentRequest "Notes 1" "Notes" None (Some "text") None)), 11);
                      (DeleteContent lecturer4 1, 12)]
                     (mkConn dump []))).
Proof.
  apply operations_keep_content_ids.
  unfold content_ids_fresh. cbn. split.
  - repeat constructor; cbn; intuition discriminate.
  - repeat constructor.
Defined.

(** X3.  The unique keys of the progress rows and of the enrolments, and
    the completion flag of every progress row, survive every sequence of
    operations, deletions included. *)
Theorem operations_keep_unique_keys (operations : list (operation * nat)) (c : conn) :
  progress_unique (db c) /\ enrollments_unique (db c) /\ all_completed (db c) ->
  let s' := db (perform_all operations c) in
  progress_unique s' /\ enrollments_unique s' /\ all_completed s'.
Proof.
  intros H.
  exact (perform_all_steps
           (fun s => progress_unique s /\ enrollments_unique s /\ all_completed s)
           operations c step_keeps_keys H).
Qed.

Lemma operations_keep_unique_keys_witness :
  progress_unique
    (db (perform_all [(Core (MarkContentComplete learner3 1), 11);
                      (Core (Enroll (Token (mkUser 5 Learner)) 2), 12);
                      (DeleteContent lecturer4 1, 13)]
                     (mkConn dump_with_progress []))).
Proof.
  refine (proj1 (operations_keep_unique_keys _ (mkConn dump_with_progress []) _)).
  unfold progress_unique, enrollments_unique, all_completed. cbn.
  repeat split; repeat constructor; cbn; intuition discriminate.
Defined.

(** ** The cascade of a deleted content item *)

Lemma filter_negb_nil {A : Type} (f : A -> bool) (l : list A) :
  filter f (filter (fun a => negb (f a)) l) = [].
Proof.
  induction l as [|a l IH]; [reflexivity|].
  cbn [filter]. destruct (f a) eqn:E; cbn [negb filter]; [exact IH|].
  now rewrite E.
Qed.

Lemma delete_content_rows_cascade (id : nat) (s : store) :
  let s' := snd (delete_content_rows id s) in
  select_content s' id = [] /\
  Forall (fun p => p_content_id p <> id) (user_content_progress s') /\
  Forall (fun a => a_quiz_content_id a <> id) (user_quiz_attempts s') /\
  (forall x, x <> id -> select_content s' x = select_content s x) /\
  (forall u x, x <> id -> select_progress s' u x = select_progress s u x) /\
  (forall u x, x <> id -> select_attempts s' u x = select_attempts s u x) /\
  modules s' = modules s /\ enrollments s' = enrollments s.
Proof.
  unfold delete_content_rows, select_content, select_progress, select_attempts.
  cbn [snd content user_content_progress user_quiz_attempts modules enrollments].
  split; [apply (filter_negb_nil (fun c => Nat.eqb (c_id c) id))|].
  split.
  { apply Forall_forall. intros p Hin. apply filter_In in Hin as [_ H].
    now apply negb_true_iff, Nat.eqb_neq in H. }
  split.
  { apply Forall_forall. intros a Hin. apply filter_In in Hin as [_ H].
    now apply negb_true_iff, Nat.eqb_neq in H. }
  split.
  { intros x Hx. apply filter_filter_implied. intros c Hc.
    apply Nat.eqb_eq in Hc. apply negb_true_iff, Nat.eqb_neq. congruence. }
  split.
  { intros u x Hx. apply filter_filter_implied. intros p Hp.
    apply progress_matches_key in Hp. injection Hp as _ Hc.
    apply negb_true_iff, Nat.eqb_neq. congruence. }
  split; [|split; reflexivity].
  intros u x Hx. f_equal. apply filter_filter_implied. intros a Ha.
  unfold attempt_matches in Ha. apply andb_true_iff in Ha as [_ Hq].
  apply Nat.eqb_eq in Hq. apply negb_true_iff, Nat.eqb_neq. congruence.
Qed.

(** X4.  Deleting a content item, by an administrator or by the lecturer
    who owns its module, answers 200 only when the item was stored, and
    then the item, its progress rows and its quiz attempts are gone while
    every other content item, the progress rows and attempts of the other
    items, the modules and the enrolments are as before.  Any other answer
    leaves the store unchanged.  On a sound connection the answer is 404
    for an unknown item, 403 for a lecturer who does not own the module of
    the item, and 200 for an administrator or the owner. *)
Theorem delete_content_cascades (u : user) (id : nat) (c : conn) :
  u_role u = Lecturer \/ u_role u = Admin ->
  let out := delete_content (Token u) id c in
  let s' := db (snd out) in
  exists r,
    fst out = Ok r /\
    (status r = 200 ->
     has_content (db c) id /\
     select_content s' id = [] /\
     Forall (fun p => p_content_id p <> id) (user_content_progress s') /\
     Forall (fun a => a_quiz_content_id a <> id) (user_quiz_attempts s') /\
     (forall x, x <> id -> select_content s' x = select_content (db c) x) /\
     (forall v x, x <> id -> select_progress s' v x = select_progress (db c) v x) /\
     (forall v x, x <> id -> select_attempts s' v x = select_attempts (db c) v x) /\
     modules s' = modules (db c) /\ enrollments s' = enrollments (db c)) /\
    (status r <> 200 -> s' = db c) /\
    (faults c = [] ->
     (select_content (db c) id = [] -> r = reply 404 "Content not found") /\
     (forall item items m ms,
         select_content (db c) id = item :: items ->
         select_module (db c) (c_module_id item) = m :: ms ->
         (u_role u = Lecturer /\ m_instructor_id m <> u_id u ->
          r = reply 403 "Access denied: Not authorized to delete content from this module.") /\
         (u_role u = Admin \/ m_instructor_id m = u_id u ->
          r = reply 200 "Content deleted successfully"))).
Proof.
  intros Hrole out s'. subst s' out.
  pose proof (delete_content_outcome u id c Hrole) as H.
  destruct (delete_content (Token u) id c) as [res c']. cbn [fst snd].
  destruct H as (r & Hres & Hcases). exists r. split; [exact Hres|].
  destruct Hcases as [(-> & (item & items & Hitem & Hauth) & ->) | (-> & Hwhy)].
  - split; [|split].
    + intros _. split; [unfold has_content; rewrite Hitem; discriminate|].
      exact (delete_content_rows_cascade id (db c)).
    + intros H. now contradiction H.
    + intros _. split; [congruence|].
      intros item' items' m ms Hitem' Hmod.
      rewrite Hitem in Hitem'. injection Hitem' as <- <-.
      split; [|reflexivity].
      intros [Hlect Hne]. exfalso.
      destruct Hauth as [Hadmin | (m' & ms' & Hmod' & Hown)]; [congruence|].
      rewrite Hmod in Hmod'. injection Hmod' as <- <-. contradiction.
  - split; [|split].
    + intros H200. exfalso.
      destruct Hwhy as [[-> _] | [[-> _] | [-> _]]]; discriminate.
    + reflexivity.
    + intros Hf.
      assert (Hsound : ~ faulty c).
      { unfold faulty. rewrite Hf. tauto. }
      split.
      * intros Hnil.
        destruct Hwhy as [[-> _] | [(_ & _ & i & l & m & ms & Hi & _)
                                   | (_ & [Hbad | (_ & i & l & Hi & _)])]];
          try reflexivity; try contradiction; congruence.
      * intros item items m ms Hitem Hmod. split.
        -- intros [Hlect Hne].
           destruct Hwhy as [[_ Hnil] | [[-> _]
                                        | (_ & [Hbad | (_ & i & l & Hi & Hm)])]];
             try reflexivity; try contradiction; congruence.
        -- intros Hok. exfalso.
           destruct Hwhy as [[_ Hnil] | [(_ & Hlect & i & l & m' & ms' & Hi & Hm & Hne)
                                        | (_ & [Hbad | (Hlect & i & l & Hi & Hm)])]];
             try contradiction; try congruence.
           all: rewrite Hitem in Hi; injection Hi as <- <-;
             try (rewrite Hmod in Hm; injection Hm as <- <-);
             destruct Hok; congruence.
Qed.

Lemma delete_content_cascades_witness :
  exists r,
    fst (delete_content lecturer4 2 (mkConn dump_with_progress [])) = Ok r /\
    (status r = 200 ->
     select_content (db (snd (delete_content lecturer4 2 (mkConn dump_with_progress []))))
                    2 = []).
Proof.
  destruct (delete_content_cascades (mkUser 4 Lecturer) 2
              (mkConn dump_with_progress [])) as (r & Hres & H200 & _).
  - now left.
  - exists r. split; [exact Hres|]. intros H. exact (proj1 (proj2 (H200 H))).
Defined.

(** ** The cascade of a deleted module *)

Lemma delete_module_rows_cascade (id : nat) (s : store) :
  let s' := snd (delete_module_rows id s) in
  select_module s' id = [] /\
  module_items s' id = [] /\
  (forall u, select_enrollment s' u id = []) /\
  Forall (fun p => mem (p_content_id p) (content_of_module s id) = false)
         (user_content_progress s') /\
  Forall (fun a => mem (a_quiz_content_id a) (content_of_module s id) = false)
         (user_quiz_attempts s') /\
  (forall x, x <> id ->
     select_module s' x = select_module s x /\
     module_items s' x = module_items s x /\
     forall u, select_enrollment s' u x = select_enrollment s u x) /\
  (forall u x, mem x (content_of_module s id) = false ->
     select_progress s' u x = select_progress s u x /\
     select_attempts s' u x = select_attempts s u x).
Proof.
  unfold delete_module_rows, select_module, module_items, select_enrollment,
    select_progress, select_attempts.
  cbn [snd content user_content_progress user_quiz_attempts modules enrollments].
  split; [apply (filter_negb_nil (fun m => Nat.eqb (m_id m) id))|].
  split; [apply (filter_negb_nil (fun c => Nat.eqb (c_module_id c) id))|].
  split.
  { intros u. induction (enrollments s) as [|e l IH]; [reflexivity|].
    cbn [filter]. destruct (Nat.eqb (e_module_id e) id) eqn:E; cbn [negb filter];
      [exact IH|].
    rewrite E, andb_false_r. exact IH. }
  split.
  { apply Forall_forall. intros p Hin. apply filter_In in Hin as [_ H].
    now apply negb_true_iff in H. }
  split.
  { apply Forall_forall. intros a Hin. apply filter_In in Hin as [_ H].
    now apply negb_true_iff in H. }
  split.
  { intros x Hx. split; [|split].
    - apply filter_filter_implied. intros m Hm.
      apply Nat.eqb_eq in Hm. apply negb_true_iff, Nat.eqb_neq. congruence.
    - apply filter_filter_implied. intros c Hc.
      apply Nat.eqb_eq in Hc. apply negb_true_iff, Nat.eqb_neq. congruence.
    - intros u. apply filter_filter_implied. intros e He.
      apply andb_true_iff in He as [_ He]. apply Nat.eqb_eq in He.
      apply negb_true_iff, Nat.eqb_neq. congruence. }
  intros u x Hmem. split.
  - apply filter_filter_implied. intros p Hp.
    apply progress_matches_key in Hp. injection Hp as _ Hc.
    apply negb_true_iff. congruence.
  - f_equal. apply filter_filter_implied. intros a Ha.
    unfold attempt_matches in Ha. apply andb_true_iff in Ha as [_ Hq].
    apply Nat.eqb_eq in Hq. apply negb_true_iff. congruence.
Qed.

(** X5.  Deleting a module, by an administrator or by the lecturer who
    owns it, answers 200 only when the module was stored, and then the
    module, its content items, its enrolments and the progress rows and
    quiz attempts of its content items are gone, while the other modules
    with their content and enrolments, and the progress rows and attempts
    of every content item outside the module, are as before.  Any other
    answer leaves the store unchanged.  On a sound connection the answer is
    404 for an unknown module, 403 for a lecturer who does not own it, and
    200 otherwise. *)
Theorem delete_module_cascades (u : user) (id : nat) (c : conn) :
  u_role u = Lecturer \/ u_role u = Admin ->
  let out := delete_module (Token u) id c in
  let s' := db (snd out) in
  let items := content_of_module (db c) id in
  exists r,
    fst out = Ok r /\
    (status r = 200 ->
     has_module (db c) id /\
     select_module s' id = [] /\
     module_items s' id = [] /\
     (forall v, select_enrollment s' v id = []) /\
     Forall (fun p => mem (p_content_id p) items = false) (user_content_progress s') /\
     Forall (fun a => mem (a_quiz_content_id a) items = false) (user_quiz_attempts s') /\
     (forall x, x <> id ->
        select_module s' x = select_module (db c) x /\
        module_items s' x = module_items (db c) x /\
        forall v, select_enrollment s' v x = select_enrollment (db c) v x) /\
     (forall v x, mem x items = false ->
        select_progress s' v x = select_progress (db c) v x /\
        select_attempts s' v x = select_attempts (db c) v x)) /\
    (status r <> 200 -> s' = db c) /\
    (faults c = [] ->
     (select_module (db c) id = [] -> r = reply 404 "Module not found") /\
     (forall m ms,
         select_module (db c) id = m :: ms ->
         (u_role u = Lecturer /\ m_instructor_id m <> u_id u ->
          r = reply 403 "Access denied: You are not authorized to delete this module.") /\
         (may_manage u m -> r = reply 200 "Module deleted successfully"))).
Proof.
  intros Hrole out s' items. subst s' out items.
  pose proof (delete_module_outcome u id c Hrole) as H.
  destruct (delete_module (Token u) id c) as [res c']. cbn [fst snd].
  destruct H as (r & Hres & Hcases). exists r. split; [exact Hres|].
  destruct Hcases as [(-> & (m & ms & Hmod & Hmay) & ->) | (-> & Hwhy)].
  - split; [|split].
    + intros _. split; [unfold has_module; rewrite Hmod; discriminate|].
      exact (delete_module_rows_cascade id (db c)).
    + intros H. now contradiction H.
    + intros _. split; [congruence|].
      intros m' ms' Hmod'. rewrite Hmod in Hmod'. injection Hmod' as <- <-.
      split; [|reflexivity].
      intros [Hlect Hne]. exfalso.
      destruct Hmay as [Hadmin | [_ Hown]]; congruence.
  - split; [|split].
    + intros H200. exfalso.
      destruct Hwhy as [[-> _] | [[-> _] | [-> _]]]; discriminate.
    + reflexivity.
    + intros Hf.
      assert (Hsound : ~ faulty c).
      { unfold faulty. rewrite Hf. tauto. }
      split.
      * intros Hnil.
        destruct Hwhy as [[-> _] | [(_ & _ & m & ms & Hm & _) | (_ & Hbad)]];
          try reflexivity; try contradiction; congruence.
      * intros m ms Hmod. split.
        -- intros [Hlect Hne].
           destruct Hwhy as [[_ Hnil] | [[-> _] | (_ & Hbad)]];
             try reflexivity; try contradiction; congruence.
        -- intros Hmay. exfalso.
           destruct Hwhy as [[_ Hnil] | [(_ & Hlect & m' & ms' & Hm & Hne) | (_ & Hbad)]];
             try contradiction; try congruence.
           all: rewrite Hmod in Hm; injection Hm as <- <-;
             destruct Hmay as [Hadmin | [_ Hown]]; congruence.
Qed.

Lemma delete_module_cascades_witness :
  exists r,
    fst (delete_module lecturer4 2 (mkConn dump_with_progress [])) = Ok r /\
    (status r = 200 ->
     module_items (db (snd (delete_module lecturer4 2 (mkConn dump_with_progress []))))
                  2 = []).
Proof.
  destruct (delete_module_cascades (mkUser 4 Lecturer) 2
              (mkConn dump_with_progress [])) as (r & Hres & H200 & _).
  - now left.
  - exists r. split; [exact Hres|]. intros H.
    exact (proj1 (proj2 (proj2 (H200 H)))).
Defined.

Example delete_module_example :
  let out := delete_module lecturer4 2 (mkConn dump_with_progress []) in
  fst out = Ok (reply 200 "Module deleted successfully") /\
  content (db (snd out)) = [] /\
  user_content_progress (db (snd out)) = [] /\
  enrollments (db (snd out)) = [mkEnrollment 3 1 2 false] /\
  fst (delete_module (Token (mkUser 1 Lecturer)) 2 (mkConn dump_with_progress []))
  = Ok (reply 403 "Access denied: You are not authorized to delete this module.").
Proof. repeat split; reflexivity. Qed.

(** ** The listing of quiz attempts *)

Lemma insert_newest_first_perm (a : attempt_row) (l : list attempt_row) :
  Permutation (insert_newest_first a l) (a :: l).
Proof.
  induction l as [|b l IH]; cbn [insert_newest_first]; [reflexivity|].
  destruct (a_attempt_date b <=? a_attempt_date a)%nat; [reflexivity|].
  rewrite IH. apply perm_swap.
Qed.

Lemma newest_first_perm (l : list attempt_row) : Permutation (newest_first l) l.
Proof.
  induction l as [|a l IH]; cbn [newest_first]; [reflexivity|].
  rewrite insert_newest_first_perm. now constructor.
Qed.

Lemma insert_newest_first_sorted (a : attempt_row) (l : list attempt_row) :
  StronglySorted not_older l -> StronglySorted not_older (insert_newest_first a l).
Proof.
  induction 1 as [|b l Hl IH Hb]; cbn [insert_newest_first].
  - constructor; constructor.
  - destruct (a_attempt_date b <=? a_attempt_date a)%nat eqn:E.
    + apply Nat.leb_le in E. constructor; [now constructor|].
      constructor; [exact E|].
      eapply Forall_impl; [|exact Hb]. unfold not_older. intros x Hx. lia.
    + apply Nat.leb_gt in E. constructor; [exact IH|].
      eapply Permutation_Forall; [symmetry; apply insert_newest_first_perm|].
      constructor; [unfold not_older; lia | exact Hb].
Qed.

Lemma newest_first_sorted (l : list attempt_row) :
  StronglySorted not_older (newest_first l).
Proof.
  induction l as [|a l IH]; cbn [newest_first]; [constructor|].
  now apply insert_newest_first_sorted.
Qed.

(** X6.  The attempts listing of a learner answers, without changing the
    store, either 200 with exactly the learner's own attempts on that quiz
    (each stored attempt once, none of another learner or another quiz),
    the newest first, or 500 after a storage failure; on a sound connection
    it is the listing. *)
Theorem attempts_listing_own_newest_first (u : user) (cid : nat) (c : conn) :
  u_role u = Learner ->
  let out := get_quiz_attempts (Token u) cid c in
  db (snd out) = db c /\
  ((exists rows,
       fst out = Ok (Sent 200 (map view_attempt rows)) /\
       Permutation rows (own_attempts (db c) (u_id u) cid) /\
       StronglySorted not_older rows /\
       Forall (fun a => a_user_id a = u_id u /\ a_quiz_content_id a = cid) rows)
   \/ (fst out = Ok (Failed 500 "Server error fetching quiz attempts") /\ faulty c)) /\
  (faults c = [] ->
   fst out = Ok (Sent 200 (map view_attempt (select_attempts (db c) (u_id u) cid)))).
Proof.
  intros Hrole out. subst out.
  split; [apply get_quiz_attempts_keeps_store|].
  unfold get_quiz_attempts, authenticated, authorized.
  rewrite Hrole. cbn [existsb role_eqb orb].
  unfold catching. unfold_handler.
  split.
  - run_round_trip.
    + left. exists (select_attempts (db c) (u_id u) cid).
      cbn [fst]. split; [now rewrite D|].
      split; [apply newest_first_perm|].
      split; [apply newest_first_sorted|].
      eapply Permutation_Forall; [symmetry; apply newest_first_perm|].
      apply Forall_forall. intros a Ha. apply filter_In in Ha as [_ Ha].
      unfold attempt_matches in Ha. apply andb_true_iff in Ha as [H1 H2].
      now apply Nat.eqb_eq in H1, H2.
    + right. cbn [fst]. split; [reflexivity | exact F].
  - intros Hf. rewrite (round_trip_no_fault c Hf). reflexivity.
Qed.

Lemma attempts_listing_own_newest_first_witness :
  fst (get_quiz_attempts learner3 2 (mkConn dump [])) = Ok (Sent 200 []).
Proof.
  exact (proj2 (proj2 (attempts_listing_own_newest_first (mkUser 3 Learner) 2
                         (mkConn dump []) eq_refl)) eq_refl).
Defined.

Lemma newest_first_snoc (a : attempt_row) (l : list attempt_row) :
  Forall (fun b => (a_attempt_date b < a_attempt_date a)%nat) l ->
  newest_first (l ++ [a]) = a :: newest_first l.
Proof.
  induction l as [|b l IH]; intros H; [reflexivity|].
  apply Forall_cons_iff in H as [Hb Hl].
  rewrite <- app_comm_cons. cbn [newest_first]. rewrite (IH Hl).
  cbn [insert_newest_first].
  apply Nat.leb_gt in Hb. now rewrite Hb.
Qed.

Lemma own_attempts_after_submit (u cid h now : nat) (z : Z) (answers : list json)
    (s : store) :
  own_attempts (upsert_progress u cid now (record_attempt u cid z answers h s)) u cid
  = (own_attempts s u cid ++ [mkAttempt u cid z h answers])%list.
Proof.
  unfold own_attempts.
  rewrite (proj1 (upsert_progress_frame u cid now _)).
  unfold record_attempt. destruct s as [strict us ms cs nxt es ps ats];
    cbn [set_attempts user_quiz_attempts].
  rewrite filter_app. cbn [filter]. unfold attempt_matches.
  cbn [a_user_id a_quiz_content_id]. now rewrite !Nat.eqb_refl.
Qed.

Lemma other_attempts_after_submit (u cid h now : nat) (z : Z) (answers : list json)
    (s : store) (v x : nat) :
  (v, x) <> (u, cid) ->
  own_attempts (upsert_progress u cid now (record_attempt u cid z answers h s)) v x
  = own_attempts s v x.
Proof.
  intros Hne. unfold own_attempts.
  rewrite (proj1 (upsert_progress_frame u cid now _)).
  unfold record_attempt. destruct s as [strict us ms cs nxt es ps ats];
    cbn [set_attempts user_quiz_attempts].
  rewrite filter_app. cbn [filter]. unfold attempt_matches at 2.
  cbn [a_user_id a_quiz_content_id].
  destruct (Nat.eqb u v) eqn:E1, (Nat.eqb cid x) eqn:E2; cbn [andb];
    try apply app_nil_r.
  apply Nat.eqb_eq in E1, E2. congruence.
Qed.

(** X7.  Submission and listing compose: a submission always answers, and
    when it answers 200 at a time later than the learner's earlier attempts
    on the quiz, the attempts listing that follows starts with the new
    attempt (the score as stored, that is the returned score rounded to two
    decimals, the time of the submission and the answers as sent) and
    continues with the listing as it was before; the listings of every
    other learner or quiz are as before. *)
Theorem submitted_attempt_heads_listing
    (u : user) (cid : nat) (answers : list json) (now : nat) (c : conn) :
  u_role u = Learner ->
  Forall (fun a => (a_attempt_date a < now)%nat) (own_attempts (db c) (u_id u) cid) ->
  let out := submit_quiz (Token u) cid (Some (JArr answers)) now c in
  let after := mkConn (db (snd out)) [] in
  exists r,
    fst out = Ok r /\
    (status r = 200 ->
     exists score correct total h,
       payload r = QuizResult score correct total "Quiz submitted successfully" /\
       decimal_5_2 (sql_strict (db c)) (toFixed score 2) = Ok h /\
       fst (get_quiz_attempts (Token u) cid after)
       = Ok (Sent 200 (mkAttemptView h now answers
                         :: map view_attempt (select_attempts (db c) (u_id u) cid))) /\
       forall v x, (u_id v, x) <> (u_id u, cid) ->
         fst (get_quiz_attempts (Token v) x after)
         = fst (get_quiz_attempts (Token v) x (mkConn (db c) []))).
Proof.
  intros Hrole Hdates out after. subst after out.
  pose proof (submit_quiz_outcome u cid answers now c Hrole) as H.
  destruct (submit_quiz (Token u) cid (Some (JArr answers)) now c) as [res c'].
  cbn [fst snd].
  destruct H as [(row & rest & g & h & Hsel & Hg & Hh & _ & -> & Hdb)
                | (r & -> & Hdb & Hwhy)].
  - eexists. split; [reflexivity|]. intros _.
    exists (g_score g), (g_correctAnswers g), (g_totalQuestions g), h.
    split; [reflexivity|]. split; [exact Hh|]. split.
    + unfold get_quiz_attempts, authenticated, authorized.
      rewrite Hrole. cbn [existsb role_eqb orb].
      unfold catching. unfold_handler.
      rewrite round_trip_no_fault by reflexivity. cbn [db fst].
      do 3 f_equal. rewrite Hdb. unfold select_attempts.
      fold (own_attempts (upsert_progress (u_id u) cid now
              (record_attempt (u_id u) cid h answers now (db c))) (u_id u) cid).
      rewrite own_attempts_after_submit.
      fold (own_attempts (db c) (u_id u) cid).
      rewrite newest_first_snoc by exact Hdates. reflexivity.
    + intros v x Hne.
      unfold get_quiz_attempts, authenticated, authorized.
      destruct (existsb (role_eqb (u_role v)) [Learner]); [|reflexivity].
      unfold catching. unfold_handler.
      rewrite !round_trip_no_fault by reflexivity. cbn [db fst].
      rewrite Hdb. unfold select_attempts.
      fold (own_attempts (upsert_progress (u_id u) cid now
              (record_attempt (u_id u) cid h answers now (db c))) (u_id v) x).
      rewrite other_attempts_after_submit by exact Hne. reflexivity.
  - exists r. split; [reflexivity|]. intros H200. exfalso.
    destruct Hwhy as [[H _] | [H _]]; congruence.
Qed.

Lemma submitted_attempt_heads_listing_witness :
  exists r,
    fst (submit_quiz learner3 2 (Some (JArr [JNum 1; JNum 0])) 7 (mkConn dump [])) = Ok r.
Proof.
  destruct (submitted_attempt_heads_listing (mkUser 3 Learner) 2 [JNum 1; JNum 0] 7
              (mkConn dump []) eq_refl) as (r & Hr & _).
  - constructor.
  - exists r. exact Hr.
Defined.

(** ** Marking a content item complete *)

Lemma existsb_map_comp {A B : Type} (f : B -> bool) (g : A -> B) (l : list A) :
  existsb f (map g l) = existsb (fun x => f (g x)) l.
Proof.
  induction l as [|a l IH]; [reflexivity|]. cbn [map existsb]. now rewrite IH.
Qed.

Lemma existsb_same {A : Type} (f g : A -> bool) (l : list A) :
  (forall x, f x = g x) -> existsb f l = existsb g l.
Proof.
  intros H. induction l as [|a l IH]; [reflexivity|].
  cbn [existsb]. now rewrite H, IH.
Qed.

Lemma completed_by_upsert (u cid now : nat) (s : store) (v : nat) (c : content_row) :
  all_completed s ->
  completed_by (upsert_progress u cid now s) v c
  = completed_by s v c || (Nat.eqb v u && Nat.eqb (c_id c) cid).
Proof.
  intros Hall. unfold upsert_progress.
  destruct (select_progress s u cid) as [|p rest] eqn:Hsel;
    unfold completed_by; cbn [user_content_progress set_progress].
  - rewrite existsb_app. cbn [existsb]. unfold progress_matches at 2.
    cbn [p_user_id p_content_id p_is_completed].
    rewrite orb_false_r, andb_true_r.
    now rewrite (Nat.eqb_sym u v), (Nat.eqb_sym cid (c_id c)).
  - rewrite existsb_map_comp.
    rewrite (existsb_same _ (fun p => progress_matches v (c_id c) p && p_is_completed p)).
    2:{ intros q. now destruct (progress_matches u cid q). }
    destruct (Nat.eqb v u && Nat.eqb (c_id c) cid) eqn:E;
      [|now rewrite orb_false_r].
    rewrite orb_true_r. apply andb_true_iff in E as [Ev Ec].
    apply Nat.eqb_eq in Ev, Ec. subst v cid.
    apply existsb_exists. exists p.
    assert (Hin : In p (select_progress s u (c_id c))) by (rewrite Hsel; now left).
    apply filter_In in Hin as [Hin Hm]. split; [exact Hin|].
    rewrite Hm. cbn [andb].
    unfold all_completed in Hall. rewrite Forall_forall in Hall. now apply Hall.
Qed.

Lemma filter_or_absent (f : content_row -> bool) (cid : nat) (l : list content_row) :
  ~ In cid (map c_id l) ->
  filter (fun c => f c || Nat.eqb (c_id c) cid) l = filter f l.
Proof.
  induction l as [|a l IH]; cbn [map filter In]; intros H; [reflexivity|].
  assert (E : Nat.eqb (c_id a) cid = false) by (apply Nat.eqb_neq; tauto).
  rewrite E, orb_false_r, IH by tauto. reflexivity.
Qed.

Lemma filter_or_present (f : content_row -> bool) (item : content_row)
    (l : list content_row) :
  NoDup (map c_id l) -> In item l ->
  List.length (filter (fun c => f c || Nat.eqb (c_id c) (c_id item)) l)
  = (List.length (filter f l) + (if f item then 0 else 1))%nat.
Proof.
  induction l as [|a l IH]; cbn [map filter In]; intros Hnd Hin; [contradiction|].
  apply NoDup_cons_iff in Hnd as [Ha Hnd].
  destruct Hin as [-> | Hin].
  - rewrite Nat.eqb_refl, orb_true_r, (filter_or_absent f _ l Ha).
    destruct (f item); cbn [List.length]; lia.
  - assert (E : Nat.eqb (c_id a) (c_id item) = false).
    { apply Nat.eqb_neq. intros Heq. apply Ha. rewrite Heq. now apply in_map. }
    rewrite E, orb_false_r. specialize (IH Hnd Hin).
    destruct (f a); cbn [List.length]; lia.
Qed.

Lemma NoDup_map_same {A B : Type} (f : A -> B) (l : list A) (a b : A) :
  NoDup (map f l) -> In a l -> In b l -> f a = f b -> a = b.
Proof.
  induction l as [|x l IH]; cbn [map In]; intros Hnd Ha Hb Heq; [contradiction|].
  apply NoDup_cons_iff in Hnd as [Hx Hnd].
  destruct Ha as [-> | Ha], Hb as [-> | Hb]; auto.
  - exfalso. apply Hx. rewrite Heq. now apply in_map.
  - exfalso. apply Hx. rewrite <- Heq. now apply in_map.
Qed.

Lemma completed_count_upsert (u cid now : nat) (s : store) (item : content_row)
    (items : list content_row) :
  all_completed s -> NoDup (map c_id (content s)) ->
  select_content s cid = item :: items ->
  let s' := upsert_progress u cid now s in
  completed_by s' u item = true /\
  completedCount s' u (c_module_id item)
  = (completedCount s u (c_module_id item)
     + (if completed_by s u item then 0 else 1))%nat /\
  (forall v m, (v, m) <> (u, c_module_id item) ->
     completedCount s' v m = completedCount s v m) /\
  (forall m, totalCount s' m = totalCount s m).
Proof.
  intros Hall Hnd Hsel s'. subst s'.
  assert (Hin : In item (select_content s cid)) by (rewrite Hsel; now left).
  apply filter_In in Hin as [Hin Hid]. apply Nat.eqb_eq in Hid.
  assert (Hitems : forall m,
             module_items (upsert_progress u cid now s) m = module_items s m).
  { intros m. unfold module_items.
    now rewrite (proj1 (proj2 (proj2 (upsert_progress_frame u cid now s)))). }
  split; [|split; [|split]].
  - rewrite completed_by_upsert by exact Hall.
    rewrite Nat.eqb_refl, Hid, Nat.eqb_refl. apply orb_true_r.
  - unfold completedCount. rewrite Hitems.
    rewrite (filter_ext _ (fun c => completed_by s u c || Nat.eqb (c_id c) (c_id item))).
    2:{ intros c. rewrite completed_by_upsert by exact Hall.
        now rewrite Nat.eqb_refl, Hid. }
    apply filter_or_present.
    + unfold module_items. now apply NoDup_map_filter.
    + unfold module_items. apply filter_In. split; [exact Hin|apply Nat.eqb_refl].
  - intros v m Hne. unfold completedCount. rewrite Hitems.
    destruct (Nat.eqb v u) eqn:Ev.
    + apply Nat.eqb_eq in Ev. subst v.
      rewrite (filter_ext _ (fun c => completed_by s u c || Nat.eqb (c_id c) cid)).
      2:{ intros c. rewrite completed_by_upsert by exact Hall.
          now rewrite Nat.eqb_refl. }
      rewrite filter_or_absent; [reflexivity|].
      intros Hmem. apply in_map_iff in Hmem as (c & Hc & Hcin).
      unfold module_items in Hcin. apply filter_In in Hcin as [Hcin Hm].
      apply Nat.eqb_eq in Hm.
      assert (c = item).
      { apply (NoDup_map_same c_id (content s)); auto. congruence. }
      subst c. congruence.
    + f_equal. apply filter_ext. intros c.
      rewrite completed_by_upsert by exact Hall. now rewrite Ev, orb_false_r.
  - intros m. unfold totalCount. now rewrite Hitems.
Qed.

(** X8.  Marking a content item complete always answers.  The answer is
    200 only for a stored item of a module the learner is enrolled in; then
    the item counts as completed by the learner, the completed count of its
    module grows by one when the item was not completed before and stays
    when it was (marking twice counts once), and the counts of every other
    learner and module, and all totals, are as before.  Any other answer
    leaves the store unchanged.  On a sound connection the answer is 404
    for an unknown item, 403 without enrolment in its module, 200
    otherwise when the account is stored. *)
Theorem mark_complete_counts_once (u : user) (cid now : nat) (c : conn) :
  u_role u = Learner ->
  all_completed (db c) ->
  NoDup (map c_id (content (db c))) ->
  let out := mark_content_complete (Token u) cid now c in
  let s := db c in
  let s' := db (snd out) in
  exists r,
    fst out = Ok r /\
    (status r = 200 ->
     exists item items,
       select_content s cid = item :: items /\
       enrolled s (u_id u) (c_module_id item) /\
       completed_by s' (u_id u) item = true /\
       completedCount s' (u_id u) (c_module_id item)
       = (completedCount s (u_id u) (c_module_id item)
          + (if completed_by s (u_id u) item then 0 else 1))%nat /\
       (forall v m, (v, m) <> (u_id u, c_module_id item) ->
          completedCount s' v m = completedCount s v m) /\
       (forall m, totalCount s' m = totalCount s m)) /\
    (status r <> 200 -> s' = s) /\
    (faults c = [] ->
     (select_content s cid = [] -> r = reply 404 "Content item not found.") /\
     (forall item items,
         select_content s cid = item :: items ->
         (select_enrollment s (u_id u) (c_module_id item) = [] ->
          r = reply 403 "You are not enrolled in the module this content belongs to.") /\
         (enrolled s (u_id u) (c_module_id item) -> has_user s (u_id u) ->
          r = reply 200 "Content marked as complete successfully."))).
Proof.
  intros Hrole Hall Hnd out s s'. subst s' s out.
  pose proof (mark_content_complete_outcome u cid now c Hrole) as H.
  destruct (mark_content_complete (Token u) cid now c) as [res c']. cbn [fst snd].
  destruct H as (r & -> & Hcases). exists r. split; [reflexivity|].
  destruct Hcases as [(-> & (item & items & Hsel & Hen) & _ & ->) | (-> & Hwhy)].
  - split; [|split].
    + intros _. exists item, items. split; [exact Hsel|]. split; [exact Hen|].
      exact (completed_count_upsert (u_id u) cid now (db c) item items Hall Hnd Hsel).
    + intros H. now contradiction H.
    + intros _. split; [congruence|].
      intros item' items' Hsel'. rewrite Hsel in Hsel'. injection Hsel' as <- <-.
      split; [|reflexivity]. intros Hnone. now contradiction Hen.
  - split; [|split].
    + intros H200. exfalso.
      destruct Hwhy as [[-> _] | [[-> _] | [-> _]]]; discriminate.
    + reflexivity.
    + intros Hf.
      assert (Hsound : ~ faulty c).
      { unfold faulty. rewrite Hf. tauto. }
      split.
      * intros Hnil.
        destruct Hwhy as [[-> _] | [(_ & i & l & Hi & _)
                                   | (_ & [Hbad | (_ & i & l & Hi & _)])]];
          try reflexivity; try contradiction; congruence.
      * intros item items Hsel. split.
        -- intros Hnone.
           destruct Hwhy as [[_ Hnil] | [[-> _]
                                        | (_ & [Hbad | (_ & i & l & Hi & Hen)])]];
             try reflexivity; try contradiction; congruence.
        -- intros Hen Huser. exfalso.
           destruct Hwhy as [[_ Hnil] | [(_ & i & l & Hi & Hnone)
                                        | (_ & [Hbad | (Hnouser & _)])]];
             try contradiction; congruence.
Qed.

Lemma mark_complete_counts_once_witness :
  exists r,
    fst (mark_content_complete learner3 1 9 (mkConn dump [])) = Ok r /\
    (status r = 200 ->
     completedCount (db (snd (mark_content_complete learner3 1 9 (mkConn dump [])))) 3 2
     = 1%nat).
Proof.
  destruct (mark_complete_counts_once (mkUser 3 Learner) 1 9 (mkConn dump []))
    as (r & Hr & H200 & _).
  - reflexivity.
  - constructor.
  - cbn. repeat constructor; cbn; intuition discriminate.
  - exists r. split; [exact Hr|]. intros H.
    destruct (H200 H) as (item & items & Hsel & _ & _ & Hcount & _).
    injection Hsel as <- <-. exact Hcount.
Defined.

(** ** Completions and attempts of the content that stays *)

Lemma history_kept_refl (s : store) : history_kept s s.
Proof.
  split; [lia|]. intros item Hin _. split; [exact Hin|]. split; [auto|].
  intros u. exists []. now rewrite app_nil_r.
Qed.

Lemma history_kept_trans (s1 s2 s3 : store) :
  history_kept s1 s2 -> history_kept s2 s3 -> history_kept s1 s3.
Proof.
  intros [Hn12 H12] [Hn23 H23]. split; [lia|].
  intros item Hin Hlt.
  destruct (H23 item Hin ltac:(lia)) as (Hin2 & Hc23 & Ha23).
  destruct (H12 item Hin2 Hlt) as (Hin1 & Hc12 & Ha12).
  split; [exact Hin1|]. split; [auto|].
  intros u. destruct (Ha12 u) as [l1 E1]. destruct (Ha23 u) as [l2 E2].
  exists (l1 ++ l2)%list. now rewrite E2, E1, app_assoc.
Qed.

Lemma completed_by_upsert_mono (u cid now : nat) (s : store) (v : nat)
    (c : content_row) :
  completed_by s v c = true -> completed_by (upsert_progress u cid now s) v c = true.
Proof.
  unfold upsert_progress.
  destruct (select_progress s u cid) as [|p rest];
    unfold completed_by; cbn [user_content_progress set_progress]; intros H.
  - rewrite existsb_app, H. reflexivity.
  - rewrite existsb_map_comp.
    rewrite (existsb_same _ (fun p => progress_matches v (c_id c) p && p_is_completed p));
      [exact H|].
    intros q. now destruct (progress_matches u cid q).
Qed.

Lemma existsb_filter_implied {A : Type} (f g : A -> bool) (l : list A) :
  (forall a, f a = true -> g a = true) ->
  existsb f (filter g l) = existsb f l.
Proof.
  intros H. induction l as [|a l IH]; [reflexivity|].
  cbn [filter existsb]. destruct (g a) eqn:Eg; cbn [existsb].
  - now rewrite IH.
  - rewrite IH. destruct (f a) eqn:Ef; [|reflexivity].
    rewrite (H a Ef) in Eg. discriminate.
Qed.

Lemma own_attempts_submit_grows (u cid now : nat) (h : Z) (answers : list json)
    (s : store) (v x : nat) :
  exists later,
    own_attempts (upsert_progress u cid now (record_attempt u cid h answers now s)) v x
    = (own_attempts s v x ++ later)%list.
Proof.
  destruct (Nat.eqb v u && Nat.eqb x cid) eqn:E.
  - apply andb_true_iff in E as [Ev Ex]. apply Nat.eqb_eq in Ev, Ex. subst v x.
    eexists. apply own_attempts_after_submit.
  - exists []. rewrite app_nil_r. apply other_attempts_after_submit.
    intros Heq. injection Heq as -> ->. now rewrite !Nat.eqb_refl in E.
Qed.

Lemma same_tables_keep_history (s s' : store) :
  content s' = content s -> next_content_id s' = next_content_id s ->
  (forall u item, completed_by s u item = true -> completed_by s' u item = true) ->
  (forall u x, exists later, own_attempts s' u x = (own_attempts s u x ++ later)%list) ->
  history_kept s s'.
Proof.
  intros Hc Hn Hdone Hatt. split; [lia|].
  intros item Hin _. rewrite Hc in Hin. split; [exact Hin|]. split; [auto|].
  intros u. apply Hatt.
Qed.

Lemma step_keeps_history (s s' : store) :
  store_step s s' -> content_ids_fresh s -> history_kept s s'.
Proof.
  intros Hstep [Hnd Hlt].
  destruct Hstep as
    [ | u cid h answers now row rest Huser Hquiz
      | u cid now item items Huser Hitem
      | u mid now Huser Hmod Hsel
      | mid title ctype text path qd Hmod
      | id
      | id ].
  - apply history_kept_refl.
  - apply same_tables_keep_history.
    + now rewrite (proj1 (proj2 (proj2 (upsert_progress_frame _ _ _ _)))).
    + unfold upsert_progress. now destruct (select_progress _ _ _).
    + intros v item H. apply completed_by_upsert_mono. exact H.
    + intros v x. apply own_attempts_submit_grows.
  - apply same_tables_keep_history.
    + now rewrite (proj1 (proj2 (proj2 (upsert_progress_frame _ _ _ _)))).
    + unfold upsert_progress. now destruct (select_progress _ _ _).
    + intros v it H. now apply completed_by_upsert_mono.
    + intros v x. exists []. rewrite app_nil_r. unfold own_attempts.
      now rewrite (proj1 (upsert_progress_frame _ _ _ _)).
  - apply same_tables_keep_history; try reflexivity; [auto|].
    intros v x. exists []. now rewrite app_nil_r.
  - split; [cbn; lia|].
    intros item Hin Hid. cbn [content set_content] in Hin.
    apply in_app_or in Hin as [Hin | [<- | []]].
    + split; [exact Hin|]. split; [auto|].
      intros v. exists []. now rewrite app_nil_r.
    + unfold inserted_content in Hid. cbn [c_id] in Hid. lia.
  - split; [cbn; lia|].
    intros item Hin _. cbn [snd delete_content_rows content] in Hin.
    apply filter_In in Hin as [Hin Hne].
    apply negb_true_iff, Nat.eqb_neq in Hne.
    split; [exact Hin|]. split.
    + intros v. unfold completed_by.
      cbn [snd delete_content_rows user_content_progress].
      rewrite existsb_filter_implied; [auto|].
      intros p Hp. apply andb_true_iff in Hp as [Hp _].
      apply progress_matches_key in Hp. injection Hp as _ Hp.
      apply negb_true_iff, Nat.eqb_neq. congruence.
    + intros v. exists []. rewrite app_nil_r. unfold own_attempts.
      cbn [snd delete_content_rows user_quiz_attempts].
      apply filter_filter_implied. intros a Ha.
      apply andb_true_iff in Ha as [_ Ha]. apply Nat.eqb_eq in Ha.
      apply negb_true_iff, Nat.eqb_neq. congruence.
  - split; [cbn; lia|].
    intros item Hin _. cbn [snd delete_module_rows content] in Hin.
    apply filter_In in Hin as [Hin Hne].
    apply negb_true_iff, Nat.eqb_neq in Hne.
    assert (Hout : mem (c_id item) (content_of_module s id) = false).
    { destruct (mem (c_id item) (content_of_module s id)) eqn:E; [|reflexivity].
      exfalso. unfold mem, content_of_module in E.
      apply existsb_exists in E as (x & Hx & Heq). apply Nat.eqb_eq in Heq. subst x.
      apply in_map_iff in Hx as (c & Hc & Hcin).
      apply filter_In in Hcin as [Hcin Hm]. apply Nat.eqb_eq in Hm.
      assert (c = item) by (apply (NoDup_map_same c_id (content s)); auto).
      subst c. contradiction. }
    split; [exact Hin|]. split.
    + intros v. unfold completed_by.
      cbn [snd delete_module_rows user_content_progress].
      rewrite existsb_filter_implied; [auto|].
      intros p Hp. apply andb_true_iff in Hp as [Hp _].
      apply progress_matches_key in Hp. injection Hp as _ Hp.
      apply negb_true_iff. congruence.
    + intros v. exists []. rewrite app_nil_r. unfold own_attempts.
      cbn [snd delete_module_rows user_quiz_attempts].
      apply filter_filter_implied. intros a Ha.
      apply andb_true_iff in Ha as [_ Ha]. apply Nat.eqb_eq in Ha.
      apply negb_true_iff. congruence.
Qed.

Lemma perform_all_keeps_history (operations : list (operation * nat)) (c : conn) :
  content_ids_fresh (db c) -> history_kept (db c) (db (perform_all operations c)).
Proof.
  revert c. induction operations as [|[o now] later IH]; intros c Hfresh;
    cbn [perform_all]; [apply history_kept_refl|].
  pose proof (perform_step o now c) as Hstep.
  eapply history_kept_trans.
  - exact (step_keeps_history _ _ Hstep Hfresh).
  - apply IH. exact (step_keeps_content_ids _ _ Hstep Hfresh).
Qed.

(** X9.  Over every sequence of operations, creations and deletions
    included, a content item that was stored at the beginning and is stored
    at the end keeps its history: a learner who had completed it has still
    completed it, and the attempts of each learner on it are the earlier
    ones, in the same order, followed by the ones made since.  Progress and
    attempts are lost only with the content item they belong to. *)
Theorem operations_keep_history
    (operations : list (operation * nat)) (c : conn) (item : content_row) :
  content_ids_fresh (db c) ->
  In item (content (db c)) ->
  In item (content (db (perform_all operations c))) ->
  forall u,
    (completed_by (db c) u item = true ->
     completed_by (db (perform_all operations c)) u item = true) /\
    exists later,
      own_attempts (db (perform_all operations c)) u (c_id item)
      = (own_attempts (db c) u (c_id item) ++ later)%list.
Proof.
  intros Hfresh Hin Hin' u.
  destruct (perform_all_keeps_history operations c Hfresh) as [_ H].
  assert (Hlt : (c_id item < next_content_id (db c))%nat).
  { destruct Hfresh as [_ Hlt]. rewrite Forall_forall in Hlt. now apply Hlt. }
  destruct (H item Hin' Hlt) as (_ & Hdone & Hatt).
  split; [apply Hdone | apply Hatt].
Qed.

Lemma operations_keep_history_witness :
  exists later,
    own_attempts
      (db (perform_all [(Core (SubmitQuiz learner3 2 (Some (JArr [JNum 1%Z; JNum 0%Z]))), 7);
                        (DeleteContent lecturer4 1, 8)]
                       (mkConn dump_with_progress [])))
      3 2
    = (own_attempts dump_with_progress 3 2 ++ later)%list.
Proof.
  refine (proj2 (operations_keep_history
                   [(Core (SubmitQuiz learner3 2 (Some (JArr [JNum 1%Z; JNum 0%Z]))), 7);
                    (DeleteContent lecturer4 1, 8)]
                   (mkConn dump_with_progress [])
                   (mkContent 2 2 "QUIZ OF BIG DATA" "Quizzes" None None
                              (Some big_data_quiz))
                   _ _ _ 3)).
  - unfold content_ids_fresh. cbn. split.
    + repeat constructor; cbn; intuition discriminate.
    + repeat constructor.
  - cbn. auto.
  - vm_compute. auto.
Defined.

(** ** The submission flow of the client: submit, then mark complete *)

Lemma mark_content_complete_sound (u : user) (cid now : nat) (c : conn)
    (item : content_row) (items : list content_row) :
  u_role u = Learner ->
  faults c = [] ->
  select_content (db c) cid = item :: items ->
  let out := mark_content_complete (Token u) cid now c in
  (enrolled (db c) (u_id u) (c_module_id item) -> has_user (db c) (u_id u) ->
   fst out = Ok (reply 200 "Content marked as complete successfully.") /\
   db (snd out) = upsert_progress (u_id u) cid now (db c)) /\
  (select_enrollment (db c) (u_id u) (c_module_id item) = [] ->
   fst out = Ok (reply 403 "You are not enrolled in the module this content belongs to.") /\
   db (snd out) = db c).
Proof.
  intros Hrole Hf Hsel out. subst out.
  pose proof (mark_content_complete_outcome u cid now c Hrole) as H.
  destruct (mark_content_complete (Token u) cid now c) as [res c']. cbn [fst snd].
  assert (Hsound : ~ faulty c).
  { unfold faulty. rewrite Hf. tauto. }
  destruct H as (r & -> & [(-> & (i & l & Hi & Hen) & _ & Hdb) | (Hdb & Hwhy)]).
  - rewrite Hsel in Hi. injection Hi as <- <-.
    split; [now intros _ _|]. intros Hnone. now contradiction Hen.
  - destruct Hwhy as [[_ Hnil] | [(-> & i & l & Hi & Hnone)
                                 | (_ & [Hbad | (Hnouser & i & l & Hi & Hen)])]];
      try contradiction; try congruence.
    + rewrite Hsel in Hi. injection Hi as <- <-.
      split; [|now intros _]. intros Hen. now contradiction Hen.
    + rewrite Hsel in Hi. injection Hi as <- <-.
      split; [intros _ Huser; contradiction|]. intros Hnone. now contradiction Hen.
Qed.

(** X10.  The client marks a quiz complete right after a successful
    submission.  The submission has already left one completed progress row
    for the pair (learner, quiz).  On a sound connection the mark that
    follows either answers 200, for a learner enrolled in the module of the
    item, and then only refreshes the time of that row (every other
    progress row, the set of completed items of every learner and the
    attempts are as the submission left them), or answers 403, for a
    learner who is not enrolled, and changes nothing: the quiz stays
    completed for a learner who was never enrolled. *)
Theorem mark_after_submit
    (u : user) (cid : nat) (answers : list json) (now now2 : nat) (c : conn) :
  u_role u = Learner ->
  progress_unique (db c) -> all_completed (db c) ->
  let out := submit_quiz (Token u) cid (Some (JArr answers)) now c in
  let s1 := db (snd out) in
  let out2 := mark_content_complete (Token u) cid now2 (mkConn s1 []) in
  let s2 := db (snd out2) in
  exists r,
    fst out = Ok r /\
    (status r = 200 ->
     select_progress s1 (u_id u) cid = [mkProgress (u_id u) cid true now] /\
     exists item items,
       select_content (db c) cid = item :: items /\
       (enrolled (db c) (u_id u) (c_module_id item) ->
        fst out2 = Ok (reply 200 "Content marked as complete successfully.") /\
        select_progress s2 (u_id u) cid = [mkProgress (u_id u) cid true now2] /\
        (forall v x, (v, x) <> (u_id u, cid) ->
           select_progress s2 v x = select_progress s1 v x) /\
        (forall v it, completed_by s2 v it = completed_by s1 v it) /\
        user_quiz_attempts s2 = user_quiz_attempts s1) /\
       (select_enrollment (db c) (u_id u) (c_module_id item) = [] ->
        fst out2
        = Ok (reply 403 "You are not enrolled in the module this content belongs to.") /\
        s2 = s1)).
Proof.
  intros Hrole Huniq Hall out s1 out2 s2. subst s2 out2 s1 out.
  pose proof (submit_quiz_outcome u cid answers now c Hrole) as H.
  destruct (submit_quiz (Token u) cid (Some (JArr answers)) now c) as [res c'].
  cbn [fst snd].
  destruct H as [(row & rest & g & h & Hsel & Hg & Hh & Huser & -> & Hdb)
                | (r & -> & Hdb & Hwhy)].
  2:{ exists r. split; [reflexivity|]. intros H200. exfalso.
      destruct Hwhy as [[H _] | [H _]]; congruence. }
  eexists. split; [reflexivity|]. intros _.
  set (s0 := record_attempt (u_id u) cid h answers now (db c)) in *.
  assert (Huniq0 : progress_unique s0) by exact Huniq.
  assert (Hall0 : all_completed s0) by exact Hall.
  assert (Huniq1 : progress_unique (db c')).
  { rewrite Hdb. now apply upsert_progress_unique. }
  assert (Hall1 : all_completed (db c')).
  { rewrite Hdb. now apply upsert_progress_completed. }
  assert (Hrow : select_progress (db c') (u_id u) cid = [mkProgress (u_id u) cid true now]).
  { rewrite Hdb. now apply upsert_progress_select. }
  split; [exact Hrow|].
  assert (Hquiz : has_quiz (db c) cid).
  { unfold has_quiz. rewrite Hsel. discriminate. }
  apply quiz_is_content in Hquiz. unfold has_content in Hquiz.
  destruct (select_content (db c) cid) as [|item items] eqn:Hitem; [contradiction|].
  exists item, items. split; [reflexivity|].
  assert (Hcontent : content (db c') = content (db c)).
  { rewrite Hdb. now rewrite (proj1 (proj2 (proj2 (upsert_progress_frame _ _ _ _)))). }
  assert (Henr : enrollments (db c') = enrollments (db c)).
  { rewrite Hdb.
    now rewrite (proj1 (proj2 (proj2 (proj2 (upsert_progress_frame _ _ _ _))))). }
  assert (Hitem' : select_content (db (mkConn (db c') [])) cid = item :: items).
  { cbn [db]. unfold select_content in *. now rewrite Hcontent. }
  destruct (mark_content_complete_sound u cid now2 (mkConn (db c') []) item items
              Hrole eq_refl Hitem') as [Hyes Hno].
  cbn [db] in Hyes, Hno.
  assert (Huser' : has_user (db c') (u_id u)).
  { unfold has_user, select_user. rewrite Hdb.
    rewrite (proj2 (proj2 (proj2 (proj2 (proj2 (upsert_progress_frame _ _ _ _)))))).
    exact Huser. }
  unfold enrolled, select_enrollment in Hyes, Hno. rewrite Henr in Hyes, Hno.
  split.
  - intros Hen. destruct (Hyes Hen Huser') as [Hres Hdb2].
    split; [exact Hres|]. rewrite Hdb2.
    split; [now apply upsert_progress_select|].
    split; [intros v x Hne; now apply upsert_progress_other|].
    split; [|exact (proj1 (upsert_progress_frame _ _ _ _))].
    intros v it. rewrite completed_by_upsert by exact Hall1.
    destruct (Nat.eqb v (u_id u) && Nat.eqb (c_id it) cid) eqn:E;
      [|apply orb_false_r].
    rewrite orb_true_r. apply andb_true_iff in E as [Ev Ec].
    apply Nat.eqb_eq in Ev, Ec. subst v cid.
    symmetry. unfold completed_by. apply existsb_exists.
    exists (mkProgress (u_id u) (c_id it) true now).
    assert (Hin : In (mkProgress (u_id u) (c_id it) true now)
                     (select_progress (db c') (u_id u) (c_id it)))
      by (rewrite Hrow; now left).
    apply filter_In in Hin as [Hin Hm]. split; [exact Hin|].
    now rewrite Hm.
  - intros Hnone. exact (Hno Hnone).
Qed.

Lemma mark_after_submit_witness :
  exists r,
    fst (submit_quiz learner3 2 (Some (JArr [JNum 1%Z; JNum 0%Z])) 7 (mkConn dump []))
    = Ok r.
Proof.
  destruct (mark_after_submit (mkUser 3 Learner) 2 [JNum 1%Z; JNum 0%Z] 7 8
              (mkConn dump [])) as (r & Hr & _).
  - reflexivity.
  - constructor.
  - constructor.
  - exists r. exact Hr.
Defined.

(** ** Authoring a quiz and taking it *)

Lemma select_quiz_fresh (s : store) :
  content_ids_fresh s -> select_quiz s (next_content_id s) = [].
Proof.
  intros [_ Hlt]. unfold select_quiz.
  induction (content s) as [|c l IH]; [reflexivity|].
  apply Forall_cons_iff in Hlt as [Hc Hl]. cbn [filter].
  assert (E : Nat.eqb (c_id c) (next_content_id s) = false)
    by (apply Nat.eqb_neq; lia).
  rewrite E. cbn [andb]. now apply IH.
Qed.

(** X11.  A quiz authored through the content handler can be taken at once
    under the id the handler gave it: when a lecturer of the module (or an
    administrator) posts a non-empty array of well-formed questions on a
    sound connection, the answer is 201, and the submission of any stored
    learner on the new item, with answers that convert to strings, is
    graded against exactly the authored questions: 200 with
    [totalQuestions] the number of authored questions, [correctAnswers] the
    number of positions where the answer reads as the authored correct
    index, and the score the Number of their ratio in percent. *)
Theorem authored_quiz_is_graded
    (u v : user) (moduleId : nat) (req : content_request) (questions : list json)
    (answers : list json) (now : nat) (c : conn)
    (m : module_row) (rest : list module_row) :
  may_author u m ->
  u_role v = Learner ->
  has_user (db c) (u_id v) ->
  Forall (fun a => printable a = true) answers ->
  faults c = [] ->
  content_ids_fresh (db c) ->
  title req <> "" ->
  content_type req = "Quizzes" ->
  quiz_data req = Some (Denotes (JArr questions)) ->
  forallb well_formed_question questions = true ->
  questions <> [] ->
  select_module (db c) moduleId = m :: rest ->
  let created := create_content (Token u) moduleId req c in
  let id := next_content_id (db c) in
  fst created = Ok (reply 201 "Content added successfully") /\
  select_quiz (db (snd created)) id = [quiz_item (db c) moduleId req questions] /\
  exists q,
    fst (submit_quiz (Token v) id (Some (JArr answers)) now (snd created))
    = Ok (mkResponse 200
            (QuizResult (Num q) (count_matched questions answers)
                        (List.length questions) "Quiz submitted successfully")) /\
    number_mul (number_div (count_matched questions answers)
                           (List.length questions)) 100 = Num q /\
    (Qabs (q - percentage (count_matched questions answers) (List.length questions))
     <= pow2 (-45))%Q.
Proof.
  intros Hmay Hrole Huser Hp Hf Hfresh Htitle Htype Hdata Hwf Hne Hmod created id.
  subst created id.
  rewrite (create_quiz_on_sound_connection u moduleId req c _ m rest
             Hmay Hf Htitle Htype Hdata Hmod).
  assert (Hparse : parse_quiz_data (Denotes (JArr questions)) = Ok questions).
  { apply parse_quiz_data_ok. now split. }
  rewrite Hparse. cbn [fst snd db].
  split; [reflexivity|].
  assert (Hsel : select_quiz
                   (set_content (db c)
                      (content (db c) ++ [quiz_item (db c) moduleId req questions])%list
                      (S (next_content_id (db c))))
                   (next_content_id (db c))
                 = [quiz_item (db c) moduleId req questions]).
  { pose proof (select_quiz_fresh (db c) Hfresh) as Hnone.
    unfold select_quiz in *. cbn [content set_content].
    rewrite filter_app, Hnone. cbn [app filter quiz_item c_id c_content_type].
    rewrite Nat.eqb_refl. reflexivity. }
  split; [exact Hsel|].
  assert (Hn : (0 < List.length questions)%nat).
  { destruct questions; [contradiction|cbn; lia]. }
  destruct (score_storable (sql_strict (db c)) _ _ Hn (count_matched_le questions answers))
    as (q & h & Hq & Hval & _ & Hfix & Hdec & _).
  exists q. split; [|split; [exact Hq|exact Hval]].
  pose proof (submit_quiz_succeeds v (next_content_id (db c)) answers now
                (mkConn (set_content (db c)
                           (content (db c) ++ [quiz_item (db c) moduleId req questions])%list
                           (S (next_content_id (db c))))
                        (faults c)) _ []
                (mkGraded (Num q) (count_matched questions answers)
                          (List.length questions)) h Hrole Hf Huser Hsel) as Hsub.
  cbn [c_quiz_data quiz_item] in Hsub. apply Hsub.
  - rewrite (grade_match _ _ Hp), Hq. reflexivity.
  - cbn [g_score db sql_strict set_content]. rewrite Hfix. exact Hdec.
Qed.

Lemma authored_quiz_is_graded_witness :
  fst (create_content lecturer4 2
         (mkContentRequest "Quiz 2" "Quizzes"
            (Some (Denotes (JArr [question "1 + 1 ?" ["1"; "2"] 1]))) None None)
         (mkConn dump []))
  = Ok (reply 201 "Content added successfully").
Proof.
  refine (proj1 (authored_quiz_is_graded (mkUser 4 Lecturer) (mkUser 3 Learner) 2
                   (mkContentRequest "Quiz 2" "Quizzes"
                      (Some (Denotes (JArr [question "1 + 1 ?" ["1"; "2"] 1]))) None None)
                   [question "1 + 1 ?" ["1"; "2"] 1] [JNum 1%Z] 20 (mkConn dump [])
                   (mkModule 2 4 true 0%Z) [] _ _ _ _ _ _ _ _ _ _ _ _)).
  - left. split; reflexivity.
  - reflexivity.
  - discriminate.
  - repeat constructor.
  - reflexivity.
  - unfold content_ids_fresh. cbn. split.
    + repeat constructor; cbn; intuition discriminate.
    + repeat constructor.
  - discriminate.
  - reflexivity.
  - reflexivity.
  - reflexivity.
  - discriminate.
  - reflexivity.
Defined.

(** ** Requests that the middleware turns away *)

(** X12.  A request without a token is answered 401, a request with an
    invalid token or from a user whose role the route does not name is
    answered 403, and in each case the handler body does not run: the
    store is unchanged and no round trip to the database is made (the
    fault schedule of the connection is untouched).  This holds for every
    route: quiz submission, completion, enrolment, content creation and
    listing, attempts listing, and the deletion of content and modules. *)
Theorem unauthorized_requests_change_nothing (o : operation) (now : nat) (c : conn) :
  (requester o = NoToken ->
   answered o now c = Ok 401 /\ perform o now c = c) /\
  (requester o = InvalidToken ->
   answered o now c = Ok 403 /\ perform o now c = c) /\
  (forall u, requester o = Token u ->
             existsb (role_eqb (u_role u)) (route_roles o) = false ->
             answered o now c = Ok 403 /\ perform o now c = c).
Proof.
  split; [|split].
  - destruct o as [[]| | |]; cbn [requester]; intros ->; split; reflexivity.
  - destruct o as [[]| | |]; cbn [requester]; intros ->; split; reflexivity.
  - intros u.
    destruct o as [[]| | |]; cbn [requester route_roles]; intros -> Hrole;
      try (destruct (u_role u); discriminate);
      cbn [answered perform serve];
      unfold submit_quiz, mark_content_complete, enroll, create_content,
        get_quiz_attempts, delete_content, delete_module,
        authenticateToken, authorizeRole, authenticated, authorized;
      rewrite Hrole; split; reflexivity.
Qed.

Lemma unauthorized_requests_change_nothing_witness :
  answered (DeleteContent learner3 1) 5 (mkConn dump [true]) = Ok 403 /\
  perform (DeleteContent learner3 1) 5 (mkConn dump [true]) = mkConn dump [true].
Proof.
  exact (proj2 (proj2 (unauthorized_requests_change_nothing
                         (DeleteContent learner3 1) 5 (mkConn dump [true])))
               (mkUser 3 Learner) eq_refl eq_refl).
Defined.

(** ** Every request is answered *)

Ltac known_status :=
  unfold statuses; cbn [status reply In];
  repeat (first [left; reflexivity | right]).

Ltac tidy_same :=
  cbv beta iota; eexists; split; [reflexivity|]; split; [known_status|];
  intros; first [reflexivity | cbn [snd db]; congruence].

Ltac tidy_changed :=
  cbv beta iota; eexists; split; [reflexivity|]; split; [known_status|];
  let H1 := fresh in let H2 := fresh in
  intros H1 H2; exfalso; first [now apply H1 | now apply H2].

Lemma submit_quiz_tidy (cred : credential) (cid : nat) (answers : value)
    (now : nat) (c : conn) :
  tidy (submit_quiz cred cid answers now c) c.
Proof.
  unfold tidy.
  destruct cred as [| |u]; try tidy_same.
  destruct (u_role u) eqn:Hrole.
  2,3: unfold submit_quiz, authenticateToken, authorizeRole; rewrite Hrole;
       tidy_same.
  destruct answers as [[| | | | answers |]|];
    try (unfold submit_quiz, authenticateToken, authorizeRole; rewrite Hrole;
         tidy_same).
  pose proof (submit_quiz_outcome u cid answers now c Hrole) as H.
  destruct (submit_quiz (Token u) cid (Some (JArr answers)) now c) as [res c'].
  cbn [fst snd].
  destruct H as [(row & rest & g & h & _ & _ & _ & _ & -> & _) | (r & -> & -> & Hwhy)].
  - tidy_changed.
  - exists r. split; [reflexivity|]. split; [|reflexivity].
    destruct Hwhy as [[-> _] | [-> _]]; known_status.
Qed.

Lemma mark_content_complete_tidy (cred : credential) (cid now : nat) (c : conn) :
  tidy (mark_content_complete cred cid now c) c.
Proof.
  unfold tidy.
  destruct cred as [| |u]; try tidy_same.
  destruct (u_role u) eqn:Hrole.
  2,3: unfold mark_content_complete, authenticateToken, authorizeRole;
       rewrite Hrole; tidy_same.
  pose proof (mark_content_complete_outcome u cid now c Hrole) as H.
  destruct (mark_content_complete (Token u) cid now c) as [res c']. cbn [fst snd].
  destruct H as (r & -> & [(-> & _ & _) | (-> & Hwhy)]).
  - tidy_changed.
  - exists r. split; [reflexivity|]. split; [|reflexivity].
    destruct Hwhy as [[-> _] | [[-> _] | [-> _]]]; known_status.
Qed.

Lemma enroll_tidy (cred : credential) (mid now : nat) (c : conn) :
  tidy (enroll cred mid now c) c.
Proof.
  unfold tidy.
  destruct cred as [| |u]; try tidy_same.
  destruct (u_role u) eqn:Hrole.
  2,3: unfold enroll, authenticateToken, authorizeRole; rewrite Hrole; tidy_same.
  pose proof (enroll_outcome u mid now c Hrole) as H.
  destruct (enroll (Token u) mid now c) as [res c']. cbn [fst snd].
  destruct H as (r & -> & [(-> & _) | (_ & -> & Hwhy)]).
  - tidy_changed.
  - exists r. split; [reflexivity|]. split; [|reflexivity].
    destruct Hwhy as [[-> _] | [[-> _] | [[-> _] | [[-> _] | [[-> _] | [-> _]]]]]];
      known_status.
Qed.

Lemma delete_content_tidy (cred : credential) (id : nat) (c : conn) :
  tidy (delete_content cred id c) c.
Proof.
  unfold tidy.
  destruct cred as [| |u]; try tidy_same.
  destruct (u_role u) eqn:Hrole.
  1: unfold delete_content, authenticateToken, authorizeRole; rewrite Hrole;
     tidy_same.
  all: assert (Hr : u_role u = Lecturer \/ u_role u = Admin) by (rewrite Hrole; auto);
    pose proof (delete_content_outcome u id c Hr) as H;
    destruct (delete_content (Token u) id c) as [res c']; cbn [fst snd];
    destruct H as (r & -> & [(-> & _ & _) | (-> & Hwhy)]);
    [tidy_changed|];
    exists r; (split; [reflexivity|]); (split; [|reflexivity]);
    destruct Hwhy as [[-> _] | [[-> _] | [-> _]]]; known_status.
Qed.

Lemma delete_module_tidy (cred : credential) (id : nat) (c : conn) :
  tidy (delete_module cred id c) c.
Proof.
  unfold tidy.
  destruct cred as [| |u]; try tidy_same.
  destruct (u_role u) eqn:Hrole.
  1: unfold delete_module, authenticateToken, authorizeRole; rewrite Hrole;
     tidy_same.
  all: assert (Hr : u_role u = Lecturer \/ u_role u = Admin) by (rewrite Hrole; auto);
    pose proof (delete_module_outcome u id c Hr) as H;
    destruct (delete_module (Token u) id c) as [res c']; cbn [fst snd];
    destruct H as (r & -> & [(-> & _ & _) | (-> & Hwhy)]);
    [tidy_changed|];
    exists r; (split; [reflexivity|]); (split; [|reflexivity]);
    destruct Hwhy as [[-> _] | [[-> _] | [-> _]]]; known_status.
Qed.

Lemma create_content_tidy (cred : credential) (moduleId : nat)
    (req : content_request) (c : conn) :
  tidy (create_content cred moduleId req c) c.
Proof.
  unfold tidy, create_content, authenticateToken, authorizeRole.
  destruct cred as [| |u]; try tidy_same.
  destruct (existsb (role_eqb (u_role u)) [Lecturer; Admin]); [|tidy_same].
  destruct (String.eqb (title req) "" || String.eqb (content_type req) "").
  { destruct (String.eqb (content_type req) "Quizzes"
              && match quiz_data req with None => true | Some _ => false end);
      [tidy_same|].
    destruct (negb (String.eqb (content_type req) "Quizzes")
              && match content_text req with None => true | Some _ => false end
              && match option_map (String.append "/uploads/") (file req) with
                 | None => true | Some _ => false end); tidy_same. }
  unfold insert_content. unfold_handler.
  run_round_trip; [|tidy_same].
  destruct (select_module (db c0) moduleId) as [|m ms]; cbv beta iota; [tidy_same|].
  destruct (role_eqb (u_role u) Lecturer
            && negb (Nat.eqb (m_instructor_id m) (u_id u))); [tidy_same|].
  destruct (String.eqb (content_type req) "Quizzes");
    [destruct (quiz_data req) as [text|]; [destruct (parse_quiz_data text)|]|];
    try tidy_same;
    (run_round_trip; [|tidy_same]);
    match goal with
    | |- context [if ?x then rbind _ _ else _] => destruct x
    end;
    try match goal with
        | |- context [foreign_key _ ?l] => destruct l; cbn [foreign_key rbind]
        end;
    first [tidy_changed | tidy_same].
Qed.

Lemma get_module_content_answers (cred : credential) (mid : nat) (c : conn) :
  exists r,
    fst (get_module_content cred mid c) = Ok r /\ In (status r) statuses.
Proof.
  unfold get_module_content, authenticateToken.
  destruct cred as [| |u]; [eexists; split; [reflexivity|known_status] ..|].
  unfold_handler.
  run_round_trip; [|eexists; split; [reflexivity|known_status]].
  destruct (select_module (db c0) mid) as [|m ms]; cbv beta iota;
    [eexists; split; [reflexivity|known_status]|].
  destruct (role_eqb (u_role u) Lecturer
            && negb (Nat.eqb (m_instructor_id m) (u_id u)));
    [eexists; split; [reflexivity|known_status]|].
  destruct (role_eqb (u_role u) Learner).
  - run_round_trip; [|eexists; split; [reflexivity|known_status]].
    destruct (m_is_published m);
      destruct (select_enrollment (db c1) (u_id u) mid);
      try (eexists; split; [reflexivity|known_status]);
      run_round_trip; eexists; (split; [reflexivity|known_status]).
  - run_round_trip; eexists; (split; [reflexivity|known_status]).
Qed.

(** X13.  Every operation is answered: no handler lets an exception
    escape, whatever the request, the store and the failures of the
    storage layer, and the status is one of 200, 201, 400, 401, 403, 404
    and 500.  Only an answer 200 or 201 goes with a change of the store: a
    request that is refused or that fails leaves no partial write. *)
Theorem every_operation_is_answered (o : operation) (now : nat) (c : conn) :
  exists code,
    answered o now c = Ok code /\
    In code statuses /\
    (code <> 200 -> code <> 201 -> db (perform o now c) = db c).
Proof.
  assert (Hgen : forall out : result response * conn,
             tidy out c ->
             exists code,
               rbind (fst out) (fun r => Ok (status r)) = Ok code /\
               In code statuses /\
               (code <> 200 -> code <> 201 -> db (snd out) = db c)).
  { intros out (r & Hr & Hin & Hdb). exists (status r).
    rewrite Hr. cbn [rbind]. auto. }
  destruct o as [[cred cid answers | cred cid | cred mid | cred mid req | cred mid]
                | cred cid | cred id | cred id];
    cbn [answered perform serve].
  - apply Hgen, submit_quiz_tidy.
  - apply Hgen, mark_content_complete_tidy.
  - apply Hgen, enroll_tidy.
  - apply Hgen, create_content_tidy.
  - destruct (get_module_content_answers cred mid c) as (r & Hr & Hin).
    exists (status r). rewrite Hr. cbn [rbind].
    split; [reflexivity|]. split; [exact Hin|].
    intros _ _. apply get_module_content_keeps_store.
  - exists (answer_code (match fst (get_quiz_attempts cred cid c) with
                         | Ok a => a
                         | Throw _ => Failed 500 ""
                         end)).
    rewrite get_quiz_attempts_keeps_store.
    unfold get_quiz_attempts, authenticated, authorized.
    destruct cred as [| |u]; [repeat split; known_status ..|].
    destruct (existsb (role_eqb (u_role u)) [Learner]);
      [|repeat split; known_status].
    unfold catching. unfold_handler.
    run_round_trip; repeat split; known_status.
  - apply Hgen, delete_content_tidy.
  - apply Hgen, delete_module_tidy.
Qed.

Lemma every_operation_is_answered_witness :
  exists code,
    answered (Core (Enroll learner3 2)) 5 (mkConn dump [true]) = Ok code /\
    In code statuses.
Proof.
  destruct (every_operation_is_answered (Core (Enroll learner3 2)) 5
              (mkConn dump [true])) as (code & Hcode & Hin & _).
  exists code. split; [exact Hcode | exact Hin].
Defined.

(** ** The completion rate of the administrator's report *)

Lemma zero_rate (n : nat) :
  (0 < n)%nat -> toFixed (number_mul (number_div 0 n) 100) 2 = TextDec 2 0.
Proof.
  intros Hn. now rewrite (score_none n Hn).
Qed.

Lemma step_keeps_enrollment_flags (s s' : store) :
  store_step s s' -> no_enrollment_completed s -> no_enrollment_completed s'.
Proof.
  unfold no_enrollment_completed. intros Hstep Hall.
  destruct Hstep as
    [ | u cid h answers now row rest Huser Hquiz
      | u cid now item items Huser Hitem
      | u mid now Huser Hmod Hsel
      | mid title ctype text path qd Hmod
      | id
      | id ].
  - exact Hall.
  - now rewrite (proj1 (proj2 (proj2 (proj2 (upsert_progress_frame _ _ _ _))))).
  - now rewrite (proj1 (proj2 (proj2 (proj2 (upsert_progress_frame _ _ _ _))))).
  - cbn [add_enrollment set_enrollments enrollments].
    apply Forall_app. split; [exact Hall|]. now constructor.
  - exact Hall.
  - exact Hall.
  - cbn [snd delete_module_rows enrollments]. now apply Forall_filter.
Qed.

(** X14.  The completion rate that the administrator's report shows for a
    module is a numeral with two decimals between 0.00 and 100.00, never
    NaN: it is 0.00 for a module without enrolments, and otherwise the
    Number computed for the share of the enrolments of the module that are
    marked completed, in percent (within [2^-45] of the share), rounded to
    the nearest hundredth.  The rate counts enrolment
    flags, not completed content: when no enrolment is marked completed,
    the rate of every module is 0.00 after every sequence of submissions,
    completions of content, enrolments, content creations and deletions. *)
Theorem report_completion_rate (s : store) (m : module_row) :
  let stats := enrollment_stats s m in
  let row := completion_of stats in
  (st_completed_enrollments stats <= st_total_enrollments stats)%nat /\
  (exists h,
      completion_rate_percentage row = TextDec 2 h /\
      (0 <= h <= 10000)%Z /\
      (st_total_enrollments stats = 0 -> h = 0%Z) /\
      ((0 < st_total_enrollments stats)%nat ->
       exists q,
         number_mul (number_div (st_completed_enrollments stats)
                                (st_total_enrollments stats)) 100 = Num q /\
         (Qabs (q - percentage (st_completed_enrollments stats)
                               (st_total_enrollments stats)) <= pow2 (-45))%Q /\
         (inject_Z h - (1 # 2) <= q * 100 < inject_Z h + (1 # 2))%Q)) /\
  (forall (operations : list (operation * nat)) (c : conn) (m' : module_row),
      db c = s -> no_enrollment_completed s ->
      completion_rate_percentage
        (completion_of (enrollment_stats (db (perform_all operations c)) m'))
      = TextDec 2 0).
Proof.
  intros stats row. subst row stats.
  assert (Hle : forall s m,
             (st_completed_enrollments (enrollment_stats s m)
              <= st_total_enrollments (enrollment_stats s m))%nat).
  { intros s0 m0. cbn [enrollment_stats st_completed_enrollments st_total_enrollments].
    apply filter_length_le. }
  split; [apply Hle|]. split.
  - unfold completion_of. cbn [completion_rate_percentage].
    destruct (st_total_enrollments (enrollment_stats s m)) as [|n] eqn:Hn.
    + exists 0%Z. cbn. repeat split; try lia.
    + change (0 <? S n)%nat with true. cbv iota.
      specialize (Hle s m). rewrite Hn in Hle.
      destruct (score_storable true (st_completed_enrollments (enrollment_stats s m))
                  (S n) ltac:(lia) Hle)
        as (q & h & Hq & Hval & _ & Hfix & _ & Hh & Hround).
      exists h. rewrite Hq, Hfix. split; [reflexivity|]. split; [exact Hh|].
      split; [discriminate|]. intros _. exists q. auto.
  - intros operations c m' Hdb Hnone. subst s.
    assert (Hkeep : no_enrollment_completed (db (perform_all operations c))).
    { apply perform_all_steps; [exact step_keeps_enrollment_flags|exact Hnone]. }
    unfold completion_of. cbn [completion_rate_percentage].
    destruct (0 <? st_total_enrollments _)%nat eqn:Hpos; [|reflexivity].
    apply Nat.ltb_lt in Hpos.
    assert (Hzero : st_completed_enrollments
                      (enrollment_stats (db (perform_all operations c)) m') = 0%nat).
    { cbn [enrollment_stats st_completed_enrollments].
      unfold no_enrollment_completed in Hkeep.
      induction (enrollments (db (perform_all operations c))) as [|e l IH];
        [reflexivity|].
      apply Forall_cons_iff in Hkeep as [He Hl]. cbn [filter].
      destruct (Nat.eqb (e_module_id e) (m_id m')); [|now apply IH].
      cbn [filter]. rewrite He. now apply IH. }
    rewrite Hzero. now apply zero_rate.
Qed.

Lemma report_completion_rate_witness :
  completion_rate_percentage
    (completion_of
       (enrollment_stats
          (db (perform_all [(Core (MarkContentComplete learner3 1), 9);
                            (Core (SubmitQuiz learner3 2 (Some (JArr [JNum 1%Z; JNum 2%Z]))), 10)]
                           (mkConn dump [])))
          (mkModule 2 4 true 0%Z)))
  = TextDec 2 0.
Proof.
  refine (proj2 (proj2 (report_completion_rate dump (mkModule 2 4 true 0%Z)))
                _ (mkConn dump []) (mkModule 2 4 true 0%Z) eq_refl _).
  unfold no_enrollment_completed. cbn. repeat constructor.
Defined.

(** ** Answers as the grading loop sees them *)

Lemma grade_question_parseInt (q : value) (a a' : json) :
  parseInt (Some a) = parseInt (Some a') ->
  grade_question q (Some a) = grade_question q (Some a').
Proof.
  intros H. unfold grade_question.
  destruct (truthy q); [|reflexivity].
  destruct (get_prop q "correct_answer_index") as [[c|]|e]; cbn [rbind];
    try reflexivity.
  now rewrite H.
Qed.

Lemma grade_loop_ext (quiz_data answers answers' : list json) :
  forall n i correctAnswers,
    (forall j, (i <= j < i + n)%nat ->
               grade_question (nth_error quiz_data j) (nth_error answers j)
               = grade_question (nth_error quiz_data j) (nth_error answers' j)) ->
    grade_loop n i quiz_data answers correctAnswers
    = grade_loop n i quiz_data answers' correctAnswers.
Proof.
  induction n as [|n IH]; intros i k Hsame; [reflexivity|].
  cbn [grade_loop]. rewrite (Hsame i) by lia.
  destruct (grade_question (nth_error quiz_data i) (nth_error answers' i)) as [hit|e];
    cbn [rbind]; [|reflexivity].
  apply IH. intros j Hj. apply Hsame. lia.
Qed.

(** The answers at position [i] look the same to [parseInt]. *)
Lemma same_reading_graded (q : value) (a a' : value) :
  match a, a' with
  | Some x, Some y => parseInt (Some x) = parseInt (Some y)
  | None, None => True
  | _, _ => False
  end ->
  grade_question q a = grade_question q a'.
Proof.
  destruct a as [x|], a' as [y|]; try contradiction; [|reflexivity].
  apply grade_question_parseInt.
Qed.

(** X15.  The grading loop reads the submitted answers only through
    [parseInt] and only below the number of questions: two answer arrays
    whose entries at each question position are both missing or have the
    same [parseInt] get the same grade.  So answers sent as decimal strings
    are graded like the numbers they print, and answers beyond the last
    question are ignored. *)
Theorem grading_reads_answers_through_parseInt
    (quiz_data answers answers' : list json) :
  (forall i, (i < List.length quiz_data)%nat ->
     match nth_error answers i, nth_error answers' i with
     | Some x, Some y => parseInt (Some x) = parseInt (Some y)
     | None, None => True
     | _, _ => False
     end) ->
  grade (Some quiz_data) answers = grade (Some quiz_data) answers' /\
  (forall zs : list Z,
      grade (Some quiz_data) (map (fun z => JStr (Number_toString (int_number z))) zs)
      = grade (Some quiz_data) (map JNum zs)) /\
  (forall extra : list json,
      (List.length quiz_data <= List.length answers)%nat ->
      grade (Some quiz_data) (answers ++ extra)%list = grade (Some quiz_data) answers).
Proof.
  intros Hsame.
  assert (Hgen : forall xs ys : list json,
             (forall i, (i < List.length quiz_data)%nat ->
                match nth_error xs i, nth_error ys i with
                | Some x, Some y => parseInt (Some x) = parseInt (Some y)
                | None, None => True
                | _, _ => False
                end) ->
             grade (Some quiz_data) xs = grade (Some quiz_data) ys).
  { intros xs ys H. unfold grade.
    rewrite (grade_loop_ext quiz_data xs ys); [reflexivity|].
    intros j Hj. apply same_reading_graded. apply H. lia. }
  split; [now apply Hgen|]. split.
  - intros zs. apply Hgen. intros i _.
    rewrite !nth_error_map.
    destruct (nth_error zs i) as [z|]; cbn [option_map]; [|exact I].
    reflexivity.
  - intros extra Hlen. apply Hgen. intros i Hi.
    rewrite nth_error_app1 by lia.
    destruct (nth_error answers i); [reflexivity|exact I].
Qed.

Lemma grading_reads_answers_through_parseInt_witness :
  grade (Some big_data_quiz) [JStr "1"; JStr " 2nd"]
  = grade (Some big_data_quiz) [JNum 1%Z; JNum 2%Z].
Proof.
  refine (proj1 (grading_reads_answers_through_parseInt big_data_quiz
                   [JStr "1"; JStr " 2nd"] [JNum 1%Z; JNum 2%Z] _)).
  intros [|[|i]] Hi; [vm_compute; reflexivity | vm_compute; reflexivity |].
  cbn in Hi. destruct i; exact I.
Defined.

(** ** From the quiz form to the grade *)

Lemma selected_after_change (q : nat) (o : Z) (prev : quiz_answers) (q' : nat) :
  selected (handleQuizAnswerChange q o prev) q'
  = if Nat.eqb q' q then Some o else selected prev q'.
Proof.
  unfold selected, handleQuizAnswerChange. rewrite filter_app. cbn [filter fst].
  destruct (Nat.eqb_spec q' q) as [->|Hne].
  - rewrite Nat.eqb_refl.
    rewrite (filter_ext_in _ (fun _ => false)).
    2:{ intros kv Hin. apply filter_In in Hin as [_ H].
        apply negb_true_iff in H. exact H. }
    assert (Hnil : forall l : quiz_answers, filter (fun _ => false) l = []).
    { induction l; [reflexivity|exact IHl]. }
    rewrite Hnil. reflexivity.
  - assert (E : Nat.eqb q q' = false) by (apply Nat.eqb_neq; congruence).
    rewrite E, app_nil_r.
    rewrite filter_filter_implied; [reflexivity|].
    intros kv H. apply Nat.eqb_eq in H. apply negb_true_iff, Nat.eqb_neq. congruence.
Qed.

Lemma all_defined (l : list (option Z)) :
  existsb is_undefined l = false ->
  exists zs, l = map Some zs.
Proof.
  induction l as [|[z|] l IH]; cbn [existsb is_undefined orb]; intros H.
  - now exists [].
  - destruct (IH H) as [zs ->]. now exists (z :: zs).
  - discriminate.
Qed.

(** X16.  The quiz form sends a submission only when every question has a
    selected option, and then sends, for each question in order, the option
    selected last for it.  The server grades such a submission question by
    question: [totalQuestions] is the number of questions and
    [correctAnswers] the number of questions whose selected option reads
    as the stored correct index - for an option index below [2^53], the
    questions whose selected option is the stored integer index.  When some
    question has no selected option no request is made. *)
Theorem form_submission_is_complete
    (quiz_data : list json) (quizAnswers : quiz_answers) :
  (forall q o q',
      selected (handleQuizAnswerChange q o quizAnswers) q'
      = if Nat.eqb q' q then Some o else selected quizAnswers q') /\
  ((exists i, (i < List.length quiz_data)%nat /\ selected quizAnswers i = None) ->
   handleSubmitQuiz (Some quiz_data) quizAnswers = None) /\
  (forall answers,
      handleSubmitQuiz (Some quiz_data) quizAnswers = Some answers ->
      exists zs,
        answers = map JNum zs /\
        List.length zs = List.length quiz_data /\
        (forall i, (i < List.length quiz_data)%nat ->
                   selected quizAnswers i = nth_error zs i) /\
        grade (Some quiz_data) answers
        = Ok (mkGraded
                (number_mul (number_div (count_matched quiz_data answers)
                                        (List.length quiz_data)) 100)
                (count_matched quiz_data answers)
                (List.length quiz_data)) /\
        (forall i z k,
            nth_error zs i = Some z -> safe_integer z ->
            stored_key (nth_error quiz_data i) k ->
            matched quiz_data answers i = Z.eqb z k)).
Proof.
  split; [intros q o q'; apply selected_after_change|]. split.
  - intros (i & Hi & Hnone). unfold handleSubmitQuiz.
    assert (Hex : existsb is_undefined (submittedAnswersArray quiz_data quizAnswers)
                  = true).
    { apply existsb_exists. exists None. split; [|reflexivity].
      unfold submittedAnswersArray. rewrite <- Hnone. apply in_map.
      apply in_seq. lia. }
    rewrite Hex. now rewrite orb_true_r.
  - intros answers. unfold handleSubmitQuiz.
    destruct (negb _ || existsb _ _) eqn:E; [discriminate|].
    apply orb_false_iff in E as [_ Hdef].
    destruct (all_defined _ Hdef) as [zs Hzs].
    intros H. injection H as <-. rewrite Hzs, map_map.
    exists zs.
    assert (Hlen : List.length zs = List.length quiz_data).
    { apply (f_equal (@List.length _)) in Hzs.
      unfold submittedAnswersArray in Hzs.
      now rewrite !length_map, length_seq in Hzs. }
    split; [reflexivity|]. split; [exact Hlen|]. split; [|split].
    + intros i Hi.
      assert (Hnth : nth_error (submittedAnswersArray quiz_data quizAnswers) i
                     = Some (selected quizAnswers i)).
      { unfold submittedAnswersArray. rewrite nth_error_map.
        rewrite nth_error_seq. 
        destruct (Nat.ltb_spec i (List.length quiz_data)); [reflexivity|lia]. }
      rewrite Hzs, nth_error_map in Hnth.
      destruct (nth_error zs i) as [z|]; cbn [option_map] in Hnth; congruence.
    + apply grade_match, printable_ints.
    + intros i z k Hz. apply matched_int.
      rewrite nth_error_map, Hz. reflexivity.
Qed.

Lemma form_submission_is_complete_witness :
  handleSubmitQuiz (Some three_questions)
    (handleQuizAnswerChange 2 0 (handleQuizAnswerChange 0 1 [])) = None.
Proof.
  refine (proj1 (proj2 (form_submission_is_complete three_questions
                          (handleQuizAnswerChange 2 0 (handleQuizAnswerChange 0 1 []))))
                _).
  exists 1. split; [cbn; lia | reflexivity].
Defined.

(** ** Concurrent completion marks *)

Lemma mark_is_four_steps (u : user) (cid now : nat) (c : conn) :
  u_role u = Learner ->
  let '(pc1, c1) := mark_advance (u_id u) cid now MarkStart c in
  let '(pc2, c2) := mark_advance (u_id u) cid now pc1 c1 in
  let '(pc3, c3) := mark_advance (u_id u) cid now pc2 c2 in
  let '(pc4, c4) := mark_advance (u_id u) cid now pc3 c3 in
  exists r,
    pc4 = MarkDone r /\
    mark_content_complete (Token u) cid now c = (Ok r, c4).
Proof.
  intros Hrole.
  unfold mark_content_complete, authenticateToken, authorizeRole.
  rewrite Hrole. cbn [existsb role_eqb orb].
  unfold mark_advance, mark_step, mark_error. unfold_handler.
  destruct (round_trip c) as [[[]|e] c1]; cbv beta iota; [|eauto].
  destruct (select_content (db c1) cid) as [|item ?]; cbv beta iota; [eauto|].
  destruct (round_trip c1) as [[[]|e] c2]; cbv beta iota; [|eauto].
  destruct (select_enrollment (db c2) (u_id u) (c_module_id item)) as [|en ens];
    cbv beta iota; [eauto|].
  destruct (round_trip c2) as [[[]|e] c3]; cbv beta iota; [|eauto].
  destruct (select_progress (db c3) (u_id u) cid) as [|p ps]; cbv beta iota.
  - destruct (round_trip c3) as [[[]|e] c4]; cbv beta iota; [|eauto].
    destruct (insert_progress (u_id u) cid now (db c4)); eauto.
  - destruct (round_trip c3) as [[[]|e] c4]; cbv beta iota; [|eauto].
    destruct (touch_progress (u_id u) cid now (db c4)); eauto.
Qed.

Lemma insert_progress_is_upsert (u cid now : nat) (s s' : store) :
  insert_progress u cid now s = Ok s' -> s' = upsert_progress u cid now s.
Proof.
  unfold insert_progress, upsert_progress.
  destruct (foreign_key _ (select_user s u)); cbn [rbind]; [|discriminate].
  destruct (foreign_key _ (select_content s cid)); cbn [rbind]; [|discriminate].
  destruct (select_progress s u cid); [|discriminate]. now intros [= <-].
Qed.

Lemma touch_progress_keeps (u cid now : nat) (s s' : store) :
  touch_progress u cid now s = Ok s' ->
  progress_unique s /\ all_completed s ->
  progress_unique s' /\ all_completed s'.
Proof.
  unfold touch_progress. intros [= <-] [Huniq Hall].
  unfold progress_unique, all_completed in *.
  cbn [user_content_progress set_progress]. split.
  - rewrite map_map.
    rewrite (map_ext _ progress_key); [exact Huniq|].
    intros p. now destruct (progress_matches u cid p).
  - apply Forall_map. eapply Forall_impl; [|exact Hall].
    intros p Hp. now destruct (progress_matches u cid p).
Qed.

Lemma mark_advance_keeps (u cid now : nat) (pc : mark_pc) (c : conn) :
  progress_unique (db c) /\ all_completed (db c) ->
  progress_unique (db (snd (mark_advance u cid now pc c))) /\
  all_completed (db (snd (mark_advance u cid now pc c))).
Proof.
  intros Hinv. unfold mark_advance, mark_step.
  destruct pc; unfold_handler.
  - run_round_trip; cbn [snd]; [|now rewrite D].
    destruct (select_content (db c0) cid); cbn [snd]; now rewrite D.
  - run_round_trip; cbn [snd]; [|now rewrite D].
    destruct (select_enrollment (db c0) u module_id); cbn [snd]; now rewrite D.
  - run_round_trip; cbn [snd]; [|now rewrite D].
    destruct (select_progress (db c0) u cid); cbn [snd]; now rewrite D.
  - run_round_trip; cbn [snd]; [|now rewrite D].
    destruct (insert_progress u cid now (db c0)) as [s'|] eqn:Hins;
      cbn [snd db]; [|now rewrite D].
    apply insert_progress_is_upsert in Hins. subst s'. rewrite D.
    destruct Hinv. split;
      [now apply upsert_progress_unique | now apply upsert_progress_completed].
  - run_round_trip; cbn [snd]; [|now rewrite D].
    destruct (touch_progress u cid now (db c0)) as [s'|] eqn:Htouch;
      cbn [snd db]; [|now rewrite D].
    apply (touch_progress_keeps _ _ _ _ _ Htouch). now rewrite D.
  - exact Hinv.
Qed.

Lemma mark_interleave_keeps (schedule : list nat) (tasks : list mark_task) (c : conn) :
  progress_unique (db c) /\ all_completed (db c) ->
  progress_unique (db (snd (mark_interleave schedule tasks c))) /\
  all_completed (db (snd (mark_interleave schedule tasks c))).
Proof.
  assert (Hnth : forall tasks k c,
             progress_unique (db c) /\ all_completed (db c) ->
             progress_unique (db (snd (mark_advance_nth k tasks c))) /\
             all_completed (db (snd (mark_advance_nth k tasks c)))).
  { clear. induction tasks as [|t tasks IH]; intros k c Hinv; [exact Hinv|].
    destruct k as [|k]; cbn [mark_advance_nth].
    - pose proof (mark_advance_keeps (k_user_id t) (k_content_id t) (k_now t)
                    (k_pc t) c Hinv) as H.
      destruct (mark_advance (k_user_id t) (k_content_id t) (k_now t) (k_pc t) c).
      exact H.
    - specialize (IH k c Hinv). destruct (mark_advance_nth k tasks c). exact IH. }
  revert tasks c.
  induction schedule as [|k later IH]; intros tasks c Hinv; [exact Hinv|].
  cbn [mark_interleave].
  pose proof (Hnth tasks k c Hinv) as H.
  destruct (mark_advance_nth k tasks c) as [tasks' c']. now apply IH.
Qed.

Lemma mark_advance_sound (u cid now : nat) (s : store) :
  has_user s u -> has_content s cid ->
  (forall item items, select_content s cid = item :: items ->
     mark_advance u cid now MarkStart (mkConn s [])
     = (MarkFound (c_module_id item), mkConn s [])) /\
  (forall m e es, select_enrollment s u m = e :: es ->
     mark_advance u cid now (MarkFound m) (mkConn s []) = (MarkEnrolled, mkConn s [])) /\
  (select_progress s u cid = [] ->
     mark_advance u cid now MarkEnrolled (mkConn s []) = (MarkAbsent, mkConn s []) /\
     mark_advance u cid now MarkAbsent (mkConn s [])
     = (MarkDone (reply 200 "Content marked as complete successfully."),
        mkConn (upsert_progress u cid now s) [])) /\
  (select_progress s u cid <> [] ->
     mark_advance u cid now MarkAbsent (mkConn s []) = (MarkDone mark_error, mkConn s [])).
Proof.
  intros Hu Hc.
  unfold mark_advance, mark_step, insert_progress, upsert_progress.
  unfold_handler. cbn [round_trip faults db].
  rewrite (foreign_key_holds _ _ Hu), (foreign_key_holds _ _ Hc). cbn [rbind].
  split; [|split; [|split]].
  - intros item items ->. reflexivity.
  - intros m e es ->. reflexivity.
  - intros ->. split; reflexivity.
  - intros Hne. destruct (select_progress s u cid); [contradiction|reflexivity].
Qed.

Lemma upsert_progress_keeps_user (u cid now v : nat) (s : store) :
  has_user s v -> has_user (upsert_progress u cid now s) v.
Proof.
  unfold has_user, select_user.
  now rewrite (proj2 (proj2 (proj2 (proj2 (proj2 (upsert_progress_frame u cid now s)))))).
Qed.

Lemma upsert_progress_keeps_content (u cid now x : nat) (s : store) :
  has_content s x -> has_content (upsert_progress u cid now s) x.
Proof.
  unfold has_content, select_content.
  now rewrite (proj1 (proj2 (proj2 (upsert_progress_frame u cid now s)))).
Qed.

Lemma mark_race (u cid now1 now2 : nat) (s : store)
    (item : content_row) (items : list content_row)
    (e : enrollment_row) (es : list enrollment_row) :
  has_user s u ->
  select_content s cid = item :: items ->
  select_enrollment s u (c_module_id item) = e :: es ->
  select_progress s u cid = [] ->
  mark_interleave [0; 1; 0; 1; 0; 1; 0; 1]
    [mkMarkTask u cid now1 MarkStart; mkMarkTask u cid now2 MarkStart] (mkConn s [])
  = ([mkMarkTask u cid now1
        (MarkDone (reply 200 "Content marked as complete successfully."));
      mkMarkTask u cid now2 (MarkDone mark_error)],
     mkConn (upsert_progress u cid now1 s) []).
Proof.
  intros Hu Hitem Hen Hnone.
  assert (Hc : has_content s cid) by (unfold has_content; rewrite Hitem; discriminate).
  destruct (mark_advance_sound u cid now1 s Hu Hc) as (A1 & A2 & A3 & _).
  destruct (mark_advance_sound u cid now2 s Hu Hc) as (B1 & B2 & B3 & _).
  destruct (mark_advance_sound u cid now2 (upsert_progress u cid now1 s)
              (upsert_progress_keeps_user _ _ _ _ _ Hu)
              (upsert_progress_keeps_content _ _ _ _ _ Hc))
    as (_ & _ & _ & B4).
  destruct (A3 Hnone) as [A3a A3b]. destruct (B3 Hnone) as [B3a _].
  assert (Hdup : select_progress (upsert_progress u cid now1 s) u cid <> []).
  { unfold upsert_progress. rewrite Hnone.
    unfold select_progress in *. cbn [user_content_progress set_progress].
    rewrite filter_app, Hnone. cbn [app filter]. unfold progress_matches.
    cbn [p_user_id p_content_id]. rewrite !Nat.eqb_refl. discriminate. }
  cbn [mark_interleave mark_advance_nth k_user_id k_content_id k_now k_pc].
  rewrite (A1 _ _ Hitem). cbv beta iota.
  cbn [mark_advance_nth k_user_id k_content_id k_now k_pc].
  rewrite (B1 _ _ Hitem). cbv beta iota.
  cbn [mark_advance_nth k_user_id k_content_id k_now k_pc].
  rewrite (A2 _ _ _ Hen). cbv beta iota.
  cbn [mark_advance_nth k_user_id k_content_id k_now k_pc].
  rewrite (B2 _ _ _ Hen). cbv beta iota.
  cbn [mark_advance_nth k_user_id k_content_id k_now k_pc].
  rewrite A3a. cbv beta iota.
  cbn [mark_advance_nth k_user_id k_content_id k_now k_pc].
  rewrite B3a. cbv beta iota.
  cbn [mark_advance_nth k_user_id k_content_id k_now k_pc].
  rewrite A3b. cbv beta iota.
  cbn [mark_advance_nth k_user_id k_content_id k_now k_pc].
  rewrite (B4 Hdup). reflexivity.
Qed.

Lemma mark_advance_present (u cid now : nat) (s : store) :
  select_progress s u cid <> [] ->
  mark_advance u cid now MarkEnrolled (mkConn s []) = (MarkPresent, mkConn s []) /\
  mark_advance u cid now MarkPresent (mkConn s [])
  = (MarkDone (reply 200 "Content marked as complete successfully."),
     mkConn (upsert_progress u cid now s) []).
Proof.
  intros Hne.
  unfold mark_advance, mark_step, touch_progress, upsert_progress.
  unfold_handler. cbn [round_trip faults db].
  destruct (select_progress s u cid); [contradiction|]. split; reflexivity.
Qed.

Lemma select_progress_first_mark (u cid now : nat) (s : store) :
  select_progress s u cid = [] ->
  select_progress (upsert_progress u cid now s) u cid = [mkProgress u cid true now].
Proof.
  intros Hnone. unfold upsert_progress. rewrite Hnone.
  unfold select_progress in *. cbn [user_content_progress set_progress].
  rewrite filter_app, Hnone. cbn [app filter]. unfold progress_matches.
  cbn [p_user_id p_content_id]. now rewrite !Nat.eqb_refl.
Qed.

Lemma filter_refreshed (u cid now : nat) (l : list progress_row) :
  filter (progress_matches u cid)
    (map (fun p => if progress_matches u cid p then refresh now p else p) l)
  = map (refresh now) (filter (progress_matches u cid) l).
Proof.
  induction l as [|p l IH]; [reflexivity|]. cbn [map filter].
  destruct (progress_matches u cid p) eqn:E.
  - assert (E' : progress_matches u cid (refresh now p) = true) by exact E.
    rewrite E'. cbn [map]. now rewrite IH.
  - rewrite E. exact IH.
Qed.

(** X17.  Two completion requests of the same learner for the same item
    may interleave between their awaited statements.  When both look for
    the progress row of a stored account before either inserts it, the
    first insert is answered 200 and the second is rejected by the unique
    key and answered 500; run one after the other, both are answered 200
    and the second only refreshes the time.  In both cases the store holds
    exactly one progress row for the pair, and under every interleaving of
    any such requests, with any storage failures, the progress rows stay
    unique per (learner, item) and completed.  A request that runs its four
    steps alone is the handler. *)
Theorem concurrent_marks_keep_one_row
    (u cid now1 now2 : nat) (s : store)
    (item : content_row) (items : list content_row) :
  has_user s u ->
  select_content s cid = item :: items ->
  enrolled s u (c_module_id item) ->
  select_progress s u cid = [] ->
  let tasks := [mkMarkTask u cid now1 MarkStart; mkMarkTask u cid now2 MarkStart] in
  let done200 := MarkDone (reply 200 "Content marked as complete successfully.") in
  mark_interleave [0; 1; 0; 1; 0; 1; 0; 1] tasks (mkConn s [])
  = ([mkMarkTask u cid now1 done200; mkMarkTask u cid now2 (MarkDone mark_error)],
     mkConn (upsert_progress u cid now1 s) []) /\
  select_progress (upsert_progress u cid now1 s) u cid = [mkProgress u cid true now1] /\
  mark_interleave [0; 0; 0; 0; 1; 1; 1; 1] tasks (mkConn s [])
  = ([mkMarkTask u cid now1 done200; mkMarkTask u cid now2 done200],
     mkConn (upsert_progress u cid now2 (upsert_progress u cid now1 s)) []) /\
  select_progress (upsert_progress u cid now2 (upsert_progress u cid now1 s)) u cid
  = [mkProgress u cid true now2] /\
  (forall (schedule : list nat) (requests : list mark_task) (c : conn),
      progress_unique (db c) -> all_completed (db c) ->
      progress_unique (db (snd (mark_interleave schedule requests c))) /\
      all_completed (db (snd (mark_interleave schedule requests c)))) /\
  (forall (v : user) (now : nat) (c : conn),
      u_role v = Learner ->
      exists r c',
        mark_interleave [0; 0; 0; 0] [mkMarkTask (u_id v) cid now MarkStart] c
        = ([mkMarkTask (u_id v) cid now (MarkDone r)], c') /\
        mark_content_complete (Token v) cid now c = (Ok r, c')).
Proof.
  intros Hu Hitem Hen Hnone tasks done200. subst tasks done200.
  assert (Hc : has_content s cid) by (unfold has_content; rewrite Hitem; discriminate).
  unfold enrolled in Hen.
  destruct (select_enrollment s u (c_module_id item)) as [|e es] eqn:Hsel;
    [contradiction|].
  pose proof (select_progress_first_mark u cid now1 s Hnone) as Hrow.
  split; [exact (mark_race u cid now1 now2 s item items e es Hu Hitem Hsel Hnone)|].
  split; [exact Hrow|]. split; [|split; [|split]].
  - destruct (mark_advance_sound u cid now1 s Hu Hc) as (A1 & A2 & A3 & _).
    destruct (A3 Hnone) as [A3a A3b].
    set (s1 := upsert_progress u cid now1 s) in *.
    assert (Hitem1 : select_content s1 cid = item :: items).
    { unfold select_content, s1.
      now rewrite (proj1 (proj2 (proj2 (upsert_progress_frame _ _ _ _)))). }
    assert (Hsel1 : select_enrollment s1 u (c_module_id item) = e :: es).
    { unfold select_enrollment, s1.
      now rewrite (proj1 (proj2 (proj2 (proj2 (upsert_progress_frame _ _ _ _))))). }
    assert (Hsome : select_progress s1 u cid <> []) by (rewrite Hrow; discriminate).
    destruct (mark_advance_sound u cid now2 s1
                (upsert_progress_keeps_user _ _ _ _ _ Hu)
                (upsert_progress_keeps_content _ _ _ _ _ Hc)) as (B1 & B2 & _ & _).
    destruct (mark_advance_present u cid now2 s1 Hsome) as [B3 B4].
    cbn [mark_interleave mark_advance_nth k_user_id k_content_id k_now k_pc].
    rewrite (A1 _ _ Hitem). cbv beta iota.
    cbn [mark_advance_nth k_user_id k_content_id k_now k_pc].
    rewrite (A2 _ _ _ Hsel). cbv beta iota.
    cbn [mark_advance_nth k_user_id k_content_id k_now k_pc].
    rewrite A3a. cbv beta iota.
    cbn [mark_advance_nth k_user_id k_content_id k_now k_pc].
    rewrite A3b. cbv beta iota.
    cbn [mark_advance_nth k_user_id k_content_id k_now k_pc].
    rewrite (B1 _ _ Hitem1). cbv beta iota.
    cbn [mark_advance_nth k_user_id k_content_id k_now k_pc].
    rewrite (B2 _ _ _ Hsel1). cbv beta iota.
    cbn [mark_advance_nth k_user_id k_content_id k_now k_pc].
    rewrite B3. cbv beta iota.
    cbn [mark_advance_nth k_user_id k_content_id k_now k_pc].
    rewrite B4. reflexivity.
  - unfold upsert_progress at 1. rewrite Hrow.
    unfold select_progress at 1. cbn [user_content_progress set_progress].
    rewrite filter_refreshed.
    change (filter (progress_matches u cid)
              (user_content_progress (upsert_progress u cid now1 s)))
      with (select_progress (upsert_progress u cid now1 s) u cid).
    rewrite Hrow. reflexivity.
  - intros schedule requests c Huniq Hall.
    apply mark_interleave_keeps. now split.
  - intros v now c Hrole.
    pose proof (mark_is_four_steps v cid now c Hrole) as H.
    cbn [mark_interleave mark_advance_nth k_user_id k_content_id k_now k_pc].
    destruct (mark_advance (u_id v) cid now MarkStart c) as [pc1 c1].
    cbn [mark_advance_nth k_user_id k_content_id k_now k_pc].
    destruct (mark_advance (u_id v) cid now pc1 c1) as [pc2 c2].
    cbn [mark_advance_nth k_user_id k_content_id k_now k_pc].
    destruct (mark_advance (u_id v) cid now pc2 c2) as [pc3 c3].
    cbn [mark_advance_nth k_user_id k_content_id k_now k_pc].
    destruct (mark_advance (u_id v) cid now pc3 c3) as [pc4 c4].
    destruct H as (r & -> & Hr). exists r, c4. split; [reflexivity|exact Hr].
Qed.

Lemma concurrent_marks_keep_one_row_witness :
  mark_interleave [0; 1; 0; 1; 0; 1; 0; 1]
    [mkMarkTask 3 1 8 MarkStart; mkMarkTask 3 1 9 MarkStart] (mkConn dump [])
  = ([mkMarkTask 3 1 8 (MarkDone (reply 200 "Content marked as complete successfully."));
      mkMarkTask 3 1 9 (MarkDone mark_error)],
     mkConn (upsert_progress 3 1 8 dump) []).
Proof.
  refine (proj1 (concurrent_marks_keep_one_row 3 1 8 9 dump
                   (mkContent 1 2 "BIG DATA" "Videos" None
                      (Some "/uploads/1749514917708-VID-20241006-WA0004.mp4") None)
                   [] _ _ _ _)).
  - discriminate.
  - reflexivity.
  - unfold enrolled. cbn. discriminate.
  - reflexivity.
Defined.

